(* ===== verification/_CoqProject ===== *)
-Q . S2P
Prelude.v
Outcomes.v
Spacy.v
AspectSpan.v
Lexicon.v
ChunkReducer.v
ReducerRef.v
SentenceScanner.v
ScannerRef.v
ChunkMerger.v
Disambiguator.v
DisambiguatorLog.v
WhileLoop.v
ContextGrowth.v
Resolution.v
Settle.v
Reference.v
Occurrences.v
Extractor.v
Pipeline.v
Identity.v
Program.v
Failure.v
Aliasing.v
