(* ===== verification/Prelude.v ===== *)
(** * Verification of the SetFit aspect extractor

    The program is [src/src/setfit/span/aspect_extractor.py]: a rule-based
    extractor of "aspect" spans (the noun phrases a review talks about)
    from sentences that an external pipeline, spaCy, has tokenised, tagged
    and parsed.  This library is a shallow embedding of that file in Rocq,
    one file per part of the program, with the theorems that make each
    part correct.  Every definition that models code carries the name the
    code gives it and is executable, so each theorem is also run on a
    concrete sentence.

    ** The program and its parts

    [class Aspect] is a value object: a reduced slice (the aspect proper)
    and a context slice around it, both token ranges of one document, with
    a method [expand] that widens the context by one token.
    [class AspectExtractor] holds word lists, a constructor and two
    methods.  [__init__] stores a spaCy pipeline, given as an object or
    loaded by its name.
    [_reduce_noun_chunk] trims one candidate token range to its aspect.
    [__call__] runs, for every document of a batch, four stages in
    sequence: a scan of the tokens from right to left that collects
    aspects with the help of the reducer; a pass that merges chunks the
    parser split in the middle of a word; the substitution of placeholder
    aspects when nothing was found, or else the disambiguation of aspects
    that have the same text, which sets ordinals and expands contexts.

    ** Files, in dependency order

    - [Prelude] (this file): the fragment of Python the code uses.
      [result] is the outcome of a computation (a value, a raised
      exception, fuel exhausted), with its bind notation in [py_scope];
      [for_each] is the [for] loop over a list of indices; [py_index],
      [py_setitem], [py_del] and [py_slice] are list indexing with
      negative wrap-around and [IndexError]; [py_range] and
      [py_range_down] are [range]; [str_in] is [in] on a tuple,
      [str_contains] is [in] on a [str] and [str_endswith] is
      [str.endswith]; [substrings] lists the strings that [in] accepts
      ([str_contains_substrings]).  The loop rules [for_each_inv],
      [for_each_total], [for_range_inv], [for_range_total] and
      [for_range_down_inv] carry every loop proof of the library.  The
      tactic [res_inv] inverts a hypothesis [m = Ok v] through binds and
      tests.
    - [Outcomes]: how a computation relates to the value of a total
      reference.  [returns m v] is [m = Ok v]; [yields m v] is "[m]
      returns [v] or raises [IndexError]"; [safe m] is "[m] returns or
      raises [IndexError]".  Both relations are instances of the class
      [Outcome] (a value relates to itself, and [bind] composes), and
      [outcome_for_each] relates a loop to a left fold for any
      instance: the loops of merger, disambiguator and batch are proved
      once against the class, and used twice, inside the contract with
      [returns] and on every input with [yields].  The tactic
      [safe_tac] proves straight-line code safe.
    - [Spacy]: the token source as the extractor reads it.  [Token.t] has
      the six attributes the code reads, a document is a list of tokens,
      [span_text] and [slice_text] are the text of a span.  [wf_doc] is
      the contract the code relies on: the token at position [k] has
      [i = k] and a left edge in [[0, k]].  The pipeline [nlp.pipe] is
      the class [TokenSource]: a function from texts and disabled pipes
      to documents with two laws, one document per text and every
      document well formed.  The instance [blank_source], a whitespace
      tokeniser that tags nothing, discharges the laws; so does
      [tagger_source], which tags the words of a list as nouns unless
      the pipe "tagger" is disabled.
    - [AspectSpan], module [Aspect]: the state of [class Aspect] as a
      record and one definition per property and method ([__init__],
      [start], [stop], [context_start], [context_stop], [expand], [text],
      [context], [__str__], [__repr__], [__eq__]).  [expand] returns the
      new state of the object with its flag.  [Aspect.inv] is the
      data-model invariant: non-empty reduced slice inside the context
      slice inside the document, expansion counters within their caps.
      Theorems: [expand] keeps the invariant, never
      raises under it, widens by exactly one admissible token or changes
      nothing, and never touches the reduced slice.  [aspect_eq] is [==]
      on two aspects, an equivalence coarser than equality (instances
      [Equivalence], [Proper] for the context); equality, the invariant
      and [==] are decidable ([EqDecision], [Decision]).
    - [Lexicon]: the class attributes [NON_NOUN_ASPECTS],
      [CHUNK_EXCEPTIONS], [CHUNK_STOP_WORDS], [MOVIE_SYNONYMS],
      [POS_WHITELIST], [NOUN_SUBSTITUTE].  [POS_WHITELIST] is the string
      the source writes, and [in_POS_WHITELIST] the substring test Python
      performs on it.  Theorems: the test accepts exactly the ten
      substrings of "NOUN", the empty tag of an untagged token among
      them ([in_POS_WHITELIST_iff]); on spaCy's tags that is NOUN only.
    - [ChunkReducer]: the two loops of [_reduce_noun_chunk]
      ([find_full_start], [find_reduced_start]) and the method itself.
      [reduce_spec] is its declarative contract, by the rightmost token
      that is not quiet.  Theorems: on a range inside the document the
      method returns, and returns exactly what [reduce_spec] allows
      (soundness, completeness, uniqueness); the aspect returned satisfies
      the invariant; the chunk is rejected exactly when its last token
      cuts it; "this ... movie" is kept whole; after a cut the reduced
      slice holds quiet tokens only; the method raises [IndexError]
      exactly when the range ends beyond the document.
    - [ReducerRef]: the reducer in closed form.  [full_start_ref] is the
      first token of the range that starts a chunk, [reduced_start_ref]
      decides by the first loud token from the right, [reduce_ref] is
      the method without loops or exceptions.  Theorem: on every range
      of every document, negative indices included, the method returns
      [reduce_ref] or raises [IndexError], and inside the document it
      returns ([reduce_noun_chunk_closed]).
    - [SentenceScanner]: the first loop of [__call__], with state
      [scan_state] (the variables [min_pos] and [aspects]) and body
      [scan_step].  [scan_spec] is its declarative contract: the aspects
      are exactly the candidates of the tokens that no aspect covers.
      Theorems from the loop invariants [scan_inv] and [scan_cover]: the
      scan returns on a well-formed document; its aspects are valid,
      fresh, in left-to-right order without overlap; each comes from a
      noun subtree the reducer accepted or from a whitelisted token; the
      scan returns a list exactly when the list is the one solution of
      [scan_spec] in left-to-right order ([scan_result]), so no candidate
      is lost and none is added; the test [chunk != ''] rejects nothing
      inside the token contract ([accepted_inside_contract]).
    - [ScannerRef]: the scan by jumps.  After an aspect is found at token
      [k], the next token the loop does not skip is [jump k c], the one
      before the context of the aspect; [scan_jump] recurses on it
      (Equations, well founded because a jump goes left) and builds the
      list from left to right; [scan_ref] starts it at the last token.
      Theorems: on every document the loop returns [scan_ref] or raises
      [IndexError], and inside the token contract it returns
      ([scan_jumps]); the scan finds nothing exactly when no token
      yields a candidate ([scan_jump_nil]); an aspect whose context
      starts at a negative index, which the code accepts, is the first
      of the list ([scan_negative_context]).
    - [ChunkMerger]: the second loop of [__call__] ([merge_test], [join],
      [merge_step], [merge]), on the list updated in place.  [merge_spec]
      is the reference definition, a right fold.  The loop is related
      to the fold for any [Outcome]: it returns [merge_spec] on valid
      aspects ([merge_run]) and yields it on any list ([merge_yields]).
      Theorems: the loop
      computes [merge_spec] without error; the result has no pair left to
      merge, so the merger is idempotent; validity, order, the number of
      tokens covered and the concatenated text are kept.  [pieces] is a
      chunk cut at given token indices, as the parser may return it; the
      loop removes exactly the cuts that follow a token without
      whitespace ([glued]), so a chunk split inside a word comes back
      whole (round trip).
    - [Disambiguator]: the nested [for] loops and the [while] loop that
      end [__call__] ([same_text], [bump_ordinal], [same_context],
      [expand_at], [expand_until_distinct], [disambiguate_pair],
      [disambiguate_from], [disambiguate]).  Its state [dis_state] is the
      list of aspects and the log of warnings; [logging.warning] appends a
      [warning] record.  Theorems: termination without error; aspects are
      only widened (same reduced slice, larger context, list of the same
      length); each ordinal is the rank of its aspect among the aspects of
      the same text; the [while] loop ends with different contexts and no
      warning or with equal contexts and one warning.
    - [DisambiguatorLog]: the meaning of the log.  A warning is
      [justified] by a list of aspects when the aspect it names and a
      later one have the same text and the same context there and are both
      [stuck] (cannot expand).  Theorem: every warning of the log is
      justified by the list the disambiguator returns, for any fuel.  The
      converse fails, by example.
    - [WhileLoop]: the [while] loop as a transition system.  [loop_step]
      is an iteration after which the loop goes on, [loop_final] the
      exit by the condition or by [break], [loop_run] a run of [n] steps
      and an exit.  Theorems: [expand_until_distinct] returns a state
      with some fuel exactly when a run shorter than the fuel leads to
      it; more fuel changes no result, errors included; steps and exits
      are deterministic and exclude each other; every step uses one of
      the expansions counted by [loop_budget], so every run is finite
      with no assumption on the state; from valid aspects a run reaches
      an exit within the budget, and it is the only run.
    - [ContextGrowth]: how far a context grows.  Any preorder that
      [expand] and the assignment of an ordinal respect relates the input
      of the disambiguator to its output (section [Related]); [grown] is
      one: the counters count the tokens gained and no token gained is a
      comma or a semicolon.  Theorem: every context returned lies within 2
      tokens to the left and 3 to the right of the context given.
    - [Resolution]: the disambiguation property of the specification,
      where it holds.  [frame] says which aspects a piece of the loops
      leaves alone and which warnings it may add; [resolved] is the
      state of a pair after its [while] loop.  Theorem: when a reduced
      text occurs exactly twice ([only_twice]), the list returned has
      the first aspect with its ordinal, the second with that ordinal
      plus one, and either different context texts and no warning about
      the first, or equal ones and exactly one warning
      ([disambiguate_resolves_twice]).  With three occurrences the
      property fails, see below.
    - [Settle]: the [while] loop without fuel, indices or exceptions.
      [grow] is [expand] as a total function, [settle] the loop on the
      two objects it mutates, by well-founded recursion (Equations) on
      the expansions the two have left; [stops_at n] says that the loop
      is left in iteration [n].  Theorems: on valid aspects [expand]
      returns what [grow] computes; the loop of the code, with fuel
      above the larger of the two budgets, returns what [settle]
      computes; [settle] is [n] expansions of both aspects, [n] the
      first iteration in which the contexts differ or both are stuck;
      [tight_fuel = 6] iterations are enough for every pair and five
      are not.  The class [Expanding R good] says what the proofs about
      the loops need of an aspect: [expand] is related by [R] to
      [grow], and [grow] and the assignment of an ordinal keep [good],
      under which the budget is below [tight_fuel].  Its instances are
      valid aspects with [returns] and aspects whose counters are not
      negative ([counted]) with [yields].
    - [Reference]: the two [for] loops without indices that can raise.
      [resolve] is the body of the inner loop as a total function on the
      pair [(i, j)], [pairs n] the pairs [i < j < n] in the order of the
      loops, [disambiguate_ref] the left fold of [resolve] over them.
      The loops are proved against the fold once, for any instance of
      [Expanding].  Theorems: on valid aspects the code returns exactly
      [disambiguate_ref], and on counted aspects it returns it or raises
      [IndexError]; the log names first indices of pairs in the
      order of the loops, at most one warning a pair; [pairs] is
      strictly sorted in the lexicographic order, so every pair splits
      the loops into the pairs before, the pair, and the pairs after.
    - [Occurrences]: the disambiguation property for texts that occur
      any number of times.  [last_two l i j] says that [i < j] are the
      last two aspects of their text.  Theorem: the last two
      occurrences of every text are [resolved], because the pairs
      visited after [(i, j)] that touch [i] or [j] compare different
      texts ([disambiguate_resolves_last_two]); the proof runs on the
      reference.
    - [Extractor]: [AspectExtractor.__init__].  The constructor runs in
      the monad [stateful] over an [environment]: whether [import spacy]
      succeeds, the packages [spacy.load] finds, and whether
      [spacy.prefer_gpu] was called.  [model_arg] is the argument by the
      outcome of [isinstance(spacy_model, str)], [pipeline_of] the
      statement that branches on it.  [init_outcome] and
      [env_after] specify the result and the environment left.
      Theorems: the constructor computes them; it raises
      [ModuleNotFoundError] or [OSError], and only for a name; the GPU
      preference is set before the load and survives its failure.
    - [Pipeline]: the substitution branch
      ([placeholder], [substitute]), the body of the loop over documents
      ([extract_doc], [call_step]) and [__call__].
      The theorems on [__call__] are proved for any instance of
      [TokenSource].  [extract_spec] assembles the contracts of
      the stages ([scan_spec], [merge_spec], [widened], [ranked],
      [justified]) into the specification of the pipeline.  Theorems: the
      pipeline returns on every well-formed document and its result meets
      [extract_spec]; its aspects satisfy the invariant, in order, without
      overlap, have text, and their context text holds their reduced
      text; it returns the placeholders or ranked
      aspects; a call returns one aspect list per text, each computed from
      its own document and meeting [extract_spec], on the documents made
      with the pipes disabled at construction; an exception raised for
      one document leaves the loop and loses the batch
      ([call_loop_raise]); construction
      followed by a call returns; every aspect comes back without label
      and category, which are the consumers' to set
      ([extract_doc_unlabelled]); an empty batch gives empty lists.
      [extract_ref] is the result of a document by the references of
      the stages; the pipeline returns exactly it
      ([extract_doc_exact]).
    - [Identity]: what a consumer tells aspects apart by, the reduced
      text and the ordinal ([identity]).  [mentions t l] are the aspects
      of text [t]; a list is [numbered] when the mentions of every text
      carry the ordinals 0, 1, 2, ... in their order.  Theorem: outside
      the substitution branch the aspects of a document are numbered,
      so no two have the same identity ([extract_doc_identities]); two
      placeholders have the same.
    - [Program]: the extractor as a function.  [extract_fun] composes
      the references of the stages ([scan_ref], [merge_spec],
      [disambiguate_ref], [substitute]), [step_fun] is one iteration of
      the loop over the documents, [call_fun] the whole call.
      Theorems: on every document [extract_doc] returns [extract_fun]
      or raises [IndexError], and inside the token contract it returns
      ([extract_doc_function]); a call is [call_fun], for every token
      source and batch ([call_function]); a batch of any documents is
      the fold of [step_fun] unless [IndexError] is raised
      ([batch_function]).  [substitute_at] is the substitution branch
      by positions: on a well-formed document in which no token yields
      a candidate the pipeline returns one new single-token aspect for
      each position that holds the placeholder word, and logs nothing
      ([extract_doc_placeholders]).
    - [Failure]: when the extractor raises.  [dangling doc i] says that
      token [i] is a noun whose left edge lies more than the length of
      the document before its start, [visited] lists the tokens the
      scan does not skip, [raises] says that a visited token dangles.
      On every range that ends inside the document and starts at an
      index Python resolves, negative or not, the reducer returns
      ([reduce_inside]); the aspects of the scan end at a token and
      have a context [expand] can read around ([reachable], a third
      instance of [Expanding]), so the merger and the disambiguator
      raise on no document.  Theorem: on every document [extract_doc]
      raises [IndexError] if [raises] holds and returns [extract_fun]
      if not ([extract_doc_everywhere]); inside the token contract
      [raises] is false ([raises_wf]); a batch raises exactly when one
      of its documents does ([batch_exact]).
    - [Aliasing]: the default argument [spacy_disable_pipes = []] as the
      object it is.  A [heap] maps locations ([loc]) to lists of pipe
      names, and every operation takes the heap and returns it:
      [new_list] allocates, [def_init] is the [def] statement, which
      allocates the default once; [construct] binds the parameter to
      the default or to the object passed ([bound]) and stores that
      location in the instance, making no list; [call] reads the list
      when [__call__] runs; [list_append] is a client's [append].
      Theorems, each on a run that starts with the [def] statement:
      instances constructed without the argument hold one list, so a
      name appended through one is disabled in the calls of those made
      before and of those made after ([default_list_shared]); an
      instance constructed with a list of its own is not reached
      ([passed_list_private]).

    ** How state and effects are modelled

    Token positions, slice bounds, counters and ordinals are Python
    integers, modelled as [Z]; no machine width is involved.  A list
    mutated in place is threaded through the loop that mutates it, with
    the same reads and writes by index as the source, so an index that
    goes stale after [del] would show as a wrong element or as
    [IndexError].  The aspects of a list are distinct objects (each is
    built by its own constructor call and stored once), so mutating
    [aspects[i]] is writing the new state back at index [i]
    ([expand_at], [bump_ordinal]); no two list cells alias.  The only
    exception [__call__] can raise is [IndexError]
    ([extract_doc_function] proves it for every document), and the
    totality theorems show it is never raised on a well-formed
    document; outside the token contract it is raised, and aborts the
    batch, exactly when the scan visits a noun whose left edge cannot
    be resolved ([extract_doc_everywhere], [batch_exact]); any other
    index is read, from the end of the document when it is negative,
    and no exception is raised.  A document is a list, and
    [doc[i]] is Python's indexing of a list: spaCy's [Doc] is not in
    the source, so every statement about [IndexError] is one about
    this model of it.  The constructor reads and writes the world
    outside the program; that world is the record [environment], passed
    through the constructor by the monad [stateful], which returns the
    environment also when the computation raises.  What the three
    calls into spaCy do to it is assumed: [import spacy] raises
    [ModuleNotFoundError] or nothing, [spacy.load] raises [OSError] or
    returns a pipeline, [spacy.prefer_gpu] sets a flag.  The list of
    disabled pipes is the one object of the program that several owners
    share: [Aliasing] keeps it in a heap and the instances hold its
    location; the other files take its items, which is what [view]
    gives.

    ** Code models and references

    The reducer, the scanner, the merger, the [while] loop, the
    disambiguator and the whole call are each modelled twice.  The code
    model follows the source statement by statement, with its index
    reads, its exceptions and its loops ([_reduce_noun_chunk], [scan],
    [merge], [expand_until_distinct], [disambiguate], [extract_doc],
    [__call__]).  The reference is a total function that says what the
    code computes ([reduce_ref], [scan_ref], [merge_spec], [grow],
    [settle], [disambiguate_ref], [extract_fun], [call_fun]; [loop_step]
    and [loop_final] are the [while] loop as a relation).  A theorem
    ties each reference to its code model, and the properties of the
    code are proved through it.  Both are mapped to the lines they
    describe; the lines a reference is mapped to are lines its code
    model is mapped to.

    ** Fuel

    All [for] loops are structural recursion on the list of their range.
    The one [while] loop, [expand_until_distinct], takes fuel.  An
    iteration that does not leave the loop expands at least one of the two
    aspects, and an aspect can be expanded at most
    [MAX_EXPANSION_LEFT + MAX_EXPANSION_RIGHT = 5] times, so at most ten
    iterations continue and the eleventh leaves: [expand_fuel = 11] is
    the fuel the pipeline gives the loop.
    Theorem [expand_until_distinct_exit] proves termination with fuel
    above the expansions left ([Aspect.budget]), [disambiguate_total] and
    [extract_doc_total] that 11 is enough for every pair.  The bound is
    not the least one.  An aspect that cannot expand in one iteration
    cannot in any later one, so the iterations in which it expands come
    first, and the loop goes on for at most as many iterations as the
    larger budget: [tight_fuel = 6] is enough
    ([while_loop_settles], [disambiguate_reference]), and five
    iterations are not, on twelve times the same word
    ([tight_fuel_is_tight]).  The reference [settle] has no fuel: it
    recurses on the sum of the two budgets, which every iteration that
    goes on makes smaller.  [WhileLoop]
    removes the fuel from the account: [while_loop_steps] relates the
    fuelled function to runs of the step relation,
    [while_loop_fuel_irrelevant] shows that more fuel gives the same
    result, [while_loop_bounded] and [while_loop_terminates] that runs
    are finite and reach an exit.  The fuel is an artefact of the model
    on every input: the aspects that reach the disambiguator are new,
    so their counters are 0 whatever the document, and
    [extract_doc_function] shows that [extract_doc] never ends with
    [OutOfFuel].  [scan_jump], the other recursion that is not
    structural, recurses on the index of the token, which a jump makes
    smaller.

    ** What modelling showed

    - [POS_WHITELIST = ('NOUN')] is a string, so the noun test is a
      substring test: untagged tokens pass it
      ([in_POS_WHITELIST_iff], [call_blank_every_token]).
    - Two aspects of the same text can end with the same context and no
      warning: each pair is compared once, and an aspect widened later is
      not compared again ([disambiguate_equal_contexts_unlogged]).
    - The ordinal of a duplicate is its rank among the equal texts (0, 1,
      2, ...), not "the first occurrence plus one"
      ([disambiguate_ordinals], [disambiguate_plot_thrice]).
    - Placeholder aspects are never disambiguated: each has its text
      as its context and the ordinal 0
      ([extract_doc_placeholders], [extract_overall_twice]).
    - The return annotation of [__call__], [Tuple[List[Doc],
      List[Aspect]]], is not the type of the value returned, which holds
      one list of aspects per document, as the type of the model's
      [__call__] shows.
    - A document outside the token contract raises [IndexError] in the
      reducer when a noun the scan visits has a left edge that cannot
      be resolved, and the whole batch is lost
      ([extract_doc_everywhere], [batch_exact],
      [batch_aborts_dangling]); inside the contract no read leaves the
      document ([reduce_noun_chunk_raises], [raises_wf]).
    - The constructor asks for the GPU before it loads the package, so
      the preference is changed also when the load fails
      ([init_gpu_before_load]).
    - The default [[]] of [spacy_disable_pipes] is one list for all
      instances, and the constructor stores it without a copy: a pipe
      name appended to [disabled_pipes] of one instance is disabled in
      every instance constructed without the argument, those made later
      included ([default_list_shared], [default_list_disables_tagger]).
    - A left edge that is negative is not an error: it is read from the
      end of the document, the aspect is returned with a negative
      context start, and the scan ends there although the context does
      not hold the tokens before the noun
      ([scan_negative_context], [negative_left_edge_hides_aspects]).

    ** Not modelled

    - spaCy itself: tokenisation, tagging and parsing.  The code only
      calls it; the library assumes the contract [wf_doc] of its output
      and nothing about the tags or the parse.
    - What [spacy.load] and [spacy.prefer_gpu] do inside spaCy: reading a
      package from disk, allocating a device.  The constructor is
      modelled against an [environment] that says whether they succeed.
    - [None] for [spacy_disable_pipes], which the annotation allows:
      the code hands it to [nlp.pipe] unread, and what [disable=None]
      means is decided inside spaCy.
    - The consumers of the aspects, which set [label] and [categories]:
      they are not in this file of the source.  The two attributes are
      in the record, and the extractor is proved to leave them empty.
    - The type annotations of [__init__] and [__call__]: they are not
      executed, and the types of the model fix the shape of every
      value, so a theorem on them would restate the model.
    - [super().__init__()] of [object], which does nothing.
    - The text of the log message: a warning is the record of the three
      values the message is formatted from.
    - Generators: [nlp.pipe] yields documents lazily; the code consumes
      them with [list], so the model takes the list.

    ** Open ends

    Not yet proved: the ordinals when the input ordinals are not all 0
    and a text occurs more than twice (the pipeline always starts from
    0); when exactly a pair that is not the last of its text is logged
    (the log is proved sound in general, and exact for the two last
    occurrences of a text; [disambiguate_ref] computes it).
*)

From stdpp Require Import prelude strings list_numbers.

#[local] Open Scope Z_scope.

(** ** Outcomes of a Python computation *)

(** The exceptions the modelled code can raise. *)
Inductive exn : Set :=
| IndexError
| OSError
| ModuleNotFoundError.

(** A computation returns a value, raises, or (for the model of a [while]
    loop only) runs out of fuel. *)
Inductive result (A : Type) : Type :=
| Ok (a : A)
| Raise (e : exn)
| OutOfFuel.

Arguments Ok {A} a.
Arguments Raise {A} e.
Arguments OutOfFuel {A}.

Definition bind {A B : Type} (m : result A) (k : A -> result B) : result B :=
  match m with
  | Ok a => k a
  | Raise e => Raise e
  | OutOfFuel => OutOfFuel
  end.

Declare Scope py_scope.
Delimit Scope py_scope with py.

Notation "'let*' x ':=' m 'in' k" := (bind m (fun x => k))
  (at level 10, x pattern, m at level 200, k at level 200) : py_scope.

#[global] Open Scope py_scope.

(** [f] applied to what a computation returns. *)
#[export] Instance result_fmap : FMap result :=
  fun A B f m => bind m (fun a => Ok (f a)).

(** [a and b] where [b] is only evaluated when [a] holds. *)
Definition and_then (a : bool) (b : result bool) : result bool :=
  if a then b else Ok false.

(** [a or b] where [b] is only evaluated when [a] fails. *)
Definition or_else (a : bool) (b : result bool) : result bool :=
  if a then Ok true else b.

Definition is_ok {A : Type} (m : result A) : Prop :=
  exists a, m = Ok a.

(** ** Loops *)

(** [for x in xs: s = body(s, x)], stopping at the first exception. *)
Fixpoint for_each {S A : Type} (body : S -> A -> result S) (xs : list A) (s : S)
  : result S :=
  match xs with
  | [] => Ok s
  | x :: xs' => let* s' := body s x in for_each body xs' s'
  end.

(** ** Sequences *)

(** [len(l)] *)
Definition py_len {A : Type} (l : list A) : Z :=
  Z.of_nat (length l).

(** [l[i]]: a negative index counts from the end; out of range raises. *)
Definition py_index {A : Type} (l : list A) (i : Z) : result A :=
  let j := if i <? 0 then i + py_len l else i in
  if j <? 0 then Raise IndexError
  else match l !! Z.to_nat j with
       | Some x => Ok x
       | None => Raise IndexError
       end.

(** [l[i] = x] *)
Definition py_setitem {A : Type} (l : list A) (i : Z) (x : A) : result (list A) :=
  let j := if i <? 0 then i + py_len l else i in
  if (j <? 0) || (py_len l <=? j) then Raise IndexError
  else Ok (<[Z.to_nat j := x]> l).

(** [del l[i]] *)
Definition py_del {A : Type} (l : list A) (i : Z) : result (list A) :=
  let j := if i <? 0 then i + py_len l else i in
  if (j <? 0) || (py_len l <=? j) then Raise IndexError
  else Ok (delete (Z.to_nat j) l).

(** The bounds of [l[a:b]] after Python's normalisation. *)
Definition py_slice_bounds (n a b : Z) : Z * Z :=
  let a' := Z.min n (Z.max 0 (if a <? 0 then a + n else a)) in
  let b' := Z.min n (Z.max a' (if b <? 0 then b + n else b)) in
  (a', b').

(** [l[a:b]] *)
Definition py_slice {A : Type} (l : list A) (a b : Z) : list A :=
  let '(a', b') := py_slice_bounds (py_len l) a b in
  take (Z.to_nat (b' - a')) (drop (Z.to_nat a') l).

(** [range(a, b)] *)
Definition py_range (a b : Z) : list Z :=
  seqZ a (b - a).

(** [range(a, b, -1)] *)
Definition py_range_down (a b : Z) : list Z :=
  (fun k => a - k) <$> seqZ 0 (a - b).

(** ** Strings *)

(** [s in (t1, ..., tn)] on a tuple of strings. *)
Definition str_in (s : string) (ts : list string) : bool :=
  bool_decide (s ∈ ts).

(** [s in t] on strings: [s] occurs in [t] as a substring. *)
Fixpoint str_contains (s t : string) : bool :=
  String.prefix s t ||
  match t with
  | EmptyString => false
  | String _ t' => str_contains s t'
  end.

(** [s.endswith(t)] *)
Fixpoint str_endswith (s t : string) : bool :=
  String.eqb s t ||
  match s with
  | EmptyString => false
  | String _ s' => str_endswith s' t
  end.

(** The prefixes of [t], the empty one first. *)
Fixpoint prefixes (t : string) : list string :=
  EmptyString ::
  match t with
  | EmptyString => []
  | String c t' => String c <$> prefixes t'
  end.

(** The substrings of [t]: the prefixes of its suffixes. *)
Fixpoint substrings (t : string) : list string :=
  prefixes t ++
  match t with
  | EmptyString => []
  | String _ t' => substrings t'
  end.

(** ** Automation *)

Create HintDb py discriminated.
Create Rewrite HintDb py_rw.

(** Inversion of a monadic equation [_ = Ok _]. *)
Lemma bind_Ok_inv {A B : Type} (m : result A) (k : A -> result B) b :
  bind m k = Ok b -> exists a, m = Ok a /\ k a = Ok b.
Proof. destruct m; simpl; intros; try discriminate; eauto. Qed.

Ltac res_inv_step :=
  match goal with
  | H : Ok _ = Ok _ |- _ => injection H as H
  | H : Raise _ = Ok _ |- _ => discriminate H
  | H : OutOfFuel = Ok _ |- _ => discriminate H
  | H : Ok _ = Raise _ |- _ => discriminate H
  | H : Ok _ = OutOfFuel |- _ => discriminate H
  | H : bind _ _ = Ok _ |- _ =>
      let x := fresh "x" in
      let E := fresh "E" in
      apply bind_Ok_inv in H as (x & E & H)
  | H : and_then ?a _ = Ok _ |- _ =>
      let E := fresh "E" in destruct a eqn:E; unfold and_then in H
  | H : or_else ?a _ = Ok _ |- _ =>
      let E := fresh "E" in destruct a eqn:E; unfold or_else in H
  | H : (if ?b then _ else _) = Ok _ |- _ =>
      let E := fresh "E" in destruct b eqn:E
  | H : match ?o with Some _ => _ | None => _ end = Ok _ |- _ =>
      let E := fresh "E" in destruct o eqn:E
  end.

Ltac res_inv := repeat first [res_inv_step | progress simplify_eq].

(** ** Lemmas on outcomes and loops *)

Section Result.
Context {A B : Type}.
Implicit Types (m : result A) (k : A -> result B).

Lemma bind_Ok m k a :
  m = Ok a -> bind m k = k a.
Proof. by intros ->. Qed.

Lemma bind_is_ok m k (P : A -> Prop) :
  (exists a, m = Ok a /\ P a) ->
  (forall a, P a -> is_ok (k a)) ->
  is_ok (bind m k).
Proof. intros (a & -> & Ha) Hk. simpl. auto. Qed.

End Result.

Section ForEach.
Context {S A : Type}.
Implicit Types (body : S -> A -> result S) (xs : list A) (s : S).

Lemma for_each_app body xs ys s :
  for_each body (xs ++ ys) s =
  let* s' := for_each body xs s in for_each body ys s'.
Proof.
  revert s. induction xs as [|x xs IH]; intros s; simpl; [done|].
  destruct (body s x); simpl; auto.
Qed.

(** Partial-correctness rule: an invariant kept by every iteration that
    returns holds of the final state. *)
Lemma for_each_inv (P : S -> Prop) body xs s s' :
  P s ->
  (forall s1 x s2, x ∈ xs -> P s1 -> body s1 x = Ok s2 -> P s2) ->
  for_each body xs s = Ok s' ->
  P s'.
Proof.
  revert s. induction xs as [|x xs IH]; intros s Hs Hbody Hrun; simpl in Hrun.
  - by res_inv.
  - res_inv. eapply IH; [| |done].
    + eapply Hbody; [|done|done]. by left.
    + intros s1 y s2 Hy. apply Hbody. by right.
Qed.

(** Total-correctness rule: when every iteration returns and keeps the
    invariant, so does the loop. *)
Lemma for_each_total (P : S -> Prop) body xs s :
  P s ->
  (forall s1 x, x ∈ xs -> P s1 -> exists s2, body s1 x = Ok s2 /\ P s2) ->
  exists s', for_each body xs s = Ok s' /\ P s'.
Proof.
  revert s. induction xs as [|x xs IH]; intros s Hs Hbody; simpl.
  - eauto.
  - destruct (Hbody s x) as (s2 & -> & Hs2); [by left|done|]. simpl.
    apply IH; [done|]. intros s1 y Hy. apply Hbody. by right.
Qed.

(** A loop over the images of a list. *)
Lemma for_each_fmap {B : Type} (g : B -> A) body (ys : list B) s :
  for_each body (g <$> ys) s = for_each (fun s y => body s (g y)) ys s.
Proof.
  revert s. induction ys as [|y ys IH]; intros s; simpl; [done|].
  destruct (body s (g y)); simpl; auto.
Qed.

(** A loop whose body, on the states of [P], returns what the pure step
    [f] computes, is the left fold of [f]. *)
Lemma for_each_foldl (P : S -> Prop) body (f : S -> A -> S) xs s :
  P s ->
  (forall s1 x, x ∈ xs -> P s1 -> body s1 x = Ok (f s1 x) /\ P (f s1 x)) ->
  for_each body xs s = Ok (foldl f s xs) /\ P (foldl f s xs).
Proof.
  revert s. induction xs as [|x xs IH]; intros s Hs Hbody; simpl; [done|].
  destruct (Hbody s x) as [-> Hs']; [by left|done|]. simpl.
  apply IH; [done|]. intros s1 y Hy. apply Hbody. by right.
Qed.

End ForEach.

(** An invariant of the steps of a fold holds of its result. *)
Lemma foldl_inv {S A : Type} (P : S -> Prop) (f : S -> A -> S)
    (xs : list A) (s : S) :
  P s -> (forall s1 x, x ∈ xs -> P s1 -> P (f s1 x)) -> P (foldl f s xs).
Proof.
  revert s. induction xs as [|x xs IH]; intros s Hs Hf; [done|].
  cbn. apply IH; [apply Hf; [by left|done]|].
  intros s1 y Hy. apply Hf. by right.
Qed.

(** A fold over the lists that the elements of a list give is the fold of
    the folds. *)
Lemma foldl_bind {S A B : Type} (f : S -> B -> S) (g : A -> list B)
    (xs : list A) (s : S) :
  foldl f s (xs ≫= g) = foldl (fun s x => foldl f s (g x)) s xs.
Proof.
  revert s. induction xs as [|x xs IH]; intros s; [done|].
  by rewrite bind_cons, foldl_app, IH.
Qed.

(** ** Lemmas on sequences *)

Section Sequences.
Context {A : Type}.
Implicit Types (l : list A) (i : Z) (x : A).

Lemma py_len_nonneg l : 0 <= py_len l.
Proof. unfold py_len. lia. Qed.

Lemma py_len_cons x l : py_len (x :: l) = py_len l + 1.
Proof. unfold py_len. simpl. lia. Qed.

Lemma py_index_Ok l i x :
  py_index l i = Ok x ->
  (0 <= i < py_len l /\ l !! Z.to_nat i = Some x) \/
  (- py_len l <= i < 0 /\ l !! Z.to_nat (i + py_len l) = Some x).
Proof.
  unfold py_index. intros H.
  destruct (Z.ltb_spec i 0); res_inv;
    match goal with E : _ !! _ = Some _ |- _ =>
      pose proof (lookup_lt_Some _ _ _ E) end;
    unfold py_len in *; [right|left]; split; try done; lia.
Qed.

Lemma py_index_nonneg l i :
  0 <= i < py_len l ->
  exists x, py_index l i = Ok x /\ l !! Z.to_nat i = Some x.
Proof.
  intros Hi. unfold py_index.
  destruct (Z.ltb_spec i 0); [lia|].
  destruct (Z.ltb_spec i 0); [lia|].
  destruct (lookup_lt_is_Some_2 l (Z.to_nat i)) as [x Hx].
  { unfold py_len in Hi. lia. }
  rewrite Hx. eauto.
Qed.

Lemma py_index_lookup l i x :
  0 <= i -> l !! Z.to_nat i = Some x -> py_index l i = Ok x.
Proof.
  intros Hi Hx. unfold py_index.
  destruct (Z.ltb_spec i 0); [lia|].
  destruct (Z.ltb_spec i 0); [lia|]. by rewrite Hx.
Qed.

Lemma py_index_out_of_range l i :
  py_len l <= i -> py_index l i = Raise IndexError.
Proof.
  intros Hi. pose proof (py_len_nonneg l). unfold py_index.
  destruct (Z.ltb_spec i 0); [lia|].
  destruct (Z.ltb_spec i 0); [lia|].
  rewrite lookup_ge_None_2; [done|]. unfold py_len in Hi. lia.
Qed.

(** An index is resolved from the start of the list or, when negative,
    from its end; beyond either end the read raises. *)
Lemma py_index_before l i : i < - py_len l -> py_index l i = Raise IndexError.
Proof.
  intros Hi. pose proof (py_len_nonneg l). unfold py_index.
  destruct (Z.ltb_spec i 0); [|lia]. by destruct (Z.ltb_spec (i + py_len l) 0); [|lia].
Qed.

Lemma py_index_wraps l i : - py_len l <= i < py_len l -> is_ok (py_index l i).
Proof.
  intros Hi. unfold py_index, is_ok.
  set (j := if i <? 0 then i + py_len l else i).
  assert (0 <= j < py_len l) as Hj by (unfold j; destruct (Z.ltb_spec i 0); lia).
  destruct (Z.ltb_spec j 0); [lia|].
  destruct (lookup_lt_is_Some_2 l (Z.to_nat j)) as [x ->]; [|by exists x].
  unfold py_len in Hj. lia.
Qed.

Lemma py_setitem_nonneg l i x :
  0 <= i < py_len l -> py_setitem l i x = Ok (<[Z.to_nat i := x]> l).
Proof.
  intros Hi. unfold py_setitem.
  destruct (Z.ltb_spec i 0); [lia|].
  destruct (Z.ltb_spec i 0); [lia|].
  destruct (Z.leb_spec (py_len l) i); [lia|]. done.
Qed.

Lemma py_del_nonneg l i :
  0 <= i < py_len l -> py_del l i = Ok (delete (Z.to_nat i) l).
Proof.
  intros Hi. unfold py_del.
  destruct (Z.ltb_spec i 0); [lia|].
  destruct (Z.ltb_spec i 0); [lia|].
  destruct (Z.leb_spec (py_len l) i); [lia|]. done.
Qed.

(** Reads and writes at an index known to be in range, by position. *)
Lemma py_index_in_range l i x :
  0 <= i -> py_index l i = Ok x <-> l !! Z.to_nat i = Some x.
Proof.
  intros Hi. split.
  - intros [[_ ?]|[? _]]%py_index_Ok; [done|lia].
  - by apply py_index_lookup.
Qed.

Lemma py_setitem_in_range l i x l' :
  0 <= i -> py_setitem l i x = Ok l' ->
  i < py_len l /\ l' = <[Z.to_nat i := x]> l.
Proof.
  intros Hi. unfold py_setitem.
  destruct (Z.ltb_spec i 0); [lia|].
  destruct (Z.ltb_spec i 0); [lia|].
  destruct (Z.leb_spec (py_len l) i); simpl; [done|]. by intros [= <-].
Qed.

(** Reading, writing and deleting the element that follows a prefix. *)
Lemma py_len_app l1 l2 : py_len (l1 ++ l2) = py_len l1 + py_len l2.
Proof. unfold py_len. rewrite length_app. lia. Qed.

Lemma py_len_snoc l x : py_len (l ++ [x]) = py_len l + 1.
Proof. by rewrite py_len_app. Qed.

Lemma py_index_middle l1 x l2 : py_index (l1 ++ x :: l2) (py_len l1) = Ok x.
Proof.
  apply py_index_lookup; [apply py_len_nonneg|].
  unfold py_len. rewrite Nat2Z.id. by apply list_lookup_middle.
Qed.

Lemma py_setitem_middle l1 x l2 y :
  py_setitem (l1 ++ x :: l2) (py_len l1) y = Ok (l1 ++ y :: l2).
Proof.
  pose proof (py_len_nonneg l1). pose proof (py_len_nonneg l2).
  rewrite py_setitem_nonneg by (rewrite py_len_app, py_len_cons; lia).
  unfold py_len. rewrite Nat2Z.id. f_equal.
  by rewrite insert_app_r_alt, Nat.sub_diag by lia.
Qed.

Lemma py_del_middle l1 x l2 :
  py_del (l1 ++ x :: l2) (py_len l1) = Ok (l1 ++ l2).
Proof.
  pose proof (py_len_nonneg l1). pose proof (py_len_nonneg l2).
  rewrite py_del_nonneg by (rewrite py_len_app, py_len_cons; lia).
  unfold py_len. rewrite Nat2Z.id. f_equal. apply delete_middle.
Qed.

Lemma py_index_middle2 l1 x y l2 :
  py_index (l1 ++ x :: y :: l2) (py_len l1 + 1) = Ok y.
Proof.
  replace (py_len l1 + 1) with (py_len (l1 ++ [x])) by by rewrite py_len_app.
  rewrite (cons_middle x l1 (y :: l2)), app_assoc. apply py_index_middle.
Qed.

Lemma py_del_middle2 l1 x y l2 :
  py_del (l1 ++ x :: y :: l2) (py_len l1 + 1) = Ok (l1 ++ x :: l2).
Proof.
  replace (py_len l1 + 1) with (py_len (l1 ++ [x])) by by rewrite py_len_app.
  rewrite (cons_middle x l1 (y :: l2)), app_assoc, py_del_middle.
  by rewrite <- app_assoc.
Qed.

Lemma py_slice_bounds_in_range n a b :
  0 <= a <= b -> b <= n -> py_slice_bounds n a b = (a, b).
Proof.
  intros Ha Hb. unfold py_slice_bounds. cbv zeta.
  destruct (Z.ltb_spec a 0); [lia|].
  destruct (Z.ltb_spec b 0); [lia|].
  f_equal; lia.
Qed.

Lemma py_slice_in_range l a b :
  0 <= a <= b -> b <= py_len l ->
  py_slice l a b = take (Z.to_nat (b - a)) (drop (Z.to_nat a) l).
Proof.
  intros Ha Hb. unfold py_slice. by rewrite py_slice_bounds_in_range.
Qed.

Lemma py_slice_empty l a b :
  0 <= b <= a -> py_slice l a b = [].
Proof.
  intros Hab. unfold py_slice, py_slice_bounds. cbv zeta.
  destruct (Z.ltb_spec a 0); [lia|].
  destruct (Z.ltb_spec b 0); [lia|].
  replace (Z.to_nat _) with 0%nat by lia. done.
Qed.

(** Reads and writes at an index that is not negative, read backwards
    from their result. *)
Lemma py_index_Ok_nonneg l i x :
  0 <= i -> py_index l i = Ok x -> l !! Z.to_nat i = Some x.
Proof. intros Hi [[_ ?]|[? _]]%py_index_Ok; [done|lia]. Qed.

Lemma py_setitem_Ok_nonneg l i x l' :
  0 <= i -> py_setitem l i x = Ok l' -> l' = <[Z.to_nat i := x]> l.
Proof.
  unfold py_setitem. intros Hi. destruct (Z.ltb_spec i 0); [lia|].
  destruct (_ || _); [done|]. by intros [= <-].
Qed.

Lemma length_py_slice l a b :
  0 <= a <= b -> b <= py_len l -> length (py_slice l a b) = Z.to_nat (b - a).
Proof.
  intros Ha Hb. rewrite py_slice_in_range by done. unfold py_len in Hb.
  rewrite length_take, length_drop. lia.
Qed.

(** [l[a:b] = l[a:m] + l[m:b]] *)
Lemma py_slice_app l a m b :
  0 <= a <= m -> m <= b <= py_len l ->
  py_slice l a b = py_slice l a m ++ py_slice l m b.
Proof.
  intros Ha Hb. rewrite !py_slice_in_range by lia.
  replace (Z.to_nat m) with (Z.to_nat a + Z.to_nat (m - a))%nat by lia.
  rewrite <- drop_drop, take_take_drop. f_equal. lia.
Qed.

(** [l[a:b] = l[a:b-1] + [l[b-1]]] *)
Lemma py_slice_snoc l a b x :
  0 <= a < b -> py_index l (b - 1) = Ok x ->
  py_slice l a b = py_slice l a (b - 1) ++ [x].
Proof.
  intros Ha Hx. apply py_index_Ok in Hx as [[Hb Hx]|[? _]]; [|lia].
  rewrite (py_slice_app l a (b - 1) b) by lia. f_equal.
  rewrite py_slice_in_range by lia.
  rewrite (drop_S _ _ _ Hx). by replace (Z.to_nat (b - (b - 1))) with 1%nat by lia.
Qed.

End Sequences.

Section Ranges.
Implicit Types (a b i : Z).

Lemma py_range_nil a b : b <= a -> py_range a b = [].
Proof. intros. unfold py_range. apply seqZ_nil. lia. Qed.

Lemma py_range_cons a b : a < b -> py_range a b = a :: py_range (a + 1) b.
Proof.
  intros. unfold py_range. rewrite seqZ_cons by lia.
  do 2 f_equal; lia.
Qed.

Lemma elem_of_py_range a b i : i ∈ py_range a b <-> a <= i < b.
Proof. unfold py_range. rewrite elem_of_seqZ. lia. Qed.

Lemma py_range_down_nil a b : a <= b -> py_range_down a b = [].
Proof. intros. unfold py_range_down. by rewrite seqZ_nil by lia. Qed.

Lemma py_range_down_cons a b :
  b < a -> py_range_down a b = a :: py_range_down (a - 1) b.
Proof.
  intros. unfold py_range_down. rewrite seqZ_cons by lia.
  rewrite fmap_cons. f_equal; [lia|].
  replace (Z.pred (a - b)) with (a - 1 - b) by lia.
  rewrite <- (fmap_add_seqZ 1 0), <- list_fmap_compose.
  apply list_fmap_ext. intros _ k _. simpl. lia.
Qed.

Lemma elem_of_py_range_down a b i : i ∈ py_range_down a b <-> b < i <= a.
Proof.
  unfold py_range_down. rewrite list_elem_of_fmap. split.
  - intros (k & -> & Hk). apply elem_of_seqZ in Hk. lia.
  - intros Hi. exists (a - i). split; [lia|]. apply elem_of_seqZ. lia.
Qed.

(** Extending a property of an interval of indices by one index. *)
Lemma forall_range_add_l (P : Z -> Prop) a b :
  P a -> (forall k, a + 1 <= k < b -> P k) -> forall k, a <= k < b -> P k.
Proof.
  intros Ha Hr k Hk. destruct (decide (k = a)) as [->|]; [done|].
  apply Hr. lia.
Qed.

Lemma forall_range_add_r (P : Z -> Prop) a b :
  P a -> (forall k, a < k < b -> P k) -> forall k, a - 1 < k < b -> P k.
Proof.
  intros Ha Hr k Hk. destruct (decide (k = a)) as [->|]; [done|].
  apply Hr. lia.
Qed.

(** [range] from a natural number, as a list of natural numbers. *)
Lemma py_range_seq (n : nat) b :
  py_range (Z.of_nat n) b = Z.of_nat <$> seq n (Z.to_nat (b - Z.of_nat n)).
Proof.
  unfold py_range, seqZ.
  replace (seq n) with (seq (n + 0)) by (f_equal; lia).
  rewrite <- (fmap_add_seq n 0), <- list_fmap_compose.
  apply list_fmap_ext. intros _ k _. simpl. lia.
Qed.

Lemma length_py_range_down a b :
  length (py_range_down a b) = Z.to_nat (a - b).
Proof. unfold py_range_down. by rewrite length_fmap, length_seqZ. Qed.

End Ranges.

(** ** Proof rules for [for k in range(a, b)] *)

Section ForRange.
Context {S : Type}.
Implicit Types (body : S -> Z -> result S) (P : Z -> S -> Prop).

(** Partial correctness: [P k] holds before iteration [k], [P b] after the
    loop. *)
Lemma for_range_inv P body a b s s' :
  a <= b -> P a s ->
  (forall k s1 s2, a <= k < b -> P k s1 -> body s1 k = Ok s2 -> P (k + 1) s2) ->
  for_each body (py_range a b) s = Ok s' ->
  P b s'.
Proof.
  intros Hab. remember (Z.to_nat (b - a)) as n eqn:Hn.
  revert a s Hab Hn. induction n as [|n IH]; intros a s Hab Hn Hs Hbody Hrun.
  - rewrite py_range_nil in Hrun by lia. assert (a = b) as -> by lia.
    cbn in Hrun. by res_inv.
  - rewrite py_range_cons in Hrun by lia. cbn [for_each] in Hrun.
    apply bind_Ok_inv in Hrun as (s1 & Hstep & Hrun).
    apply (IH (a + 1) s1); [lia..| | |done].
    + eapply Hbody; [|done..]. lia.
    + intros k s2 s3 Hk. apply Hbody. lia.
Qed.

(** Total correctness: every iteration returns, and so does the loop. *)
Lemma for_range_total P body a b s :
  a <= b -> P a s ->
  (forall k s1, a <= k < b -> P k s1 ->
     exists s2, body s1 k = Ok s2 /\ P (k + 1) s2) ->
  exists s', for_each body (py_range a b) s = Ok s' /\ P b s'.
Proof.
  intros Hab. remember (Z.to_nat (b - a)) as n eqn:Hn.
  revert a s Hab Hn. induction n as [|n IH]; intros a s Hab Hn Hs Hbody.
  - rewrite py_range_nil by lia. assert (a = b) as -> by lia. eauto.
  - rewrite py_range_cons by lia. cbn [for_each].
    destruct (Hbody a s) as (s1 & -> & Hs1); [lia|done|]. cbn [bind].
    apply (IH (a + 1) s1); [lia..|done|].
    intros k s2 Hk. apply Hbody. lia.
Qed.

(** The same for [range(a, b, -1)]: [P k] holds before iteration [k], on
    the way down, and [P b] after the loop. *)
Lemma for_range_down_inv P body a b s s' :
  b <= a -> P a s ->
  (forall k s1 s2, b < k <= a -> P k s1 -> body s1 k = Ok s2 -> P (k - 1) s2) ->
  for_each body (py_range_down a b) s = Ok s' ->
  P b s'.
Proof.
  intros Hab. remember (Z.to_nat (a - b)) as n eqn:Hn.
  revert a s Hab Hn. induction n as [|n IH]; intros a s Hab Hn Hs Hbody Hrun.
  - rewrite py_range_down_nil in Hrun by lia. assert (a = b) as -> by lia.
    cbn in Hrun. by res_inv.
  - rewrite py_range_down_cons in Hrun by lia. cbn [for_each] in Hrun.
    apply bind_Ok_inv in Hrun as (s1 & Hstep & Hrun).
    apply (IH (a - 1) s1); [lia..| | |done].
    + eapply Hbody; [|done..]. lia.
    + intros k s2 s3 Hk. apply Hbody. lia.
Qed.

End ForRange.

Section Strings.
Implicit Types (s t : string) (ts : list string).

Lemma str_in_true s ts : str_in s ts = true <-> s ∈ ts.
Proof. unfold str_in. apply bool_decide_eq_true. Qed.

Lemma str_in_false s ts : str_in s ts = false <-> s ∉ ts.
Proof. unfold str_in. apply bool_decide_eq_false. Qed.

Lemma prefix_empty t : String.prefix EmptyString t = true.
Proof. by destruct t. Qed.

Lemma str_contains_empty t : str_contains EmptyString t = true.
Proof. destruct t; simpl; by rewrite ?prefix_empty. Qed.

Lemma prefix_refl s : String.prefix s s = true.
Proof.
  induction s as [|c s IH]; simpl; [done|].
  by destruct (Ascii.ascii_dec c c).
Qed.

Lemma str_contains_refl s : str_contains s s = true.
Proof. destruct s; [done|]. cbn [str_contains]. by rewrite prefix_refl. Qed.

Lemma prefix_app s t : String.prefix s (s +:+ t) = true.
Proof.
  induction s as [|c s IH]; [apply prefix_empty|].
  change (String c s +:+ t) with (String c (s +:+ t)). cbn [String.prefix].
  by destruct (Ascii.ascii_dec c c).
Qed.

(** A string contains what stands between a prefix and a suffix of it. *)
Lemma str_contains_infix s pre post :
  str_contains s (pre +:+ s +:+ post) = true.
Proof.
  induction pre as [|c pre IH].
  - change (EmptyString +:+ s +:+ post) with (s +:+ post).
    destruct (s +:+ post) eqn:E; cbn [str_contains]; rewrite <- E;
      by rewrite prefix_app.
  - change (String c pre +:+ s +:+ post) with (String c (pre +:+ s +:+ post)).
    cbn [str_contains]. rewrite IH. apply orb_true_r.
Qed.

(** [String.prefix] and [str_contains] decide membership in the lists of
    prefixes and of substrings. *)
Lemma prefix_prefixes s t : String.prefix s t = true <-> s ∈ prefixes t.
Proof.
  revert s. induction t as [|c t IH]; intros [|d s];
    cbn [String.prefix prefixes]; rewrite elem_of_cons;
    [by split; [left|]|by split; [|intros [?|?%elem_of_nil]]|by split; [left|]|].
  rewrite list_elem_of_fmap. destruct (Ascii.ascii_dec d c) as [->|Hne].
  - rewrite IH. split; [by right; exists s|by intros [|(y & [= ->] & ?)]].
  - split; [done|]. by intros [|(y & [= -> _] & _)].
Qed.

Lemma str_contains_substrings s t : str_contains s t = true <-> s ∈ substrings t.
Proof.
  induction t as [|c t IH]; cbn [str_contains substrings];
    rewrite orb_true_iff, elem_of_app, prefix_prefixes; [|by rewrite IH].
  rewrite elem_of_nil. intuition discriminate.
Qed.

(** [s.endswith(t)] holds exactly when [t] is a suffix of [s]. *)
Lemma str_endswith_true s t :
  str_endswith s t = true <-> exists p, s = p +:+ t.
Proof.
  split.
  - induction s as [|c s IH]; cbn [str_endswith];
      intros [->%String.eqb_eq|H]%orb_true_iff; try done;
      try by exists EmptyString.
    destruct (IH H) as [p ->]. by exists (String c p).
  - intros [p ->]. induction p as [|c p IH].
    + change (EmptyString +:+ t) with t.
      destruct t; cbn [str_endswith]; by rewrite String.eqb_refl.
    + change (String c p +:+ t) with (String c (p +:+ t)).
      cbn [str_endswith]. rewrite IH. apply orb_true_r.
Qed.

Lemma str_app_cons c s t : String c s +:+ t = String c (s +:+ t).
Proof. reflexivity. Qed.

Lemma str_app_nil_r s : s +:+ EmptyString = s.
Proof. induction s as [|c s IH]; [done|]. by rewrite str_app_cons, IH. Qed.

Lemma str_app_assoc s t u : (s +:+ t) +:+ u = s +:+ (t +:+ u).
Proof. induction s as [|c s IH]; [done|]. by rewrite !str_app_cons, IH. Qed.

End Strings.

#[export] Instance str_app_assoc' : Assoc (=) String.append.
Proof. intros s t u. symmetry. apply str_app_assoc. Qed.

#[export] Instance str_app_right_id : RightId (=) EmptyString String.append.
Proof. intros s. apply str_app_nil_r. Qed.

#[export] Instance str_app_left_id : LeftId (=) EmptyString String.append.
Proof. by intros s. Qed.

#[export] Hint Resolve py_len_nonneg : py.
#[export] Hint Rewrite @py_len_cons : py_rw.

(** A relation between two lists, with a property of the elements of the
    first. *)
Lemma Forall2_and_l {A B : Type} (P : A -> B -> Prop) (Q : A -> Prop) l k :
  Forall2 P l k -> Forall Q l -> Forall2 (fun x y => P x y /\ Q x) l k.
Proof.
  induction 1 as [|x y l k Hxy _ IH]; [constructor|].
  intros [Hx Hl]%Forall_cons. constructor; auto.
Qed.
