(* ===== verification/Outcomes.v ===== *)
(** * How a computation relates to the value a reference computes

    The models of the code live in [result]: they return, raise, or run
    out of fuel.  The references are total functions.  Two relations tie
    them together.  [returns m v] says that [m] returns [v]; it holds of
    the code on input inside the contract of the component.  [yields m v]
    says that [m] returns [v] unless an index is out of range; it holds
    of the code on every input.  Both are instances of the class
    [Outcome], whose two laws are all that a proof about sequential code
    needs, so a component proves its loops once, for both.  [safe m] says
    that [m] neither raises anything but [IndexError] nor runs out of
    fuel. *)

From stdpp Require Import prelude list_numbers.
From S2P Require Import Prelude.

#[local] Open Scope Z_scope.

(** [m] returns [v]. *)
Definition returns (A : Type) (m : result A) (v : A) : Prop :=
  m = Ok v.

(** [m] returns [v], or raises [IndexError]. *)
Definition yields (A : Type) (m : result A) (v : A) : Prop :=
  m = Ok v \/ m = Raise IndexError.

(** [m] returns, or raises [IndexError]. *)
Definition safe {A : Type} (m : result A) : Prop :=
  match m with
  | Ok _ => True
  | Raise e => e = IndexError
  | OutOfFuel => False
  end.

(** A relation between computations and values that sequential code
    respects. *)
Class Outcome (R : forall A : Type, result A -> A -> Prop) : Prop := {
  outcome_ret (A : Type) (v : A) : R A (Ok v) v;
  outcome_bind (A B : Type) (m : result A) (k : A -> result B) a b :
    R A m a -> R B (k a) b -> R B (bind m k) b;
}.

Arguments returns {A} m v.
Arguments yields {A} m v.
Arguments outcome_ret {R _ A} v.
Arguments outcome_bind {R _ A B} m k a b.

Create HintDb safe discriminated.

(** ** The two relations *)

#[export] Instance returns_outcome : Outcome (@returns).
Proof.
  split; [done|]. unfold returns. by intros A B m k a b ->.
Qed.

#[export] Instance yields_outcome : Outcome (@yields).
Proof.
  split; [by left|]. unfold yields.
  intros A B m k a b [->| ->] Hk; [done|by right].
Qed.

Section Relations.
Context {A : Type}.
Implicit Types (m : result A) (v : A).

Lemma returns_yields m v : returns m v -> yields m v.
Proof. by left. Qed.

Lemma yields_safe m v : yields m v -> safe m.
Proof. by intros [->| ->]. Qed.

(** A safe computation yields the one value it can return. *)
Lemma yields_intro m v : safe m -> (forall x, m = Ok x -> x = v) -> yields m v.
Proof.
  destruct m as [x|e|]; cbn; [|by intros ->; right|done].
  intros _ Hx. left. by rewrite (Hx x).
Qed.

(** What [yields] leaves open is decided by whether the computation
    returns. *)
Lemma yields_returns m v x : yields m v -> m = Ok x -> x = v.
Proof. intros [->| ->]; congruence. Qed.

End Relations.

(** ** Sequential code *)

Section Sequential.
Context (R : forall A : Type, result A -> A -> Prop) `{!Outcome R}.
Context {S A : Type}.
Implicit Types (body : S -> A -> result S) (f : S -> A -> S) (xs : list A).

Lemma outcome_Ok {B : Type} (m : result B) v : m = Ok v -> R B m v.
Proof. intros ->. apply outcome_ret. Qed.

(** A loop whose body is related to a step function is related to the
    left fold of the function, under an invariant of the function. *)
Lemma outcome_for_each (P : S -> Prop) body f xs s :
  P s ->
  (forall s1 x, x ∈ xs -> P s1 -> R S (body s1 x) (f s1 x) /\ P (f s1 x)) ->
  R S (for_each body xs s) (foldl f s xs) /\ P (foldl f s xs).
Proof.
  revert s. induction xs as [|x xs IH]; intros s Hs Hbody; cbn [for_each foldl].
  - split; [apply outcome_ret|done].
  - destruct (Hbody s x) as [Hx Hs']; [by left|done|].
    destruct (IH (f s x)) as [Hrun Hend]; [done| |].
    { intros s1 y Hy. apply Hbody. by right. }
    split; [|done]. by apply (outcome_bind _ _ (f s x)).
Qed.

End Sequential.

(** ** Safety *)

Lemma safe_bind {A B : Type} (m : result A) (k : A -> result B) :
  safe m -> (forall a, m = Ok a -> safe (k a)) -> safe (bind m k).
Proof. destruct m; cbn; auto. Qed.

Section Safety.
Context {A : Type}.
Implicit Types (l : list A) (i : Z).

Lemma safe_Ok (v : A) : safe (Ok v).
Proof. done. Qed.

Lemma safe_IndexError : safe (@Raise A IndexError).
Proof. done. Qed.

Lemma safe_py_index l i : safe (py_index l i).
Proof. unfold py_index. by repeat case_match. Qed.

Lemma safe_py_setitem l i (x : A) : safe (py_setitem l i x).
Proof. unfold py_setitem. by repeat case_match. Qed.

Lemma safe_py_del l i : safe (py_del l i).
Proof. unfold py_del. by repeat case_match. Qed.

Lemma safe_for_each {S : Type} (body : S -> A -> result S) l (s : S) :
  (forall s1 x, x ∈ l -> safe (body s1 x)) -> safe (for_each body l s).
Proof.
  revert s. induction l as [|x l IH]; intros s Hbody; cbn [for_each]; [done|].
  apply safe_bind; [apply Hbody; by left|].
  intros s1 _. apply IH. intros s2 y Hy. apply Hbody. by right.
Qed.

End Safety.

Lemma safe_and_then (a : bool) (b : result bool) :
  (a = true -> safe b) -> safe (and_then a b).
Proof. destruct a; cbn; auto. Qed.

#[export] Hint Resolve safe_Ok safe_IndexError safe_py_index safe_py_setitem
  safe_py_del : safe.

(** Proves that straight-line code is safe: every bind from its two
    sides, every test by cases. *)
Ltac safe_tac :=
  repeat first
    [ progress auto with safe
    | apply safe_bind; [|intros ? ?]
    | apply safe_and_then; intros ?
    | case_match ].
