(* ===== verification/Spacy.v ===== *)
(** * The token source: spaCy's [Token], [Doc] and [Span] as the extractor
    reads them

    The extractor never builds tokens; it reads six attributes of a token
    ([text], [lower_], [pos_], [whitespace_], [i], [left_edge.i]), indexes
    and slices a [Doc], and reads the [text] of a slice.  This file models
    that interface and states the contract the extractor relies on
    ([wf_doc]).  [TokenSource] is what the extractor asks of a pipeline,
    and a blank pipeline that splits at white space is shown to provide
    it. *)

From stdpp Require Import prelude strings list_numbers.
From S2P Require Import Prelude.

#[local] Open Scope Z_scope.

Module Token.

(** An annotated token.  [left_edge] is the index [left_edge.i] of the
    leftmost token of the syntactic subtree the token heads. *)
Record t : Type := mk {
  text : string;
  lower_ : string;
  pos_ : string;
  whitespace_ : string;
  i : Z;
  left_edge : Z;
}.

(** [token.text_with_ws] *)
Definition text_with_ws (tok : t) : string :=
  text tok +:+ whitespace_ tok.

End Token.

(** A [Doc] is the sequence of its tokens. *)
Abbreviation Doc := (list Token.t).

(** [doc.text]: the tokens with their trailing whitespace. *)
Fixpoint doc_text (doc : Doc) : string :=
  match doc with
  | [] => EmptyString
  | tok :: rest => Token.text_with_ws tok +:+ doc_text rest
  end.

(** The text of a span: as [doc_text], without the trailing whitespace of
    the last token. *)
Fixpoint span_text (toks : Doc) : string :=
  match toks with
  | [] => EmptyString
  | [tok] => Token.text tok
  | tok :: rest => Token.text_with_ws tok +:+ span_text rest
  end.

(** [doc[a:b].text] *)
Definition slice_text (doc : Doc) (a b : Z) : string :=
  span_text (py_slice doc a b).

(** ** The contract of the token source *)

(** Token [k] of a document knows its position, and its left edge is a
    position at or before it. *)
Definition wf_token (k : Z) (tok : Token.t) : Prop :=
  Token.i tok = k /\ 0 <= Token.left_edge tok <= k.

Definition wf_tokenb (k : Z) (tok : Token.t) : bool :=
  (Token.i tok =? k) && (0 <=? Token.left_edge tok) && (Token.left_edge tok <=? k).

Definition wf_doc (doc : Doc) : Prop :=
  forall (k : nat) tok, doc !! k = Some tok -> wf_token (Z.of_nat k) tok.

Fixpoint wf_doc_from (k : Z) (doc : Doc) : bool :=
  match doc with
  | [] => true
  | tok :: rest => wf_tokenb k tok && wf_doc_from (k + 1) rest
  end.

Definition wf_docb (doc : Doc) : bool :=
  wf_doc_from 0 doc.

(** [P] holds of the token [doc[k]]; false when the read raises. *)
Definition token_has (P : Token.t -> bool) (doc : Doc) (k : Z) : bool :=
  match py_index doc k with
  | Ok t => P t
  | _ => false
  end.

(** ** The pipeline *)

(** What [nlp.pipe(texts, disable=...)] promises: one document per text,
    each honouring the token contract. *)
Class TokenSource : Type := {
  nlp_pipe : list string -> list string -> list Doc;
  nlp_pipe_length texts disable :
    length (nlp_pipe texts disable) = length texts;
  nlp_pipe_wf texts disable :
    Forall wf_doc (nlp_pipe texts disable);
}.

(** ** A blank pipeline *)

(** A token source that only tokenises at white space: no tagger and no
    parser run, so every tag is empty and every token is its own left
    edge. *)
Definition lower_ascii (c : Ascii.ascii) : Ascii.ascii :=
  let n := Ascii.N_of_ascii c in
  if ((65 <=? n) && (n <=? 90))%N then Ascii.ascii_of_N (n + 32) else c.

Fixpoint lower (s : string) : string :=
  match s with
  | EmptyString => EmptyString
  | String c s' => String (lower_ascii c) (lower s')
  end.

Fixpoint blank_tokens (k : Z) (words : list string) : Doc :=
  match words with
  | [] => []
  | w :: rest =>
      Token.mk w (lower w) EmptyString
        (match rest with [] => EmptyString | _ => " " end) k k
      :: blank_tokens (k + 1) rest
  end.

Definition blank_doc (text : string) : Doc :=
  blank_tokens 0 (String.words text).

(** ** A pipeline with a tagger *)

(** [token.pos_ = ...] by a tagger that knows the nouns of [nouns] and
    tags every other word as a verb. *)
Definition tagged (nouns : list string) (t : Token.t) : Token.t :=
  Token.mk (Token.text t) (Token.lower_ t)
    (if bool_decide (Token.lower_ t ∈ nouns) then "NOUN" else "VERB")
    (Token.whitespace_ t) (Token.i t) (Token.left_edge t).

(** The documents of a pipeline that tokenises at white space and then
    tags, unless the pipe "tagger" is disabled. *)
Definition tagger_pipe (nouns : list string) (texts disable : list string)
  : list Doc :=
  if bool_decide ("tagger" ∈ disable) then blank_doc <$> texts
  else (fun text => tagged nouns <$> blank_doc text) <$> texts.

(** ** Building documents for the worked examples *)

(** A token whose lowercase form is its text. *)
Definition tok (text pos ws : string) (left_edge : Z) (i : Z) : Token.t :=
  Token.mk text text pos ws i left_edge.

Fixpoint number_from (k : Z) (l : list (Z -> Token.t)) : Doc :=
  match l with
  | [] => []
  | f :: rest => f k :: number_from (k + 1) rest
  end.

(** The document of the given tokens, numbered from 0. *)
Definition mk_doc (l : list (Z -> Token.t)) : Doc :=
  number_from 0 l.

(** ** Lemmas *)

Section SpacyLemmas.
Implicit Types (doc : Doc) (tok : Token.t) (k : Z).

Lemma wf_tokenb_spec k tok : wf_tokenb k tok = true <-> wf_token k tok.
Proof. unfold wf_tokenb, wf_token. lia. Qed.

Lemma wf_doc_from_spec k doc :
  wf_doc_from k doc = true <->
  forall (n : nat) tok, doc !! n = Some tok -> wf_token (k + Z.of_nat n) tok.
Proof.
  revert k. induction doc as [|t0 doc IH]; intros k; simpl.
  - split; [intros _ n tok Hn; by destruct n | done].
  - rewrite andb_true_iff, wf_tokenb_spec, IH. split.
    + intros [H0 Hr] [|n] tok Hn; simpl in Hn.
      * injection Hn as <-. by rewrite Z.add_0_r.
      * replace (k + Z.of_nat (S n)) with (k + 1 + Z.of_nat n) by lia. eauto.
    + intros H. split.
      * specialize (H 0%nat t0 eq_refl). by rewrite Z.add_0_r in H.
      * intros n tok Hn. specialize (H (S n) tok Hn).
        by replace (k + 1 + Z.of_nat n) with (k + Z.of_nat (S n)) by lia.
Qed.

Lemma wf_docb_spec doc : wf_docb doc = true <-> wf_doc doc.
Proof. unfold wf_docb, wf_doc. by rewrite wf_doc_from_spec. Qed.

(** Reading a token of a well-formed document at a valid index. *)
Lemma wf_doc_index doc k tok :
  wf_doc doc -> 0 <= k -> py_index doc k = Ok tok -> wf_token k tok.
Proof.
  intros Hwf Hk Hget. apply py_index_Ok in Hget as [[_ Hl]|[? _]]; [|lia].
  apply Hwf in Hl. by rewrite Z2Nat.id in Hl.
Qed.

Lemma token_has_Ok P doc k tok :
  py_index doc k = Ok tok -> token_has P doc k = P tok.
Proof. unfold token_has. by intros ->. Qed.

(** *** The text of a span *)

Lemma doc_text_app l1 l2 : doc_text (l1 ++ l2) = doc_text l1 +:+ doc_text l2.
Proof.
  induction l1 as [|tok l1 IH]; [done|]. cbn [app doc_text].
  by rewrite IH, str_app_assoc.
Qed.

(** A span that ends with [tok]: the text of the document up to [tok], and
    the text of [tok] without its whitespace. *)
Lemma span_text_snoc l tok :
  span_text (l ++ [tok]) = doc_text l +:+ Token.text tok.
Proof.
  induction l as [|t l IH]; [reflexivity|].
  cbn [app span_text doc_text]. rewrite IH, str_app_assoc.
  by destruct l.
Qed.

Lemma doc_text_snoc l tok :
  doc_text (l ++ [tok]) = span_text (l ++ [tok]) +:+ Token.whitespace_ tok.
Proof.
  rewrite doc_text_app, span_text_snoc, str_app_assoc. cbn [doc_text].
  by rewrite str_app_nil_r.
Qed.

Lemma span_text_app l1 l2 :
  l2 <> [] -> span_text (l1 ++ l2) = doc_text l1 +:+ span_text l2.
Proof.
  intros Hne. induction l1 as [|t l1 IH]; [done|].
  cbn [app span_text doc_text]. rewrite IH, str_app_assoc.
  destruct l1, l2; done.
Qed.

(** A span of tokens that have text has text. *)
Lemma span_text_nonempty toks :
  toks <> [] -> Forall (fun t => Token.text t <> EmptyString) toks ->
  span_text toks <> EmptyString.
Proof.
  destruct toks as [|t toks]; [done|]. intros _ [Ht _]%Forall_cons.
  cbn [span_text]. unfold Token.text_with_ws.
  destruct (Token.text t) eqn:E; [done|]. by destruct toks.
Qed.

Lemma slice_text_nonempty doc s e :
  0 <= s < e -> e <= py_len doc ->
  Forall (fun t => Token.text t <> EmptyString) doc ->
  slice_text doc s e <> EmptyString.
Proof.
  intros Hs He Hall. apply span_text_nonempty.
  - intros Hnil%(f_equal length). rewrite length_py_slice in Hnil by lia.
    simpl in Hnil. lia.
  - rewrite py_slice_in_range by lia. by apply Forall_take, Forall_drop.
Qed.

(** The text of [doc[s:e]] from the texts of [doc[s:m]] and [doc[m:e]]:
    between them stands the whitespace of token [m - 1]. *)
Lemma slice_text_split doc s m e last :
  0 <= s < m -> m < e <= py_len doc ->
  py_index doc (m - 1) = Ok last ->
  slice_text doc s e =
  slice_text doc s m +:+ Token.whitespace_ last +:+ slice_text doc m e.
Proof.
  intros Hs He Hlast. unfold slice_text.
  rewrite (py_slice_app doc s m e) by lia.
  rewrite span_text_app.
  - rewrite (py_slice_snoc doc s m last) by (done || lia).
    by rewrite doc_text_snoc, str_app_assoc.
  - intros Hnil%(f_equal length). rewrite length_py_slice in Hnil by lia.
    simpl in Hnil. lia.
Qed.

(** The text of a span holds the text of each of its sub-spans. *)
Lemma span_text_infix (l1 l2 l3 : Doc) :
  l2 <> [] ->
  exists pre post, span_text (l1 ++ l2 ++ l3) = pre +:+ span_text l2 +:+ post.
Proof.
  intros Hne. exists (doc_text l1).
  rewrite span_text_app by (by destruct l2). destruct l3 as [|t l3].
  { exists EmptyString. by rewrite app_nil_r, str_app_nil_r. }
  destruct l2 as [|t2 l2 _] using rev_ind; [done|].
  exists (Token.whitespace_ t2 +:+ span_text (t :: l3)).
  rewrite span_text_app by done. by rewrite doc_text_snoc, str_app_assoc.
Qed.

Lemma slice_text_infix doc cs s e ce :
  0 <= cs <= s -> s < e -> e <= ce <= py_len doc ->
  exists pre post,
    slice_text doc cs ce = pre +:+ slice_text doc s e +:+ post.
Proof.
  intros Hcs Hs Hce. unfold slice_text.
  rewrite (py_slice_app doc cs s ce), (py_slice_app doc s e ce) by lia.
  apply span_text_infix. intros Hnil%(f_equal length).
  rewrite length_py_slice in Hnil by lia. simpl in Hnil. lia.
Qed.

End SpacyLemmas.

(** ** Decidability *)

#[export] Instance token_eq_dec : EqDecision Token.t.
Proof. solve_decision. Defined.

#[export] Instance wf_doc_dec (doc : Doc) : Decision (wf_doc doc).
Proof.
  refine (cast_if (decide (wf_docb doc = true))); by rewrite <- wf_docb_spec.
Defined.

(** ** The blank pipeline honours the contract *)

Lemma blank_tokens_wf (k : Z) (words : list string) :
  0 <= k -> wf_doc_from k (blank_tokens k words) = true.
Proof.
  revert k. induction words as [|w words IH]; intros k Hk; [done|].
  cbn [blank_tokens wf_doc_from]. rewrite IH by lia.
  unfold wf_tokenb. cbn. lia.
Qed.

Lemma blank_doc_wf (text : string) : wf_doc (blank_doc text).
Proof. apply wf_docb_spec. by apply blank_tokens_wf. Qed.

Lemma blank_docs_wf (texts : list string) : Forall wf_doc (blank_doc <$> texts).
Proof. apply Forall_fmap, Forall_true. intros text. apply blank_doc_wf. Qed.

(** ** The tagging pipeline honours the contract *)

Lemma tagged_wf (nouns : list string) (doc : Doc) :
  wf_doc doc -> wf_doc (tagged nouns <$> doc).
Proof.
  intros Hwf k t. rewrite list_lookup_fmap.
  destruct (doc !! k) as [t0|] eqn:Hk; [|done]. intros [= <-].
  exact (Hwf k t0 Hk).
Qed.

Lemma tagger_pipe_length (nouns texts disable : list string) :
  length (tagger_pipe nouns texts disable) = length texts.
Proof. unfold tagger_pipe. case_bool_decide; apply length_fmap. Qed.

Lemma tagger_pipe_wf (nouns texts disable : list string) :
  Forall wf_doc (tagger_pipe nouns texts disable).
Proof.
  unfold tagger_pipe. case_bool_decide; [apply blank_docs_wf|].
  apply Forall_fmap, Forall_true. intros text. apply tagged_wf, blank_doc_wf.
Qed.

(** A pipeline with a tagger for the nouns of [nouns]. *)
Definition tagger_source (nouns : list string) : TokenSource := {|
  nlp_pipe := tagger_pipe nouns;
  nlp_pipe_length := tagger_pipe_length nouns;
  nlp_pipe_wf := tagger_pipe_wf nouns;
|}.

#[export] Instance blank_source : TokenSource := {|
  nlp_pipe texts _ := blank_doc <$> texts;
  nlp_pipe_length texts _ := length_fmap blank_doc texts;
  nlp_pipe_wf texts _ := blank_docs_wf texts;
|}.
