(* ===== verification/AspectSpan.v ===== *)
(** * The [Aspect] class: two slices of a document and their expansion

    [Aspect.t] is the object state of [class Aspect]; each method and
    property is one definition.  [expand] is the only method that mutates
    the object: it returns the new state with its boolean result.  The
    theorems state the data-model invariant ([Aspect.inv]), that [expand]
    keeps it, never raises under it, leaves the reduced slice alone, and
    uses up a bounded budget. *)

From stdpp Require Import prelude strings list_numbers gmap.
From S2P Require Import Prelude Spacy.

#[local] Open Scope Z_scope.

Module Aspect.

Definition MAX_EXPANSION_LEFT : Z := 2.
Definition MAX_EXPANSION_RIGHT : Z := 3.

(** The attributes [__init__] sets.  [_reduced_slice] is the pair
    [(start, stop)] of [slice(start, stop)]. *)
Record t : Type := mk {
  _reduced_slice : Z * Z;
  doc : Doc;
  _expansion_left : Z;
  _expansion_right : Z;
  _context_start : option Z;
  _context_stop : option Z;
  ordinal : Z;
  label : string;
  categories : gset string;
}.

(** [Aspect(doc, start, stop, context_start, context_stop)] *)
Definition __init__ (doc : Doc) (start stop : Z)
    (context_start context_stop : option Z) : t :=
  {| _reduced_slice := (start, stop);
     doc := doc;
     _expansion_left := 0;
     _expansion_right := 0;
     _context_start := context_start;
     _context_stop := context_stop;
     ordinal := 0;
     label := EmptyString;
     categories := ∅ |}.

Definition start (self : t) : Z := fst (_reduced_slice self).

Definition stop (self : t) : Z := snd (_reduced_slice self).

Definition context_start (self : t) : Z :=
  match _context_start self with
  | None => start self
  | Some c => c
  end.

Definition context_stop (self : t) : Z :=
  match _context_stop self with
  | None => stop self
  | Some c => c
  end.

(** The two assignments of the left branch of [expand]. *)
Definition expand_left (self : t) : t :=
  {| _reduced_slice := _reduced_slice self;
     doc := doc self;
     _expansion_left := _expansion_left self + 1;
     _expansion_right := _expansion_right self;
     _context_start := Some (context_start self - 1);
     _context_stop := _context_stop self;
     ordinal := ordinal self;
     label := label self;
     categories := categories self |}.

(** The two assignments of the right branch of [expand]. *)
Definition expand_right (self : t) : t :=
  {| _reduced_slice := _reduced_slice self;
     doc := doc self;
     _expansion_left := _expansion_left self;
     _expansion_right := _expansion_right self + 1;
     _context_start := _context_start self;
     _context_stop := Some (context_stop self + 1);
     ordinal := ordinal self;
     label := label self;
     categories := categories self |}.

(** The guard of the left branch; the token is read only when the first two
    conjuncts hold. *)
Definition can_expand_left (self : t) : result bool :=
  and_then (0 <? context_start self)
    (and_then (_expansion_left self <? MAX_EXPANSION_LEFT)
       (let* tok := py_index (doc self) (context_start self - 1) in
        Ok (negb (str_in (Token.text tok) [","; ";"])))).

(** The guard of the right branch. *)
Definition can_expand_right (self : t) : result bool :=
  and_then (context_stop self <? py_len (doc self))
    (and_then (_expansion_right self <? MAX_EXPANSION_RIGHT)
       (let* tok := py_index (doc self) (context_stop self) in
        Ok (negb (str_in (Token.text tok) [","; ";"])))).

(** [self.expand()]: the new state of the object and the returned flag. *)
Definition expand (self : t) : result (t * bool) :=
  let* l := can_expand_left self in
  if l then Ok (expand_left self, true)
  else
    let* r := can_expand_right self in
    if r then Ok (expand_right self, true)
    else Ok (self, false).

(** [self.text]: the reduced text. *)
Definition text (self : t) : string :=
  slice_text (doc self) (start self) (stop self).

(** [self.context]: the text of the slice with context. *)
Definition context (self : t) : string :=
  slice_text (doc self) (context_start self) (context_stop self).

Definition __str__ (self : t) : string := text self.

Definition __repr__ (self : t) : string := __str__ self.

(** What an aspect may be compared with. *)
Inductive pyobj : Type :=
| PyAspect (a : t)
| PyStr (s : string)
| PyOther.

(** [self == other] *)
Definition __eq__ (self : t) (other : pyobj) : bool :=
  match other with
  | PyAspect o => String.eqb (context self) (context o)
  | PyStr s => String.eqb (__str__ self) s
  | PyOther => false
  end.

(** [self != other]: Python derives it from [__eq__]. *)
Definition __ne__ (self : t) (other : pyobj) : bool :=
  negb (__eq__ self other).

(** [aspect.ordinal = n] *)
Definition set_ordinal (self : t) (n : Z) : t :=
  {| _reduced_slice := _reduced_slice self;
     doc := doc self;
     _expansion_left := _expansion_left self;
     _expansion_right := _expansion_right self;
     _context_start := _context_start self;
     _context_stop := _context_stop self;
     ordinal := n;
     label := label self;
     categories := categories self |}.

(** ** The data-model invariant *)

(** The reduced slice is not empty and lies inside the context slice, which
    lies inside the document; the expansion counters respect their caps. *)
Record inv (self : t) : Prop := mk_inv {
  inv_context_start : 0 <= context_start self <= start self;
  inv_nonempty : start self < stop self;
  inv_context_stop : stop self <= context_stop self <= py_len (doc self);
  inv_left : 0 <= _expansion_left self <= MAX_EXPANSION_LEFT;
  inv_right : 0 <= _expansion_right self <= MAX_EXPANSION_RIGHT;
}.

Definition invb (self : t) : bool :=
  (0 <=? context_start self) && (context_start self <=? start self)
  && (start self <? stop self)
  && (stop self <=? context_stop self) && (context_stop self <=? py_len (doc self))
  && (0 <=? _expansion_left self) && (_expansion_left self <=? MAX_EXPANSION_LEFT)
  && (0 <=? _expansion_right self) && (_expansion_right self <=? MAX_EXPANSION_RIGHT).

(** The expansions an aspect may still perform. *)
Definition budget (self : t) : nat :=
  Z.to_nat (MAX_EXPANSION_LEFT - _expansion_left self)
  + Z.to_nat (MAX_EXPANSION_RIGHT - _expansion_right self).

End Aspect.

(** ** Lists of aspects of one document *)

(** The slices [[first a, last a)] of the aspects of [l] follow each other
    from [lo] on, left to right, without overlap. *)
Fixpoint chain (first last : Aspect.t -> Z) (lo : Z) (l : list Aspect.t) : Prop :=
  match l with
  | [] => True
  | a :: rest => lo <= first a /\ chain first last (last a) rest
  end.

Definition contexts_ordered (lo : Z) (l : list Aspect.t) : Prop :=
  chain Aspect.context_start Aspect.context_stop lo l.

Definition reduced_ordered (lo : Z) (l : list Aspect.t) : Prop :=
  chain Aspect.start Aspect.stop lo l.

(** An aspect as [__init__] leaves it: no expansion made, ordinal 0. *)
Definition fresh (a : Aspect.t) : Prop :=
  Aspect._expansion_left a = 0 /\ Aspect._expansion_right a = 0 /\
  Aspect.ordinal a = 0.

(** A valid aspect of the document [doc]. *)
Definition aspect_of (doc : Doc) (a : Aspect.t) : Prop :=
  Aspect.inv a /\ Aspect.doc a = doc.

(** An aspect as the core leaves it for the consumers: no label and no
    category yet. *)
Definition unlabelled (a : Aspect.t) : Prop :=
  Aspect.label a = EmptyString /\ Aspect.categories a = ∅.

(** [a == b] on two aspects, as a relation. *)
Definition aspect_eq (a b : Aspect.t) : Prop :=
  Aspect.__eq__ a (Aspect.PyAspect b) = true.

(** ** Worked example: "good , the plot was dull ; bad" *)

Definition plot_doc : Doc :=
  mk_doc [tok "good" "ADJ" " " 0; tok "," "PUNCT" " " 1; tok "the" "DET" " " 2;
          tok "plot" "NOUN" " " 2; tok "was" "AUX" " " 4; tok "dull" "ADJ" " " 5;
          tok ";" "PUNCT" " " 6; tok "bad" "ADJ" "" 7].

(** The aspect "plot" with its determiner as context. *)
Definition plot_aspect : Aspect.t :=
  Aspect.__init__ plot_doc 3 4 (Some 2) (Some 4).

(** The aspect "good", at the start of the document and before a comma. *)
Definition good_aspect : Aspect.t :=
  Aspect.__init__ plot_doc 0 1 None None.

(** ** Lemmas *)

Section AspectLemmas.
Implicit Types (a self : Aspect.t) (b : bool).

Lemma invb_spec a : Aspect.invb a = true <-> Aspect.inv a.
Proof.
  unfold Aspect.invb. split.
  - intros H. constructor; lia.
  - intros []. lia.
Qed.

Lemma init_inv doc start stop cs ce :
  0 <= cs <= start -> start < stop -> stop <= ce <= py_len doc ->
  Aspect.inv (Aspect.__init__ doc start stop (Some cs) (Some ce)).
Proof.
  intros. constructor; cbn;
    unfold Aspect.MAX_EXPANSION_LEFT, Aspect.MAX_EXPANSION_RIGHT; lia.
Qed.

Lemma init_inv_default doc start stop :
  0 <= start -> start < stop -> stop <= py_len doc ->
  Aspect.inv (Aspect.__init__ doc start stop None None).
Proof.
  intros. constructor; cbn;
    unfold Aspect.MAX_EXPANSION_LEFT, Aspect.MAX_EXPANSION_RIGHT; lia.
Qed.

(** The guards, read as propositions. *)
Lemma can_expand_left_true a :
  Aspect.can_expand_left a = Ok true ->
  0 < Aspect.context_start a /\
  Aspect._expansion_left a < Aspect.MAX_EXPANSION_LEFT /\
  exists tok, py_index (Aspect.doc a) (Aspect.context_start a - 1) = Ok tok /\
              Token.text tok ∉ [","; ";"].
Proof.
  unfold Aspect.can_expand_left. intros H. res_inv.
  repeat split; try lia. eexists; split; [done|].
  apply str_in_false. by destruct (str_in _ _).
Qed.

Lemma can_expand_right_true a :
  Aspect.can_expand_right a = Ok true ->
  Aspect.context_stop a < py_len (Aspect.doc a) /\
  Aspect._expansion_right a < Aspect.MAX_EXPANSION_RIGHT /\
  exists tok, py_index (Aspect.doc a) (Aspect.context_stop a) = Ok tok /\
              Token.text tok ∉ [","; ";"].
Proof.
  unfold Aspect.can_expand_right. intros H. res_inv.
  repeat split; try lia. eexists; split; [done|].
  apply str_in_false. by destruct (str_in _ _).
Qed.

Lemma can_expand_left_total a :
  Aspect.context_start a <= py_len (Aspect.doc a) ->
  is_ok (Aspect.can_expand_left a).
Proof.
  intros Hc. unfold Aspect.can_expand_left, and_then, is_ok.
  destruct (Z.ltb_spec 0 (Aspect.context_start a)); [|eauto].
  destruct (_ <? Aspect.MAX_EXPANSION_LEFT); [|eauto].
  destruct (py_index_nonneg (Aspect.doc a) (Aspect.context_start a - 1))
    as (tok & -> & _); [lia|]. simpl. eauto.
Qed.

Lemma can_expand_right_total a :
  0 <= Aspect.context_stop a ->
  is_ok (Aspect.can_expand_right a).
Proof.
  intros Hc. unfold Aspect.can_expand_right, and_then, is_ok.
  destruct (Z.ltb_spec (Aspect.context_stop a) (py_len (Aspect.doc a))); [|eauto].
  destruct (_ <? Aspect.MAX_EXPANSION_RIGHT); [|eauto].
  destruct (py_index_nonneg (Aspect.doc a) (Aspect.context_stop a))
    as (tok & -> & _); [lia|]. simpl. eauto.
Qed.

(** The three ways [expand] returns. *)
Lemma expand_cases a a' b :
  Aspect.expand a = Ok (a', b) ->
  (Aspect.can_expand_left a = Ok true /\ a' = Aspect.expand_left a /\ b = true) \/
  (Aspect.can_expand_left a = Ok false /\ Aspect.can_expand_right a = Ok true /\
   a' = Aspect.expand_right a /\ b = true) \/
  (Aspect.can_expand_left a = Ok false /\ Aspect.can_expand_right a = Ok false /\
   a' = a /\ b = false).
Proof.
  unfold Aspect.expand. intros H.
  destruct (Aspect.can_expand_left a) as [[]| |]; simpl in H; try discriminate.
  - injection H as <- <-. by left.
  - destruct (Aspect.can_expand_right a) as [[]| |]; simpl in H;
      try discriminate; injection H as <- <-; right; [left|right]; done.
Qed.

(** A valid aspect of a document whose tokens have text has text. *)
Lemma aspect_text_nonempty doc a :
  Forall (fun t => Token.text t <> EmptyString) doc ->
  aspect_of doc a -> Aspect.text a <> EmptyString.
Proof.
  intros Hall [[] Hdoc]. unfold Aspect.text. rewrite Hdoc in *.
  apply slice_text_nonempty; [lia..|done].
Qed.

Lemma init_unlabelled doc start stop cs ce :
  unlabelled (Aspect.__init__ doc start stop cs ce).
Proof. done. Qed.

(** [a.text in a.context]: the context text holds the reduced text. *)
Lemma context_contains_text a :
  Aspect.inv a -> str_contains (Aspect.text a) (Aspect.context a) = true.
Proof.
  intros []. unfold Aspect.text, Aspect.context.
  destruct (slice_text_infix (Aspect.doc a) (Aspect.context_start a)
              (Aspect.start a) (Aspect.stop a) (Aspect.context_stop a))
    as (pre & post & ->); [lia..|].
  apply str_contains_infix.
Qed.

(** The context slice after each branch of [expand]. *)
Lemma context_expand_left a :
  Aspect.context_start (Aspect.expand_left a) = Aspect.context_start a - 1 /\
  Aspect.context_stop (Aspect.expand_left a) = Aspect.context_stop a.
Proof. done. Qed.

Lemma context_expand_right a :
  Aspect.context_start (Aspect.expand_right a) = Aspect.context_start a /\
  Aspect.context_stop (Aspect.expand_right a) = Aspect.context_stop a + 1.
Proof. done. Qed.

(** A failed [expand] changes nothing. *)
Lemma expand_false a a' : Aspect.expand a = Ok (a', false) -> a' = a.
Proof.
  by intros [(_ & _ & ?)|[(_ & _ & _ & ?)|(_ & _ & -> & _)]]%expand_cases.
Qed.

(** [expand] neither reads nor writes the ordinal. *)
Lemma expand_set_ordinal a n :
  Aspect.expand (Aspect.set_ordinal a n) =
  let* (a', b) := Aspect.expand a in Ok (Aspect.set_ordinal a' n, b).
Proof.
  unfold Aspect.expand.
  change (Aspect.can_expand_left (Aspect.set_ordinal a n))
    with (Aspect.can_expand_left a).
  change (Aspect.can_expand_right (Aspect.set_ordinal a n))
    with (Aspect.can_expand_right a).
  destruct (Aspect.can_expand_left a) as [[]| |]; try done. simpl.
  by destruct (Aspect.can_expand_right a) as [[]| |].
Qed.

Lemma expand_left_inv a :
  Aspect.inv a -> Aspect.can_expand_left a = Ok true ->
  Aspect.inv (Aspect.expand_left a).
Proof.
  intros [] (? & ? & _)%can_expand_left_true.
  constructor; cbn; unfold Aspect.context_stop, Aspect.stop, Aspect.start in *;
    cbn; lia.
Qed.

Lemma expand_right_inv a :
  Aspect.inv a -> Aspect.can_expand_right a = Ok true ->
  Aspect.inv (Aspect.expand_right a).
Proof.
  intros [] (? & ? & _)%can_expand_right_true.
  constructor; cbn; unfold Aspect.context_start, Aspect.stop, Aspect.start in *;
    cbn; lia.
Qed.

(** The attributes [expand] never writes. *)
Lemma expand_frame a a' b :
  Aspect.expand a = Ok (a', b) ->
  Aspect._reduced_slice a' = Aspect._reduced_slice a /\
  Aspect.doc a' = Aspect.doc a /\
  Aspect.ordinal a' = Aspect.ordinal a /\
  Aspect.label a' = Aspect.label a /\
  Aspect.categories a' = Aspect.categories a.
Proof.
  intros [(_ & -> & _)|[(_ & _ & -> & _)|(_ & _ & -> & _)]]%expand_cases; done.
Qed.

Lemma chain_mono first last lo lo' l :
  lo' <= lo -> chain first last lo l -> chain first last lo' l.
Proof. destruct l; simpl; [done|]. intros ? [? ?]. split; [lia|done]. Qed.

(** Every slice of a chain starts at or after the lower bound. *)
Lemma chain_lower first last lo l :
  Forall (fun a => first a <= last a) l ->
  chain first last lo l -> Forall (fun a => lo <= first a) l.
Proof.
  intros Hall. revert lo. induction Hall as [|a l Ha _ IH]; intros lo; [done|].
  intros [Hlo Hr]. constructor; [done|].
  eapply Forall_impl; [by apply IH|]. intros b ?. simpl in *. lia.
Qed.

(** Ordered contexts of valid aspects enclose ordered reduced slices. *)
Lemma contexts_reduced_ordered lo l :
  Forall Aspect.inv l -> contexts_ordered lo l -> reduced_ordered lo l.
Proof.
  unfold contexts_ordered, reduced_ordered. intros Hall. revert lo.
  induction Hall as [|a l [] _ IH]; intros lo; simpl; [done|].
  intros [? Hr]. split; [lia|]. apply IH.
  eapply chain_mono; [|done]. lia.
Qed.

(** What a client of [expand] may rely on, for an aspect that satisfies
    the invariant. *)
Lemma expand_ok a :
  Aspect.inv a ->
  exists a' b, Aspect.expand a = Ok (a', b) /\ Aspect.inv a' /\
    (if b then S (Aspect.budget a') = Aspect.budget a else a' = a).
Proof.
  intros Hinv. pose proof Hinv as [].
  destruct (can_expand_left_total a) as [l Hl]; [lia|].
  destruct (can_expand_right_total a) as [r Hr]; [lia|].
  unfold Aspect.expand. rewrite Hl. simpl. destruct l.
  { eexists _, true. split; [done|]. split; [by apply expand_left_inv|].
    apply can_expand_left_true in Hl. unfold Aspect.budget. cbn. lia. }
  rewrite Hr. simpl. destruct r; [|by exists a, false].
  eexists _, true. split; [done|]. split; [by apply expand_right_inv|].
  apply can_expand_right_true in Hr. unfold Aspect.budget. cbn. lia.
Qed.

End AspectLemmas.

(** ** Decidability and the equivalence [==] *)

#[export] Instance aspect_eq_dec : EqDecision Aspect.t.
Proof. solve_decision. Defined.

#[export] Instance inv_dec (a : Aspect.t) : Decision (Aspect.inv a).
Proof.
  refine (cast_if (decide (Aspect.invb a = true))); by rewrite <- invb_spec.
Defined.

#[export] Instance aspect_eq_decision (a b : Aspect.t) : Decision (aspect_eq a b).
Proof. unfold aspect_eq. apply _. Defined.

Lemma aspect_eq_context (a b : Aspect.t) :
  aspect_eq a b <-> Aspect.context a = Aspect.context b.
Proof. apply String.eqb_eq. Qed.

Lemma eq_str_text (a : Aspect.t) (s : string) :
  Aspect.__eq__ a (Aspect.PyStr s) = true <-> Aspect.text a = s.
Proof. apply String.eqb_eq. Qed.

(** [==] on aspects is an equivalence: equality of the context texts. *)
#[export] Instance aspect_eq_equivalence : Equivalence aspect_eq.
Proof.
  split.
  - intros a. by apply aspect_eq_context.
  - intros a b ?%aspect_eq_context. by apply aspect_eq_context.
  - intros a b c ?%aspect_eq_context ?%aspect_eq_context.
    apply aspect_eq_context. congruence.
Qed.

(** The context, and the comparison itself, do not tell equal aspects
    apart. *)
#[export] Instance context_proper : Proper (aspect_eq ==> eq) Aspect.context.
Proof. by intros a b ?%aspect_eq_context. Qed.

#[export] Instance eq_proper :
  Proper (aspect_eq ==> aspect_eq ==> eq)
    (fun a b => Aspect.__eq__ a (Aspect.PyAspect b)).
Proof.
  intros a a' Ha%aspect_eq_context b b' Hb%aspect_eq_context.
  unfold Aspect.__eq__. by rewrite Ha, Hb.
Qed.

(** A failed expansion leaves the aspect in its class. *)
Lemma expand_false_eq (a a' : Aspect.t) :
  Aspect.expand a = Ok (a', false) -> aspect_eq a a'.
Proof. intros ->%expand_false. reflexivity. Qed.

(** ** Theorems on [expand] *)

(** C19. [expand] keeps the data-model invariant: after any call the reduced
    slice still lies in the context slice, the context slice in the
    document, and at most 2 left and 3 right expansions were made. *)
Theorem expand_preserves_inv (a a' : Aspect.t) (b : bool) :
  Aspect.inv a -> Aspect.expand a = Ok (a', b) -> Aspect.inv a'.
Proof.
  intros Hinv [(Hl & -> & _)|[(_ & Hr & -> & _)|(_ & _ & -> & _)]]%expand_cases;
    auto using expand_left_inv, expand_right_inv.
Qed.

Lemma expand_preserves_inv_witness :
  Aspect.inv (Aspect.expand_right plot_aspect).
Proof.
  apply (expand_preserves_inv plot_aspect _ true).
  - apply invb_spec. reflexivity.
  - reflexivity.
Defined.

(** [expand] never raises on an aspect that satisfies the invariant:
    the token it reads is always inside the document. *)
Theorem expand_total (a : Aspect.t) :
  Aspect.inv a -> exists a' b, Aspect.expand a = Ok (a', b).
Proof.
  intros [].
  destruct (can_expand_left_total a) as [l Hl]; [lia|].
  destruct (can_expand_right_total a) as [r Hr]; [lia|].
  unfold Aspect.expand. rewrite Hl. simpl. destruct l; [eauto|].
  rewrite Hr. simpl. destruct r; eauto.
Qed.

Lemma expand_total_witness :
  exists a' b, Aspect.expand plot_aspect = Ok (a', b).
Proof. apply expand_total. apply invb_spec. reflexivity. Defined.

(** C35. A successful [expand] widens the context slice by exactly one token,
    on one side only, and uses one unit of the expansion budget; the token
    taken in is neither a comma nor a semicolon. *)
Theorem expand_success (a a' : Aspect.t) :
  Aspect.expand a = Ok (a', true) ->
  S (Aspect.budget a') = Aspect.budget a /\
  ((Aspect.context_start a' = Aspect.context_start a - 1 /\
    Aspect.context_stop a' = Aspect.context_stop a /\
    exists tok, py_index (Aspect.doc a) (Aspect.context_start a') = Ok tok /\
                Token.text tok ∉ [","; ";"]) \/
   (Aspect.context_start a' = Aspect.context_start a /\
    Aspect.context_stop a' = Aspect.context_stop a + 1 /\
    exists tok, py_index (Aspect.doc a) (Aspect.context_stop a) = Ok tok /\
                Token.text tok ∉ [","; ";"])).
Proof.
  intros [(Hl & -> & _)|[(_ & Hr & -> & _)|(_ & _ & _ & ?)]]%expand_cases;
    [| |done].
  - apply can_expand_left_true in Hl as (? & ? & Htok).
    split; [unfold Aspect.budget; cbn; lia|]. left. by cbn.
  - apply can_expand_right_true in Hr as (? & ? & Htok).
    split; [unfold Aspect.budget; cbn; lia|]. right. by cbn.
Qed.

Lemma expand_success_witness :
  S (Aspect.budget (Aspect.expand_right plot_aspect)) = Aspect.budget plot_aspect.
Proof. apply (expand_success plot_aspect _ eq_refl). Defined.

(** A failed [expand] leaves the aspect as it was, and it fails only
    when neither side can grow. *)
Theorem expand_failure (a a' : Aspect.t) :
  Aspect.expand a = Ok (a', false) ->
  a' = a /\ Aspect.can_expand_left a = Ok false /\
  Aspect.can_expand_right a = Ok false.
Proof.
  intros [(_ & _ & ?)|[(_ & _ & _ & ?)|(? & ? & ? & _)]]%expand_cases; done.
Qed.

Lemma expand_failure_witness :
  good_aspect = good_aspect /\
  Aspect.can_expand_left good_aspect = Ok false /\
  Aspect.can_expand_right good_aspect = Ok false.
Proof. apply (expand_failure good_aspect good_aspect). reflexivity. Defined.

(** [expand] changes the context only: the reduced text of the aspect,
    which identifies it, is the same before and after. *)
Theorem expand_text (a a' : Aspect.t) (b : bool) :
  Aspect.expand a = Ok (a', b) -> Aspect.text a' = Aspect.text a.
Proof.
  intros (Hs & Hd & _)%expand_frame.
  unfold Aspect.text, Aspect.start, Aspect.stop. by rewrite Hs, Hd.
Qed.

Lemma expand_text_witness :
  Aspect.text (Aspect.expand_right plot_aspect) = Aspect.text plot_aspect.
Proof. apply (expand_text plot_aspect _ true). reflexivity. Defined.

(** The two rules of [__eq__] do not agree: "plot" and "the", both with
    the context "the plot", are equal as aspects, yet only the first is
    equal to the string "plot". *)
Example eq_by_context_not_by_text :
  let a := Aspect.__init__ plot_doc 3 4 (Some 2) (Some 4) in
  let b := Aspect.__init__ plot_doc 2 3 (Some 2) (Some 4) in
  aspect_eq a b /\ Aspect.text a <> Aspect.text b /\
  Aspect.__eq__ a (Aspect.PyStr "plot") = true /\
  Aspect.__eq__ b (Aspect.PyStr "plot") = false.
Proof. by vm_compute. Qed.
