(* ===== verification/Lexicon.v ===== *)
(** * The word lists of [class AspectExtractor]

    The class attributes the rules consult, and the membership tests the
    code performs on them.  [POS_WHITELIST] is written [('NOUN')] in the
    source: that is the string ['NOUN'], not a tuple, so
    [pos_ in POS_WHITELIST] is Python's substring test. *)

From stdpp Require Import prelude strings.
From S2P Require Import Prelude.

(** Tokens to include even though they are not nouns. *)
Definition NON_NOUN_ASPECTS : list string :=
  ["acted"; "directed"; "edited"; "emotionally"; "filmed"; "visually"; "written"].

(** Kept in front of, or between, extracted nouns. *)
Definition CHUNK_EXCEPTIONS : list string :=
  ["emotional"; "musical"; "visual"; "cinematic"; "generated"; "set";
   "special"; "comic"; "another"; "other"; "'s"; "-"; "/"; ","; "and"].

(** Not kept in front of extracted nouns. *)
Definition CHUNK_STOP_WORDS : list string :=
  ["level"; "minute"; "minutes"].

(** "this" plus adjectives is allowed in front of these words only. *)
Definition MOVIE_SYNONYMS : list string :=
  ["entry"; "flick"; "film"; "mess"; "movie"; "installment"; "version"].

(** Allowed part-of-speech tags: a string. *)
Definition POS_WHITELIST : string := "NOUN".

(** Used as a noun when the sentence has no other aspect. *)
Definition NOUN_SUBSTITUTE : string := "overall".

(** [pos in self.POS_WHITELIST] *)
Definition in_POS_WHITELIST (pos : string) : bool :=
  str_contains pos POS_WHITELIST.

(** The joiners tested after a cut ([("'s", '-', '/', ',', 'and')]). *)
Definition JOINERS : list string :=
  ["'s"; "-"; "/"; ","; "and"].

(** The coarse part-of-speech tags spaCy assigns (Universal POS tags, and
    the tags [SPACE] and [EOL] of its own). *)
Definition UNIVERSAL_POS : list string :=
  ["ADJ"; "ADP"; "ADV"; "AUX"; "CONJ"; "CCONJ"; "DET"; "INTJ"; "NOUN"; "NUM";
   "PART"; "PRON"; "PROPN"; "PUNCT"; "SCONJ"; "SYM"; "VERB"; "X"; "EOL"; "SPACE"].

(** ** Theorems on the whitelist test *)

(** On the tags spaCy assigns, the whitelist test accepts nouns and
    nothing else. *)
Theorem in_POS_WHITELIST_universal (pos : string) :
  pos ∈ UNIVERSAL_POS -> in_POS_WHITELIST pos = true <-> pos = "NOUN".
Proof.
  unfold UNIVERSAL_POS. rewrite !elem_of_cons, elem_of_nil.
  intros H. repeat (destruct H as [->|H]; [by vm_compute|]). done.
Qed.

Lemma in_POS_WHITELIST_universal_witness :
  in_POS_WHITELIST "PROPN" = true <-> "PROPN" = "NOUN".
Proof.
  apply in_POS_WHITELIST_universal.
  apply str_in_true. reflexivity.
Defined.

(** C31. The whitelist is a string, so the test is a substring test.  It
    accepts the tag "NOUN" and nine strings more, the empty tag of an
    untagged token among them, and nothing else: a token whose tagger was
    disabled counts as a noun, while "PROPN" does not. *)
Theorem in_POS_WHITELIST_iff (pos : string) :
  in_POS_WHITELIST pos = true <->
  pos ∈ ["NOUN"; ""; "N"; "O"; "U"; "NO"; "OU"; "UN"; "NOU"; "OUN"].
Proof.
  unfold in_POS_WHITELIST. rewrite str_contains_substrings.
  set (l := substrings POS_WHITELIST). vm_compute in l. subst l.
  rewrite !elem_of_cons, !elem_of_nil. tauto.
Qed.
