(* ===== verification/ChunkReducer.v ===== *)
(** * The chunk reducer: [AspectExtractor._reduce_noun_chunk]

    The method scans a candidate token range twice.  The first loop skips
    leading punctuation and possessive markers and fixes [full_start]; the
    second walks from the last token to [full_start] and either keeps the
    whole range ("this ... movie"), rejects the chunk, or cuts it after the
    first token that cannot be part of an aspect.  Each loop is a
    [Fixpoint] over the indices of its [range]; an out-of-range read
    raises [IndexError] as in Python, and the method is proved to raise
    exactly when the range ends beyond the document. *)

From stdpp Require Import prelude strings list_numbers gmap.
From S2P Require Import Prelude Spacy AspectSpan Lexicon.

#[local] Open Scope Z_scope.

(** The test of the first loop: the token is neither punctuation, nor
    unclassified, nor a possessive marker. *)
Definition starts_chunk (t : Token.t) : bool :=
  negb (str_in (Token.pos_ t) ["X"; "PUNCT"]) &&
  negb (String.eqb (Token.lower_ t) "'s").

(** The first loop, over the indices still to visit; [full_start] is the
    value the variable has when the loop ends without [break]. *)
Fixpoint find_full_start (doc : Doc) (indices : list Z) (full_start : Z)
  : result Z :=
  match indices with
  | [] => Ok full_start
  | i :: rest =>
      let* t := py_index doc i in
      if starts_chunk t then Ok i
      else find_full_start doc rest full_start
  end.

(** The first test of the second loop: a movie synonym in a chunk that
    starts with "this".  The token at [full_start] is read only when the
    first conjunct holds. *)
Definition keeps_this_movie (doc : Doc) (full_start : Z) (t : Token.t)
  : result bool :=
  and_then (str_in (Token.lower_ t) MOVIE_SYNONYMS)
    (let* first := py_index doc full_start in
     Ok (String.eqb (Token.lower_ first) "this")).

(** The second test of the second loop: a stop word, or a token that is
    neither a noun nor an exception. *)
Definition cuts_chunk (t : Token.t) : bool :=
  str_in (Token.lower_ t) CHUNK_STOP_WORDS ||
  (negb (in_POS_WHITELIST (Token.pos_ t)) &&
   negb (str_in (Token.lower_ t) CHUNK_EXCEPTIONS)).

(** The new [reduced_start] after a cut at [i]. *)
Definition cut_after (doc : Doc) (stop i : Z) : result Z :=
  let* next := py_index doc (i + 1) in
  if str_in (Token.text next) JOINERS then Ok (Z.min (i + 3) (stop - 1))
  else Ok (i + 1).

(** The second loop.  [None] is [return None]; [Some r] is the value of
    [reduced_start] when the loop is left. *)
Fixpoint find_reduced_start (doc : Doc) (stop full_start : Z)
    (indices : list Z) (reduced_start : Z) : result (option Z) :=
  match indices with
  | [] => Ok (Some reduced_start)
  | i :: rest =>
      let* t := py_index doc i in
      let* keep := keeps_this_movie doc full_start t in
      if keep then Ok (Some reduced_start)
      else if cuts_chunk t then
        if i =? stop - 1 then Ok None
        else let* r := cut_after doc stop i in Ok (Some r)
      else find_reduced_start doc stop full_start rest reduced_start
  end.

(** [self._reduce_noun_chunk(doc, start, stop)] *)
Definition _reduce_noun_chunk (doc : Doc) (start stop : Z)
  : result (option Aspect.t) :=
  let* full_start := find_full_start doc (py_range start stop) start in
  let* reduced :=
    find_reduced_start doc stop full_start
      (py_range_down (stop - 1) (full_start - 1)) full_start in
  match reduced with
  | None => Ok None
  | Some reduced_start =>
      Ok (Some (Aspect.__init__ doc reduced_start stop
                  (Some full_start) (Some stop)))
  end.

(** ** Specification of the two loops *)

(** What the first loop computes: the first index of the range whose token
    starts a chunk, or [start] when there is none. *)
Definition full_start_spec (doc : Doc) (start stop fs : Z) : Prop :=
  (start <= fs < stop /\ token_has starts_chunk doc fs = true /\
   forall k, start <= k < fs -> token_has starts_chunk doc k = false) \/
  (fs = start /\
   forall k, start <= k < stop -> token_has starts_chunk doc k = false).

(** Token [k] is a movie synonym and the chunk starts with "this". *)
Definition keep_at (doc : Doc) (full_start k : Z) : bool :=
  token_has (fun t => str_in (Token.lower_ t) MOVIE_SYNONYMS) doc k &&
  token_has (fun t => String.eqb (Token.lower_ t) "this") doc full_start.

(** Token [k] ends the scan by a cut. *)
Definition cut_at (doc : Doc) (full_start k : Z) : bool :=
  negb (keep_at doc full_start k) && token_has cuts_chunk doc k.

(** Token [k] lets the scan go on. *)
Definition quiet_at (doc : Doc) (full_start k : Z) : bool :=
  negb (keep_at doc full_start k) && negb (token_has cuts_chunk doc k).

(** Where the reduced slice starts after a cut at [i]. *)
Definition cut_point (doc : Doc) (stop i : Z) : Z :=
  if token_has (fun t => str_in (Token.text t) JOINERS) doc (i + 1)
  then Z.min (i + 3) (stop - 1)
  else i + 1.

(** What the second loop computes, by the rightmost token of
    [[full_start, stop)] that is not quiet. *)
Inductive reduce_outcome (doc : Doc) (full_start stop d : Z)
  : option Z -> Prop :=
| RO_all_quiet :
    (forall k, full_start <= k < stop -> quiet_at doc full_start k = true) ->
    reduce_outcome doc full_start stop d (Some d)
| RO_this_movie i :
    full_start <= i < stop ->
    (forall k, i < k < stop -> quiet_at doc full_start k = true) ->
    keep_at doc full_start i = true ->
    reduce_outcome doc full_start stop d (Some d)
| RO_reject :
    full_start <= stop - 1 ->
    cut_at doc full_start (stop - 1) = true ->
    reduce_outcome doc full_start stop d None
| RO_cut i :
    full_start <= i < stop - 1 ->
    (forall k, i < k < stop -> quiet_at doc full_start k = true) ->
    cut_at doc full_start i = true ->
    reduce_outcome doc full_start stop d (Some (cut_point doc stop i)).

(** The contract of the reducer on a range inside the document. *)
Definition reduce_spec (doc : Doc) (start stop : Z) (out : option Aspect.t)
  : Prop :=
  exists fs r,
    full_start_spec doc start stop fs /\
    reduce_outcome doc fs stop fs r /\
    out = (fun rs => Aspect.__init__ doc rs stop (Some fs) (Some stop)) <$> r.

(** ** Worked examples *)

(** "I liked this long movie" *)
Definition movie_doc : Doc :=
  mk_doc [tok "i" "PRON" " " 0; tok "liked" "VERB" " " 1; tok "this" "DET" " " 2;
          tok "long" "ADJ" " " 3; tok "movie" "NOUN" "" 2].

(** "the very clean - cut editing" *)
Definition editing_doc : Doc :=
  mk_doc [tok "the" "DET" " " 0; tok "very" "ADV" " " 1; tok "clean" "ADJ" "" 2;
          tok "-" "PUNCT" "" 3; tok "cut" "NOUN" " " 4; tok "editing" "NOUN" "" 0].

(** "2 : the plot thickens" *)
Definition plot2_doc : Doc :=
  mk_doc [tok "2" "X" " " 0; tok ":" "PUNCT" " " 1; tok "the" "DET" " " 2;
          tok "plot" "NOUN" " " 0; tok "thickens" "VERB" "" 4].

(** ** Lemmas *)

(** Closes a goal whose hypotheses say that one token is both quiet and
    not quiet. *)
Ltac loud_clash :=
  match goal with
  | Hk : keep_at ?doc ?fs ?i = true, Hc : cut_at ?doc ?fs ?i = true |- _ =>
      unfold cut_at in Hc; rewrite Hk in Hc; discriminate Hc
  | Hq : (forall k, _ -> quiet_at ?doc ?fs k = true),
    Hl : keep_at ?doc ?fs ?i = true |- _ =>
      specialize (Hq i ltac:(lia)); unfold quiet_at in Hq;
      rewrite Hl in Hq; discriminate Hq
  | Hq : (forall k, _ -> quiet_at ?doc ?fs k = true),
    Hl : cut_at ?doc ?fs ?i = true |- _ =>
      specialize (Hq i ltac:(lia)); unfold quiet_at, cut_at in *;
      destruct (keep_at doc fs i), (token_has cuts_chunk doc i); discriminate
  end.

Section ReducerLemmas.
Context (doc : Doc).
Implicit Types (start stop fs hi d i k : Z).

Lemma find_full_start_spec start stop d :
  0 <= start -> stop <= py_len doc ->
  exists fs, find_full_start doc (py_range start stop) d = Ok fs /\
    ((start <= fs < stop /\ token_has starts_chunk doc fs = true /\
      forall k, start <= k < fs -> token_has starts_chunk doc k = false) \/
     (fs = d /\
      forall k, start <= k < stop -> token_has starts_chunk doc k = false)).
Proof.
  intros Hstart Hstop.
  remember (Z.to_nat (stop - start)) as n eqn:Hn.
  revert start Hstart Hn. induction n as [|n IH]; intros start Hstart Hn.
  - rewrite py_range_nil by lia. exists d. split; [done|]. right.
    split; [done|]. intros; lia.
  - rewrite py_range_cons by lia. simpl.
    destruct (py_index_nonneg doc start) as (t & Ht & _); [lia|].
    rewrite Ht. simpl. destruct (starts_chunk t) eqn:Hs.
    + exists start. split; [done|]. left.
      rewrite (token_has_Ok _ _ _ _ Ht). repeat split; try done; lia.
    + destruct (IH (start + 1)) as (fs & -> & Hfs); [lia..|].
      exists fs. split; [done|].
      assert (token_has starts_chunk doc start = false) as H0
        by by rewrite (token_has_Ok _ _ _ _ Ht).
      destruct Hfs as [(? & ? & Hlt)|[-> Hall]]; [left|right].
      * repeat split; try done; try lia.
        apply forall_range_add_l; [done|]. intros; apply Hlt; lia.
      * split; [done|]. by apply forall_range_add_l.
Qed.

Lemma keeps_this_movie_spec fs k t :
  0 <= fs < py_len doc -> py_index doc k = Ok t ->
  keeps_this_movie doc fs t = Ok (keep_at doc fs k).
Proof.
  intros Hfs Ht. unfold keeps_this_movie, keep_at.
  rewrite (token_has_Ok _ _ _ _ Ht).
  destruct (py_index_nonneg doc fs) as (f & Hf & _); [done|].
  rewrite (token_has_Ok _ _ _ _ Hf), Hf.
  by destruct (str_in _ MOVIE_SYNONYMS).
Qed.

Lemma cut_after_spec stop i :
  0 <= i + 1 < py_len doc ->
  cut_after doc stop i = Ok (cut_point doc stop i).
Proof.
  intros Hi. unfold cut_after, cut_point.
  destruct (py_index_nonneg doc (i + 1)) as (t & Ht & _); [done|].
  rewrite (token_has_Ok _ _ _ _ Ht), Ht. simpl. by destruct (str_in _ _).
Qed.

(** The second loop, started at [hi] with every token right of [hi]
    quiet, returns what [reduce_outcome] describes. *)
Lemma find_reduced_start_spec stop fs d hi :
  0 <= fs -> stop <= py_len doc -> fs - 1 <= hi < stop ->
  (forall k, hi < k < stop -> quiet_at doc fs k = true) ->
  exists r,
    find_reduced_start doc stop fs (py_range_down hi (fs - 1)) d = Ok r /\
    reduce_outcome doc fs stop d r.
Proof.
  intros Hfs Hstop.
  remember (Z.to_nat (hi - (fs - 1))) as n eqn:Hn.
  revert hi Hn. induction n as [|n IH]; intros hi Hn Hhi Hquiet.
  - rewrite py_range_down_nil by lia. eexists; split; [done|].
    apply RO_all_quiet. intros; apply Hquiet; lia.
  - rewrite py_range_down_cons by lia. simpl.
    destruct (py_index_nonneg doc hi) as (t & Ht & _); [lia|].
    rewrite Ht. simpl.
    rewrite (keeps_this_movie_spec fs hi) by (done || lia). simpl.
    pose proof (token_has_Ok cuts_chunk _ _ _ Ht) as Hc.
    destruct (keep_at doc fs hi) eqn:Hk.
    { eexists; split; [done|]. by apply (RO_this_movie _ _ _ _ hi); [lia|..]. }
    destruct (cuts_chunk t) eqn:Hcut.
    + assert (cut_at doc fs hi = true) as Hcut'
        by (unfold cut_at; by rewrite Hk, Hc).
      destruct (Z.eqb_spec hi (stop - 1)) as [->|Hne].
      * eexists; split; [done|]. apply RO_reject; [lia|done].
      * rewrite cut_after_spec by lia. simpl. eexists; split; [done|].
        apply RO_cut; [lia|done..].
    + apply IH; [lia..|]. apply forall_range_add_r; [|done].
      unfold quiet_at. by rewrite Hk, Hc.
Qed.

Lemma full_start_spec_unique start stop fs1 fs2 :
  full_start_spec doc start stop fs1 -> full_start_spec doc start stop fs2 ->
  fs1 = fs2.
Proof.
  intros [(? & H1 & Hlt1)|[-> Hall1]] [(? & H2 & Hlt2)|[-> Hall2]]; [| | |done].
  - destruct (Z.lt_trichotomy fs1 fs2) as [?|[?|?]]; [|done|].
    + rewrite Hlt2 in H1 by lia. done.
    + rewrite Hlt1 in H2 by lia. done.
  - rewrite Hall2 in H1 by lia. done.
  - rewrite Hall1 in H2 by lia. done.
Qed.

Lemma reduce_outcome_unique fs stop d r1 r2 :
  reduce_outcome doc fs stop d r1 -> reduce_outcome doc fs stop d r2 ->
  r1 = r2.
Proof.
  intros [Hq1|i1 Hi1 Hq1 Hk1|Hs1 Hc1|i1 Hi1 Hq1 Hc1]
         [Hq2|i2 Hi2 Hq2 Hk2|Hs2 Hc2|i2 Hi2 Hq2 Hc2];
    try done; try (exfalso; loud_clash).
  - exfalso. destruct (decide (i1 = stop - 1)) as [->|]; loud_clash.
  - exfalso. destruct (Z.lt_trichotomy i1 i2) as [?|[->|?]]; loud_clash.
  - exfalso. destruct (decide (i2 = stop - 1)) as [->|]; loud_clash.
  - exfalso. destruct (Z.lt_trichotomy i1 i2) as [?|[->|?]]; loud_clash.
  - destruct (Z.lt_trichotomy i1 i2) as [?|[->|?]]; [|done|]; exfalso; loud_clash.
Qed.

(** The reduced slice an accepted outcome starts lies in [[fs, stop)]. *)
Lemma reduce_outcome_bounds fs stop rs :
  fs < stop -> reduce_outcome doc fs stop fs (Some rs) -> fs <= rs < stop.
Proof.
  intros Hlt H. inversion H; subst; try lia.
  unfold cut_point. destruct (token_has _ _ _); lia.
Qed.

(** The reducer returns on a range inside the document, with a result the
    specification allows. *)
Lemma reduce_run start stop :
  0 <= start -> stop <= py_len doc ->
  exists out, _reduce_noun_chunk doc start stop = Ok out /\
              reduce_spec doc start stop out.
Proof.
  intros Hstart Hstop. unfold _reduce_noun_chunk, reduce_spec.
  destruct (find_full_start_spec start stop start) as (fs & -> & Hfs);
    [done..|]. simpl.
  assert (start <= fs) as Hle by (destruct Hfs as [?|[-> _]]; lia).
  destruct (decide (fs <= stop)) as [Hfs_stop|Hfs_stop].
  - destruct (find_reduced_start_spec stop fs fs (stop - 1))
      as (r & -> & Hr); [lia..| |].
    { intros; lia. }
    simpl. exists ((fun rs => Aspect.__init__ doc rs stop (Some fs) (Some stop)) <$> r).
    split; [by destruct r|]. by exists fs, r.
  - rewrite py_range_down_nil by lia. simpl. eexists; split; [done|].
    exists fs, (Some fs). split; [done|]. split; [|done].
    apply RO_all_quiet. intros; lia.
Qed.

Lemma reduce_spec_unique start stop out1 out2 :
  reduce_spec doc start stop out1 -> reduce_spec doc start stop out2 ->
  out1 = out2.
Proof.
  intros (fs & r & Hfs & Hr & ->) (fs' & r' & Hfs' & Hr' & ->).
  pose proof (full_start_spec_unique _ _ _ _ Hfs Hfs') as <-.
  by rewrite (reduce_outcome_unique _ _ _ _ _ Hr Hr').
Qed.

Lemma reduce_sound start stop out :
  0 <= start -> stop <= py_len doc ->
  _reduce_noun_chunk doc start stop = Ok out -> reduce_spec doc start stop out.
Proof.
  intros Hstart Hstop Hrun.
  destruct (reduce_run start stop) as (out' & Hrun' & Hspec); [done..|].
  congruence.
Qed.

Lemma reduce_complete start stop out :
  0 <= start -> stop <= py_len doc ->
  reduce_spec doc start stop out -> _reduce_noun_chunk doc start stop = Ok out.
Proof.
  intros Hstart Hstop Hspec.
  destruct (reduce_run start stop) as (out' & -> & Hspec'); [done..|].
  f_equal. eauto using reduce_spec_unique.
Qed.

(** Whatever the range, an accepted chunk is a new aspect that ends where
    the range ends. *)
Lemma reduce_Some_init start stop a :
  _reduce_noun_chunk doc start stop = Ok (Some a) ->
  exists rs fs, a = Aspect.__init__ doc rs stop (Some fs) (Some stop).
Proof.
  unfold _reduce_noun_chunk. intros H.
  apply bind_Ok_inv in H as (fs & _ & H).
  apply bind_Ok_inv in H as ([rs|] & _ & [= <-]). by exists rs, fs.
Qed.

(** The shape of an accepted chunk of a non-empty range. *)
Lemma reduce_Some_bounds start stop a :
  0 <= start < stop -> stop <= py_len doc ->
  _reduce_noun_chunk doc start stop = Ok (Some a) ->
  exists fs rs, start <= fs <= rs /\ rs < stop /\
    a = Aspect.__init__ doc rs stop (Some fs) (Some stop).
Proof.
  intros Hstart Hstop (fs & r & Hfs & Hr & Hout)%reduce_sound; [|lia|done].
  destruct r as [rs|]; [|done]. injection Hout as ->.
  assert (start <= fs < stop) as Hfs' by (destruct Hfs as [?|[-> _]]; lia).
  apply reduce_outcome_bounds in Hr; [|lia]. exists fs, rs.
  split; [lia|]. split; [lia|done].
Qed.

(** ** A range that ends beyond the document *)

(** The first loop either reads past the last token, or stops at a token
    of the document. *)
Lemma find_full_start_beyond start stop d :
  0 <= start < stop -> py_len doc < stop ->
  find_full_start doc (py_range start stop) d = Raise IndexError \/
  exists fs, find_full_start doc (py_range start stop) d = Ok fs /\
             start <= fs < py_len doc.
Proof.
  intros Hstart Hstop.
  remember (Z.to_nat (stop - start)) as n eqn:Hn.
  revert start Hstart Hn. induction n as [|n IH]; intros start Hstart Hn; [lia|].
  rewrite py_range_cons by lia. simpl.
  destruct (decide (py_len doc <= start)) as [Hout|Hin].
  { left. by rewrite py_index_out_of_range. }
  destruct (py_index_nonneg doc start) as (t & -> & _); [lia|]. simpl.
  destruct (starts_chunk t); [right; exists start; split; [done|lia]|].
  destruct (IH (start + 1)) as [?|(fs & ? & ?)]; [lia..|by left|].
  right. exists fs. split; [done|lia].
Qed.

(** The second loop reads [doc[stop - 1]] first. *)
Lemma find_reduced_start_beyond stop fs d :
  fs < stop -> py_len doc < stop ->
  find_reduced_start doc stop fs (py_range_down (stop - 1) (fs - 1)) d =
    Raise IndexError.
Proof.
  intros Hfs Hstop. rewrite py_range_down_cons by lia. simpl.
  by rewrite py_index_out_of_range by lia.
Qed.

Lemma reduce_beyond start stop :
  0 <= start < stop -> py_len doc < stop ->
  _reduce_noun_chunk doc start stop = Raise IndexError.
Proof.
  intros Hstart Hstop. unfold _reduce_noun_chunk.
  destruct (find_full_start_beyond start stop start) as [->|(fs & -> & ?)];
    [done..|]. simpl.
  by rewrite find_reduced_start_beyond by lia.
Qed.

End ReducerLemmas.

(** ** Theorems on [_reduce_noun_chunk] *)

(** On a token range inside the document the reducer returns (it never
    raises [IndexError]) and its result is the one the specification
    describes: the context starts at the first token that starts a chunk,
    and the reduced slice starts after the rightmost token that cuts the
    chunk, unless the chunk is a "this ... movie" chunk or is rejected. *)
Theorem reduce_noun_chunk_refines (doc : Doc) (start stop : Z) :
  0 <= start -> stop <= py_len doc ->
  exists out, _reduce_noun_chunk doc start stop = Ok out /\
              reduce_spec doc start stop out.
Proof. apply reduce_run. Qed.

Lemma reduce_noun_chunk_refines_witness :
  exists out, _reduce_noun_chunk editing_doc 0 6 = Ok out /\
              reduce_spec editing_doc 0 6 out.
Proof. apply reduce_noun_chunk_refines; by vm_compute. Defined.

(** C11. The specification determines the result: on a range inside the
    document the reducer returns [out] exactly when [reduce_spec] relates
    the range to [out]. *)
Theorem reduce_noun_chunk_iff (doc : Doc) (start stop : Z) (out : option Aspect.t) :
  0 <= start -> stop <= py_len doc ->
  _reduce_noun_chunk doc start stop = Ok out <-> reduce_spec doc start stop out.
Proof. split; eauto using reduce_sound, reduce_complete. Qed.

Lemma reduce_noun_chunk_iff_witness :
  _reduce_noun_chunk movie_doc 2 5 =
    Ok (Some (Aspect.__init__ movie_doc 2 5 (Some 2) (Some 5))) <->
  reduce_spec movie_doc 2 5 (Some (Aspect.__init__ movie_doc 2 5 (Some 2) (Some 5))).
Proof. apply reduce_noun_chunk_iff; by vm_compute. Defined.

(** Every aspect the reducer returns for a non-empty range inside the
    document satisfies the data-model invariant; it ends where the range
    ends, its context starts inside the range and ends with it. *)
Theorem reduce_noun_chunk_inv (doc : Doc) (start stop : Z) (a : Aspect.t) :
  0 <= start < stop -> stop <= py_len doc ->
  _reduce_noun_chunk doc start stop = Ok (Some a) ->
  Aspect.inv a /\ Aspect.doc a = doc /\
  start <= Aspect.context_start a /\
  Aspect.stop a = stop /\ Aspect.context_stop a = stop.
Proof.
  intros Hstart Hstop (fs & rs & ? & ? & ->)%reduce_Some_bounds; [|done..].
  cbn. split; [apply init_inv; lia|]. repeat split; lia.
Qed.

Lemma reduce_noun_chunk_inv_witness :
  Aspect.inv (Aspect.__init__ editing_doc 5 6 (Some 0) (Some 6)).
Proof.
  apply (reduce_noun_chunk_inv editing_doc 0 6); [by vm_compute..|reflexivity].
Defined.

(** C33. The reducer rejects a chunk exactly when its last token cuts it:
    the token is a stop word, or neither a noun nor an exception, and the
    chunk is not a "this ... movie" chunk ending there. *)
Theorem reduce_noun_chunk_rejects (doc : Doc) (start stop : Z) :
  0 <= start < stop -> stop <= py_len doc ->
  _reduce_noun_chunk doc start stop = Ok None <->
  exists fs, full_start_spec doc start stop fs /\ cut_at doc fs (stop - 1) = true.
Proof.
  intros Hstart Hstop. split.
  - intros (fs & r & Hfs & Hr & Hout)%reduce_sound; [|lia|done].
    destruct r; [done|]. exists fs. split; [done|]. by inversion Hr.
  - intros (fs & Hfs & Hcut). apply reduce_complete; [lia|done|].
    exists fs, None. repeat split; [done|].
    apply RO_reject; [|done]. destruct Hfs as [?|[-> _]]; lia.
Qed.

Lemma reduce_noun_chunk_rejects_witness :
  _reduce_noun_chunk plot2_doc 0 5 = Ok None <->
  exists fs, full_start_spec plot2_doc 0 5 fs /\ cut_at plot2_doc fs (5 - 1) = true.
Proof. apply reduce_noun_chunk_rejects; by vm_compute. Defined.

(** C34. A chunk that starts with "this" and ends with a movie synonym is
    kept whole: the reduced slice is the context slice. *)
Theorem reduce_noun_chunk_this_movie (doc : Doc) (start stop fs : Z) :
  0 <= start < stop -> stop <= py_len doc ->
  full_start_spec doc start stop fs ->
  keep_at doc fs (stop - 1) = true ->
  _reduce_noun_chunk doc start stop =
    Ok (Some (Aspect.__init__ doc fs stop (Some fs) (Some stop))).
Proof.
  intros Hstart Hstop Hfs Hkeep. apply reduce_complete; [lia|done|].
  exists fs, (Some fs). repeat split; [done|].
  apply (RO_this_movie _ _ _ _ (stop - 1)); [|intros; lia|done].
  destruct Hfs as [?|[-> _]]; lia.
Qed.

Lemma reduce_noun_chunk_this_movie_witness :
  _reduce_noun_chunk movie_doc 2 5 =
    Ok (Some (Aspect.__init__ movie_doc 2 5 (Some 2) (Some 5))).
Proof.
  apply reduce_noun_chunk_this_movie; try by vm_compute.
  left. repeat split; try by vm_compute. intros k Hk. lia.
Defined.

(** After a cut every token of the reduced slice is quiet: a noun or an
    exception word that is not a stop word. *)
Theorem reduce_noun_chunk_reduced_quiet (doc : Doc) (start stop : Z) (a : Aspect.t) :
  0 <= start < stop -> stop <= py_len doc ->
  _reduce_noun_chunk doc start stop = Ok (Some a) ->
  Aspect.start a <> Aspect.context_start a ->
  forall k, Aspect.start a <= k < stop ->
    quiet_at doc (Aspect.context_start a) k = true.
Proof.
  intros Hstart Hstop (fs & r & Hfs & Hr & Hout)%reduce_sound Hne;
    [|lia|done].
  destruct r as [rs|]; [|done]. injection Hout as ->. cbn in *.
  inversion Hr as [| | |i Hi Hq Hc]; subst; try done.
  intros k Hk. apply Hq. unfold cut_point in Hk.
  destruct (token_has _ _ _); lia.
Qed.

Lemma reduce_noun_chunk_reduced_quiet_witness :
  quiet_at editing_doc 0 5 = true.
Proof.
  apply (reduce_noun_chunk_reduced_quiet editing_doc 0 6
           (Aspect.__init__ editing_doc 5 6 (Some 0) (Some 6)));
    by vm_compute.
Defined.

(** C22. The reducer raises exactly when the range ends beyond the document:
    for a non-empty range that starts at a token index the call raises
    [IndexError] if and only if [stop] exceeds the number of tokens, and
    otherwise it returns. *)
Theorem reduce_noun_chunk_raises (doc : Doc) (start stop : Z) :
  0 <= start < stop ->
  (_reduce_noun_chunk doc start stop = Raise IndexError <-> py_len doc < stop) /\
  ((exists out, _reduce_noun_chunk doc start stop = Ok out) <-> stop <= py_len doc).
Proof.
  intros Hstart.
  destruct (decide (stop <= py_len doc)) as [Hin|Hout].
  - destruct (reduce_run doc start stop) as (out & Hrun & _); [lia|done|].
    rewrite Hrun. split; split; try done; try lia. by exists out.
  - rewrite reduce_beyond by lia. split; split; try done; try lia.
    by intros [? ?].
Qed.

Lemma reduce_noun_chunk_raises_witness :
  (_reduce_noun_chunk movie_doc 2 6 = Raise IndexError <-> py_len movie_doc < 6) /\
  ((exists out, _reduce_noun_chunk movie_doc 2 6 = Ok out) <-> 6 <= py_len movie_doc).
Proof. apply reduce_noun_chunk_raises. lia. Defined.
