(* ===== verification/ReducerRef.v ===== *)
(** * The chunk reducer in closed form

    [ChunkReducer._reduce_noun_chunk] models the two loops of the method
    with their reads of the document, which may raise.  This file says
    what the loops search for.  The first loop finds the first token of
    the range that starts a chunk; the second finds the last token of the
    chunk that is loud (not quiet), and the result is decided by that one
    token.  [reduce_ref] is the method written with [find] and without
    exceptions.  Whenever the method returns, on any range of any
    document, it returns what [reduce_ref] computes; on a range inside
    the document it returns. *)

From stdpp Require Import prelude strings list_numbers gmap.
From S2P Require Import Prelude Outcomes Spacy AspectSpan Lexicon ChunkReducer.

#[local] Open Scope Z_scope.

(** Token [k] ends the second loop: it keeps the chunk whole or cuts it. *)
Definition loud_at (doc : Doc) (full_start k : Z) : bool :=
  negb (quiet_at doc full_start k).

(** The value of [full_start] after the first loop over [indices], when
    the variable held [d] before: the first index whose token starts a
    chunk. *)
Definition full_start_ref (doc : Doc) (indices : list Z) (d : Z) : Z :=
  default d (find (token_has starts_chunk doc) indices).

(** What the second loop over [indices] decides, by the first loud token
    it meets: [None] is [return None], [Some r] the value of
    [reduced_start]. *)
Definition reduced_start_ref (doc : Doc) (stop full_start : Z)
    (indices : list Z) (d : Z) : option Z :=
  match find (loud_at doc full_start) indices with
  | None => Some d
  | Some i =>
      if keep_at doc full_start i then Some d
      else if i =? stop - 1 then None
      else Some (cut_point doc stop i)
  end.

(** [self._reduce_noun_chunk(doc, start, stop)], without loops. *)
Definition reduce_ref (doc : Doc) (start stop : Z) : option Aspect.t :=
  let full_start := full_start_ref doc (py_range start stop) start in
  (fun reduced_start =>
     Aspect.__init__ doc reduced_start stop (Some full_start) (Some stop)) <$>
  reduced_start_ref doc stop full_start
    (py_range_down (stop - 1) (full_start - 1)) full_start.

(** ** Lemmas *)

Section ReducerRefLemmas.
Context (doc : Doc).
Implicit Types (start stop fs d i k : Z) (l : list Z) (t : Token.t).

(** A test that returns is the test on the tokens. *)
Lemma keeps_this_movie_Ok fs k t keep :
  py_index doc k = Ok t -> keeps_this_movie doc fs t = Ok keep ->
  keep = keep_at doc fs k.
Proof.
  intros Ht. unfold keeps_this_movie, keep_at, and_then.
  rewrite (token_has_Ok _ _ _ _ Ht).
  destruct (str_in _ MOVIE_SYNONYMS); [|by intros [= <-]].
  intros (first & Hfirst & [= <-])%bind_Ok_inv.
  by rewrite (token_has_Ok _ _ _ _ Hfirst).
Qed.

Lemma cut_after_Ok stop i r :
  cut_after doc stop i = Ok r -> r = cut_point doc stop i.
Proof.
  unfold cut_after, cut_point. intros (next & Hnext & H)%bind_Ok_inv.
  rewrite (token_has_Ok _ _ _ _ Hnext).
  destruct (str_in _ JOINERS); by injection H.
Qed.

(** The first loop, when it returns, has found the first token that
    starts a chunk. *)
Lemma find_full_start_ref l d fs :
  find_full_start doc l d = Ok fs -> fs = full_start_ref doc l d.
Proof.
  unfold full_start_ref. induction l as [|i l IH]; cbn [find_full_start find].
  - by intros [= <-].
  - intros (t & Ht & H)%bind_Ok_inv. rewrite (token_has_Ok _ _ _ _ Ht).
    destruct (starts_chunk t); [by injection H|auto].
Qed.

(** The second loop, when it returns, has decided by the first loud token
    of its range. *)
Lemma find_reduced_start_ref stop fs l d r :
  find_reduced_start doc stop fs l d = Ok r ->
  r = reduced_start_ref doc stop fs l d.
Proof.
  unfold reduced_start_ref, loud_at, quiet_at.
  induction l as [|i l IH]; cbn [find_reduced_start find].
  - by intros [= <-].
  - intros (t & Ht & (keep & Hkeep & H)%bind_Ok_inv)%bind_Ok_inv.
    pose proof (keeps_this_movie_Ok fs i t keep Ht Hkeep) as Hk.
    rewrite <- Hk, (token_has_Ok _ _ _ _ Ht).
    destruct keep; cbn [negb andb]; [rewrite <- Hk; by injection H|].
    destruct (cuts_chunk t); cbn [negb andb]; [rewrite <- Hk|auto].
    destruct (i =? stop - 1); [by injection H|].
    by apply bind_Ok_inv in H as (r' & ->%cut_after_Ok & [= <-]).
Qed.

(** Whenever the method returns, it returns its closed form. *)
Lemma reduce_Ok_ref start stop out :
  _reduce_noun_chunk doc start stop = Ok out -> out = reduce_ref doc start stop.
Proof.
  unfold _reduce_noun_chunk, reduce_ref.
  intros (fs & ->%find_full_start_ref & (r & ->%find_reduced_start_ref & H)%bind_Ok_inv)%bind_Ok_inv.
  destruct (reduced_start_ref _ _ _ _ _); by injection H.
Qed.

(** On a range inside the document the method returns its closed form. *)
Lemma reduce_run_ref start stop :
  0 <= start -> stop <= py_len doc ->
  _reduce_noun_chunk doc start stop = Ok (reduce_ref doc start stop).
Proof.
  intros Hstart Hstop.
  destruct (reduce_run doc start stop Hstart Hstop) as (out & Hrun & _).
  by rewrite Hrun, (reduce_Ok_ref start stop out Hrun).
Qed.

(** The method reads the document and nothing else. *)
Lemma find_full_start_safe l d : safe (find_full_start doc l d).
Proof. induction l as [|i l IH]; cbn [find_full_start]; safe_tac. Qed.

Lemma find_reduced_start_safe stop fs l d :
  safe (find_reduced_start doc stop fs l d).
Proof.
  induction l as [|i l IH]; cbn [find_reduced_start]; [done|].
  unfold keeps_this_movie, cut_after. safe_tac.
Qed.

Lemma reduce_safe start stop : safe (_reduce_noun_chunk doc start stop).
Proof.
  unfold _reduce_noun_chunk.
  apply safe_bind; [apply find_full_start_safe|intros fs _].
  apply safe_bind; [apply find_reduced_start_safe|intros r _]. by destruct r.
Qed.

(** On every range the method returns its closed form, unless it reads
    outside the document. *)
Lemma reduce_yields start stop :
  yields (_reduce_noun_chunk doc start stop) (reduce_ref doc start stop).
Proof. apply yields_intro; [apply reduce_safe|apply reduce_Ok_ref]. Qed.

(** The closed form meets the contract of the reducer. *)
Lemma reduce_ref_spec start stop :
  0 <= start -> stop <= py_len doc ->
  reduce_spec doc start stop (reduce_ref doc start stop).
Proof.
  intros Hstart Hstop. apply reduce_sound; [done..|]. by apply reduce_run_ref.
Qed.

End ReducerRefLemmas.

(** ** Theorems *)

(** C12. The reducer is its closed form.  Whatever the document and the
    range, negative indices included, a call of [_reduce_noun_chunk]
    returns what [reduce_ref] computes with two searches, or it raises
    [IndexError]: the context starts at the first token of the range that
    starts a chunk, and the first loud token found from the right decides
    between the whole chunk, the rejection and the cut.  On a range
    inside the document the call returns. *)
Theorem reduce_noun_chunk_closed (doc : Doc) (start stop : Z) :
  (_reduce_noun_chunk doc start stop = Ok (reduce_ref doc start stop) \/
   _reduce_noun_chunk doc start stop = Raise IndexError) /\
  (0 <= start -> stop <= py_len doc ->
   _reduce_noun_chunk doc start stop = Ok (reduce_ref doc start stop)).
Proof. split; [apply reduce_yields|apply reduce_run_ref]. Qed.

Lemma reduce_noun_chunk_closed_witness :
  _reduce_noun_chunk movie_doc 2 5 = Ok (reduce_ref movie_doc 2 5).
Proof.
  apply (proj2 (reduce_noun_chunk_closed movie_doc 2 5)); [lia|by vm_compute].
Defined.

(** "I liked this long movie": the chunk is kept whole; "clean - cut
    editing": the cut skips the joiner; a range that wraps around the end
    of the document is read as Python reads it. *)
Example reduce_ref_examples :
  Aspect.text <$> reduce_ref movie_doc 2 5 = Some "this long movie" /\
  Aspect.text <$> reduce_ref editing_doc 0 6 = Some "editing" /\
  _reduce_noun_chunk movie_doc (-3) 5 = Ok (reduce_ref movie_doc (-3) 5).
Proof. repeat split; by vm_compute. Qed.
