(* ===== verification/SentenceScanner.v ===== *)
(** * The sentence scanner: the first loop of [AspectExtractor.__call__]

    The loop walks the tokens of a document from the last to the first.
    Its state is the pair of the variables [min_pos] and [aspects]; one
    iteration is [scan_step].  A noun token hands its subtree to the chunk
    reducer; a whitelisted non-noun token becomes a one-token aspect; a
    token at or after [min_pos] is skipped.  [scan_spec] says which aspects
    the scan must return, without the loop: the candidates of the tokens
    that no returned aspect covers. *)

From stdpp Require Import prelude strings list_numbers gmap sorting.
From S2P Require Import Prelude Spacy AspectSpan Lexicon ChunkReducer.

#[local] Open Scope Z_scope.

(** The variables of the loop. *)
Record scan_state : Type := mk_scan {
  min_pos : Z;
  aspects : list Aspect.t;
}.

(** [chunk and chunk != '']: [None] is false, an [Aspect] is true, and
    [!=] on an [Aspect] and a [str] negates [__eq__]. *)
Definition accepted (chunk : option Aspect.t) : option Aspect.t :=
  match chunk with
  | Some c => if Aspect.__ne__ c (Aspect.PyStr EmptyString) then Some c else None
  | None => None
  end.

(** One iteration of the loop, at index [i]. *)
Definition scan_step (doc : Doc) (st : scan_state) (i : Z) : result scan_state :=
  if min_pos st <=? i then Ok st
  else
    let* word := py_index doc i in
    if in_POS_WHITELIST (Token.pos_ word) then
      let* chunk := _reduce_noun_chunk doc (Token.left_edge word) (i + 1) in
      match accepted chunk with
      | Some c => Ok {| min_pos := Aspect.context_start c;
                        aspects := c :: aspects st |}
      | None => Ok st
      end
    else if str_in (Token.lower_ word) NON_NOUN_ASPECTS then
      Ok {| min_pos := i;
            aspects := Aspect.__init__ doc i (i + 1) None None :: aspects st |}
    else Ok st.

(** The whole loop: the list [aspects] when it ends. *)
Definition scan (doc : Doc) : result (list Aspect.t) :=
  let* st := for_each (scan_step doc) (py_range_down (py_len doc - 1) (-1))
               {| min_pos := py_len doc; aspects := [] |} in
  Ok (aspects st).

(** ** The loop invariant *)

Record scan_inv (doc : Doc) (st : scan_state) : Prop := mk_scan_inv {
  si_min_pos : 0 <= min_pos st <= py_len doc;
  si_aspects : Forall (fun a => aspect_of doc a /\ fresh a) (aspects st);
  si_ordered : contexts_ordered (min_pos st) (aspects st);
}.

(** Where an aspect of the scanner comes from. *)
Definition from_noun (doc : Doc) (a : Aspect.t) : Prop :=
  exists i word,
    py_index doc i = Ok word /\ 0 <= i /\
    in_POS_WHITELIST (Token.pos_ word) = true /\
    _reduce_noun_chunk doc (Token.left_edge word) (i + 1) = Ok (Some a) /\
    Aspect.text a <> EmptyString.

Definition from_whitelist (doc : Doc) (a : Aspect.t) : Prop :=
  exists i word,
    py_index doc i = Ok word /\ 0 <= i /\
    in_POS_WHITELIST (Token.pos_ word) = false /\
    Token.lower_ word ∈ NON_NOUN_ASPECTS /\
    a = Aspect.__init__ doc i (i + 1) None None.

(** ** Specification of the scan *)

(** What the body of the loop inserts for token [i] when it does not skip
    it: the aspect of the two branches, if any. *)
Definition candidate (doc : Doc) (i : Z) : result (option Aspect.t) :=
  let* word := py_index doc i in
  if in_POS_WHITELIST (Token.pos_ word) then
    let* chunk := _reduce_noun_chunk doc (Token.left_edge word) (i + 1) in
    Ok (accepted chunk)
  else if str_in (Token.lower_ word) NON_NOUN_ASPECTS then
    Ok (Some (Aspect.__init__ doc i (i + 1) None None))
  else Ok None.

(** The state after the body has inserted [r]. *)
Definition pushed (r : option Aspect.t) (st : scan_state) : scan_state :=
  match r with
  | Some c => {| min_pos := Aspect.context_start c; aspects := c :: aspects st |}
  | None => st
  end.

(** Token [i] lies in the context of an aspect of [l], before the last
    token of the aspect: the loop skips it. *)
Definition covered (l : list Aspect.t) (i : Z) : Prop :=
  Exists (fun a => Aspect.context_start a <= i < Aspect.stop a - 1) l.

#[export] Instance covered_dec l i : Decision (covered l i).
Proof. unfold covered. apply _. Defined.

(** The aspects of [l] are exactly what the tokens of [[lo, hi)] that no
    aspect of [l] covers insert. *)
Definition scanned (doc : Doc) (lo hi : Z) (l : list Aspect.t) : Prop :=
  forall a, a ∈ l <->
    exists i, lo <= i < hi /\ candidate doc i = Ok (Some a) /\ ~ covered l i.

Definition scan_spec (doc : Doc) (l : list Aspect.t) : Prop :=
  scanned doc 0 (py_len doc) l.

(** The order of the aspects of a scan: by the end of the reduced slice. *)
Definition ends_before (a b : Aspect.t) : Prop :=
  Aspect.stop a < Aspect.stop b.

(** What the scanner returns, said without the loop: the aspects of
    [scan_spec], from left to right. *)
Definition scan_result (doc : Doc) (l : list Aspect.t) : Prop :=
  scan_spec doc l /\ StronglySorted ends_before l.

(** The invariant of the loop before it visits token [k]: the tokens after
    [k] are scanned, and the tokens from [min_pos] to [k] are covered. *)
Record scan_cover (doc : Doc) (k : Z) (st : scan_state) : Prop := mk_scan_cover {
  sc_inv : scan_inv doc st;
  sc_skip : forall j, min_pos st <= j <= k -> covered (aspects st) j;
  sc_scanned : scanned doc (k + 1) (py_len doc) (aspects st);
}.

(** ** Worked example *)

(** "The acting and the plot were great" *)
Definition acting_doc : Doc :=
  mk_doc [tok "The" "DET" " " 0; tok "acting" "NOUN" " " 0; tok "and" "CCONJ" " " 2;
          tok "the" "DET" " " 3; tok "plot" "NOUN" " " 3; tok "were" "AUX" " " 5;
          tok "great" "ADJ" "" 6].

(** ** Lemmas *)

Section ScannerLemmas.
Context (doc : Doc) (Hwf : wf_doc doc).
Implicit Types (st : scan_state) (i : Z) (a : Aspect.t).

Lemma accepted_Some chunk c :
  accepted chunk = Some c -> chunk = Some c /\ Aspect.text c <> EmptyString.
Proof.
  destruct chunk as [c'|]; simpl; [|done].
  unfold Aspect.__ne__, Aspect.__eq__, Aspect.__str__.
  destruct (String.eqb_spec (Aspect.text c') EmptyString); simpl; [done|].
  by intros [= ->].
Qed.

Lemma scan_inv_init : scan_inv doc {| min_pos := py_len doc; aspects := [] |}.
Proof. constructor; simpl; [pose proof (py_len_nonneg doc); lia|done..]. Qed.

(** Pushing an aspect whose context ends at or before [min_pos]. *)
Lemma scan_inv_push st a :
  scan_inv doc st -> aspect_of doc a -> fresh a ->
  Aspect.context_stop a <= min_pos st ->
  scan_inv doc {| min_pos := Aspect.context_start a; aspects := a :: aspects st |}.
Proof.
  intros [Hm Ha Ho] [Hinv Hdoc] Hfresh Hstop. pose proof Hinv as [].
  constructor; simpl.
  - lia.
  - by constructor.
  - split; [lia|]. by eapply chain_mono.
Qed.

Lemma scan_step_spec st i :
  0 <= i < py_len doc -> scan_inv doc st ->
  exists st', scan_step doc st i = Ok st' /\ scan_inv doc st'.
Proof.
  intros Hi Hinv. unfold scan_step.
  destruct (Z.leb_spec (min_pos st) i) as [|Hlt]; [eauto|].
  destruct (py_index_nonneg doc i) as (word & Hword & _); [done|].
  rewrite Hword. simpl.
  destruct (wf_doc_index doc i word Hwf) as [_ Hedge]; [lia|done|].
  destruct (in_POS_WHITELIST _).
  - destruct (reduce_run doc (Token.left_edge word) (i + 1))
      as (chunk & Hrun & _); [lia..|].
    rewrite Hrun. simpl. destruct (accepted chunk) as [c|] eqn:Hacc; [|eauto].
    apply accepted_Some in Hacc as [-> _].
    apply reduce_Some_bounds in Hrun as (fs & rs & ? & ? & ->); [|lia..].
    eexists; split; [done|].
    apply (scan_inv_push st (Aspect.__init__ doc rs (i + 1) (Some fs) (Some (i + 1))));
      [done| |done|cbn; lia].
    split; [apply init_inv; lia|done].
  - destruct (str_in _ NON_NOUN_ASPECTS); [|eauto].
    eexists; split; [done|].
    apply (scan_inv_push st (Aspect.__init__ doc i (i + 1) None None));
      [done| |done|cbn; lia].
    split; [apply init_inv_default; lia|done].
Qed.

(** The scanner returns, in a state that satisfies the invariant. *)
Lemma scan_run :
  exists l, scan doc = Ok l /\
    Forall (fun a => aspect_of doc a /\ fresh a) l /\ contexts_ordered 0 l.
Proof.
  unfold scan.
  destruct (for_each_total (scan_inv doc) (scan_step doc)
              (py_range_down (py_len doc - 1) (-1))
              {| min_pos := py_len doc; aspects := [] |})
    as (st & -> & [Hm Ha Ho]).
  - apply scan_inv_init.
  - intros st i Hi%elem_of_py_range_down. apply scan_step_spec. lia.
  - simpl. exists (aspects st). split; [done|]. split; [done|].
    eapply chain_mono; [|done]. lia.
Qed.

(** *** The scan against its specification *)

(** The body of the loop: skip, or insert the candidate. *)
Lemma scan_step_candidate st i :
  scan_step doc st i =
  if min_pos st <=? i then Ok st
  else let* r := candidate doc i in Ok (pushed r st).
Proof.
  unfold scan_step, candidate. destruct (min_pos st <=? i); [done|].
  destruct (py_index doc i) as [word| |]; simpl; [|done..].
  destruct (in_POS_WHITELIST _).
  - destruct (_reduce_noun_chunk _ _ _) as [chunk| |]; simpl; [|done..].
    by destruct (accepted chunk).
  - by destruct (str_in _ _).
Qed.

(** Every token has a candidate or none: the body raises nowhere. *)
Lemma candidate_total i :
  0 <= i < py_len doc -> exists r, candidate doc i = Ok r.
Proof.
  intros Hi. unfold candidate.
  destruct (py_index_nonneg doc i) as (word & Hword & _); [done|].
  destruct (wf_doc_index doc i word Hwf) as [_ Hedge]; [lia|done|].
  rewrite Hword. simpl.
  destruct (in_POS_WHITELIST _); [|destruct (str_in _ _); eauto].
  destruct (reduce_run doc (Token.left_edge word) (i + 1)) as (chunk & -> & _);
    [lia..|]. simpl. eauto.
Qed.

(** The candidate of token [i] ends with token [i]. *)
Lemma candidate_stop i c :
  0 <= i < py_len doc -> candidate doc i = Ok (Some c) ->
  Aspect.stop c = i + 1 /\ Aspect.context_start c <= i.
Proof.
  intros Hi. unfold candidate. intros H.
  apply bind_Ok_inv in H as (word & Hword & H).
  destruct (wf_doc_index doc i word Hwf) as [_ Hedge]; [lia|done|].
  destruct (in_POS_WHITELIST _).
  - apply bind_Ok_inv in H as (chunk & Hrun & [= Hacc]).
    apply accepted_Some in Hacc as [-> _].
    apply reduce_Some_bounds in Hrun as (fs & rs & ? & ? & ->); [|lia..].
    cbn. lia.
  - destruct (str_in _ _); [|done]. injection H as <-. cbn. lia.
Qed.

Lemma covered_cons c l i :
  covered (c :: l) i <->
  Aspect.context_start c <= i < Aspect.stop c - 1 \/ covered l i.
Proof. apply Exists_cons. Qed.

(** No aspect of an ordered list covers a token before its lower bound. *)
Lemma not_covered_below lo l i :
  Forall Aspect.inv l -> contexts_ordered lo l -> i < lo -> ~ covered l i.
Proof.
  unfold contexts_ordered. intros Hall. revert lo.
  induction Hall as [|a l [] _ IH]; intros lo Hord Hi; [by intros ?%Exists_nil|].
  destruct Hord as [? Hord]. rewrite covered_cons. intros [?|Hc]; [lia|].
  apply (IH (Aspect.context_stop a)); [done|lia|done].
Qed.

(** A token that inserts nothing new extends the scanned range. *)
Lemma scanned_extend l k hi :
  (forall a, candidate doc k = Ok (Some a) -> covered l k) ->
  scanned doc (k + 1) hi l -> scanned doc k hi l.
Proof.
  intros Hnew Hsc a. rewrite (Hsc a).
  split; intros (i & Hi & Hc & Hn); exists i; (split; [|done]); [lia|].
  destruct (decide (i = k)) as [->|]; [|lia]. destruct Hn. eauto.
Qed.

(** A token that inserts its candidate extends the scanned range. *)
Lemma scanned_push l k hi c :
  k < hi -> candidate doc k = Ok (Some c) -> Aspect.stop c = k + 1 ->
  ~ covered l k ->
  scanned doc (k + 1) hi l -> scanned doc k hi (c :: l).
Proof.
  intros Hk Hc Hstop Hn Hsc a. rewrite elem_of_cons, (Hsc a).
  setoid_rewrite covered_cons. split.
  - intros [->|(i & Hi & Ha & Hi')]; [exists k|exists i];
      (split; [lia|]); (split; [done|]); intros [?|?]; done || lia.
  - intros (i & Hi & Ha & Hi'). destruct (decide (i = k)) as [->|].
    + left. congruence.
    + right. exists i. split; [lia|]. split; [done|]. tauto.
Qed.

(** One iteration keeps the invariant of the scan. *)
Lemma scan_cover_step k st st' :
  0 <= k < py_len doc -> scan_cover doc k st ->
  scan_step doc st k = Ok st' -> scan_cover doc (k - 1) st'.
Proof.
  intros Hk [Hinv Hskip Hsc] Hstep.
  assert (scan_inv doc st') as Hinv'.
  { destruct (scan_step_spec st k Hk Hinv) as (? & ? & ?). congruence. }
  rewrite scan_step_candidate in Hstep.
  constructor; [done|..]; replace (k - 1 + 1) with k by lia;
    destruct (Z.leb_spec (min_pos st) k).
  - injection Hstep as <-. intros. apply Hskip. lia.
  - apply bind_Ok_inv in Hstep as (r & Hr & [= <-]).
    destruct r as [c|]; simpl; [|intros; apply Hskip; lia].
    destruct (candidate_stop k c Hk Hr). intros j Hj.
    apply covered_cons. left. lia.
  - injection Hstep as <-. apply scanned_extend; [|done].
    intros _ _. apply Hskip. lia.
  - apply bind_Ok_inv in Hstep as (r & Hr & [= <-]).
    destruct r as [c|]; simpl; [|apply scanned_extend; [congruence|done]].
    destruct (candidate_stop k c Hk Hr). apply scanned_push; [lia|done..| |done].
    destruct Hinv as [_ Hall Hord].
    apply (not_covered_below (min_pos st)); [|done|lia].
    eapply Forall_impl; [done|]. by intros a [[? ?] ?].
Qed.

(** The scanner implements its specification. *)
Lemma scan_refines l : scan doc = Ok l -> scan_spec doc l.
Proof.
  unfold scan. intros H. apply bind_Ok_inv in H as (st & Hloop & [= <-]).
  pose proof (py_len_nonneg doc).
  apply (for_range_down_inv (scan_cover doc)) in Hloop; [by destruct Hloop|lia| |].
  - constructor; simpl; [apply scan_inv_init|lia|].
    intros a. split; [by intros ?%elem_of_nil|]. intros (i & ? & _). lia.
  - intros k s1 s2 Hk. apply scan_cover_step. lia.
Qed.

(** *** The specification has one solution *)

(** Ordered contexts of valid aspects are sorted by their ends. *)
Lemma contexts_ordered_sorted lo l :
  Forall Aspect.inv l -> contexts_ordered lo l -> StronglySorted ends_before l.
Proof.
  unfold contexts_ordered. intros Hall. revert lo.
  induction Hall as [|a l Ha Hl IH]; intros lo; [constructor|].
  intros [_ Hr]. constructor; [by eapply IH|].
  apply (chain_lower _ _ _ l) in Hr;
    [|eapply Forall_impl; [done|]; intros b []; simpl; lia].
  apply Forall_forall. intros b Hb. unfold ends_before.
  pose proof (proj1 (Forall_forall _ _) Hr b Hb).
  destruct Ha, (proj1 (Forall_forall _ _) Hl b Hb). simpl in *. lia.
Qed.

Lemma sorted_NoDup l : StronglySorted ends_before l -> NoDup l.
Proof.
  induction 1 as [|a l _ IH Ha]; constructor; [|done].
  intros Hin. apply (proj1 (Forall_forall _ _) Ha) in Hin.
  unfold ends_before in Hin. lia.
Qed.

(** A token covered in one solution is covered in the other, when the
    tokens after it are. *)
Lemma covered_step l1 l2 i :
  scan_spec doc l1 -> scan_spec doc l2 ->
  (forall k, i < k < py_len doc -> covered l2 k -> covered l1 k) ->
  covered l1 i -> covered l2 i.
Proof.
  intros H1 H2 IH (a & Ha & Hcov)%Exists_exists.
  apply H1 in Ha as (k & Hk & Hc & Hn).
  destruct (candidate_stop k a Hk Hc). apply Exists_exists.
  exists a. split; [|done]. apply H2. exists k. split; [done|].
  split; [done|]. intros Hc2. apply Hn, IH; [lia|done].
Qed.

Lemma covered_same l1 l2 (n : nat) i :
  scan_spec doc l1 -> scan_spec doc l2 ->
  py_len doc - i <= Z.of_nat n -> covered l1 i <-> covered l2 i.
Proof.
  intros H1 H2. revert i. induction n as [|n IH]; intros i Hi;
    split; apply covered_step; try done; intros k Hk; try lia;
    apply IH; lia.
Qed.

(** Two solutions have the same aspects. *)
Lemma scan_spec_elements l1 l2 a :
  scan_spec doc l1 -> scan_spec doc l2 -> a ∈ l1 -> a ∈ l2.
Proof.
  intros H1 H2 (k & Hk & Hc & Hn)%H1. apply H2. exists k.
  split; [done|]. split; [done|]. intros Hc2. apply Hn.
  by apply (covered_same l1 l2 (Z.to_nat (py_len doc - k)) k H1 H2); [lia|].
Qed.

Lemma scan_result_unique l1 l2 :
  scan_result doc l1 -> scan_result doc l2 -> l1 = l2.
Proof.
  intros [H1 Hs1] [H2 Hs2].
  apply (StronglySorted_unique_strong ends_before); [|done..|].
  - unfold ends_before. intros. lia.
  - apply NoDup_Permutation; [by apply sorted_NoDup..|].
    intros a. split; by apply scan_spec_elements.
Qed.

(** The scanner returns the solution. *)
Lemma scan_result_run : exists l, scan doc = Ok l /\ scan_result doc l.
Proof.
  destruct scan_run as (l & Hrun & Hall & Hord). exists l. split; [done|].
  split; [by apply scan_refines|].
  apply (contexts_ordered_sorted 0); [|done].
  eapply Forall_impl; [done|]. by intros a [[? ?] ?].
Qed.

(** What the scanner returns meets its specification. *)
Lemma scan_result_intro l : scan doc = Ok l -> scan_result doc l.
Proof.
  destruct scan_result_run as (l' & Hrun & Hres). intros Hl.
  by assert (l' = l) as <- by congruence.
Qed.

End ScannerLemmas.

Section ScannerOrigin.
Context (doc : Doc).

Lemma scan_step_origin st i st' :
  0 <= i ->
  Forall (fun a => from_noun doc a \/ from_whitelist doc a) (aspects st) ->
  scan_step doc st i = Ok st' ->
  Forall (fun a => from_noun doc a \/ from_whitelist doc a) (aspects st').
Proof.
  intros Hi Hall. unfold scan_step. intros H.
  destruct (min_pos st <=? i); [by res_inv|].
  apply bind_Ok_inv in H as (word & Hword & H).
  destruct (in_POS_WHITELIST (Token.pos_ word)) eqn:Hpos.
  - apply bind_Ok_inv in H as (chunk & Hrun & H).
    destruct (accepted chunk) as [c|] eqn:Hacc; [|by res_inv].
    apply accepted_Some in Hacc as [-> Htext]. res_inv. simpl.
    constructor; [|done]. left. by exists i, word.
  - destruct (str_in _ NON_NOUN_ASPECTS) eqn:Hin; [|by res_inv].
    res_inv. simpl. constructor; [|done]. right. exists i, word.
    by apply str_in_true in Hin.
Qed.

End ScannerOrigin.

(** ** Theorems on the scanner *)

(** On a document that honours the token-source contract the scanner
    returns: no token read and no call of the reducer raises. *)
Theorem scan_total (doc : Doc) :
  wf_doc doc -> exists l, scan doc = Ok l.
Proof. intros Hwf. destruct (scan_run doc Hwf) as (l & ? & _). eauto. Qed.

Lemma scan_total_witness : exists l, scan acting_doc = Ok l.
Proof. apply scan_total. apply wf_docb_spec. reflexivity. Defined.

(** Every aspect the scanner returns is an aspect of the scanned document
    that satisfies the data-model invariant, with no expansion made and
    ordinal 0. *)
Theorem scan_aspects_valid (doc : Doc) (l : list Aspect.t) :
  wf_doc doc -> scan doc = Ok l ->
  Forall (fun a => Aspect.inv a /\ Aspect.doc a = doc /\ fresh a) l.
Proof.
  intros Hwf Hrun. destruct (scan_run doc Hwf) as (l' & Hrun' & Hall & _).
  assert (l' = l) as -> by congruence.
  eapply Forall_impl; [done|]. by intros a [[? ?] ?].
Qed.

Lemma scan_aspects_valid_witness :
  Forall (fun a => Aspect.inv a /\ Aspect.doc a = acting_doc /\ fresh a)
    [Aspect.__init__ acting_doc 1 2 (Some 0) (Some 2);
     Aspect.__init__ acting_doc 4 5 (Some 3) (Some 5)].
Proof.
  apply scan_aspects_valid; [apply wf_docb_spec|]; reflexivity.
Defined.

(** C18. The aspects of the scanner are in left-to-right token order and do
    not overlap: each context slice, and so each reduced slice, ends at or
    before the start of the next one. *)
Theorem scan_ordered (doc : Doc) (l : list Aspect.t) :
  wf_doc doc -> scan doc = Ok l ->
  contexts_ordered 0 l /\ reduced_ordered 0 l.
Proof.
  intros Hwf Hrun. destruct (scan_run doc Hwf) as (l' & Hrun' & Hall & Hord).
  assert (l' = l) as -> by congruence. split; [done|].
  apply contexts_reduced_ordered; [|done].
  eapply Forall_impl; [done|]. by intros a [[? ?] ?].
Qed.

Lemma scan_ordered_witness :
  contexts_ordered 0 [Aspect.__init__ acting_doc 1 2 (Some 0) (Some 2);
                      Aspect.__init__ acting_doc 4 5 (Some 3) (Some 5)] /\
  reduced_ordered 0 [Aspect.__init__ acting_doc 1 2 (Some 0) (Some 2);
                     Aspect.__init__ acting_doc 4 5 (Some 3) (Some 5)].
Proof. apply (scan_ordered acting_doc); [apply wf_docb_spec|]; reflexivity. Defined.

(** Every aspect of the scanner has one of two origins: the reducer
    accepted the subtree of a token that passes the whitelist test and the
    reduced text is not empty, or a token that fails the test is one of the
    whitelisted non-noun words and the aspect is that single token. *)
Theorem scan_origin (doc : Doc) (l : list Aspect.t) :
  scan doc = Ok l ->
  Forall (fun a => from_noun doc a \/ from_whitelist doc a) l.
Proof.
  unfold scan. intros H. apply bind_Ok_inv in H as (st & Hloop & H). res_inv.
  revert Hloop.
  apply (for_each_inv
    (fun st => Forall (fun a => from_noun doc a \/ from_whitelist doc a) (aspects st)));
    [by constructor|].
  intros s1 i s2 Hi%elem_of_py_range_down. apply scan_step_origin. lia.
Qed.

Lemma scan_origin_witness :
  Forall (fun a => from_noun acting_doc a \/ from_whitelist acting_doc a)
    [Aspect.__init__ acting_doc 1 2 (Some 0) (Some 2);
     Aspect.__init__ acting_doc 4 5 (Some 3) (Some 5)].
Proof. apply scan_origin. reflexivity. Defined.

(** C13. The scanner is characterised by its specification.  On a document
    that honours the token contract the scanner returns [l] exactly when
    [l] lists, from left to right, the aspects of [scan_spec]: an aspect
    is returned exactly when some token that no returned aspect covers
    inserts it, as the reduced chunk of a noun or as a whitelisted
    non-noun word.  The specification has one solution, so no candidate
    outside the chunks already taken is lost and none is added. *)
Theorem scan_iff (doc : Doc) (l : list Aspect.t) :
  wf_doc doc -> scan doc = Ok l <-> scan_result doc l.
Proof.
  intros Hwf. split; [by apply scan_result_intro|].
  destruct (scan_result_run doc Hwf) as (l' & Hrun & Hres).
  intros Hl. by rewrite (scan_result_unique doc Hwf l l').
Qed.

Lemma scan_iff_witness :
  scan_result acting_doc
    [Aspect.__init__ acting_doc 1 2 (Some 0) (Some 2);
     Aspect.__init__ acting_doc 4 5 (Some 3) (Some 5)].
Proof. apply scan_iff; [apply wf_docb_spec|]; reflexivity. Defined.

(** The sentence "The acting and the plot were great": the scanner
    returns the aspects "acting" and "plot", in that order. *)
Example scan_acting_plot :
  exists a1 a2, scan acting_doc = Ok [a1; a2] /\
    Aspect.text a1 = "acting" /\ Aspect.text a2 = "plot" /\
    Aspect.context a1 = "The acting" /\ Aspect.context a2 = "the plot".
Proof. by eexists _, _. Qed.

(** The test [chunk != ''] rejects nothing inside the token contract:
    when every token has text, a chunk the reducer returns for a non-empty
    range inside the document has text, and the scanner takes it. *)
Theorem accepted_inside_contract (doc : Doc) (start stop : Z)
    (chunk : option Aspect.t) :
  0 <= start < stop -> stop <= py_len doc ->
  Forall (fun t => Token.text t <> EmptyString) doc ->
  _reduce_noun_chunk doc start stop = Ok chunk ->
  accepted chunk = chunk.
Proof.
  intros Hstart Hstop Htext Hrun. destruct chunk as [c|]; [|done].
  destruct (reduce_Some_bounds doc start stop c) as (fs & rs & ? & ? & ->);
    [done..|].
  unfold accepted, Aspect.__ne__, Aspect.__eq__, Aspect.__str__.
  rewrite (proj2 (String.eqb_neq _ _)); [done|].
  apply (aspect_text_nonempty doc); [done|]. split; [|done].
  apply init_inv; lia.
Qed.

Lemma accepted_inside_contract_witness :
  accepted (Some (Aspect.__init__ movie_doc 2 5 (Some 2) (Some 5))) =
  Some (Aspect.__init__ movie_doc 2 5 (Some 2) (Some 5)).
Proof.
  apply (accepted_inside_contract movie_doc 2 5); [lia|by vm_compute| |reflexivity].
  repeat constructor; by vm_compute.
Defined.

(** Outside the contract the test does reject: a noun whose left edge lies
    after it gives the reducer the empty range [[4, 3)], the chunk returned has no
    text, and the scanner drops it. *)
Example accepted_rejects_empty_range :
  exists c, _reduce_noun_chunk movie_doc 4 3 = Ok (Some c) /\
            Aspect.text c = EmptyString /\ accepted (Some c) = None.
Proof. by eexists. Qed.

(** The scanner returns new aspects: none has a label or a category. *)
Lemma scan_unlabelled (doc : Doc) (l : list Aspect.t) :
  scan doc = Ok l -> Forall unlabelled l.
Proof.
  intros Hall%scan_origin. eapply Forall_impl; [done|].
  intros a [(i & word & _ & _ & _ & (rs & fs & ->)%reduce_Some_init & _)|
            (i & word & _ & _ & _ & _ & ->)]; apply init_unlabelled.
Qed.
