(* ===== verification/ScannerRef.v ===== *)
(** * The sentence scanner by jumps

    [SentenceScanner.scan] models the first loop of [__call__] as the code
    writes it: it visits every token from right to left and skips those
    at or after [min_pos].  This file says where the loop does its work.
    After an aspect is found at token [k] the next token that is not
    skipped is the one before the context of that aspect, so the scan
    jumps there; [scan_jump] is that recursion, well founded because a
    jump goes left, and it builds the list from left to right without
    insertion at the front.  Whenever the loop of the code returns, on any
    document, it returns what [scan_ref] computes; on a document that
    honours the token contract it returns. *)

From Equations Require Import Equations.
From Equations.Prop Require Import Logic.
From stdpp Require Import prelude strings list_numbers gmap.
From S2P Require Import Prelude Outcomes Spacy AspectSpan Lexicon ChunkReducer.
From S2P Require Import ReducerRef SentenceScanner.

#[local] Open Scope Z_scope.

Unset Equations With Funext.

(** What the body of the loop inserts for token [i], without exceptions:
    the accepted chunk of a noun, or a whitelisted token. *)
Definition candidate_ref (doc : Doc) (i : Z) : option Aspect.t :=
  match py_index doc i with
  | Ok word =>
      if in_POS_WHITELIST (Token.pos_ word) then
        accepted (reduce_ref doc (Token.left_edge word) (i + 1))
      else if str_in (Token.lower_ word) NON_NOUN_ASPECTS then
        Some (Aspect.__init__ doc i (i + 1) None None)
      else None
  | _ => None
  end.

(** The token the loop visits next after it has inserted [c] at token
    [k]: the first one before [k] that is before [min_pos]. *)
Definition jump (k : Z) (c : Aspect.t) : Z :=
  Z.min (k - 1) (Aspect.context_start c - 1).

Section ScanJump.

(** The pattern that keeps the equation of an inspected value. *)
#[local] Notation "x 'eqn:' p" := (exist _ x p) (only parsing, at level 20).

(** The aspects the loop collects from the tokens [0 .. k], from left to
    right. *)
Equations? scan_jump (doc : Doc) (k : Z) : list Aspect.t
  by wf (Z.to_nat (k + 1)) lt :=
scan_jump doc k with inspect (0 <=? k) := {
  | false eqn:_ => []
  | true eqn:Hk with inspect (candidate_ref doc k) := {
    | Some c eqn:_ => scan_jump doc (jump k c) ++ [c]
    | None eqn:_ => scan_jump doc (k - 1) } }.
Proof. all: apply Z.leb_le in Hk; unfold jump; lia. Qed.

End ScanJump.

(** The list [aspects] when the loop ends. *)
Definition scan_ref (doc : Doc) : list Aspect.t :=
  scan_jump doc (py_len doc - 1).

(** ** Worked example *)

(** "plot good twist", where the parser gives the last noun the left edge
    [-1]: outside the token contract, and inside the range of indices
    that Python resolves. *)
Definition wrapped_doc : Doc :=
  mk_doc [tok "plot" "NOUN" " " 0; tok "good" "ADJ" " " 1;
          tok "twist" "NOUN" "" (-1)].

(** The same sentence with the left edge the contract asks for. *)
Definition straight_doc : Doc :=
  mk_doc [tok "plot" "NOUN" " " 0; tok "good" "ADJ" " " 1;
          tok "twist" "NOUN" "" 2].

(** ** Lemmas *)

Section ScannerRefLemmas.
Context (doc : Doc).
Implicit Types (st : scan_state) (i k : Z) (c : Aspect.t).

(** The recursion, unfolded once. *)
Lemma scan_jump_eq k :
  scan_jump doc k =
  if 0 <=? k then
    match candidate_ref doc k with
    | Some c => scan_jump doc (jump k c) ++ [c]
    | None => scan_jump doc (k - 1)
    end
  else [].
Proof. funelim (scan_jump doc k); [by rewrite e|by rewrite Hk, e|by rewrite Hk, e]. Qed.

Lemma scan_jump_neg k : k < 0 -> scan_jump doc k = [].
Proof. intros Hk. rewrite scan_jump_eq. by destruct (Z.leb_spec 0 k); [lia|]. Qed.

(** Every aspect of the scan is new: it comes from the constructor. *)
Lemma candidate_ref_fresh i c : candidate_ref doc i = Some c -> fresh c.
Proof.
  unfold candidate_ref. destruct (py_index doc i) as [word| |]; [|done..].
  destruct (in_POS_WHITELIST _).
  - intros [Hc _]%accepted_Some. unfold reduce_ref in Hc.
    by apply fmap_Some in Hc as (rs & _ & ->).
  - destruct (str_in _ _); [|done]. by intros [= <-].
Qed.

Lemma scan_jump_fresh k : Forall fresh (scan_jump doc k).
Proof.
  funelim (scan_jump doc k); [done| |done].
  apply Forall_app. split; [done|]. apply Forall_singleton.
  by apply (candidate_ref_fresh k).
Qed.

(** The scan finds nothing exactly when no token yields a candidate. *)
Lemma scan_jump_nil k :
  scan_jump doc k = [] <-> forall i, 0 <= i <= k -> candidate_ref doc i = None.
Proof.
  funelim (scan_jump doc k); clear Heqcall.
  - assert (k < 0) by by apply Z.leb_gt. split; [intros _ i Hi; lia|done].
  - assert (0 <= k) by by apply Z.leb_le. clear H0.
    split; [by intros [_ ?]%app_eq_nil|].
    intros Hall. by rewrite (Hall k) in e by lia.
  - assert (0 <= k) by by apply Z.leb_le. rewrite H.
    split; intros Hall i Hi; [|apply Hall; lia].
    destruct (decide (i = k)) as [->|]; [done|apply Hall; lia].
Qed.

(** After an aspect whose context starts at or before the first token
    the scan is over: the aspect is the first of the list. *)
Lemma scan_jump_head k a :
  a ∈ scan_jump doc k -> Aspect.context_start a <= 0 ->
  head (scan_jump doc k) = Some a.
Proof.
  funelim (scan_jump doc k); clear Heqcall; [by intros ?%elem_of_nil| |auto].
  intros [Ha| ->%list_elem_of_singleton]%elem_of_app Hneg.
  - specialize (H a Ha Hneg).
    by destruct (scan_jump doc (jump k c)) as [|a' l]; [|injection H as ->].
  - rewrite scan_jump_neg; [done|]. unfold jump. lia.
Qed.

(** Whenever the body finds its candidate, it is the closed form. *)
Lemma candidate_Ok_ref i r : candidate doc i = Ok r -> r = candidate_ref doc i.
Proof.
  unfold candidate, candidate_ref. intros (word & -> & H)%bind_Ok_inv.
  destruct (in_POS_WHITELIST _).
  - by apply bind_Ok_inv in H as (chunk & ->%reduce_Ok_ref & [= <-]).
  - destruct (str_in _ _); by injection H.
Qed.

(** The loop from token [k] down, whenever it returns, has put before the
    aspects it had those of the jumping scan from the first token it does
    not skip. *)
Lemma scan_loop_jump (n : nat) k st st' :
  Z.to_nat (k + 1) = n ->
  for_each (scan_step doc) (py_range_down k (-1)) st = Ok st' ->
  aspects st' = scan_jump doc (Z.min k (min_pos st - 1)) ++ aspects st.
Proof.
  revert k st. induction n as [|n IH]; intros k st Hn.
  { rewrite py_range_down_nil, scan_jump_neg by lia. by intros [= <-]. }
  rewrite py_range_down_cons by lia. cbn [for_each].
  intros (st1 & Hstep & Hrun)%bind_Ok_inv.
  apply (IH (k - 1)) in Hrun; [|lia]. rewrite Hrun. clear Hrun IH.
  rewrite scan_step_candidate in Hstep.
  destruct (Z.leb_spec (min_pos st) k) as [Hskip|Hvisit].
  { injection Hstep as <-. by rewrite !Z.min_r by lia. }
  apply bind_Ok_inv in Hstep as (r & ->%candidate_Ok_ref & [= <-]).
  rewrite (Z.min_l k) by lia. rewrite (scan_jump_eq k).
  destruct (Z.leb_spec 0 k); [|lia].
  destruct (candidate_ref doc k) as [c|]; cbn [pushed min_pos aspects].
  - by rewrite <- app_assoc.
  - by rewrite Z.min_l by lia.
Qed.

(** Whenever the scanner returns, it returns the jumping scan. *)
Lemma scan_Ok_ref l : scan doc = Ok l -> l = scan_ref doc.
Proof.
  unfold scan, scan_ref. intros (st & Hrun & [= <-])%bind_Ok_inv.
  rewrite (scan_loop_jump _ _ _ _ eq_refl Hrun). cbn [min_pos aspects].
  by rewrite Z.min_id, app_nil_r.
Qed.

(** The scanner reads the document and nothing else. *)
Lemma scan_safe : safe (scan doc).
Proof.
  unfold scan. apply safe_bind; [|done].
  apply safe_for_each. intros st i _. unfold scan_step.
  pose proof (reduce_safe doc). safe_tac.
Qed.

(** On every document the scanner returns the jumping scan, unless it
    reads outside the document. *)
Lemma scan_yields : yields (scan doc) (scan_ref doc).
Proof. apply yields_intro; [apply scan_safe|apply scan_Ok_ref]. Qed.

(** On a document that honours the token contract it returns. *)
Lemma scan_run_ref : wf_doc doc -> scan doc = Ok (scan_ref doc).
Proof.
  intros Hwf. destruct (scan_run doc Hwf) as (l & Hrun & _).
  by rewrite Hrun, (scan_Ok_ref l Hrun).
Qed.

(** The jumping scan meets the specification of the scanner. *)
Lemma scan_ref_result : wf_doc doc -> scan_result doc (scan_ref doc).
Proof. intros Hwf. apply scan_result_intro; [done|]. by apply scan_run_ref. Qed.

End ScannerRefLemmas.

(** ** Theorems *)

(** C14. The scan with the skip guard is the scan that jumps.  Whatever the
    document, the loop of the code returns the list that [scan_ref]
    builds from left to right by visiting the last token and, after each
    aspect found, the token before the context of that aspect, or it
    raises [IndexError]; no token between is looked at.  On a document
    that honours the token contract the loop returns. *)
Theorem scan_jumps (doc : Doc) :
  (scan doc = Ok (scan_ref doc) \/ scan doc = Raise IndexError) /\
  (wf_doc doc -> scan doc = Ok (scan_ref doc)).
Proof. split; [apply scan_yields|apply scan_run_ref]. Qed.

Lemma scan_jumps_witness : scan acting_doc = Ok (scan_ref acting_doc).
Proof. apply (proj2 (scan_jumps acting_doc)). by apply wf_docb_spec. Defined.

(** C39. The guard of the scan is the start of the context, wherever it
    lies.  The code accepts a left edge that is negative: Python counts
    it from the end of the document, and the aspect is returned with a
    negative context start.  Whenever the scanner returns such an aspect
    it is the first of the list: no token before its noun is visited,
    although the context, read from the end of the document, does not
    hold those tokens. *)
Theorem scan_negative_context (doc : Doc) (l : list Aspect.t) (a : Aspect.t) :
  scan doc = Ok l -> a ∈ l -> Aspect.context_start a < 0 -> head l = Some a.
Proof.
  intros ->%scan_Ok_ref Ha Hneg. apply scan_jump_head; [done|lia].
Qed.

Lemma scan_negative_context_witness :
  exists a,
    scan wrapped_doc = Ok [a] /\ Aspect.text a = "twist" /\
    Aspect.context_start a = (-1) /\ head [a] = Some a.
Proof.
  eexists. split; [reflexivity|]. split; [reflexivity|]. split; [reflexivity|].
  apply (scan_negative_context wrapped_doc); [reflexivity|by left|by vm_compute].
Defined.

(** "The acting and the plot were great": the scan visits "great",
    "were", "plot", jumps over "the" to "and", visits "acting" and jumps
    out of the sentence. *)
Example scan_ref_acting_plot :
  Aspect.text <$> scan_ref acting_doc = ["acting"; "plot"] /\
  jump 4 (Aspect.__init__ acting_doc 4 5 (Some 3) (Some 5)) = 2 /\
  jump 1 (Aspect.__init__ acting_doc 1 2 (Some 0) (Some 2)) = -1.
Proof. repeat split; by vm_compute. Qed.
