(* ===== verification/ChunkMerger.v ===== *)
(** * The chunk merger: the second loop of [AspectExtractor.__call__]

    The loop walks the list of aspects from its last pair to its first and
    joins two neighbours when the left one ends where the right one starts
    and its last token has no trailing whitespace.  It rewrites the list in
    place ([aspects[i-1] = ...; del aspects[i]]); the model performs the
    same reads, write and deletion by index.  [merge_spec] is the reference
    definition, a right fold, and the loop is proved equal to it; the
    text of a joined aspect is proved to be the text of its parts.
    [pieces] is a chunk cut at token indices, as the parser may return
    it; the loop is proved to remove exactly the cuts that follow a token
    without whitespace, so that merging undoes such a split. *)

From stdpp Require Import prelude strings list_numbers gmap.
From S2P Require Import Prelude Outcomes Spacy AspectSpan.

#[local] Open Scope Z_scope.

(** The test of the loop; the second conjunct, and with it [aspects[i]], is
    evaluated only when the first holds. *)
Definition merge_test (doc : Doc) (aspects : list Aspect.t) (i : Z) : result bool :=
  let* prev := py_index aspects (i - 1) in
  let* last := py_index doc (Aspect.stop prev - 1) in
  and_then (String.eqb (Token.whitespace_ last) EmptyString)
    (let* prev := py_index aspects (i - 1) in
     let* cur := py_index aspects i in
     Ok (Aspect.stop prev =? Aspect.start cur)).

(** The aspect that replaces [aspects[i-1]]. *)
Definition join (doc : Doc) (prev cur : Aspect.t) : Aspect.t :=
  Aspect.__init__ doc (Aspect.start prev) (Aspect.stop cur)
    (Some (Aspect.context_start prev)) (Some (Aspect.context_stop cur)).

(** One iteration of the loop, at index [i]. *)
Definition merge_step (doc : Doc) (aspects : list Aspect.t) (i : Z)
  : result (list Aspect.t) :=
  let* joined := merge_test doc aspects i in
  if joined then
    let* prev := py_index aspects (i - 1) in
    let* cur := py_index aspects i in
    let* aspects' := py_setitem aspects (i - 1) (join doc prev cur) in
    py_del aspects' i
  else Ok aspects.

(** The whole loop. *)
Definition merge (doc : Doc) (aspects : list Aspect.t) : result (list Aspect.t) :=
  for_each (merge_step doc) (py_range_down (py_len aspects - 1) 0) aspects.

(** ** Reference definition *)

(** [a] ends where [b] starts, on a token without trailing whitespace. *)
Definition joins (doc : Doc) (a b : Aspect.t) : bool :=
  token_has (fun t => String.eqb (Token.whitespace_ t) EmptyString) doc
    (Aspect.stop a - 1)
  && (Aspect.stop a =? Aspect.start b).

(** Putting [a] in front of an already merged list. *)
Definition merge_cons (doc : Doc) (a : Aspect.t) (acc : list Aspect.t)
  : list Aspect.t :=
  match acc with
  | b :: rest => if joins doc a b then join doc a b :: rest else a :: acc
  | [] => [a]
  end.

Definition merge_spec (doc : Doc) (l : list Aspect.t) : list Aspect.t :=
  foldr (merge_cons doc) [] l.

(** No two neighbours of [l] join. *)
Fixpoint stable (doc : Doc) (l : list Aspect.t) : Prop :=
  match l with
  | a :: (b :: _) as rest => joins doc a b = false /\ stable doc rest
  | _ => True
  end.

(** The number of tokens in the reduced slices of [l]. *)
Definition width (l : list Aspect.t) : Z :=
  foldr (fun a w => Aspect.stop a - Aspect.start a + w) 0 l.

(** The reduced texts of [l], one after the other. *)
Definition joined_text (l : list Aspect.t) : string :=
  foldr (fun a s => Aspect.text a +:+ s) EmptyString l.

(** ** Splitting a chunk

    What the loop is written to undo: the parser returns one chunk as
    several, cut at token indices. *)

(** The token before index [c] has no trailing whitespace. *)
Definition glued (doc : Doc) (c : Z) : bool :=
  token_has (fun t => String.eqb (Token.whitespace_ t) EmptyString) doc (c - 1).

(** The chunk [[start, stop)] with context [[cs, ce)], cut at the indices
    [cuts]: every piece ends, and the next one starts, at a cut. *)
Fixpoint pieces (doc : Doc) (start cs : Z) (cuts : list Z) (stop ce : Z)
  : list Aspect.t :=
  match cuts with
  | [] => [Aspect.__init__ doc start stop (Some cs) (Some ce)]
  | c :: cuts =>
      Aspect.__init__ doc start c (Some cs) (Some c) ::
      pieces doc c c cuts stop ce
  end.

(** The cuts lie strictly between [lo] and [hi], in increasing order. *)
Fixpoint cuts_in (lo : Z) (cuts : list Z) (hi : Z) : Prop :=
  match cuts with
  | [] => lo < hi
  | c :: cuts => lo < c /\ cuts_in c cuts hi
  end.

(** ** Worked example: "a sub-plot twist" *)

(** The parser has split "sub-plot" into three tokens and tagged each as a
    noun, so the scanner returns three chunks for it. *)
Definition subplot_doc : Doc :=
  mk_doc [tok "a" "DET" " " 0; tok "sub" "NOUN" "" 1; tok "-" "NOUN" "" 2;
          tok "plot" "NOUN" " " 3; tok "twist" "NOUN" "" 4].

Definition subplot_chunks : list Aspect.t :=
  [Aspect.__init__ subplot_doc 1 2 (Some 1) (Some 2);
   Aspect.__init__ subplot_doc 2 3 (Some 2) (Some 3);
   Aspect.__init__ subplot_doc 3 4 (Some 3) (Some 4);
   Aspect.__init__ subplot_doc 4 5 (Some 4) (Some 5)].

(** ** Lemmas *)

Lemma merge_cons_nonempty (doc : Doc) (a : Aspect.t) (acc : list Aspect.t) :
  merge_cons doc a acc <> [].
Proof. destruct acc as [|b acc]; simpl; [done|]. by destruct (joins doc a b). Qed.

(** The loop against the fold, for any relation that holds between the
    test of the loop and [joins] on the aspects the test reads. *)
Section MergerOutcome.
Context (R : forall A : Type, result A -> A -> Prop) `{!Outcome R}.
Context (doc : Doc) (good : Aspect.t -> Prop).
Implicit Types (a b : Aspect.t) (l pre acc : list Aspect.t).

#[local] Notation "m ~> v" := (R _ m v) (at level 70).

Hypothesis Htest : forall pre a b acc, good a ->
  merge_test doc (pre ++ a :: b :: acc) (py_len pre + 1) ~> joins doc a b.

Lemma merge_step_middle pre a b acc :
  good a ->
  merge_step doc (pre ++ a :: b :: acc) (py_len pre + 1) ~>
  pre ++ merge_cons doc a (b :: acc).
Proof.
  intros Ha. unfold merge_step. eapply outcome_bind; [by apply Htest|].
  cbn [merge_cons]. destruct (joins doc a b); [|apply outcome_ret].
  rewrite py_index_middle2.
  replace (py_len pre + 1 - 1) with (py_len pre) by lia.
  rewrite py_index_middle. simpl. rewrite py_setitem_middle. simpl.
  apply (outcome_Ok R), py_del_middle2.
Qed.

(** The loop over a prefix still to visit, in front of a merged suffix. *)
Lemma merge_loop pre acc :
  acc <> [] -> Forall good pre ->
  for_each (merge_step doc) (py_range_down (py_len pre) 0) (pre ++ acc) ~>
  foldr (merge_cons doc) acc pre.
Proof.
  revert acc. induction pre as [|a pre IH] using rev_ind; intros acc Hacc Hall.
  - rewrite py_range_down_nil by done. apply outcome_ret.
  - apply Forall_app in Hall as [Hpre [Ha _]%Forall_cons].
    destruct acc as [|b acc]; [done|].
    pose proof (py_len_nonneg pre).
    rewrite py_len_snoc, py_range_down_cons by lia.
    replace (py_len pre + 1 - 1) with (py_len pre) by lia.
    cbn [for_each]. rewrite <- app_assoc. cbn [app].
    eapply outcome_bind; [by apply merge_step_middle|].
    rewrite foldr_app. apply IH; [apply merge_cons_nonempty|done].
Qed.

(** The loop against the reference definition. *)
Lemma merge_outcome l : Forall good l -> merge doc l ~> merge_spec doc l.
Proof.
  intros Hall. unfold merge, merge_spec.
  destruct l as [|a l _] using rev_ind; [apply outcome_ret|].
  apply Forall_app in Hall as [Hpre _].
  rewrite py_len_snoc. replace (py_len l + 1 - 1) with (py_len l) by lia.
  rewrite foldr_app. by apply merge_loop.
Qed.

End MergerOutcome.

Section MergerLemmas.
Context (doc : Doc).
Implicit Types (a b : Aspect.t) (l pre acc : list Aspect.t).

(** The test reads the two neighbours, and the document at the end of the
    left one. *)
Lemma merge_test_middle_eq pre a b acc :
  merge_test doc (pre ++ a :: b :: acc) (py_len pre + 1) =
  let* last := py_index doc (Aspect.stop a - 1) in
  Ok (String.eqb (Token.whitespace_ last) EmptyString
      && (Aspect.stop a =? Aspect.start b)).
Proof.
  unfold merge_test. rewrite py_index_middle2.
  replace (py_len pre + 1 - 1) with (py_len pre) by lia.
  rewrite py_index_middle. cbn [bind].
  destruct (py_index doc _) as [t| |]; cbn [bind]; [|done..].
  by destruct (String.eqb _ _).
Qed.

Lemma merge_test_middle pre a b acc :
  aspect_of doc a ->
  merge_test doc (pre ++ a :: b :: acc) (py_len pre + 1) = Ok (joins doc a b).
Proof.
  intros [[] Hdoc]. rewrite Hdoc in *. rewrite merge_test_middle_eq. unfold joins.
  destruct (py_index_nonneg doc (Aspect.stop a - 1)) as (t & Ht & _); [lia|].
  by rewrite Ht, (token_has_Ok _ _ _ _ Ht).
Qed.

(** Whatever the aspect, the test says whether the neighbours join,
    unless the left one ends outside the document. *)
Lemma merge_test_yields pre a b acc :
  yields (merge_test doc (pre ++ a :: b :: acc) (py_len pre + 1)) (joins doc a b).
Proof.
  rewrite merge_test_middle_eq. unfold joins.
  pose proof (safe_py_index doc (Aspect.stop a - 1)) as Hsafe.
  destruct (py_index doc _) as [t|e|] eqn:Ht; cbn in *; [|by right; subst|done].
  left. by rewrite (token_has_Ok _ _ _ _ Ht).
Qed.

(** On valid aspects the loop returns the reference definition. *)
Lemma merge_run l :
  Forall (aspect_of doc) l -> merge doc l = Ok (merge_spec doc l).
Proof.
  apply (merge_outcome (@returns) doc (aspect_of doc)).
  intros. by apply merge_test_middle.
Qed.

(** On any list it returns it, or raises [IndexError]. *)
Lemma merge_yields l : yields (merge doc l) (merge_spec doc l).
Proof.
  apply (merge_outcome (@yields) doc (fun _ => True)).
  - intros. apply merge_test_yields.
  - by apply Forall_true.
Qed.

(** [joins] reads the end of its first argument and the start of its
    second only. *)
Lemma joins_join_l x a b : joins doc (join doc x a) b = joins doc a b.
Proof. done. Qed.

Lemma joins_join_r a b y : joins doc a (join doc b y) = joins doc a b.
Proof. done. Qed.

Lemma merge_spec_cons a l :
  merge_spec doc (a :: l) = merge_cons doc a (merge_spec doc l).
Proof. done. Qed.

Lemma merge_cons_stable a acc : stable doc acc -> stable doc (merge_cons doc a acc).
Proof.
  destruct acc as [|b acc]; [done|]. cbn [merge_cons].
  destruct (joins doc a b) eqn:Hj; [|done].
  destruct acc as [|c acc]; [done|]. intros [Hbc ?]. split; [exact Hbc|done].
Qed.

Lemma merge_spec_stable l : stable doc (merge_spec doc l).
Proof. induction l; [done|]. rewrite merge_spec_cons. by apply merge_cons_stable. Qed.

Lemma stable_merge_spec l : stable doc l -> merge_spec doc l = l.
Proof.
  induction l as [|a l IH]; [done|]. intros Hst. rewrite merge_spec_cons.
  destruct l as [|b l]; [done|]. destruct Hst as [Hj Hst].
  rewrite IH by done. simpl. by rewrite Hj.
Qed.

Lemma join_aspect_of a b :
  aspect_of doc a -> aspect_of doc b -> joins doc a b = true ->
  aspect_of doc (join doc a b).
Proof.
  intros [[] Ha] [[] Hb] [_ Hj%Z.eqb_eq]%andb_true_iff. rewrite Ha, Hb in *.
  split; [|done]. apply init_inv; lia.
Qed.

(** A property of aspects that [join] establishes from its arguments is
    kept by the merger. *)
Lemma merge_spec_Forall (P : Aspect.t -> Prop) l :
  (forall a b, P a -> P b -> joins doc a b = true -> P (join doc a b)) ->
  Forall P l -> Forall P (merge_spec doc l).
Proof.
  intros Hjoin. induction 1 as [|a l Ha _ IH]; [done|].
  rewrite merge_spec_cons. destruct IH as [|b acc Hb Hacc]; simpl; [by constructor|].
  destruct (joins doc a b) eqn:Hj; repeat constructor; eauto.
Qed.

Lemma merge_spec_valid l :
  Forall (fun a => aspect_of doc a /\ fresh a) l ->
  Forall (fun a => aspect_of doc a /\ fresh a) (merge_spec doc l).
Proof.
  apply merge_spec_Forall. intros a b [? ?] [? ?] ?.
  split; [by apply join_aspect_of|done].
Qed.

Lemma merge_spec_chain first last lo l :
  (forall a b, first (join doc a b) = first a) ->
  (forall a b, last (join doc a b) = last b) ->
  chain first last lo l -> chain first last lo (merge_spec doc l).
Proof.
  intros Hfirst Hlast. revert lo. induction l as [|a l IH]; intros lo; [done|].
  rewrite merge_spec_cons. intros [Hlo Hr]. apply IH in Hr.
  destruct (merge_spec doc l) as [|b acc]; simpl; [done|].
  destruct (joins doc a b); simpl; [|done].
  destruct Hr as [_ Hr]. by rewrite Hfirst, Hlast.
Qed.

Lemma merge_spec_width l : width (merge_spec doc l) = width l.
Proof.
  induction l as [|a l IH]; [done|]. rewrite merge_spec_cons.
  cbn [width foldr]. fold (width l). rewrite <- IH.
  destruct (merge_spec doc l) as [|b acc]; simpl; [done|].
  destruct (joins doc a b) eqn:Hj; simpl; [|done].
  apply andb_true_iff in Hj as [_ Hj%Z.eqb_eq]. cbn.
  fold (width acc). lia.
Qed.

Lemma merge_spec_length l : (length (merge_spec doc l) <= length l)%nat.
Proof.
  induction l as [|a l IH]; [done|]. rewrite merge_spec_cons.
  destruct (merge_spec doc l) as [|b acc]; simpl in *; [lia|].
  destruct (joins doc a b); simpl; lia.
Qed.

(** The text of a joined aspect is the text of its parts: nothing stands
    between them. *)
Lemma join_text a b :
  aspect_of doc a -> aspect_of doc b -> joins doc a b = true ->
  Aspect.text (join doc a b) = Aspect.text a +:+ Aspect.text b.
Proof.
  intros [[] Ha] [[] Hb] [Hws Hj%Z.eqb_eq]%andb_true_iff.
  unfold token_has in Hws.
  destruct (py_index doc (Aspect.stop a - 1)) as [last| |] eqn:Hlast; [|done..].
  apply String.eqb_eq in Hws. unfold Aspect.text. rewrite Ha, Hb in *.
  change (slice_text doc (Aspect.start a) (Aspect.stop b) =
          slice_text doc (Aspect.start a) (Aspect.stop a) +:+
          slice_text doc (Aspect.start b) (Aspect.stop b)).
  rewrite (slice_text_split doc _ (Aspect.stop a) _ last) by (done || lia).
  by rewrite Hws, Hj.
Qed.

Lemma merge_spec_text l :
  Forall (aspect_of doc) l -> joined_text (merge_spec doc l) = joined_text l.
Proof.
  induction 1 as [|a l Ha Hl IH]; [done|]. rewrite merge_spec_cons.
  cbn [joined_text foldr]. fold (joined_text l). rewrite <- IH.
  destruct (merge_spec_Forall (aspect_of doc) l join_aspect_of Hl)
    as [|b acc Hb _]; [done|].
  cbn [merge_cons]. destruct (joins doc a b) eqn:Hj; [|done].
  cbn [joined_text foldr]. by rewrite join_text, str_app_assoc.
Qed.

Lemma merge_spec_unlabelled l :
  Forall unlabelled l -> Forall unlabelled (merge_spec doc l).
Proof. apply merge_spec_Forall. intros a b _ _ _. apply init_unlabelled. Qed.

(** *** Pieces of a chunk *)

(** The first piece starts the chunk; where it ends and what follows it
    depend on the cuts only. *)
Lemma pieces_head cuts stop ce :
  exists x y rest, forall start cs,
    pieces doc start cs cuts stop ce =
    Aspect.__init__ doc start x (Some cs) (Some y) :: rest.
Proof. destruct cuts as [|c cuts]; by eexists _, _, _. Qed.

Lemma cuts_in_lt lo cuts hi : cuts_in lo cuts hi -> lo < hi.
Proof.
  revert lo. induction cuts as [|c cuts IH]; intros lo; [done|].
  intros [? ?%IH]. lia.
Qed.

Lemma pieces_aspect_of start cs cuts stop ce :
  0 <= cs <= start -> stop <= ce <= py_len doc -> cuts_in start cuts stop ->
  Forall (aspect_of doc) (pieces doc start cs cuts stop ce).
Proof.
  intros Hcs Hce. revert start cs Hcs.
  induction cuts as [|c cuts IH]; intros start cs Hcs Hcuts; simpl in *.
  - apply Forall_singleton. split; [|done]. apply init_inv; lia.
  - destruct Hcuts as [Hc Hcuts]. constructor; [|apply IH; [lia|done]].
    pose proof (cuts_in_lt _ _ _ Hcuts).
    split; [|done]. apply init_inv; lia.
Qed.

(** The reference definition removes the glued cuts and no other. *)
Lemma merge_spec_pieces start cs cuts stop ce :
  merge_spec doc (pieces doc start cs cuts stop ce) =
  pieces doc start cs (filter (fun c => glued doc c = false) cuts) stop ce.
Proof.
  revert start cs. induction cuts as [|c cuts IH]; intros start cs; [done|].
  cbn [pieces]. rewrite merge_spec_cons, IH, filter_cons.
  destruct (pieces_head (filter (fun c => glued doc c = false) cuts) stop ce)
    as (x & y & rest & Hhead).
  rewrite (Hhead c c). cbn [merge_cons]. unfold joins. cbn.
  rewrite Z.eqb_refl, andb_true_r. fold (glued doc c).
  destruct (decide (glued doc c = false)) as [Hg|Hg%not_false_is_true];
    rewrite Hg; [by rewrite <- Hhead|by rewrite Hhead].
Qed.

Lemma filter_glued_nil cuts :
  Forall (fun c => glued doc c = true) cuts ->
  filter (fun c => glued doc c = false) cuts = [].
Proof.
  induction 1 as [|c cuts Hc _ IH]; [done|].
  rewrite filter_cons, IH. by rewrite decide_False by congruence.
Qed.

End MergerLemmas.

(** ** Theorems on the merger *)

(** C10. On valid aspects of the document the merging loop returns (no index
    is out of range while the list shrinks under it) and computes the
    reference definition [merge_spec]: a right fold that joins an aspect
    with the merged aspect that follows it when they touch without
    whitespace. *)
Theorem merge_refines_spec (doc : Doc) (l : list Aspect.t) :
  Forall (aspect_of doc) l -> merge doc l = Ok (merge_spec doc l).
Proof. apply merge_run. Qed.

Lemma merge_refines_spec_witness :
  merge subplot_doc subplot_chunks = Ok (merge_spec subplot_doc subplot_chunks).
Proof.
  apply merge_refines_spec.
  repeat constructor; by vm_compute.
Defined.

(** C30. The merger is idempotent: run on its own result it returns that
    result unchanged. *)
Theorem merge_idempotent (doc : Doc) (l l' : list Aspect.t) :
  Forall (aspect_of doc) l -> merge doc l = Ok l' -> merge doc l' = Ok l'.
Proof.
  intros Hall Hrun. rewrite merge_run in Hrun by done. injection Hrun as <-.
  rewrite merge_run by eauto using merge_spec_Forall, join_aspect_of.
  f_equal. apply stable_merge_spec, merge_spec_stable.
Qed.

Lemma merge_idempotent_witness :
  merge subplot_doc (merge_spec subplot_doc subplot_chunks) =
  Ok (merge_spec subplot_doc subplot_chunks).
Proof.
  apply (merge_idempotent subplot_doc subplot_chunks); [|reflexivity].
  repeat constructor; by vm_compute.
Defined.

(** After the merger no two neighbouring aspects can be joined: the
    repair of split chunks is complete in one pass. *)
Theorem merge_stable (doc : Doc) (l l' : list Aspect.t) :
  Forall (aspect_of doc) l -> merge doc l = Ok l' -> stable doc l'.
Proof.
  intros Hall Hrun. rewrite merge_run in Hrun by done. injection Hrun as <-.
  apply merge_spec_stable.
Qed.

Lemma merge_stable_witness :
  stable subplot_doc (merge_spec subplot_doc subplot_chunks).
Proof.
  apply (merge_stable subplot_doc subplot_chunks); [|reflexivity].
  repeat constructor; by vm_compute.
Defined.

(** The merger keeps the list well formed: its aspects are valid aspects
    of the document, as fresh as [__init__] leaves them when the inputs
    were, and context slices and reduced slices stay ordered without
    overlap. *)
Theorem merge_preserves (doc : Doc) (l l' : list Aspect.t) (lo : Z) :
  Forall (fun a => aspect_of doc a /\ fresh a) l ->
  contexts_ordered lo l ->
  merge doc l = Ok l' ->
  Forall (fun a => aspect_of doc a /\ fresh a) l' /\
  contexts_ordered lo l' /\ reduced_ordered lo l'.
Proof.
  intros Hall Hord Hrun.
  assert (Forall (aspect_of doc) l) as Hval
    by (eapply Forall_impl; [done|]; by intros a [? ?]).
  rewrite merge_run in Hrun by done. injection Hrun as <-.
  pose proof (merge_spec_valid doc l Hall) as Hall'.
  assert (contexts_ordered lo (merge_spec doc l)) as Hord'
    by by apply merge_spec_chain.
  repeat split; [done..|].
  apply contexts_reduced_ordered; [|done].
  eapply Forall_impl; [done|]. by intros a [[? ?] ?].
Qed.

Lemma merge_preserves_witness :
  Forall (fun a => aspect_of subplot_doc a /\ fresh a)
    (merge_spec subplot_doc subplot_chunks) /\
  contexts_ordered 0 (merge_spec subplot_doc subplot_chunks) /\
  reduced_ordered 0 (merge_spec subplot_doc subplot_chunks).
Proof.
  apply (merge_preserves subplot_doc subplot_chunks); [| |reflexivity].
  - repeat constructor; by vm_compute.
  - repeat split; by vm_compute.
Defined.

(** The merger neither drops nor adds tokens: the list gets no longer
    and the reduced slices cover as many tokens after as before. *)
Theorem merge_conserves (doc : Doc) (l l' : list Aspect.t) :
  Forall (aspect_of doc) l -> merge doc l = Ok l' ->
  (length l' <= length l)%nat /\ width l' = width l.
Proof.
  intros Hall Hrun. rewrite merge_run in Hrun by done. injection Hrun as <-.
  split; [apply merge_spec_length|apply merge_spec_width].
Qed.

Lemma merge_conserves_witness :
  (length (merge_spec subplot_doc subplot_chunks) <= length subplot_chunks)%nat /\
  width (merge_spec subplot_doc subplot_chunks) = width subplot_chunks.
Proof.
  apply (merge_conserves subplot_doc); [|reflexivity].
  repeat constructor; by vm_compute.
Defined.

(** C36. The merger keeps the text: the reduced texts of the merged list,
    read one after the other, are the reduced texts of the input.  The text
    of a joined aspect is the concatenation of the texts of its parts. *)
Theorem merge_text (doc : Doc) (l l' : list Aspect.t) :
  Forall (aspect_of doc) l ->
  merge doc l = Ok l' ->
  joined_text l' = joined_text l.
Proof.
  intros Hall. rewrite merge_run by done. intros [= <-].
  by apply merge_spec_text.
Qed.

Lemma merge_text_witness :
  joined_text [Aspect.__init__ subplot_doc 1 4 (Some 1) (Some 4);
               Aspect.__init__ subplot_doc 4 5 (Some 4) (Some 5)] =
  joined_text subplot_chunks.
Proof.
  apply (merge_text subplot_doc); [|reflexivity].
  repeat constructor; by vm_compute.
Defined.

(** The chunks "sub", "-" and "plot", split by the parser with no
    whitespace between them, are merged into the single aspect "sub-plot";
    "twist", which follows a space, stays apart. *)
Example merge_sub_plot :
  exists a1 a2, merge subplot_doc subplot_chunks = Ok [a1; a2] /\
    Aspect.text a1 = "sub-plot" /\ Aspect.context a1 = "sub-plot" /\
    Aspect.text a2 = "twist".
Proof. by eexists _, _. Qed.

(** ** Splitting and merging *)

(** C23. Merging undoes splitting.  A chunk that the parser has cut into
    pieces at tokens without whitespace before them, however many, comes
    back from the loop as the one chunk it was, with its reduced slice and
    its context slice. *)
Theorem merge_pieces_roundtrip (doc : Doc) (start cs stop ce : Z) (cuts : list Z) :
  0 <= cs <= start -> stop <= ce <= py_len doc -> cuts_in start cuts stop ->
  Forall (fun c => glued doc c = true) cuts ->
  merge doc (pieces doc start cs cuts stop ce) =
  Ok [Aspect.__init__ doc start stop (Some cs) (Some ce)].
Proof.
  intros Hcs Hce Hcuts Hglued.
  rewrite merge_run by by apply pieces_aspect_of.
  by rewrite merge_spec_pieces, filter_glued_nil.
Qed.

Lemma merge_pieces_roundtrip_witness :
  merge subplot_doc (pieces subplot_doc 1 1 [2; 3] 4 4) =
  Ok [Aspect.__init__ subplot_doc 1 4 (Some 1) (Some 4)].
Proof.
  apply merge_pieces_roundtrip; try by vm_compute.
  repeat constructor.
Defined.

(** The merger removes the cuts that follow a token without whitespace
    and keeps every other: two pieces separated by whitespace stay
    apart. *)
Theorem merge_pieces (doc : Doc) (start cs stop ce : Z) (cuts : list Z) :
  0 <= cs <= start -> stop <= ce <= py_len doc -> cuts_in start cuts stop ->
  merge doc (pieces doc start cs cuts stop ce) =
  Ok (pieces doc start cs (filter (fun c => glued doc c = false) cuts) stop ce).
Proof.
  intros Hcs Hce Hcuts.
  rewrite merge_run by by apply pieces_aspect_of.
  by rewrite merge_spec_pieces.
Qed.

Lemma merge_pieces_witness :
  merge subplot_doc (pieces subplot_doc 1 1 [2; 3; 4] 5 5) =
  Ok (pieces subplot_doc 1 1
        (filter (fun c => glued subplot_doc c = false) [2; 3; 4]) 5 5).
Proof. apply merge_pieces; by vm_compute. Defined.
