(* ===== verification/Disambiguator.v ===== *)
(** * The disambiguator: the last loops of [AspectExtractor.__call__]

    For every pair [i < j] of aspects with the same reduced text the code
    sets the ordinal of the later one and then expands the contexts of both
    until their context texts differ, or until neither can grow, in which
    case it logs a warning.  The aspects are objects mutated in place; the
    list holds distinct objects, so the model keeps them as the elements of
    the list and writes each mutated aspect back at its index.  The [while]
    loop takes fuel; [expand_fuel] is proved to be enough. *)

From stdpp Require Import prelude strings list_numbers gmap.
From S2P Require Import Prelude Spacy AspectSpan.

#[local] Open Scope Z_scope.

(** A record of [logging.warning]: the index, the reduced text of the
    aspect and the text of the document that the message interpolates. *)
Record warning : Type := mk_warning {
  w_index : Z;
  w_aspect : string;
  w_doc : string;
}.

(** The list of aspects and the log. *)
Record dis_state : Type := mk_dis {
  d_aspects : list Aspect.t;
  d_log : list warning;
}.

(** [e = aspects[k].expand()]: the object at index [k] is mutated. *)
Definition expand_at (aspects : list Aspect.t) (k : Z)
  : result (list Aspect.t * bool) :=
  let* a := py_index aspects k in
  let* (a', e) := Aspect.expand a in
  let* aspects' := py_setitem aspects k a' in
  Ok (aspects', e).

(** [aspects[i] == aspects[j]] *)
Definition same_context (aspects : list Aspect.t) (i j : Z) : result bool :=
  let* ai := py_index aspects i in
  let* aj := py_index aspects j in
  Ok (Aspect.__eq__ ai (Aspect.PyAspect aj)).

(** The [while] loop. *)
Fixpoint expand_until_distinct (fuel : nat) (doc : Doc) (i j : Z) (st : dis_state)
  : result dis_state :=
  match fuel with
  | O => OutOfFuel
  | S fuel' =>
      let* same := same_context (d_aspects st) i j in
      if same then
        let* (aspects1, e1) := expand_at (d_aspects st) i in
        let* (aspects2, e2) := expand_at aspects1 j in
        if negb (e1 || e2) then
          let* ai := py_index aspects2 i in
          Ok {| d_aspects := aspects2;
                d_log := d_log st ++
                  [{| w_index := i; w_aspect := Aspect.text ai;
                      w_doc := doc_text doc |}] |}
        else
          expand_until_distinct fuel' doc i j
            {| d_aspects := aspects2; d_log := d_log st |}
      else Ok st
  end.

(** [aspects[i].text == aspects[j].text] *)
Definition same_text (aspects : list Aspect.t) (i j : Z) : result bool :=
  let* ai := py_index aspects i in
  let* aj := py_index aspects j in
  Ok (String.eqb (Aspect.text ai) (Aspect.text aj)).

(** [aspects[j].ordinal = aspects[i].ordinal + 1] *)
Definition bump_ordinal (aspects : list Aspect.t) (i j : Z)
  : result (list Aspect.t) :=
  let* ai := py_index aspects i in
  let* aj := py_index aspects j in
  py_setitem aspects j (Aspect.set_ordinal aj (Aspect.ordinal ai + 1)).

(** The body of the inner [for] loop. *)
Definition disambiguate_pair (fuel : nat) (doc : Doc) (i : Z)
    (st : dis_state) (j : Z) : result dis_state :=
  let* same := same_text (d_aspects st) i j in
  if same then
    let* aspects' := bump_ordinal (d_aspects st) i j in
    expand_until_distinct fuel doc i j
      {| d_aspects := aspects'; d_log := d_log st |}
  else Ok st.

(** The body of the outer [for] loop. *)
Definition disambiguate_from (fuel : nat) (doc : Doc) (st : dis_state) (i : Z)
  : result dis_state :=
  for_each (disambiguate_pair fuel doc i)
    (py_range (i + 1) (py_len (d_aspects st))) st.

(** Both loops, on a list of aspects and an empty log. *)
Definition disambiguate (fuel : nat) (doc : Doc) (aspects : list Aspect.t)
  : result dis_state :=
  for_each (disambiguate_from fuel doc)
    (py_range 0 (py_len aspects - 1))
    {| d_aspects := aspects; d_log := [] |}.

(** Enough fuel for the [while] loop on aspects that satisfy the invariant:
    each of the two aspects expands at most [2 + 3] times, and the loop
    runs once more to find that it is done. *)
Definition expand_fuel : nat := 11.

(** ** Specification vocabulary *)

(** What the disambiguator may do to an aspect: widen its context slice and
    change its ordinal.  The reduced slice, the document and the
    classification fields stay. *)
Record widened (a a' : Aspect.t) : Prop := mk_widened {
  wd_slice : Aspect._reduced_slice a' = Aspect._reduced_slice a;
  wd_doc : Aspect.doc a' = Aspect.doc a;
  wd_start : Aspect.context_start a' <= Aspect.context_start a;
  wd_stop : Aspect.context_stop a <= Aspect.context_stop a';
  wd_label : Aspect.label a' = Aspect.label a;
  wd_categories : Aspect.categories a' = Aspect.categories a;
}.

(** What the [while] loop may do: widen, with the ordinal kept. *)
Definition expanded (a a' : Aspect.t) : Prop :=
  widened a a' /\ Aspect.ordinal a' = Aspect.ordinal a.

(** How the [while] loop on the pair [(i, j)] ends: the contexts differ and
    nothing is logged, or one warning about [i] is logged. *)
Definition loop_exit (i j : Z) (st st' : dis_state) : Prop :=
  (d_log st' = d_log st /\ same_context (d_aspects st') i j = Ok false) \/
  (exists w, d_log st' = d_log st ++ [w] /\ w_index w = i /\
             same_context (d_aspects st') i j = Ok true).

(** The number of aspects among the first [b] of [l] whose reduced text is
    [t]. *)
Definition count_text (l : list Aspect.t) (b : nat) (t : string) : Z :=
  Z.of_nat (length (filter (fun a => Aspect.text a = t) (take b l))).

(** The state of the loops is sound for the initial list [l0]: the aspects
    are valid aspects of the document, widened from those of [l0]. *)
Definition dis_ok (doc : Doc) (l0 : list Aspect.t) (st : dis_state) : Prop :=
  Forall (aspect_of doc) (d_aspects st) /\ Forall2 widened l0 (d_aspects st).

(** How many earlier aspects the ordinal of aspect [m] accounts for when the
    outer loop is at [i] and the inner loop at [j]. *)
Definition seen (i j m : nat) : nat :=
  if decide (m < j)%nat then Nat.min (S i) m else Nat.min i m.

(** The ordinals, when every ordinal of [l0] is 0: aspect [m] counts the
    aspects of the same text among those it has been compared with. *)
Definition ord_inv (l0 : list Aspect.t) (bound : nat -> nat) (st : dis_state)
  : Prop :=
  Forall (fun a => Aspect.ordinal a = 0) l0 ->
  forall (m : nat) a, d_aspects st !! m = Some a ->
    Aspect.ordinal a = count_text l0 (bound m) (Aspect.text a).

(** Every ordinal is the rank of its aspect among those of the same text. *)
Definition ranked (l : list Aspect.t) : Prop :=
  forall (m : nat) a, l !! m = Some a ->
    Aspect.ordinal a = count_text l m (Aspect.text a).

(** ** Worked examples *)

(** "the acting was good but the acting was bad" *)
Definition twice_doc : Doc :=
  mk_doc [tok "the" "DET" " " 0; tok "acting" "NOUN" " " 0; tok "was" "AUX" " " 2;
          tok "good" "ADJ" " " 3; tok "but" "CCONJ" " " 4; tok "the" "DET" " " 5;
          tok "acting" "NOUN" " " 5; tok "was" "AUX" " " 7; tok "bad" "ADJ" "" 8].

Definition twice_aspects : list Aspect.t :=
  [Aspect.__init__ twice_doc 1 2 (Some 0) (Some 2);
   Aspect.__init__ twice_doc 6 7 (Some 5) (Some 7)].

(** The state the disambiguator leaves for it. *)
Definition twice_final : dis_state :=
  {| d_aspects :=
       [Aspect.expand_right (Aspect.__init__ twice_doc 1 2 (Some 0) (Some 2));
        Aspect.expand_left
          (Aspect.set_ordinal (Aspect.__init__ twice_doc 6 7 (Some 5) (Some 7)) 1)];
     d_log := [] |}.

(** "plot , plot , plot" *)
Definition thrice_doc : Doc :=
  mk_doc [tok "plot" "NOUN" " " 0; tok "," "PUNCT" " " 1; tok "plot" "NOUN" " " 2;
          tok "," "PUNCT" " " 3; tok "plot" "NOUN" "" 4].

Definition thrice_aspects : list Aspect.t :=
  [Aspect.__init__ thrice_doc 0 1 (Some 0) (Some 1);
   Aspect.__init__ thrice_doc 2 3 (Some 2) (Some 3);
   Aspect.__init__ thrice_doc 4 5 (Some 4) (Some 5)].

Definition thrice_final : dis_state :=
  {| d_aspects :=
       [Aspect.__init__ thrice_doc 0 1 (Some 0) (Some 1);
        Aspect.set_ordinal (Aspect.__init__ thrice_doc 2 3 (Some 2) (Some 3)) 1;
        Aspect.set_ordinal (Aspect.__init__ thrice_doc 4 5 (Some 4) (Some 5)) 2];
     d_log :=
       [mk_warning 0 "plot" "plot , plot , plot";
        mk_warning 0 "plot" "plot , plot , plot";
        mk_warning 1 "plot" "plot , plot , plot"] |}.

(** ** Lemmas *)

#[export] Instance widened_preorder : PreOrder widened.
Proof.
  split.
  - intros a. by constructor.
  - intros a b c [] []. constructor; try congruence; lia.
Qed.

#[export] Instance expanded_preorder : PreOrder expanded.
Proof.
  split.
  - intros a. split; [reflexivity|done].
  - intros a b c [? ?] [? ?]. split; [by etrans|congruence].
Qed.

Section DisambiguatorLemmas.
Context (doc : Doc).
Implicit Types (a : Aspect.t) (l : list Aspect.t) (st : dis_state) (i j k : Z).

Lemma expanded_text a a' : widened a a' -> Aspect.text a' = Aspect.text a.
Proof.
  intros []. unfold Aspect.text, Aspect.start, Aspect.stop. congruence.
Qed.

Lemma widened_unlabelled l l' :
  Forall2 widened l l' -> Forall unlabelled l -> Forall unlabelled l'.
Proof.
  induction 1 as [|a a' l l' [] _ IH]; [done|].
  intros [[? ?] ?]%Forall_cons. constructor; [|by apply IH].
  split; congruence.
Qed.

Lemma expand_expanded a a' e : Aspect.expand a = Ok (a', e) -> expanded a a'.
Proof.
  intros [(Hl & -> & _)|[(_ & Hr & -> & _)|(_ & _ & -> & _)]]%expand_cases;
    [| |reflexivity]; (split; [|done]); constructor; cbn; try done; lia.
Qed.

Lemma set_ordinal_aspect_of a n :
  aspect_of doc a -> aspect_of doc (Aspect.set_ordinal a n).
Proof. intros [[] ?]. split; [by constructor|done]. Qed.

Lemma set_ordinal_widened a n : widened a (Aspect.set_ordinal a n).
Proof. by constructor. Qed.

(** Replacing one element by a related one relates the lists. *)
Lemma Forall2_update (R : relation Aspect.t) `{!Reflexive R} l (n : nat) a a' :
  l !! n = Some a -> R a a' -> Forall2 R l (<[n := a']> l).
Proof.
  intros Hl HR. rewrite <- (list_insert_id l n a) at 1 by done.
  apply Forall2_insert; [|done]. by apply Forall_Forall2_diag, Forall_true.
Qed.

(** [expand_at] on a valid list, at a valid index. *)
Lemma expand_at_spec l k a :
  Forall (aspect_of doc) l -> 0 <= k -> l !! Z.to_nat k = Some a ->
  exists a' e,
    expand_at l k = Ok (<[Z.to_nat k := a']> l, e) /\
    Aspect.expand a = Ok (a', e) /\ aspect_of doc a' /\
    (if e then S (Aspect.budget a') = Aspect.budget a else a' = a).
Proof.
  intros Hall Hk Ha.
  destruct (Forall_lookup_1 _ _ _ _ Hall Ha) as [Hinv Hdoc].
  destruct (expand_ok a Hinv) as (a' & e & Hexp & Hinv' & Hb).
  exists a', e. unfold expand_at.
  rewrite (proj2 (py_index_in_range l k a Hk) Ha). cbn [bind]. rewrite Hexp. cbn [bind].
  rewrite py_setitem_nonneg; [|apply lookup_lt_Some in Ha; unfold py_len; lia].
  split; [done|]. split; [done|]. split; [|done]. split; [done|].
  apply expand_expanded in Hexp as [[] _]. congruence.
Qed.

Lemma budget_le a : Aspect.inv a -> (Aspect.budget a <= 5)%nat.
Proof.
  intros []. unfold Aspect.budget, Aspect.MAX_EXPANSION_LEFT,
    Aspect.MAX_EXPANSION_RIGHT in *. lia.
Qed.

Lemma same_context_lookup l i j ai aj :
  0 <= i -> 0 <= j ->
  l !! Z.to_nat i = Some ai -> l !! Z.to_nat j = Some aj ->
  same_context l i j = Ok (Aspect.__eq__ ai (Aspect.PyAspect aj)).
Proof.
  intros Hi Hj Hai Haj. unfold same_context.
  rewrite (proj2 (py_index_in_range l i ai Hi) Hai).
  by rewrite (proj2 (py_index_in_range l j aj Hj) Haj).
Qed.

(** The [while] loop with enough fuel. *)
Lemma expand_loop_spec fuel i j st ai aj :
  Forall (aspect_of doc) (d_aspects st) ->
  0 <= i -> 0 <= j -> i <> j ->
  d_aspects st !! Z.to_nat i = Some ai ->
  d_aspects st !! Z.to_nat j = Some aj ->
  (Aspect.budget ai + Aspect.budget aj < fuel)%nat ->
  exists st', expand_until_distinct fuel doc i j st = Ok st' /\
    Forall (aspect_of doc) (d_aspects st') /\
    Forall2 expanded (d_aspects st) (d_aspects st') /\
    loop_exit i j st st'.
Proof.
  revert st ai aj. induction fuel as [|fuel IH];
    intros [l log] ai aj Hall Hi Hj Hij Hai Haj Hfuel; [lia|].
  cbn [expand_until_distinct d_aspects d_log] in *.
  rewrite (same_context_lookup l i j ai aj) by done. cbn [bind].
  destruct (Aspect.__eq__ ai _) eqn:Heq.
  2:{ exists {| d_aspects := l; d_log := log |}. cbn.
      split; [done|]. split; [done|]. split; [reflexivity|].
      left. split; [done|]. cbn. by rewrite (same_context_lookup l i j ai aj), Heq. }
  assert (Z.to_nat i <> Z.to_nat j) as Hne by lia.
  destruct (expand_at_spec l i ai) as (ai' & e1 & -> & Hx1 & Hv1 & Hb1); [done..|].
  set (l1 := <[Z.to_nat i := ai']> l).
  assert (Forall (aspect_of doc) l1) as Hall1 by by apply Forall_insert.
  assert (l1 !! Z.to_nat j = Some aj) as Haj1
    by by (unfold l1; rewrite list_lookup_insert_ne).
  cbn [bind].
  destruct (expand_at_spec l1 j aj) as (aj' & e2 & -> & Hx2 & Hv2 & Hb2); [done..|].
  set (l2 := <[Z.to_nat j := aj']> l1).
  assert (Forall (aspect_of doc) l2) as Hall2 by by apply Forall_insert.
  assert (l2 !! Z.to_nat i = Some ai') as Hai2.
  { unfold l2, l1. rewrite list_lookup_insert_ne by done.
    apply list_lookup_insert_eq. by eapply lookup_lt_Some. }
  assert (l2 !! Z.to_nat j = Some aj') as Haj2.
  { unfold l2. apply list_lookup_insert_eq. by eapply lookup_lt_Some. }
  assert (Forall2 expanded l l2) as Hexp.
  { trans l1; eapply Forall2_update; eauto using expand_expanded; apply _. }
  cbn [bind]. destruct e1, e2; cbn [negb orb].
  4:{ subst ai' aj'. rewrite (proj2 (py_index_in_range l2 i ai Hi) Hai2).
      eexists {| d_aspects := l2 |}. cbn.
      split; [done|]. split; [done|]. split; [done|]. right.
      eexists. split; [done|]. split; [done|]. cbn.
      by rewrite (same_context_lookup l2 i j ai aj), Heq. }
  all: destruct (IH {| d_aspects := l2; d_log := log |} ai' aj')
         as (st' & -> & ? & ? & Hexit); [done..|subst; lia|];
       exists st'; split; [done|]; split; [done|]; split; [by etrans|done].
Qed.

Lemma count_text_S l (b : nat) a t :
  l !! b = Some a ->
  count_text l (S b) t =
  count_text l b t + (if decide (Aspect.text a = t) then 1 else 0).
Proof.
  intros Hb. unfold count_text. rewrite (take_S_r _ _ _ Hb), filter_app, length_app.
  rewrite filter_cons, filter_nil. case_decide; simpl; lia.
Qed.

Lemma seen_other (i j m : nat) : m <> j -> seen i (S j) m = seen i j m.
Proof. intros. unfold seen. repeat case_decide; lia. Qed.

Lemma seen_self (i j : nat) :
  (i < j)%nat -> seen i j j = i /\ seen i (S j) j = S i /\ seen i j i = i.
Proof. intros. unfold seen. repeat case_decide; lia. Qed.

(** The ordinals after the pair [(i, j)] has been handled, from the change
    made to each aspect. *)
Lemma ord_inv_advance l0 (i j : nat) l log l' log' ai aj :
  (i < j)%nat -> Forall2 widened l0 l ->
  l !! i = Some ai -> l !! j = Some aj ->
  ord_inv l0 (seen i j) {| d_aspects := l; d_log := log |} ->
  (forall (m : nat) a', l' !! m = Some a' ->
     exists a, l !! m = Some a /\ Aspect.text a' = Aspect.text a /\
       Aspect.ordinal a' =
         if decide (m = j /\ Aspect.text ai = Aspect.text aj)
         then Aspect.ordinal ai + 1 else Aspect.ordinal a) ->
  ord_inv l0 (seen i (S j)) {| d_aspects := l'; d_log := log' |}.
Proof.
  intros Hij Hw Hai Haj Hord Hstep H0 m a' Hm. cbn [d_aspects d_log] in *.
  destruct (Hstep m a' Hm) as (a & Ha & Htext & Hordinal).
  destruct (seen_self i j Hij) as (Hjj & HjS & Hii).
  destruct (Forall2_lookup_r _ _ _ _ _ Hw Hai) as (a0 & Ha0 & Hw0).
  apply expanded_text in Hw0.
  pose proof (count_text_S l0 i a0 (Aspect.text a') Ha0) as Hcount.
  rewrite Hordinal, Htext in *. rewrite <- Hw0 in Hcount.
  destruct (decide (m = j)) as [->|Hmj].
  - assert (a = aj) as -> by congruence. rewrite HjS, Hcount.
    destruct (decide (Aspect.text ai = Aspect.text aj)) as [Hc|Hc].
    + rewrite decide_True by done. by rewrite (Hord H0 i ai Hai), Hii, Hc.
    + rewrite decide_False by tauto. rewrite (Hord H0 j aj Haj), Hjj. lia.
  - rewrite decide_False by tauto. rewrite seen_other by done. by apply Hord.
Qed.

Lemma ord_inv_ext l0 (b b' : nat -> nat) st :
  (forall m, (m < length (d_aspects st))%nat -> b m = b' m) ->
  ord_inv l0 b st -> ord_inv l0 b' st.
Proof.
  intros Hb Hord H0 m a Hm. rewrite <- Hb by by eapply lookup_lt_Some.
  by apply Hord.
Qed.

Lemma same_text_lookup l i j ai aj :
  0 <= i -> 0 <= j ->
  l !! Z.to_nat i = Some ai -> l !! Z.to_nat j = Some aj ->
  same_text l i j = Ok (String.eqb (Aspect.text ai) (Aspect.text aj)).
Proof.
  intros Hi Hj Hai Haj. unfold same_text.
  rewrite (proj2 (py_index_in_range l i ai Hi) Hai).
  by rewrite (proj2 (py_index_in_range l j aj Hj) Haj).
Qed.

Lemma bump_ordinal_lookup l i j ai aj :
  0 <= i -> 0 <= j ->
  l !! Z.to_nat i = Some ai -> l !! Z.to_nat j = Some aj ->
  bump_ordinal l i j =
  Ok (<[Z.to_nat j := Aspect.set_ordinal aj (Aspect.ordinal ai + 1)]> l).
Proof.
  intros Hi Hj Hai Haj. unfold bump_ordinal.
  rewrite (proj2 (py_index_in_range l i ai Hi) Hai).
  rewrite (proj2 (py_index_in_range l j aj Hj) Haj). cbn [bind].
  apply py_setitem_nonneg. apply lookup_lt_Some in Haj. unfold py_len. lia.
Qed.

(** The body of the inner loop on the pair [(i, j)]. *)
Lemma disambiguate_pair_spec l0 i j st :
  0 <= i < j -> j < py_len l0 ->
  dis_ok doc l0 st -> ord_inv l0 (seen (Z.to_nat i) (Z.to_nat j)) st ->
  exists st', disambiguate_pair expand_fuel doc i st j = Ok st' /\
    dis_ok doc l0 st' /\
    ord_inv l0 (seen (Z.to_nat i) (S (Z.to_nat j))) st'.
Proof.
  destruct st as [l log]. intros Hi Hj [Hall Hw] Hord. cbn [d_aspects] in *.
  pose proof (Forall2_length _ _ _ Hw) as Hlen. unfold py_len in Hj.
  destruct (lookup_lt_is_Some_2 l (Z.to_nat i)) as [ai Hai]; [lia|].
  destruct (lookup_lt_is_Some_2 l (Z.to_nat j)) as [aj Haj]; [lia|].
  unfold disambiguate_pair. cbn [d_aspects d_log].
  rewrite (same_text_lookup l i j ai aj) by (done || lia). cbn [bind].
  destruct (String.eqb_spec (Aspect.text ai) (Aspect.text aj)) as [Heq|Hne].
  2:{ eexists. split; [done|]. split; [done|].
      eapply (ord_inv_advance l0 _ _ l); [lia|done..|].
      intros m a' Hm. exists a'. by rewrite decide_False by tauto. }
  rewrite (bump_ordinal_lookup l i j ai aj) by (done || lia). cbn [bind].
  set (aj1 := Aspect.set_ordinal aj (Aspect.ordinal ai + 1)).
  set (l1 := <[Z.to_nat j := aj1]> l).
  pose proof (Forall_lookup_1 _ _ _ _ Hall Hai) as [Hinv_i _].
  pose proof (set_ordinal_aspect_of aj (Aspect.ordinal ai + 1)
                (Forall_lookup_1 _ _ _ _ Hall Haj)) as Hv1.
  assert (l1 !! Z.to_nat j = Some aj1) as Haj1
    by (apply list_lookup_insert_eq; by eapply lookup_lt_Some).
  destruct (expand_loop_spec expand_fuel i j {| d_aspects := l1; d_log := log |} ai aj1)
    as ([l' log'] & -> & Hall' & Hexp & _); cbn [d_aspects];
    [by apply Forall_insert|lia..| |done| |].
  { unfold l1. rewrite list_lookup_insert_ne by lia. done. }
  { pose proof (budget_le _ Hinv_i). pose proof (budget_le aj1 (proj1 Hv1)).
    unfold expand_fuel. lia. }
  eexists. split; [done|]. cbn [d_aspects] in *. split.
  - split; [done|]. trans l; [done|]. trans l1.
    + eapply Forall2_update; [apply _|done|apply set_ordinal_widened].
    + eapply Forall2_impl; [done|]. by intros ?? [? _].
  - eapply (ord_inv_advance l0 _ _ l); [lia|done..|].
    intros m a' Hm.
    destruct (Forall2_lookup_r _ _ _ _ _ Hexp Hm) as (a1 & Ha1 & Hwd & Ho).
    apply expanded_text in Hwd. destruct (decide (m = Z.to_nat j)) as [->|Hmj].
    + assert (a1 = aj1) as -> by congruence. exists aj.
      by rewrite decide_True.
    + unfold l1 in Ha1. rewrite list_lookup_insert_ne in Ha1 by done.
      exists a1. by rewrite decide_False by tauto.
Qed.

(** The inner loop, for one [i]. *)
Lemma disambiguate_from_spec l0 i st :
  0 <= i < py_len l0 ->
  dis_ok doc l0 st -> ord_inv l0 (Nat.min (Z.to_nat i)) st ->
  exists st', disambiguate_from expand_fuel doc st i = Ok st' /\
    dis_ok doc l0 st' /\ ord_inv l0 (Nat.min (S (Z.to_nat i))) st'.
Proof.
  intros Hi Hok Hord. unfold disambiguate_from.
  replace (py_len (d_aspects st)) with (py_len l0)
    by (unfold py_len; by rewrite (Forall2_length _ _ _ (proj2 Hok))).
  destruct (for_range_total
    (fun j st => dis_ok doc l0 st /\
                 ord_inv l0 (seen (Z.to_nat i) (Z.to_nat j)) st)
    (disambiguate_pair expand_fuel doc i) (i + 1) (py_len l0) st)
    as (st' & Hrun & Hok' & Hord'); [lia| | |].
  - split; [done|]. eapply ord_inv_ext; [|done].
    intros m _. unfold seen. case_decide; lia.
  - intros j s1 Hj [Hok1 Hord1].
    destruct (disambiguate_pair_spec l0 i j s1) as (s2 & ? & ? & ?);
      [lia..|done|done|].
    exists s2. by replace (Z.to_nat (j + 1)) with (S (Z.to_nat j)) by lia.
  - exists st'. split; [done|]. split; [done|]. eapply ord_inv_ext; [|done].
    intros m Hm. rewrite <- (Forall2_length _ _ _ (proj2 Hok')) in Hm.
    unfold seen, py_len. case_decide; lia.
Qed.

(** Both loops: the disambiguator returns, in a sound state, with every
    ordinal counting the earlier aspects of the same text. *)
Lemma disambiguate_run l :
  Forall (aspect_of doc) l ->
  exists st, disambiguate expand_fuel doc l = Ok st /\
    dis_ok doc l st /\ ord_inv l id st.
Proof.
  intros Hall. unfold disambiguate.
  assert (dis_ok doc l {| d_aspects := l; d_log := [] |}) as Hok0
    by (split; [done|reflexivity]).
  destruct l as [|a0 l1] eqn:El.
  { eexists. split; [done|]. split; [done|]. by intros _ []. }
  rewrite <- El in *. assert (0 < py_len l) as Hpos by (subst l; rewrite py_len_cons;
    pose proof (py_len_nonneg l1); lia). clear El.
  destruct (for_range_total
    (fun i st => dis_ok doc l st /\ ord_inv l (Nat.min (Z.to_nat i)) st)
    (disambiguate_from expand_fuel doc) 0 (py_len l - 1)
    {| d_aspects := l; d_log := [] |})
    as (st' & Hrun & Hok' & Hord'); [lia| | |].
  - split; [done|]. intros H0 m a Hm. cbn in Hm.
    by rewrite (Forall_lookup_1 _ _ _ _ H0 Hm).
  - intros i s1 Hi [Hok1 Hord1].
    destruct (disambiguate_from_spec l i s1) as (s2 & ? & ? & ?); [lia|done..|].
    exists s2. by replace (Z.to_nat (i + 1)) with (S (Z.to_nat i)) by lia.
  - exists st'. split; [done|]. split; [done|]. eapply ord_inv_ext; [|done].
    intros m Hm. rewrite <- (Forall2_length _ _ _ (proj2 Hok')) in Hm.
    unfold py_len, id. lia.
Qed.

Lemma count_text_widened l l' (b : nat) t :
  Forall2 widened l l' -> count_text l' b t = count_text l b t.
Proof.
  unfold count_text. intros Hw. f_equal. revert b.
  induction Hw as [|a a' l l' Ha _ IH]; intros [|b]; try done.
  cbn [take]. rewrite !filter_cons, (expanded_text _ _ Ha).
  case_decide; cbn [length]; by rewrite IH.
Qed.

(** With ordinals that start at 0 the disambiguator ranks the aspects. *)
Lemma disambiguate_ranked l :
  Forall (aspect_of doc) l -> Forall (fun a => Aspect.ordinal a = 0) l ->
  exists st, disambiguate expand_fuel doc l = Ok st /\
    dis_ok doc l st /\ ranked (d_aspects st).
Proof.
  intros Hall H0. destruct (disambiguate_run l Hall) as (st & ? & Hok & Hord).
  exists st. split; [done|]. split; [done|]. intros m a Hm.
  rewrite (count_text_widened l _ _ _ (proj2 Hok)). by apply Hord.
Qed.

(** Widening keeps the order of the reduced slices. *)
Lemma widened_reduced_ordered lo l l' :
  Forall2 widened l l' -> reduced_ordered lo l -> reduced_ordered lo l'.
Proof.
  unfold reduced_ordered. intros Hw. revert lo.
  induction Hw as [|a a' l l' [Hs] _ IH]; intros lo; [done|]. simpl.
  unfold Aspect.start, Aspect.stop in *. rewrite Hs. intros [? ?]. eauto.
Qed.

(** More fuel does not change the result of the [while] loop. *)
Lemma expand_until_distinct_mono fuel fuel' i j st st' :
  (fuel <= fuel')%nat ->
  expand_until_distinct fuel doc i j st = Ok st' ->
  expand_until_distinct fuel' doc i j st = Ok st'.
Proof.
  revert fuel' st. induction fuel as [|fuel IH]; intros fuel' st Hle; [done|].
  destruct fuel' as [|fuel']; [lia|]. cbn [expand_until_distinct].
  destruct (same_context _ i j) as [[]| |]; cbn [bind]; try done.
  destruct (expand_at _ i) as [[l1 e1]| |]; cbn [bind]; try done.
  destruct (expand_at l1 j) as [[l2 e2]| |]; cbn [bind]; try done.
  destruct (negb (e1 || e2)); [done|]. apply IH. lia.
Qed.

End DisambiguatorLemmas.

(** ** Theorems on the disambiguator *)

(** The disambiguator terminates without error on valid aspects of the
    document: with [expand_fuel] the [while] loop never runs out of fuel,
    and no index is out of range. *)
Theorem disambiguate_total (doc : Doc) (l : list Aspect.t) :
  Forall (aspect_of doc) l ->
  exists st, disambiguate expand_fuel doc l = Ok st.
Proof. intros Hall. destruct (disambiguate_run doc l Hall) as (st & ? & _). eauto. Qed.

Lemma disambiguate_total_witness :
  exists st, disambiguate expand_fuel twice_doc twice_aspects = Ok st.
Proof. apply disambiguate_total. repeat constructor; by vm_compute. Defined.

(** The disambiguator only widens contexts and sets ordinals: it returns
    as many aspects, each a valid aspect of the document with the reduced
    slice, label and categories it had, and with a context slice that
    contains the one it had. *)
Theorem disambiguate_widens (doc : Doc) (l : list Aspect.t) (st : dis_state) :
  Forall (aspect_of doc) l ->
  disambiguate expand_fuel doc l = Ok st ->
  Forall (aspect_of doc) (d_aspects st) /\ Forall2 widened l (d_aspects st).
Proof.
  intros Hall Hrun. destruct (disambiguate_run doc l Hall) as (st' & ? & Hok & _).
  by assert (st' = st) as -> by congruence.
Qed.

Lemma disambiguate_widens_witness :
  Forall (aspect_of twice_doc) (d_aspects twice_final) /\
  Forall2 widened twice_aspects (d_aspects twice_final).
Proof.
  apply disambiguate_widens; [|reflexivity].
  repeat constructor; by vm_compute.
Defined.

(** C8. The ordinal of an aspect is its rank among the aspects of the same
    reduced text: when the ordinals start at 0, aspect [m] ends with the
    number of aspects before it that have its text. *)
Theorem disambiguate_ordinals (doc : Doc) (l : list Aspect.t) (st : dis_state) :
  Forall (aspect_of doc) l ->
  Forall (fun a => Aspect.ordinal a = 0) l ->
  disambiguate expand_fuel doc l = Ok st ->
  forall (m : nat) a, d_aspects st !! m = Some a ->
    Aspect.ordinal a = count_text l m (Aspect.text a).
Proof.
  intros Hall H0 Hrun. destruct (disambiguate_run doc l Hall) as (st' & ? & _ & Hord).
  assert (st' = st) as -> by congruence. by apply Hord.
Qed.

Lemma disambiguate_ordinals_witness :
  exists a, d_aspects thrice_final !! 2%nat = Some a /\
    Aspect.ordinal a = count_text thrice_aspects 2 (Aspect.text a).
Proof.
  eexists; split; [reflexivity|].
  apply (disambiguate_ordinals thrice_doc thrice_aspects thrice_final);
    [repeat constructor; by vm_compute..|reflexivity|reflexivity].
Defined.

(** The [while] loop terminates with as much fuel as the two aspects
    have expansions left, plus one, and it ends in one of two ways: the two
    context texts differ and nothing was logged, or they are still equal
    and one warning about aspect [i] was logged. *)
Theorem expand_until_distinct_exit (doc : Doc) (fuel : nat) (i j : Z)
    (st : dis_state) (ai aj : Aspect.t) :
  Forall (aspect_of doc) (d_aspects st) ->
  0 <= i -> 0 <= j -> i <> j ->
  d_aspects st !! Z.to_nat i = Some ai ->
  d_aspects st !! Z.to_nat j = Some aj ->
  (Aspect.budget ai + Aspect.budget aj < fuel)%nat ->
  exists st', expand_until_distinct fuel doc i j st = Ok st' /\
              loop_exit i j st st'.
Proof.
  intros. destruct (expand_loop_spec doc fuel i j st ai aj)
    as (st' & ? & _ & _ & ?); eauto.
Qed.

Lemma expand_until_distinct_exit_witness :
  exists st',
    expand_until_distinct 11 twice_doc 0 1
      {| d_aspects := twice_aspects; d_log := [] |} = Ok st' /\
    loop_exit 0 1 {| d_aspects := twice_aspects; d_log := [] |} st'.
Proof.
  eapply (expand_until_distinct_exit twice_doc 11 0 1);
    try (repeat constructor; by vm_compute); reflexivity.
Defined.

(** C37. The disambiguator keeps the reduced texts and the left-to-right
    order of the reduced slices. *)
Theorem disambiguate_keeps_order (doc : Doc) (l : list Aspect.t)
    (st : dis_state) (lo : Z) :
  Forall (aspect_of doc) l -> reduced_ordered lo l ->
  disambiguate expand_fuel doc l = Ok st ->
  reduced_ordered lo (d_aspects st) /\
  Aspect.text <$> d_aspects st = Aspect.text <$> l.
Proof.
  intros Hall Hord Hrun.
  destruct (disambiguate_run doc l Hall) as (st' & ? & [_ Hw] & _).
  assert (st' = st) as -> by congruence.
  split; [by eapply widened_reduced_ordered|].
  clear -Hw. induction Hw as [|a a' l l' Ha _ IH]; [done|].
  cbn [fmap list_fmap]. f_equal; [by apply expanded_text|done].
Qed.

Lemma disambiguate_keeps_order_witness :
  reduced_ordered 0 (d_aspects twice_final) /\
  Aspect.text <$> d_aspects twice_final = Aspect.text <$> twice_aspects.
Proof.
  apply (disambiguate_keeps_order twice_doc);
    [repeat constructor; by vm_compute|repeat split; by vm_compute|reflexivity].
Defined.

(** "the acting was good but the acting was bad": the second "acting"
    gets ordinal 1, one expansion of each context makes them differ
    ("the acting was", "but the acting"), and nothing is logged. *)
Example disambiguate_acting_twice :
  exists a1 a2,
    disambiguate expand_fuel twice_doc twice_aspects =
      Ok {| d_aspects := [a1; a2]; d_log := [] |} /\
    Aspect.ordinal a1 = 0 /\ Aspect.ordinal a2 = 1 /\
    Aspect.context a1 = "the acting was" /\
    Aspect.context a2 = "but the acting".
Proof. by eexists _, _. Qed.

(** "plot , plot , plot": commas block every expansion, so each of the
    three pairs logs a warning and the contexts stay equal; the ordinals
    are 0, 1 and 2. *)
Example disambiguate_plot_thrice :
  exists a1 a2 a3 log,
    disambiguate expand_fuel thrice_doc thrice_aspects =
      Ok {| d_aspects := [a1; a2; a3]; d_log := log |} /\
    Aspect.ordinal <$> [a1; a2; a3] = [0; 1; 2] /\
    Aspect.context <$> [a1; a2; a3] = ["plot"; "plot"; "plot"] /\
    w_index <$> log = [0; 0; 1].
Proof. by eexists _, _, _, _. Qed.
