(* ===== verification/DisambiguatorLog.v ===== *)
(** * The log of the disambiguator: what a warning means

    The disambiguator logs a warning when neither aspect of a pair can
    expand.  This file states what a warning in the final log says about
    the final aspects ([justified]): the aspect it names and a later
    aspect still have the same reduced text and the same context text,
    and neither can expand.  The invariant is carried through the [while]
    loop and the two [for] loops by the rules of the prelude. *)

From stdpp Require Import prelude strings list_numbers gmap.
From S2P Require Import Prelude Spacy AspectSpan Disambiguator.

#[local] Open Scope Z_scope.

(** An aspect that cannot expand: [expand] returns [False] and leaves the
    object as it is. *)
Definition stuck (a : Aspect.t) : Prop :=
  Aspect.expand a = Ok (a, false).

(** The aspects [ai], at the index the warning [w] names, and [aj], at the
    later index [j], justify [w]. *)
Record justifies (doc : Doc) (l : list Aspect.t) (w : warning) (j : nat)
    (ai aj : Aspect.t) : Prop := mk_justifies {
  ju_index : 0 <= w_index w;
  ju_first : l !! Z.to_nat (w_index w) = Some ai;
  ju_second : l !! j = Some aj;
  ju_order : (Z.to_nat (w_index w) < j)%nat;
  ju_doc : w_doc w = doc_text doc;
  ju_aspect : w_aspect w = Aspect.text ai;
  ju_text : Aspect.text aj = Aspect.text ai;
  ju_context : Aspect.context aj = Aspect.context ai;
  ju_stuck_first : stuck ai;
  ju_stuck_second : stuck aj;
}.

Definition justified (doc : Doc) (l : list Aspect.t) (w : warning) : Prop :=
  exists j ai aj, justifies doc l w j ai aj.

(** Every warning logged so far is justified by the current aspects. *)
Definition log_ok (doc : Doc) (st : dis_state) : Prop :=
  Forall (justified doc (d_aspects st)) (d_log st).

(** What a mutation of an aspect must keep for the warnings to stay
    justified: the reduced text, and the context of an aspect that is
    stuck. *)
Definition keeps (a a' : Aspect.t) : Prop :=
  Aspect.text a' = Aspect.text a /\
  (stuck a -> Aspect.context a' = Aspect.context a /\ stuck a').

(** ** Worked example: "plot was good , plot , plot was bad" *)

Definition verdict_doc : Doc :=
  mk_doc [tok "plot" "NOUN" " " 0; tok "was" "AUX" " " 1; tok "good" "ADJ" " " 2;
          tok "," "PUNCT" " " 3; tok "plot" "NOUN" " " 4; tok "," "PUNCT" " " 5;
          tok "plot" "NOUN" " " 6; tok "was" "AUX" " " 7; tok "bad" "ADJ" "" 8].

Definition verdict_aspects : list Aspect.t :=
  [Aspect.__init__ verdict_doc 0 1 (Some 0) (Some 1);
   Aspect.__init__ verdict_doc 4 5 (Some 4) (Some 5);
   Aspect.__init__ verdict_doc 6 7 (Some 6) (Some 7)].

(** ** Lemmas *)

#[export] Instance keeps_preorder : PreOrder keeps.
Proof.
  split.
  - intros a. by split.
  - intros a b c [Hab Hab'] [Hbc Hbc']. split; [congruence|].
    intros Ha. destruct (Hab' Ha) as [? Hb]. destruct (Hbc' Hb). split; congruence.
Qed.

Section LogLemmas.
Context (doc : Doc).
Implicit Types (a : Aspect.t) (l : list Aspect.t) (st : dis_state) (i j : Z).

Lemma keeps_expand a a' e : Aspect.expand a = Ok (a', e) -> keeps a a'.
Proof.
  intros He. split.
  - apply expanded_text. by apply expand_expanded in He as [? _].
  - unfold stuck. intros Hs. rewrite Hs in He. by injection He as <- _.
Qed.

Lemma keeps_set_ordinal a n : keeps a (Aspect.set_ordinal a n).
Proof.
  split; [done|]. unfold stuck. intros Hs. split; [done|].
  by rewrite expand_set_ordinal, Hs.
Qed.

(** Replacing an aspect by one that [keeps] it keeps a warning justified. *)
Lemma justified_update l (k : nat) a a' w :
  l !! k = Some a -> keeps a a' ->
  justified doc l w -> justified doc (<[k := a']> l) w.
Proof.
  intros Hk [Ht Hs] (j & ai & aj & []).
  pose proof (lookup_lt_Some _ _ _ Hk).
  destruct (decide (k = Z.to_nat (w_index w))) as [->|Hi];
    [|destruct (decide (k = j)) as [->|Hj]].
  - assert (a = ai) as -> by congruence. destruct Hs as [Hc Hs]; [done|].
    exists j, a', aj. constructor; try done; try congruence.
    + by apply list_lookup_insert_eq.
    + rewrite list_lookup_insert_ne by lia. done.
  - assert (a = aj) as -> by congruence. destruct Hs as [Hc Hs]; [done|].
    exists j, ai, a'. constructor; try done; try congruence.
    + by rewrite list_lookup_insert_ne.
    + by apply list_lookup_insert_eq.
  - exists j, ai, aj. constructor; try done; by rewrite list_lookup_insert_ne.
Qed.

Lemma log_ok_update l log (k : nat) a a' :
  l !! k = Some a -> keeps a a' ->
  log_ok doc {| d_aspects := l; d_log := log |} ->
  log_ok doc {| d_aspects := <[k := a']> l; d_log := log |}.
Proof.
  unfold log_ok. cbn [d_aspects d_log]. intros Hk Hkeeps Hlog.
  eapply Forall_impl; [done|]. intros w. by apply (justified_update l k a).
Qed.

(** [expand_at], read backwards from its result. *)
Lemma expand_at_inv l k l' e :
  0 <= k -> expand_at l k = Ok (l', e) ->
  exists a a', l !! Z.to_nat k = Some a /\ Aspect.expand a = Ok (a', e) /\
               l' = <[Z.to_nat k := a']> l.
Proof.
  unfold expand_at. intros Hk H.
  apply bind_Ok_inv in H as (a & Ha%py_index_Ok_nonneg & H); [|done].
  apply bind_Ok_inv in H as ([a' e'] & He & H).
  apply bind_Ok_inv in H as (l1 & ->%py_setitem_Ok_nonneg & [= <- <-]); [|done].
  by exists a, a'.
Qed.

(** The warning of a pair of stuck aspects with equal contexts. *)
Lemma stuck_pair_justified l i j ai aj :
  0 <= i < j ->
  l !! Z.to_nat i = Some ai -> l !! Z.to_nat j = Some aj ->
  Aspect.text aj = Aspect.text ai ->
  Aspect.__eq__ ai (Aspect.PyAspect aj) = true ->
  stuck ai -> stuck aj ->
  justified doc l
    {| w_index := i; w_aspect := Aspect.text ai; w_doc := doc_text doc |}.
Proof.
  intros Hij Hai Haj Ht Heq%String.eqb_eq Hsi Hsj.
  exists (Z.to_nat j), ai, aj. constructor; cbn; done || lia.
Qed.

(** The state after the two expansions of one iteration. *)
Lemma expand_both_log l log i j ai aj ai' aj' e1 e2 :
  0 <= i < j ->
  l !! Z.to_nat i = Some ai -> l !! Z.to_nat j = Some aj ->
  Aspect.expand ai = Ok (ai', e1) -> Aspect.expand aj = Ok (aj', e2) ->
  log_ok doc {| d_aspects := l; d_log := log |} ->
  let l2 := <[Z.to_nat j := aj']> (<[Z.to_nat i := ai']> l) in
  log_ok doc {| d_aspects := l2; d_log := log |} /\
  l2 !! Z.to_nat i = Some ai' /\ l2 !! Z.to_nat j = Some aj'.
Proof.
  intros Hij Hai Haj He1 He2 Hlog l2.
  pose proof (lookup_lt_Some _ _ _ Hai). pose proof (lookup_lt_Some _ _ _ Haj).
  split; [|split].
  - apply (log_ok_update _ _ _ aj);
      [by rewrite list_lookup_insert_ne by lia|by eapply keeps_expand|].
    apply (log_ok_update _ _ _ ai); [done|by eapply keeps_expand|done].
  - unfold l2. rewrite list_lookup_insert_ne by lia.
    by apply list_lookup_insert_eq.
  - apply list_lookup_insert_eq. by rewrite length_insert.
Qed.

(** The [while] loop keeps the log justified, on a pair of equal text. *)
Lemma expand_loop_log fuel i j st st' ai aj :
  0 <= i < j ->
  d_aspects st !! Z.to_nat i = Some ai ->
  d_aspects st !! Z.to_nat j = Some aj ->
  Aspect.text aj = Aspect.text ai ->
  log_ok doc st ->
  expand_until_distinct fuel doc i j st = Ok st' -> log_ok doc st'.
Proof.
  revert st ai aj. induction fuel as [|fuel IH];
    intros [l log] ai aj Hij Hai Haj Htext Hlog H; [done|].
  cbn [expand_until_distinct d_aspects d_log] in *.
  rewrite (same_context_lookup l i j ai aj) in H by (done || lia).
  cbn [bind] in H.
  destruct (Aspect.__eq__ ai _) eqn:Heq; [|by injection H as <-].
  apply bind_Ok_inv in H
    as ([l1 e1] & (a1 & ai' & Ha1 & He1 & ->)%expand_at_inv & H); [|lia].
  apply bind_Ok_inv in H
    as ([l2 e2] & (a2 & aj' & Ha2 & He2 & ->)%expand_at_inv & H); [|lia].
  rewrite list_lookup_insert_ne in Ha2 by lia.
  assert (a1 = ai) as -> by congruence. assert (a2 = aj) as -> by congruence.
  destruct (expand_both_log l log i j ai aj ai' aj' e1 e2)
    as (Hlog2 & Hai2 & Haj2); [done..|].
  destruct (keeps_expand _ _ _ He1) as [Ht1 _].
  destruct (keeps_expand _ _ _ He2) as [Ht2 _].
  destruct e1, e2; cbn [negb orb] in H.
  4:{ pose proof (expand_false _ _ He1) as ->.
      pose proof (expand_false _ _ He2) as ->.
      rewrite (proj2 (py_index_in_range _ i ai (proj1 Hij)) Hai2) in H.
      injection H as <-. apply Forall_app. split; [done|].
      constructor; [|done]. by apply (stuck_pair_justified _ i j ai aj). }
  all: by apply (IH {| d_aspects := _; d_log := log |} ai' aj') in H;
         [|done..|congruence|].
Qed.

(** The body of the inner loop keeps the log justified. *)
Lemma disambiguate_pair_log fuel i j st st' :
  0 <= i < j -> log_ok doc st ->
  disambiguate_pair fuel doc i st j = Ok st' -> log_ok doc st'.
Proof.
  destruct st as [l log]. intros Hij Hlog. unfold disambiguate_pair, same_text.
  cbn [d_aspects d_log]. intros H.
  apply bind_Ok_inv in H as (same & Hsame & H).
  apply bind_Ok_inv in Hsame as (ai & Hai%py_index_Ok_nonneg & Hsame); [|lia].
  apply bind_Ok_inv in Hsame as (aj & Haj%py_index_Ok_nonneg & [= <-]); [|lia].
  destruct (String.eqb_spec (Aspect.text ai) (Aspect.text aj)) as [Heq|];
    [|by injection H as <-].
  rewrite (bump_ordinal_lookup l i j ai aj) in H by (done || lia).
  cbn [bind] in H. revert H.
  apply (expand_loop_log fuel i j _ _ ai (Aspect.set_ordinal aj (Aspect.ordinal ai + 1)));
    cbn [d_aspects d_log]; [done| | |done|].
  - by rewrite list_lookup_insert_ne by lia.
  - apply list_lookup_insert_eq. by eapply lookup_lt_Some.
  - apply (log_ok_update _ _ _ aj); [done|apply keeps_set_ordinal|done].
Qed.

(** Both [for] loops keep the log justified. *)
Lemma disambiguate_log fuel l st :
  disambiguate fuel doc l = Ok st -> log_ok doc st.
Proof.
  unfold disambiguate.
  apply (for_each_inv (log_ok doc)); [by constructor|].
  intros s1 i s2 Hi%elem_of_py_range Hs1. unfold disambiguate_from.
  apply (for_each_inv (log_ok doc)); [done|].
  intros s3 j s4 Hj%elem_of_py_range. apply disambiguate_pair_log. lia.
Qed.

End LogLemmas.

(** ** Theorems on the log *)

(** C20. Every warning of the disambiguator is justified by its result: the
    aspect the warning names and some later aspect have, in the list
    returned, the same reduced text and the same context text, and neither
    of the two can expand any further. *)
Theorem disambiguate_log_justified (doc : Doc) (fuel : nat)
    (l : list Aspect.t) (st : dis_state) :
  disambiguate fuel doc l = Ok st ->
  Forall (justified doc (d_aspects st)) (d_log st).
Proof. apply disambiguate_log. Qed.

Lemma disambiguate_log_justified_witness :
  Forall (justified thrice_doc (d_aspects thrice_final)) (d_log thrice_final).
Proof.
  apply (disambiguate_log_justified thrice_doc expand_fuel thrice_aspects).
  reflexivity.
Defined.

(** The converse fails: two aspects may end with the same reduced text
    and the same context text without any warning.  In "plot was good ,
    plot , plot was bad" the first and the third aspect both end with the
    context "plot was", each widened while it was compared with the
    second, and they were compared with each other in between. *)
Example disambiguate_equal_contexts_unlogged :
  exists a0 a1 a2,
    disambiguate expand_fuel verdict_doc verdict_aspects =
      Ok {| d_aspects := [a0; a1; a2]; d_log := [] |} /\
    Aspect.text a0 = Aspect.text a2 /\
    Aspect.context a0 = "plot was" /\ Aspect.context a2 = "plot was" /\
    Aspect.__eq__ a0 (Aspect.PyAspect a2) = true.
Proof. by eexists _, _, _. Qed.
