(* ===== verification/WhileLoop.v ===== *)
(** * The [while] loop of the disambiguator as a transition system

    [Disambiguator.expand_until_distinct] runs the loop
    [while aspects[i] == aspects[j]: ...] with fuel.  This file gives the
    same loop as a step relation on [dis_state]: [loop_step] is an
    iteration after which the loop goes on, [loop_final] is the way the
    loop is left (the contexts differ, or neither aspect expanded and the
    warning is logged before [break]).  The fuelled function is proved to
    return exactly the states that a finite run of steps followed by a
    final transition reaches; fuel is shown not to matter once there is
    enough of it; the sum of the budgets of the two aspects decreases at
    every step, so every run is finite, and from a valid state the loop is
    left within that many steps. *)

From stdpp Require Import prelude strings list_numbers gmap relations.
From S2P Require Import Prelude Spacy AspectSpan Disambiguator DisambiguatorLog.

#[local] Open Scope Z_scope.

(** An iteration after which the loop goes on: the contexts are equal,
    both aspects are asked to expand, in this order, and one of them
    did. *)
Inductive loop_step (i j : Z) : relation dis_state :=
| LS_expand l log l1 e1 l2 e2 :
    same_context l i j = Ok true ->
    expand_at l i = Ok (l1, e1) ->
    expand_at l1 j = Ok (l2, e2) ->
    e1 || e2 = true ->
    loop_step i j {| d_aspects := l; d_log := log |}
                  {| d_aspects := l2; d_log := log |}.

(** Leaving the loop: by its condition, or by [break] after the warning. *)
Inductive loop_final (doc : Doc) (i j : Z) : relation dis_state :=
| LF_distinct st :
    same_context (d_aspects st) i j = Ok false ->
    loop_final doc i j st st
| LF_break l log l1 l2 ai :
    same_context l i j = Ok true ->
    expand_at l i = Ok (l1, false) ->
    expand_at l1 j = Ok (l2, false) ->
    py_index l2 i = Ok ai ->
    loop_final doc i j {| d_aspects := l; d_log := log |}
      {| d_aspects := l2;
         d_log := log ++ [{| w_index := i; w_aspect := Aspect.text ai;
                             w_doc := doc_text doc |}] |}.

(** A run of the loop: [n] iterations that go on, then the exit. *)
Definition loop_run (doc : Doc) (i j : Z) (n : nat) (st st' : dis_state) : Prop :=
  exists st1, nsteps (loop_step i j) n st st1 /\ loop_final doc i j st1 st'.

(** The expansions the aspects at [i] and [j] may still perform. *)
Definition loop_budget (i j : Z) (st : dis_state) : nat :=
  from_option Aspect.budget 0%nat (d_aspects st !! Z.to_nat i) +
  from_option Aspect.budget 0%nat (d_aspects st !! Z.to_nat j).

(** ** Worked example *)

(** The state in which the loop is entered for the two "acting" of
    [twice_doc]: the ordinal of the second has been set. *)
Definition twice_entered : dis_state :=
  {| d_aspects :=
       [Aspect.__init__ twice_doc 1 2 (Some 0) (Some 2);
        Aspect.set_ordinal (Aspect.__init__ twice_doc 6 7 (Some 5) (Some 7)) 1];
     d_log := [] |}.

(** ** Lemmas *)

(** An expansion that succeeds uses one unit of the budget; one that fails
    uses none.  No invariant is needed: the guards of [expand] compare the
    counters with their caps. *)
Lemma expand_budget (a a' : Aspect.t) (e : bool) :
  Aspect.expand a = Ok (a', e) ->
  (Aspect.budget a' + (if e then 1 else 0))%nat = Aspect.budget a.
Proof.
  intros [(Hl & -> & ->)|[(_ & Hr & -> & ->)|(_ & _ & -> & ->)]]%expand_cases.
  - apply can_expand_left_true in Hl as (_ & ? & _).
    unfold Aspect.budget. cbn. lia.
  - apply can_expand_right_true in Hr as (_ & ? & _).
    unfold Aspect.budget. cbn. lia.
  - lia.
Qed.

Section LoopLemmas.
Context (doc : Doc) (i j : Z).
Implicit Types (st : dis_state) (fuel n : nat).

Lemma loop_unfold_step fuel st st1 :
  loop_step i j st st1 ->
  expand_until_distinct (S fuel) doc i j st =
  expand_until_distinct fuel doc i j st1.
Proof.
  intros [l log l1 e1 l2 e2 Hs H1 H2 He]. cbn.
  rewrite Hs. cbn. rewrite H1. cbn. rewrite H2. cbn. by rewrite He.
Qed.

Lemma loop_unfold_final fuel st st' :
  loop_final doc i j st st' ->
  expand_until_distinct (S fuel) doc i j st = Ok st'.
Proof.
  intros [st0 Hs|l log l1 l2 ai Hs H1 H2 Hi]; cbn.
  - by rewrite Hs.
  - rewrite Hs. cbn. rewrite H1. cbn. rewrite H2. cbn. by rewrite Hi.
Qed.

(** What one unfolding of the loop that returns has done. *)
Lemma loop_cases fuel st st' :
  expand_until_distinct (S fuel) doc i j st = Ok st' ->
  loop_final doc i j st st' \/
  exists st1, loop_step i j st st1 /\
              expand_until_distinct fuel doc i j st1 = Ok st'.
Proof.
  destruct st as [l log]. cbn.
  intros (same & Hs & H)%bind_Ok_inv. destruct same.
  2:{ injection H as <-. left. by apply LF_distinct. }
  apply bind_Ok_inv in H as ([l1 e1] & H1 & H).
  apply bind_Ok_inv in H as ([l2 e2] & H2 & H).
  destruct (e1 || e2) eqn:He; cbn in H.
  - right. eexists. split; [|done]. by eapply LS_expand.
  - apply bind_Ok_inv in H as (ai & Hi & [= <-]).
    apply orb_false_elim in He as [-> ->]. left. by eapply LF_break.
Qed.

Lemma loop_run_sound n st st' fuel :
  loop_run doc i j n st st' -> (n < fuel)%nat ->
  expand_until_distinct fuel doc i j st = Ok st'.
Proof.
  intros (st1 & Hsteps & Hfinal). revert fuel.
  induction Hsteps as [st|n st st2 st1 Hstep _ IH]; intros [|fuel] Hlt; try lia.
  - by apply loop_unfold_final.
  - rewrite (loop_unfold_step _ _ _ Hstep). apply IH; [done|lia].
Qed.

Lemma loop_run_complete fuel st st' :
  expand_until_distinct fuel doc i j st = Ok st' ->
  exists n, (n < fuel)%nat /\ loop_run doc i j n st st'.
Proof.
  revert st. induction fuel as [|fuel IH]; intros st; [done|].
  intros [Hfinal|(st1 & Hstep & (n & Hn & st2 & Hsteps & Hfinal)%IH)]%loop_cases.
  - exists 0%nat. split; [lia|]. exists st. split; [constructor|done].
  - exists (S n). split; [lia|]. exists st2. split; [by econstructor|done].
Qed.

(** The result of the fuelled loop, when it has one, is the result with
    any larger fuel: errors included. *)
Lemma loop_fuel_mono fuel fuel' st r :
  expand_until_distinct fuel doc i j st = r -> r <> OutOfFuel ->
  (fuel <= fuel')%nat ->
  expand_until_distinct fuel' doc i j st = r.
Proof.
  revert fuel' st. induction fuel as [|fuel IH]; intros [|fuel'] st; cbn;
    try (intros; congruence || lia).
  intros Hrun Hr Hle.
  destruct (same_context _ i j) as [[]| |]; cbn in *; try done.
  destruct (expand_at _ i) as [[l1 e1]| |]; cbn in *; try done.
  destruct (expand_at l1 j) as [[l2 e2]| |]; cbn in *; try done.
  destruct (e1 || e2); cbn in *; [|done]. apply IH; [done..|lia].
Qed.

(** The step and the exit are functions of the state, and exclude each
    other. *)
Lemma loop_step_det st st1 st2 :
  loop_step i j st st1 -> loop_step i j st st2 -> st1 = st2.
Proof.
  intros [l log l1 e1 l2 e2 _ H1 H2 _] Hstep.
  inversion Hstep as [? ? l1' e1' l2' e2' _ H1' H2' _]; subst.
  rewrite H1 in H1'. injection H1' as <- <-.
  rewrite H2 in H2'. by injection H2' as <- <-.
Qed.

Lemma loop_final_det st st1 st2 :
  loop_final doc i j st st1 -> loop_final doc i j st st2 -> st1 = st2.
Proof.
  intros H1%(loop_unfold_final 0) H2%(loop_unfold_final 0). congruence.
Qed.

Lemma loop_step_not_final st st1 st' :
  loop_step i j st st1 -> loop_final doc i j st st' -> False.
Proof.
  intros H1%(loop_unfold_step 0) H2%(loop_unfold_final 0).
  rewrite H1 in H2. done.
Qed.

(** A state has one run at most. *)
Lemma loop_run_unique n m st st' st'' :
  loop_run doc i j n st st' -> loop_run doc i j m st st'' ->
  m = n /\ st'' = st'.
Proof.
  intros (st1 & Hsteps & Hfinal). revert m.
  induction Hsteps as [st|n st st2 st1 Hstep _ IH];
    intros m (st3 & Hsteps' & Hfinal');
    inversion Hsteps' as [|m' ? st4 ? Hstep' Hrest]; subst.
  - split; [done|]. by eapply loop_final_det.
  - exfalso. by eapply loop_step_not_final.
  - exfalso. by eapply loop_step_not_final.
  - rewrite (loop_step_det _ _ _ Hstep' Hstep) in Hrest.
    destruct (IH Hfinal m') as [-> ->]; [by exists st3|done].
Qed.

Lemma loop_budget_lookup l log ai aj :
  l !! Z.to_nat i = Some ai -> l !! Z.to_nat j = Some aj ->
  loop_budget i j {| d_aspects := l; d_log := log |} =
  (Aspect.budget ai + Aspect.budget aj)%nat.
Proof. unfold loop_budget. cbn. by intros -> ->. Qed.

(** Every step uses the budget. *)
Lemma loop_step_budget st st1 :
  0 <= i < j -> loop_step i j st st1 ->
  (loop_budget i j st1 < loop_budget i j st)%nat.
Proof.
  intros Hij [l log l1 e1 l2 e2 _ H1 H2 He].
  apply expand_at_inv in H1 as (ai & ai' & Hai & Hx1 & ->); [|lia].
  apply expand_at_inv in H2 as (aj & aj' & Haj & Hx2 & ->); [|lia].
  rewrite list_lookup_insert_ne in Haj by lia.
  pose proof (lookup_lt_Some _ _ _ Hai). pose proof (lookup_lt_Some _ _ _ Haj).
  rewrite (loop_budget_lookup l log ai aj) by done.
  rewrite (loop_budget_lookup _ log ai' aj').
  - apply expand_budget in Hx1, Hx2. destruct e1, e2; try done; lia.
  - rewrite list_lookup_insert_ne by lia. by apply list_lookup_insert_eq.
  - apply list_lookup_insert_eq. by rewrite length_insert.
Qed.

Lemma loop_steps_budget n st st1 :
  0 <= i < j -> nsteps (loop_step i j) n st st1 ->
  (n + loop_budget i j st1 <= loop_budget i j st)%nat.
Proof.
  intros Hij. induction 1 as [|n st st2 st1 Hstep%loop_step_budget _ IH];
    [lia|lia|done].
Qed.

End LoopLemmas.

(** ** Theorems on the [while] loop *)

(** The fuelled loop and the transition system agree: the loop returns
    the state [st'] with [fuel] units of fuel exactly when fewer than
    [fuel] iterations that go on, followed by an exit, lead from [st] to
    [st']. *)
Theorem while_loop_steps (doc : Doc) (i j : Z) (fuel : nat) (st st' : dis_state) :
  expand_until_distinct fuel doc i j st = Ok st' <->
  exists n, (n < fuel)%nat /\ loop_run doc i j n st st'.
Proof.
  split; [apply loop_run_complete|].
  intros (n & Hn & Hrun). by eapply loop_run_sound.
Qed.

(** Fuel is not observable: whatever the loop returns or raises with
    some fuel, it returns or raises with any larger fuel. *)
Theorem while_loop_fuel_irrelevant (doc : Doc) (i j : Z) (fuel fuel' : nat)
    (st : dis_state) :
  (fuel <= fuel')%nat ->
  expand_until_distinct fuel doc i j st <> OutOfFuel ->
  expand_until_distinct fuel' doc i j st = expand_until_distinct fuel doc i j st.
Proof. intros Hle Hr. by eapply loop_fuel_mono. Qed.

Lemma while_loop_fuel_irrelevant_witness :
  expand_until_distinct 40 twice_doc 0 1 (mk_dis twice_aspects []) =
  expand_until_distinct 2 twice_doc 0 1 (mk_dis twice_aspects []).
Proof. apply while_loop_fuel_irrelevant; [lia|by vm_compute]. Defined.

(** C26. Every run of the loop is finite: a sequence of iterations from
    [st] is no longer than the expansions the two aspects may still
    perform, at most ten for valid aspects, whatever the document. *)
Theorem while_loop_bounded (i j : Z) (n : nat) (st st1 : dis_state) :
  0 <= i < j -> nsteps (loop_step i j) n st st1 ->
  (n <= loop_budget i j st)%nat.
Proof. intros Hij Hsteps%loop_steps_budget; [lia|done]. Qed.

Lemma while_loop_bounded_witness : (1 <= loop_budget 0 1 twice_entered)%nat.
Proof.
  apply (while_loop_bounded 0 1 1 twice_entered twice_final); [lia|].
  eapply nsteps_l; [|constructor].
  by eapply (LS_expand 0 1 _ _ _ true _ true).
Defined.

(** C16. The loop is left: from a state whose aspects are valid, a run of at
    most [loop_budget] iterations reaches an exit, and the state it
    reaches is the only one a run can reach. *)
Theorem while_loop_terminates (doc : Doc) (i j : Z) (st : dis_state) :
  Forall (aspect_of doc) (d_aspects st) ->
  0 <= i < j -> j < py_len (d_aspects st) ->
  exists n st', (n <= loop_budget i j st)%nat /\ loop_run doc i j n st st' /\
    forall m st'', loop_run doc i j m st st'' -> m = n /\ st'' = st'.
Proof.
  intros Hall Hij Hj. unfold py_len in Hj.
  destruct (lookup_lt_is_Some_2 (d_aspects st) (Z.to_nat i)) as [ai Hai]; [lia|].
  destruct (lookup_lt_is_Some_2 (d_aspects st) (Z.to_nat j)) as [aj Haj]; [lia|].
  destruct (expand_loop_spec doc (S (loop_budget i j st)) i j st ai aj)
    as (st' & Hrun & _); [done|lia|lia|lia|done|done|..].
  { destruct st. rewrite (loop_budget_lookup _ _ _ _ ai aj) by done. lia. }
  apply loop_run_complete in Hrun as (n & Hn & Hrun).
  exists n, st'. split; [lia|]. split; [done|].
  intros m st'' Hrun'. by eapply loop_run_unique.
Qed.

Lemma while_loop_terminates_witness :
  exists n st', (n <= loop_budget 0 1 twice_entered)%nat /\
    loop_run twice_doc 0 1 n twice_entered st' /\
    forall m st'', loop_run twice_doc 0 1 m twice_entered st'' ->
                   m = n /\ st'' = st'.
Proof.
  apply while_loop_terminates; [|lia|by vm_compute].
  repeat constructor; by vm_compute.
Defined.

(** The two "acting" are told apart in one iteration: the first aspect
    grows to the right, the second to the left, and the loop is left by
    its condition, with nothing logged. *)
Example while_loop_acting_twice :
  loop_run twice_doc 0 1 1 twice_entered twice_final.
Proof.
  exists twice_final. split; [|by apply LF_distinct].
  eapply nsteps_l; [|constructor]. by eapply (LS_expand 0 1 _ _ _ true _ true).
Qed.
