(* ===== verification/ContextGrowth.v ===== *)
(** * How far the disambiguator widens a context

    The disambiguator changes aspects by two mutations only: [expand] and
    the assignment of an ordinal.  The first section shows that any
    preorder on aspects that both mutations respect relates the aspects
    given to the disambiguator to the aspects it returns.  The relation
    [grown] is such a preorder: the context grows by as many tokens as the
    expansion counters count, and no token taken in is a comma or a
    semicolon.  With the caps of the invariant this bounds the context of
    every aspect returned. *)

From stdpp Require Import prelude strings list_numbers gmap.
From S2P Require Import Prelude Spacy AspectSpan Disambiguator DisambiguatorLog.

#[local] Open Scope Z_scope.

(** The token at [k] is neither a comma nor a semicolon. *)
Definition no_separator (doc : Doc) (k : Z) : Prop :=
  token_has (fun t => negb (str_in (Token.text t) [","; ";"])) doc k = true.

(** [a'] is [a] with a context grown by expansion: each counter counts the
    tokens gained on its side, and no token gained is a separator. *)
Record grown (a a' : Aspect.t) : Prop := mk_grown {
  gr_doc : Aspect.doc a' = Aspect.doc a;
  gr_left : Aspect._expansion_left a <= Aspect._expansion_left a';
  gr_right : Aspect._expansion_right a <= Aspect._expansion_right a';
  gr_start : Aspect.context_start a' =
             Aspect.context_start a
             - (Aspect._expansion_left a' - Aspect._expansion_left a);
  gr_stop : Aspect.context_stop a' =
            Aspect.context_stop a
            + (Aspect._expansion_right a' - Aspect._expansion_right a);
  gr_clean : forall k,
    Aspect.context_start a' <= k < Aspect.context_start a \/
    Aspect.context_stop a <= k < Aspect.context_stop a' ->
    no_separator (Aspect.doc a) k;
}.

(** The bounds of the context of [a'], from the context of [a]: at most
    [MAX_EXPANSION_LEFT] tokens more on the left, [MAX_EXPANSION_RIGHT] on
    the right, none of them a separator. *)
Record within_caps (a a' : Aspect.t) : Prop := mk_within_caps {
  wc_start : Aspect.context_start a - Aspect.MAX_EXPANSION_LEFT
             <= Aspect.context_start a' <= Aspect.context_start a;
  wc_stop : Aspect.context_stop a <= Aspect.context_stop a'
            <= Aspect.context_stop a + Aspect.MAX_EXPANSION_RIGHT;
  wc_clean : forall k,
    Aspect.context_start a' <= k < Aspect.context_start a \/
    Aspect.context_stop a <= k < Aspect.context_stop a' ->
    no_separator (Aspect.doc a) k;
}.

(** ** Mutations that respect a preorder *)

Section Related.
Context (R : relation Aspect.t) `{!PreOrder R}.
Context (R_expand : forall a a' e, Aspect.expand a = Ok (a', e) -> R a a').
Context (R_ordinal : forall a n, R a (Aspect.set_ordinal a n)).
Implicit Types (l : list Aspect.t) (st : dis_state) (i j : Z).

Lemma expand_at_related l i l' e :
  0 <= i -> expand_at l i = Ok (l', e) -> Forall2 R l l'.
Proof.
  intros Hi (a & a' & Ha & He & ->)%expand_at_inv; [|done].
  eapply Forall2_update; [apply _|done|by eapply R_expand].
Qed.

Lemma bump_ordinal_related l i j l' :
  0 <= i -> 0 <= j -> bump_ordinal l i j = Ok l' -> Forall2 R l l'.
Proof.
  unfold bump_ordinal. intros Hi Hj H.
  apply bind_Ok_inv in H as (ai & _ & H).
  apply bind_Ok_inv in H as (aj & Haj%py_index_Ok_nonneg & H); [|done].
  apply py_setitem_Ok_nonneg in H as ->; [|done].
  eapply Forall2_update; [apply _|done|apply R_ordinal].
Qed.

Lemma expand_loop_related fuel doc i j st st' :
  0 <= i -> 0 <= j ->
  expand_until_distinct fuel doc i j st = Ok st' ->
  Forall2 R (d_aspects st) (d_aspects st').
Proof.
  intros Hi Hj. revert st. induction fuel as [|fuel IH]; intros st H; [done|].
  cbn [expand_until_distinct] in H.
  apply bind_Ok_inv in H as ([] & _ & H); [|injection H as <-; reflexivity].
  apply bind_Ok_inv in H as ([l1 e1] & H1%expand_at_related & H); [|done].
  apply bind_Ok_inv in H as ([l2 e2] & H2%expand_at_related & H); [|done].
  assert (Forall2 R (d_aspects st) l2) as H12 by by etrans.
  destruct (negb (e1 || e2)).
  - apply bind_Ok_inv in H as (ai & _ & [= <-]). done.
  - apply IH in H. by etrans.
Qed.

Lemma disambiguate_pair_related fuel doc i j st st' :
  0 <= i -> 0 <= j ->
  disambiguate_pair fuel doc i st j = Ok st' ->
  Forall2 R (d_aspects st) (d_aspects st').
Proof.
  unfold disambiguate_pair. intros Hi Hj H.
  apply bind_Ok_inv in H as ([] & _ & H); [|injection H as <-; reflexivity].
  apply bind_Ok_inv in H as (l1 & H1%bump_ordinal_related & H); [|done..].
  apply expand_loop_related in H; [|done..]. by etrans.
Qed.

(** The aspects returned are related to the aspects given. *)
Lemma disambiguate_related fuel doc l st :
  disambiguate fuel doc l = Ok st -> Forall2 R l (d_aspects st).
Proof.
  unfold disambiguate.
  apply (for_each_inv (fun st => Forall2 R l (d_aspects st))); [reflexivity|].
  intros s1 i s2 Hi%elem_of_py_range Hs1. unfold disambiguate_from.
  apply (for_each_inv (fun st => Forall2 R l (d_aspects st))); [done|].
  intros s3 j s4 Hj%elem_of_py_range Hs3 H.
  apply disambiguate_pair_related in H; [|lia..]. by etrans.
Qed.

End Related.

(** ** Growth of the context *)

#[export] Instance grown_preorder : PreOrder grown.
Proof.
  split.
  - intros a. constructor; try done; lia.
  - intros a b c [Hd1 ? ? ? ? Hc1] [Hd2 ? ? ? ? Hc2].
    constructor; try congruence; try lia.
    intros k Hk.
    destruct (decide (Aspect.context_start b <= k < Aspect.context_start a \/
                      Aspect.context_stop a <= k < Aspect.context_stop b));
      [by apply Hc1|].
    rewrite <- Hd1. apply Hc2. lia.
Qed.

Lemma grown_set_ordinal a n : grown a (Aspect.set_ordinal a n).
Proof.
  constructor; try done;
    change (Aspect.context_start (Aspect.set_ordinal a n))
      with (Aspect.context_start a);
    change (Aspect.context_stop (Aspect.set_ordinal a n))
      with (Aspect.context_stop a); cbn; lia.
Qed.

(** The token a guard of [expand] has read is no separator. *)
Lemma no_separator_read doc k tok :
  py_index doc k = Ok tok -> Token.text tok ∉ [","; ";"] -> no_separator doc k.
Proof.
  intros Hk Hsep. unfold no_separator. rewrite (token_has_Ok _ _ _ _ Hk).
  apply negb_true_iff. by apply str_in_false.
Qed.

Lemma grown_expand a a' e : Aspect.expand a = Ok (a', e) -> grown a a'.
Proof.
  intros [(Hl & -> & _)|[(_ & Hr & -> & _)|(_ & _ & -> & _)]]%expand_cases;
    [| |reflexivity].
  - apply can_expand_left_true in Hl as (_ & _ & tok & Htok & Hsep).
    destruct (context_expand_left a) as [Hs He].
    constructor; rewrite ?Hs, ?He; cbn; try done; try lia. intros k Hk.
    replace k with (Aspect.context_start a - 1) by lia.
    by eapply no_separator_read.
  - apply can_expand_right_true in Hr as (_ & _ & tok & Htok & Hsep).
    destruct (context_expand_right a) as [Hs He].
    constructor; rewrite ?Hs, ?He; cbn; try done; try lia. intros k Hk.
    replace k with (Aspect.context_stop a) by lia.
    by eapply no_separator_read.
Qed.

(** From a fresh aspect to a valid one, growth stays within the caps. *)
Lemma grown_within_caps a a' :
  fresh a -> Aspect.inv a' -> grown a a' -> within_caps a a'.
Proof.
  intros (Hl & Hr & _) [] []. constructor; [lia..|done].
Qed.

(** ** Theorems *)

(** The disambiguator widens a context by expansion only: for every
    aspect, the context it returns is the context it was given plus as
    many tokens on each side as the expansion counters have advanced, and
    no token taken in is a comma or a semicolon.  This holds for any fuel
    and any list of aspects. *)
Theorem disambiguate_grown (fuel : nat) (doc : Doc) (l : list Aspect.t)
    (st : dis_state) :
  disambiguate fuel doc l = Ok st -> Forall2 grown l (d_aspects st).
Proof.
  apply disambiguate_related; [apply _|apply grown_expand|apply grown_set_ordinal].
Qed.

Lemma disambiguate_grown_witness : Forall2 grown twice_aspects (d_aspects twice_final).
Proof. apply (disambiguate_grown expand_fuel twice_doc). reflexivity. Defined.

(** C24. The context windows stay within the caps: on valid, fresh aspects
    the disambiguator returns every aspect with a context that starts at
    most 2 tokens before, and stops at most 3 tokens after, the context it
    was given, and that has crossed no comma and no semicolon. *)
Theorem disambiguate_within_caps (doc : Doc) (l : list Aspect.t)
    (st : dis_state) :
  Forall (fun a => aspect_of doc a /\ fresh a) l ->
  disambiguate expand_fuel doc l = Ok st ->
  Forall2 within_caps l (d_aspects st).
Proof.
  intros Hall Hrun.
  assert (Forall (aspect_of doc) l) as Hv
    by (eapply Forall_impl; [done|]; by intros a [? _]).
  destruct (disambiguate_run doc l Hv) as (st' & Hrun' & [Hv' _] & _).
  assert (st' = st) as -> by congruence.
  pose proof (disambiguate_related grown grown_expand grown_set_ordinal
                _ _ _ _ Hrun) as Hg.
  apply Forall2_same_length_lookup. split; [by eapply Forall2_length|].
  intros n a a' Ha Ha'. apply grown_within_caps.
  - by destruct (Forall_lookup_1 _ _ _ _ Hall Ha).
  - by destruct (Forall_lookup_1 _ _ _ _ Hv' Ha').
  - by eapply Forall2_lookup_lr.
Qed.

Lemma disambiguate_within_caps_witness :
  Forall2 within_caps twice_aspects (d_aspects twice_final).
Proof.
  apply (disambiguate_within_caps twice_doc); [|reflexivity].
  repeat constructor; by vm_compute.
Defined.
