(* ===== verification/Resolution.v ===== *)
(** * Pairs the disambiguator resolves

    The disambiguator compares each pair of aspects once.  When a reduced
    text occurs exactly twice in a sentence, no other pair touches the two
    aspects, so what the [while] loop leaves for the pair is what the
    caller receives: the second aspect has the ordinal of the first plus
    one, and either the two context texts differ or a warning about the
    first was logged.  The proof follows the pair through the loops with
    a frame relation: a pair changes the aspects at its own two indices
    only, and appends to the log. *)

From stdpp Require Import prelude strings list_numbers gmap relations.
From S2P Require Import Prelude Spacy AspectSpan Disambiguator DisambiguatorLog.
From S2P Require Import WhileLoop ContextGrowth.

#[local] Open Scope Z_scope.

(** The warnings of a log that name the aspect [i]. *)
Definition warned (i : Z) (log : list warning) : list warning :=
  filter (fun w => w_index w = i) log.

(** From [st] to [st'] the aspects at the positions [keep] stay as they
    are, and the log is extended by warnings that name [idx]. *)
Record frame (keep : nat -> Prop) (idx : Z) (st st' : dis_state) : Prop :=
  mk_frame {
  fr_aspects : forall m, keep m -> d_aspects st' !! m = d_aspects st !! m;
  fr_log : exists ws, d_log st' = d_log st ++ ws /\
                      Forall (fun w => w_index w = idx) ws;
}.

(** The positions other than [i] and [j]. *)
Definition off (i j : Z) (m : nat) : Prop :=
  m <> Z.to_nat i /\ m <> Z.to_nat j.

(** The positions [i] and [j]. *)
Definition at_pair (i j : Z) (m : nat) : Prop :=
  m = Z.to_nat i \/ m = Z.to_nat j.

(** How the [while] loop has left the aspects [ai] and [aj] of the pair
    [(i, j)], by the warnings [ws] it logged: none and the context texts
    differ, or the warning about [ai] and they are equal. *)
Definition settled (doc : Doc) (i : Z) (ai aj : Aspect.t) (ws : list warning)
  : Prop :=
  (Aspect.context ai <> Aspect.context aj /\ ws = []) \/
  (Aspect.context ai = Aspect.context aj /\
   ws = [{| w_index := i; w_aspect := Aspect.text ai; w_doc := doc_text doc |}]).

(** The pair [(i, j)] is resolved in [st]: the second aspect has the
    ordinal of the first plus one, and either the context texts differ and
    no warning names the first, or they are equal and exactly one warning
    names it. *)
Definition resolved (doc : Doc) (i j : Z) (st : dis_state) : Prop :=
  exists ai aj,
    d_aspects st !! Z.to_nat i = Some ai /\
    d_aspects st !! Z.to_nat j = Some aj /\
    Aspect.ordinal aj = Aspect.ordinal ai + 1 /\
    settled doc i ai aj (warned i (d_log st)).

(** The reduced text at [i] and [j] occurs nowhere else in [l]. *)
Definition only_twice (l : list Aspect.t) (i j : Z) : Prop :=
  exists ai aj,
    l !! Z.to_nat i = Some ai /\ l !! Z.to_nat j = Some aj /\
    Aspect.text aj = Aspect.text ai /\
    forall (m : nat) a, l !! m = Some a -> Aspect.text a = Aspect.text ai ->
      at_pair i j m.

(** What the loops keep while they run, for the pair [(i, j)] of the list
    [l0]: the texts, the ordinal of the first aspect, no warning about it
    until the pair is handled ([handled]), and its resolution from then
    on. *)
Record pair_inv (doc : Doc) (l0 : list Aspect.t) (i j : Z) (handled : Prop)
    (st : dis_state) : Prop := mk_pair_inv {
  pi_widened : Forall2 widened l0 (d_aspects st);
  pi_ordinal : forall a0 a1, l0 !! Z.to_nat i = Some a0 ->
                 d_aspects st !! Z.to_nat i = Some a1 ->
                 Aspect.ordinal a1 = Aspect.ordinal a0;
  pi_quiet : ~ handled -> warned i (d_log st) = [];
  pi_resolved : handled -> resolved doc i j st;
}.

(** ** Lemmas *)

#[export] Instance frame_preorder keep idx : PreOrder (frame keep idx).
Proof.
  split.
  - intros st. split; [done|]. exists []. by rewrite app_nil_r.
  - intros st1 st2 st3 [Ha1 (ws1 & Hl1 & Hw1)] [Ha2 (ws2 & Hl2 & Hw2)]. split.
    + intros m Hm. by rewrite Ha2, Ha1.
    + exists (ws1 ++ ws2). rewrite Hl2, Hl1, <- app_assoc.
      split; [done|by apply Forall_app].
Qed.

Lemma frame_weaken (keep keep' : nat -> Prop) idx st st' :
  (forall m, keep' m -> keep m) -> frame keep idx st st' -> frame keep' idx st st'.
Proof. intros Hk [Ha Hl]. split; [|done]. intros m Hm. apply Ha, Hk, Hm. Qed.

Lemma warned_app i log ws : warned i (log ++ ws) = warned i log ++ warned i ws.
Proof. apply filter_app. Qed.

Lemma warned_other i idx ws :
  idx <> i -> Forall (fun w => w_index w = idx) ws -> warned i ws = [].
Proof.
  intros Hne. induction 1 as [|w ws Hw _ IH]; [done|].
  unfold warned. rewrite filter_cons, decide_False by congruence. apply IH.
Qed.

(** A frame for another index adds no warning about [i]. *)
Lemma warned_frame keep i idx st st' :
  idx <> i -> frame keep idx st st' ->
  warned i (d_log st') = warned i (d_log st).
Proof.
  intros Hne [_ (ws & -> & Hws)].
  by rewrite warned_app, (warned_other i idx ws), app_nil_r.
Qed.

Section ResolutionLemmas.
Context (doc : Doc).
Implicit Types (l : list Aspect.t) (st : dis_state) (i j k : Z) (fuel : nat).

Lemma expand_at_off l k l' e (m : nat) :
  0 <= k -> expand_at l k = Ok (l', e) -> m <> Z.to_nat k -> l' !! m = l !! m.
Proof.
  intros Hk (a & a' & _ & _ & ->)%expand_at_inv Hm; [|done].
  by rewrite list_lookup_insert_ne.
Qed.

Lemma loop_step_frame i j st st1 :
  0 <= i -> 0 <= j -> loop_step i j st st1 ->
  frame (off i j) i st st1 /\ d_log st1 = d_log st.
Proof.
  intros Hi Hj [l log l1 e1 l2 e2 _ H1 H2 _]. split; [|done]. split.
  - intros m [Hmi Hmj]. cbn.
    by rewrite (expand_at_off _ _ _ _ m Hj H2), (expand_at_off _ _ _ _ m Hi H1).
  - exists []. by rewrite app_nil_r.
Qed.

Lemma loop_final_frame i j st st' :
  0 <= i -> 0 <= j -> loop_final doc i j st st' -> frame (off i j) i st st'.
Proof.
  intros Hi Hj [st0 _|l log l1 l2 ai _ H1 H2 _]; [reflexivity|]. split.
  - intros m [Hmi Hmj]. cbn.
    by rewrite (expand_at_off _ _ _ _ m Hj H2), (expand_at_off _ _ _ _ m Hi H1).
  - eexists. split; [done|]. by apply Forall_singleton.
Qed.

(** The iterations that go on log nothing and change the two aspects of
    the pair only. *)
Lemma loop_steps_frame i j n st st1 :
  0 <= i -> 0 <= j -> nsteps (loop_step i j) n st st1 ->
  frame (off i j) i st st1 /\ d_log st1 = d_log st.
Proof.
  intros Hi Hj. induction 1 as [|n st st2 st1 Hstep _ [IH1 IH2]];
    [by split|].
  apply loop_step_frame in Hstep as [? ?]; [|done..].
  split; [by etrans|congruence].
Qed.

(** The [while] loop changes the two aspects of its pair only. *)
Lemma expand_loop_frame fuel i j st st' :
  0 <= i -> 0 <= j ->
  expand_until_distinct fuel doc i j st = Ok st' -> frame (off i j) i st st'.
Proof.
  intros Hi Hj (n & _ & st1 & Hsteps & Hfinal)%loop_run_complete.
  trans st1; [by eapply loop_steps_frame|by apply loop_final_frame].
Qed.

(** How the loop is left, read on the state it leaves. *)
Lemma loop_final_settles i j st st' :
  0 <= i -> 0 <= j -> loop_final doc i j st st' ->
  exists ai aj ws,
    d_aspects st' !! Z.to_nat i = Some ai /\
    d_aspects st' !! Z.to_nat j = Some aj /\
    d_log st' = d_log st ++ ws /\ settled doc i ai aj ws.
Proof.
  intros Hi Hj [st0 Hs|l log l1 l2 a Hs H1 H2 Ha];
    unfold same_context in Hs;
    apply bind_Ok_inv in Hs as (ai & Hai%py_index_Ok_nonneg & Hs); [|done| |done];
    apply bind_Ok_inv in Hs as (aj & Haj%py_index_Ok_nonneg & [= Hs]);
    [|done| |done].
  - exists ai, aj, []. rewrite app_nil_r. repeat split; [done..|].
    left. split; [|done]. by apply String.eqb_neq.
  - apply expand_at_inv in H1 as (a1 & a1' & Ha1 & ->%expand_false & ->);
      [|done]. rewrite list_insert_id in H2 by done.
    apply expand_at_inv in H2 as (a2 & a2' & Ha2 & ->%expand_false & ->);
      [|done]. rewrite list_insert_id in Ha |- * by done.
    apply py_index_Ok_nonneg in Ha; [|done]. assert (a = ai) as -> by congruence.
    eexists ai, aj, _. split; [done|]. split; [done|]. split; [done|].
    right. split; [|done]. by apply String.eqb_eq.
Qed.

(** The [while] loop on a pair: it leaves the pair settled and keeps the
    ordinals. *)
Lemma expand_loop_settles fuel i j st st' :
  0 <= i -> 0 <= j ->
  expand_until_distinct fuel doc i j st = Ok st' ->
  Forall2 expanded (d_aspects st) (d_aspects st') /\
  exists ai aj ws,
    d_aspects st' !! Z.to_nat i = Some ai /\
    d_aspects st' !! Z.to_nat j = Some aj /\
    d_log st' = d_log st ++ ws /\ settled doc i ai aj ws.
Proof.
  intros Hi Hj Hrun. split.
  - by apply (expand_loop_related expanded expand_expanded fuel doc i j).
  - apply loop_run_complete in Hrun as (n & _ & st1 & Hsteps & Hfinal).
    apply loop_steps_frame in Hsteps as [_ <-]; [|done..].
    by apply loop_final_settles.
Qed.

(** The body of the inner loop changes the two aspects of its pair only. *)
Lemma pair_frame fuel i j st st' :
  0 <= i -> 0 <= j ->
  disambiguate_pair fuel doc i st j = Ok st' -> frame (off i j) i st st'.
Proof.
  intros Hi Hj. unfold disambiguate_pair. intros H.
  apply bind_Ok_inv in H as ([] & _ & H); [|injection H as <-; reflexivity].
  apply bind_Ok_inv in H as (l1 & Hbump & H).
  apply expand_loop_frame in H as [Ha Hl]; [|done..].
  split; [|done]. intros m Hm. rewrite (Ha m Hm). cbn.
  unfold bump_ordinal in Hbump.
  apply bind_Ok_inv in Hbump as (ai & _ & Hbump).
  apply bind_Ok_inv in Hbump as (aj & _ & ->%py_setitem_Ok_nonneg); [|done].
  apply list_lookup_insert_ne. by destruct Hm.
Qed.

(** The body of the inner loop on a pair of equal text resolves it. *)
Lemma pair_resolves fuel i j st st' ai aj :
  0 <= i < j ->
  d_aspects st !! Z.to_nat i = Some ai -> d_aspects st !! Z.to_nat j = Some aj ->
  Aspect.text aj = Aspect.text ai -> warned i (d_log st) = [] ->
  disambiguate_pair fuel doc i st j = Ok st' ->
  resolved doc i j st' /\
  exists ai', d_aspects st' !! Z.to_nat i = Some ai' /\
              Aspect.ordinal ai' = Aspect.ordinal ai.
Proof.
  intros Hij Hai Haj Htext Hquiet. unfold disambiguate_pair.
  rewrite (same_text_lookup _ i j ai aj) by (done || lia). cbn [bind].
  rewrite Htext, String.eqb_refl.
  rewrite (bump_ordinal_lookup _ i j ai aj) by (done || lia). cbn [bind].
  intros (Hexp & ai' & aj' & ws & Hai' & Haj' & Hlog & Hs)%expand_loop_settles;
    [|lia..]. cbn [d_aspects d_log] in Hexp, Hlog.
  pose proof (lookup_lt_Some _ _ _ Haj) as Hlt.
  destruct (Forall2_lookup_r _ _ _ _ _ Hexp Hai') as (a1 & Ha1 & _ & Ho1).
  destruct (Forall2_lookup_r _ _ _ _ _ Hexp Haj') as (a2 & Ha2 & _ & Ho2).
  rewrite list_lookup_insert_ne in Ha1 by lia.
  rewrite list_lookup_insert_eq in Ha2 by done.
  assert (a1 = ai) as -> by congruence. injection Ha2 as <-. cbn in Ho2.
  split; [|by exists ai'].
  exists ai', aj'. split; [done|]. split; [done|]. split; [lia|].
  rewrite Hlog, warned_app, Hquiet. cbn [app].
  destruct Hs as [[? ->]|[? ->]]; [by left|right]. split; [done|].
  unfold warned. by rewrite filter_cons, decide_True.
Qed.

(** A frame that keeps the pair and logs for another index keeps its
    resolution. *)
Lemma resolved_frame i j idx st st' :
  idx <> i -> frame (at_pair i j) idx st st' ->
  resolved doc i j st -> resolved doc i j st'.
Proof.
  intros Hne Hf (ai & aj & Hai & Haj & Ho & Hs). exists ai, aj.
  rewrite (warned_frame _ i idx st st') by done. destruct Hf as [Ha _].
  rewrite !Ha by (unfold at_pair; tauto). done.
Qed.

Lemma pair_inv_iff l0 i j (h h' : Prop) st :
  (h <-> h') -> pair_inv doc l0 i j h st -> pair_inv doc l0 i j h' st.
Proof. intros Hh []. constructor; rewrite <- ?Hh; auto. Qed.

Lemma pair_inv_frame l0 i j idx (h : Prop) st st' :
  idx <> i -> Forall2 widened (d_aspects st) (d_aspects st') ->
  frame (at_pair i j) idx st st' ->
  pair_inv doc l0 i j h st -> pair_inv doc l0 i j h st'.
Proof.
  intros Hne Hw Hf [Hw0 Ho Hq Hr]. pose proof Hf as [Ha _]. constructor.
  - by etrans.
  - intros a0 a1 H0. rewrite Ha by by left. by apply Ho.
  - intros Hh. rewrite (warned_frame _ i idx st st') by done. by apply Hq.
  - intros Hh. by eapply resolved_frame, Hr.
Qed.

(** The text of an aspect of the current list is the text it had. *)
Lemma widened_lookup_text l0 l (m : nat) a :
  Forall2 widened l0 l -> l !! m = Some a ->
  exists a0, l0 !! m = Some a0 /\ Aspect.text a = Aspect.text a0.
Proof.
  intros Hw Hm. destruct (Forall2_lookup_r _ _ _ _ _ Hw Hm) as (a0 & H0 & Hwd).
  exists a0. split; [done|]. by apply expanded_text.
Qed.

(** The two aspects of the pair in the current list: they still have the
    same text. *)
Lemma only_twice_current l0 l i j :
  only_twice l0 i j -> Forall2 widened l0 l ->
  exists ai aj, l !! Z.to_nat i = Some ai /\ l !! Z.to_nat j = Some aj /\
                Aspect.text aj = Aspect.text ai.
Proof.
  intros (a0 & b0 & Ha0 & Hb0 & Ht & _) Hw.
  destruct (Forall2_lookup_l _ _ _ _ _ Hw Ha0) as (ai & Hai & Hwi).
  destruct (Forall2_lookup_l _ _ _ _ _ Hw Hb0) as (aj & Haj & Hwj).
  exists ai, aj. split; [done|]. split; [done|].
  rewrite (expanded_text _ _ Hwi), (expanded_text _ _ Hwj). done.
Qed.

(** Another pair of equal text shares no aspect with the pair [(i, j)]. *)
Lemma pair_disjoint l0 l i j i' j' ai' aj' (m : nat) :
  only_twice l0 i j -> Forall2 widened l0 l ->
  0 <= i < j -> 0 <= i' < j' -> ~ (i' = i /\ j' = j) ->
  l !! Z.to_nat i' = Some ai' -> l !! Z.to_nat j' = Some aj' ->
  Aspect.text ai' = Aspect.text aj' ->
  at_pair i j m -> off i' j' m.
Proof.
  intros (ai & aj & Hai & Haj & Ht & Honly) Hw Hij Hij' Hne Hi' Hj' Htext Hm.
  destruct (widened_lookup_text _ _ _ _ Hw Hi') as (a0 & Ha0 & Ht0).
  destruct (widened_lookup_text _ _ _ _ Hw Hj') as (b0 & Hb0 & Ht1).
  assert (at_pair i j (Z.to_nat i') <-> at_pair i j (Z.to_nat j')) as Hboth.
  { split; intros [E|E]; rewrite E in *; simplify_eq;
      (apply (Honly _ _ Hb0) || apply (Honly _ _ Ha0)); congruence. }
  unfold at_pair, off in *. lia.
Qed.

(** A pair other than [(i, j)] keeps the invariant. *)
Lemma pair_step_other fuel l0 i j i' j' (h : Prop) st st' :
  only_twice l0 i j -> 0 <= i < j -> 0 <= i' < j' -> ~ (i' = i /\ j' = j) ->
  Forall2 widened (d_aspects st) (d_aspects st') ->
  pair_inv doc l0 i j h st ->
  disambiguate_pair fuel doc i' st j' = Ok st' ->
  pair_inv doc l0 i j h st'.
Proof.
  intros Honly Hij Hij' Hne Hw Hinv Hrun.
  pose proof Hrun as Hrun'. unfold disambiguate_pair, same_text in Hrun'.
  apply bind_Ok_inv in Hrun' as (same & Hsame & Hrun').
  apply bind_Ok_inv in Hsame as (ai' & Hai'%py_index_Ok_nonneg & Hsame); [|lia].
  apply bind_Ok_inv in Hsame as (aj' & Haj'%py_index_Ok_nonneg & [= <-]); [|lia].
  destruct (String.eqb_spec (Aspect.text ai') (Aspect.text aj')) as [Htext|_];
    [|by injection Hrun' as <-].
  pose proof (fun m => pair_disjoint l0 _ i j i' j' ai' aj' m Honly
                (pi_widened _ _ _ _ _ _ Hinv) Hij Hij' Hne Hai' Haj' Htext) as Hoff.
  apply (pair_inv_frame l0 i j i' h st); [|done| |done].
  - destruct (Hoff (Z.to_nat i)) as [? _]; [by left|lia].
  - eapply frame_weaken; [done|]. eapply pair_frame; [| |done]; lia.
Qed.

(** One pair of the inner loop. *)
Lemma pair_step fuel l0 i j i' j' (h : Prop) st st' :
  only_twice l0 i j -> 0 <= i < j -> 0 <= i' < j' ->
  (h -> ~ (i' = i /\ j' = j)) ->
  pair_inv doc l0 i j h st ->
  disambiguate_pair fuel doc i' st j' = Ok st' ->
  pair_inv doc l0 i j (h \/ (i' = i /\ j' = j)) st'.
Proof.
  intros Honly Hij Hij' Hfresh Hinv Hrun.
  assert (Forall2 widened (d_aspects st) (d_aspects st')) as Hw.
  { apply (disambiguate_pair_related widened
             (fun a a' e He => proj1 (expand_expanded a a' e He))
             set_ordinal_widened fuel doc i' j'); [lia..|done]. }
  destruct (decide (i' = i /\ j' = j)) as [[-> ->]|Hne].
  - destruct (only_twice_current l0 (d_aspects st) i j)
      as (ai & aj & Hai & Haj & Ht); [done|apply Hinv|].
    destruct (pair_resolves fuel i j st st' ai aj)
      as (Hres & a1 & Ha1 & Ho1); [done..|apply Hinv; tauto|done|].
    destruct Hinv as [Hw0 Ho _ _]. constructor; [by etrans| |tauto|done].
    intros a0 a1' H0 H1. assert (a1' = a1) as -> by congruence.
    rewrite Ho1. by apply Ho.
  - eapply pair_inv_iff; [|by eapply pair_step_other]. tauto.
Qed.

(** The inner loop for [i']. *)
Lemma from_step fuel l0 i j i' (h : Prop) st st' :
  only_twice l0 i j -> 0 <= i < j -> 0 <= i' -> i' + 1 <= py_len l0 ->
  (h -> i' <> i) ->
  pair_inv doc l0 i j h st ->
  disambiguate_from fuel doc st i' = Ok st' ->
  pair_inv doc l0 i j (h \/ i' = i) st'.
Proof.
  intros Honly Hij Hi' Hlen Hfresh Hinv. unfold disambiguate_from.
  assert (py_len (d_aspects st) = py_len l0) as ->
    by (unfold py_len; by rewrite (Forall2_length _ _ _ (pi_widened _ _ _ _ _ _ Hinv))).
  assert (j < py_len l0) as Hj.
  { destruct Honly as (_ & aj & _ & Haj%lookup_lt_Some & _). unfold py_len. lia. }
  intros Hrun. eapply pair_inv_iff; last first.
  - revert Hrun. apply (for_range_inv
      (fun j' s => pair_inv doc l0 i j (h \/ (i' = i /\ j < j')) s)); [done| |].
    + eapply pair_inv_iff; [|done]. intuition lia.
    + intros k s1 s2 Hk Hs1 Hstep. eapply pair_inv_iff;
        [|eapply (pair_step fuel l0 i j i' k); [done|done|lia| |done|done]];
        intuition lia.
  - intuition lia.
Qed.

(** Both loops. *)
Lemma disambiguate_pair_inv fuel l i j st :
  only_twice l i j -> 0 <= i < j ->
  disambiguate fuel doc l = Ok st -> pair_inv doc l i j True st.
Proof.
  intros Honly Hij. unfold disambiguate. intros Hrun.
  assert (j < py_len l) as Hj.
  { destruct Honly as (_ & aj & _ & Haj%lookup_lt_Some & _). unfold py_len. lia. }
  eapply pair_inv_iff; last first.
  - revert Hrun.
    apply (for_range_inv (fun i' s => pair_inv doc l i j (i < i') s)); [lia| |].
    + constructor; [reflexivity|cbn; congruence|done|lia].
    + intros k s1 s2 Hk Hs1 Hstep. eapply pair_inv_iff;
        [|eapply (from_step fuel l i j k); [done|done|lia|lia| |done|done]];
        intuition lia.
  - intuition lia.
Qed.

End ResolutionLemmas.

(** ** Theorems on resolved pairs *)

(** A text that occurs exactly twice is disambiguated as the
    specification says.  When the aspects at [i < j] have the same reduced
    text and no other aspect has it, then in the list the disambiguator
    returns the first keeps its ordinal, the second has that ordinal plus
    one, and either their context texts differ and no warning names the
    first, or they are equal and exactly one warning names it. *)
Theorem disambiguate_resolves_twice (doc : Doc) (fuel : nat)
    (l : list Aspect.t) (i j : Z) (st : dis_state) :
  0 <= i < j -> only_twice l i j ->
  disambiguate fuel doc l = Ok st ->
  resolved doc i j st /\
  forall a0 a1, l !! Z.to_nat i = Some a0 ->
    d_aspects st !! Z.to_nat i = Some a1 ->
    Aspect.ordinal a1 = Aspect.ordinal a0.
Proof.
  intros Hij Honly [_ Ho _ Hr]%(disambiguate_pair_inv doc fuel l i j); [|done..].
  split; [by apply Hr|done].
Qed.

Lemma disambiguate_resolves_twice_witness :
  resolved twice_doc 0 1 twice_final /\
  forall a0 a1, twice_aspects !! Z.to_nat 0 = Some a0 ->
    d_aspects twice_final !! Z.to_nat 0 = Some a1 ->
    Aspect.ordinal a1 = Aspect.ordinal a0.
Proof.
  apply (disambiguate_resolves_twice twice_doc expand_fuel twice_aspects);
    [lia| |reflexivity].
  eexists _, _. split; [reflexivity|]. split; [reflexivity|].
  split; [reflexivity|]. intros [|[|m]] a Hm _; [by left|by right|done].
Defined.
