(* ===== verification/Settle.v ===== *)
(** * The [while] loop of the disambiguator, without fuel or exceptions

    [Disambiguator.expand_until_distinct] models the [while] loop of
    [AspectExtractor.__call__] with fuel, on a list that it reads and
    writes by index.  This file says what the loop computes.  [grow] is
    [Aspect.expand] as a total function; [settle] is the loop on the two
    objects it mutates, defined by well-founded recursion on the
    expansions the two have left; [stops_at] names the round at which the
    loop ends.  The round is at most the larger of the two budgets, so
    [tight_fuel] iterations are enough for every pair of valid aspects,
    and the loop of the code then returns what [settle] computes.  The
    loop is proved against [settle] once, for the class [Expanding]:
    with valid aspects it returns, with aspects whose counters are not
    negative it returns or raises [IndexError]. *)

From Equations Require Import Equations.
From Equations.Prop Require Import Logic.
From stdpp Require Import prelude strings list_numbers gmap lexico sorting.
From S2P Require Import Prelude Outcomes Spacy AspectSpan Disambiguator.

#[local] Open Scope Z_scope.

(** The unfolding lemmas of [settle] are proved without functional
    extensionality. *)
Unset Equations With Funext.

(** ** [expand] as a total function *)

(** [token.text in (',', ';')] *)
Definition separator (t : Token.t) : bool :=
  str_in (Token.text t) [","; ";"].

(** The condition of the first [if] of [expand]. *)
Definition open_left (a : Aspect.t) : bool :=
  (0 <? Aspect.context_start a)
  && (Aspect._expansion_left a <? Aspect.MAX_EXPANSION_LEFT)
  && token_has (fun t => negb (separator t)) (Aspect.doc a)
       (Aspect.context_start a - 1).

(** The condition of the second [if] of [expand]. *)
Definition open_right (a : Aspect.t) : bool :=
  (Aspect.context_stop a <? py_len (Aspect.doc a))
  && (Aspect._expansion_right a <? Aspect.MAX_EXPANSION_RIGHT)
  && token_has (fun t => negb (separator t)) (Aspect.doc a)
       (Aspect.context_stop a).

(** [a.expand()]: the object after the call and the flag returned. *)
Definition grow (a : Aspect.t) : Aspect.t * bool :=
  if open_left a then (Aspect.expand_left a, true)
  else if open_right a then (Aspect.expand_right a, true)
  else (a, false).

(** [n] calls of [expand]. *)
Definition grown_by (n : nat) (a : Aspect.t) : Aspect.t :=
  Nat.iter n (fun a => (grow a).1) a.

(** The condition under which the [while] loop runs its body and then
    tests again: the contexts are equal and one of the two aspects can
    expand. *)
Definition goes_on (ai aj : Aspect.t) : bool :=
  Aspect.__eq__ ai (Aspect.PyAspect aj) && ((grow ai).2 || (grow aj).2).

Lemma grow_budget (a : Aspect.t) :
  (Aspect.budget (grow a).1 + (if (grow a).2 then 1 else 0))%nat =
  Aspect.budget a.
Proof.
  unfold grow. destruct (open_left a) eqn:Hl; [|destruct (open_right a) eqn:Hr].
  - apply andb_prop in Hl as [[_ ?%Z.ltb_lt]%andb_prop _].
    unfold Aspect.budget. cbn. lia.
  - apply andb_prop in Hr as [[_ ?%Z.ltb_lt]%andb_prop _].
    unfold Aspect.budget. cbn. lia.
  - cbn. lia.
Qed.

(** ** The [while] loop on two aspects *)

Section Settle.

(** The pattern that keeps the equation of an inspected value. *)
#[local] Notation "x 'eqn:' p" := (exist _ x p) (only parsing, at level 20).

(** [while ai == aj: e1 = ai.expand(); e2 = aj.expand(); if not (e1 or
    e2): warn; break].  The result is the two objects as the loop leaves
    them and whether the warning was logged. *)
Equations? settle (ai aj : Aspect.t) : Aspect.t * Aspect.t * bool
  by wf (Aspect.budget ai + Aspect.budget aj)%nat lt :=
settle ai aj with inspect (Aspect.__eq__ ai (Aspect.PyAspect aj)) := {
  | false eqn:_ => (ai, aj, false)
  | true eqn:_ with inspect ((grow ai).2 || (grow aj).2) := {
    | true eqn:He => settle (grow ai).1 (grow aj).1
    | false eqn:_ => (ai, aj, true) } }.
Proof.
  pose proof (grow_budget ai). pose proof (grow_budget aj).
  destruct (grow ai).2, (grow aj).2; try done; lia.
Qed.

End Settle.

(** ** The rounds of the loop *)

(** The state after the [while] loop on the aspects at [i] and [j] has
    ended with [r]. *)
Definition after_settle (doc : Doc) (i j : nat) (st : dis_state)
    (r : Aspect.t * Aspect.t * bool) : dis_state :=
  {| d_aspects := <[j := r.1.2]> (<[i := r.1.1]> (d_aspects st));
     d_log := d_log st ++
       (if r.2 then [{| w_index := Z.of_nat i; w_aspect := Aspect.text r.1.1;
                        w_doc := doc_text doc |}]
        else []) |}.

(** The loop ends in round [n]: it goes on in every round before [n] and
    not in round [n]. *)
Definition stops_at (n : nat) (ai aj : Aspect.t) : bool :=
  forallb (fun m => goes_on (grown_by m ai) (grown_by m aj)) (seq 0 n)
  && negb (goes_on (grown_by n ai) (grown_by n aj)).

(** Iterations of the [while] loop that are enough for every pair of
    valid aspects: one for each expansion an aspect has, and the one that
    leaves. *)
Definition tight_fuel : nat :=
  S (Z.to_nat (Aspect.MAX_EXPANSION_LEFT + Aspect.MAX_EXPANSION_RIGHT)).

(** The counters of an aspect count expansions: none is negative. *)
Definition counted (a : Aspect.t) : Prop :=
  0 <= Aspect._expansion_left a /\ 0 <= Aspect._expansion_right a.

(** The aspects [good] on which [expand] is related by [R] to [grow]:
    what the proofs about the loops need of an aspect. *)
Class Expanding (R : forall A : Type, result A -> A -> Prop)
    (good : Aspect.t -> Prop) : Prop := {
  expanding_outcome :: Outcome R;
  good_expand a : good a -> R _ (Aspect.expand a) (grow a);
  good_grow a : good a -> good (grow a).1;
  good_ordinal a (k : Z) : good a -> good (Aspect.set_ordinal a k);
  good_budget a : good a -> (Aspect.budget a < tight_fuel)%nat;
}.

(** Twelve times the same word: two aspects whose contexts stay equal
    while both expand as far as they may. *)
Definition echo_doc : Doc :=
  mk_doc ((fun k => tok "plot" "NOUN" " " (Z.of_nat k)) <$> seq 0 12).

Definition echo_first : Aspect.t :=
  Aspect.__init__ echo_doc 3 4 (Some 3) (Some 4).

Definition echo_second : Aspect.t :=
  Aspect.__init__ echo_doc 8 9 (Some 8) (Some 9).

(** ** Lemmas *)

Section GrowLemmas.
Implicit Types (a : Aspect.t) (b : bool).

Lemma can_expand_left_open a b :
  Aspect.can_expand_left a = Ok b -> open_left a = b.
Proof.
  unfold Aspect.can_expand_left, open_left, and_then, token_has, separator.
  destruct (0 <? _); [|by intros [= <-]].
  destruct (_ <? Aspect.MAX_EXPANSION_LEFT); [|by intros [= <-]].
  destruct (py_index _ _); cbn; congruence.
Qed.

Lemma can_expand_right_open a b :
  Aspect.can_expand_right a = Ok b -> open_right a = b.
Proof.
  unfold Aspect.can_expand_right, open_right, and_then, token_has, separator.
  destruct (_ <? py_len _); [|by intros [= <-]].
  destruct (_ <? Aspect.MAX_EXPANSION_RIGHT); [|by intros [= <-]].
  destruct (py_index _ _); cbn; congruence.
Qed.

(** Whenever [expand] returns, it returns what [grow] computes. *)
Lemma expand_grow a r : Aspect.expand a = Ok r -> grow a = r.
Proof.
  destruct r as [a' b].
  intros [(Hl & -> & ->)|[(Hl & Hr & -> & ->)|(Hl & Hr & -> & ->)]]%expand_cases;
    unfold grow; rewrite (can_expand_left_open _ _ Hl); [done|..];
    by rewrite (can_expand_right_open _ _ Hr).
Qed.

(** On a valid aspect [expand] returns. *)
Lemma grow_expand a : Aspect.inv a -> Aspect.expand a = Ok (grow a).
Proof.
  intros (a' & b & He & _)%expand_ok. by rewrite He, (expand_grow _ _ He).
Qed.

Lemma grow_inv a : Aspect.inv a -> Aspect.inv (grow a).1.
Proof.
  intros Hinv. destruct (expand_ok a Hinv) as (a' & b & He & Hinv' & _).
  by rewrite (expand_grow _ _ He).
Qed.

Lemma grow_false a : (grow a).2 = false -> (grow a).1 = a.
Proof. unfold grow. by repeat case_match. Qed.

Lemma grow_doc a : Aspect.doc (grow a).1 = Aspect.doc a.
Proof. unfold grow. by repeat case_match. Qed.

Lemma set_ordinal_inv a (k : Z) :
  Aspect.inv a -> Aspect.inv (Aspect.set_ordinal a k).
Proof. intros []. by constructor. Qed.

(** [expand] reads the document and nothing else. *)
Lemma expand_safe a : safe (Aspect.expand a).
Proof.
  unfold Aspect.expand, Aspect.can_expand_left, Aspect.can_expand_right.
  safe_tac.
Qed.

(** On every aspect [expand] returns what [grow] computes, unless it reads
    outside the document. *)
Lemma expand_yields a : yields (Aspect.expand a) (grow a).
Proof.
  apply yields_intro; [apply expand_safe|]. intros r Hr.
  by rewrite (expand_grow a r Hr).
Qed.

Lemma grow_counted a : counted a -> counted (grow a).1.
Proof. unfold grow, counted. repeat case_match; cbn; lia. Qed.

Lemma counted_budget a : counted a -> (Aspect.budget a < tight_fuel)%nat.
Proof.
  unfold counted, Aspect.budget. change tight_fuel with 6%nat.
  unfold Aspect.MAX_EXPANSION_LEFT, Aspect.MAX_EXPANSION_RIGHT. lia.
Qed.

Lemma inv_counted a : Aspect.inv a -> counted a.
Proof. intros []. unfold counted. lia. Qed.

End GrowLemmas.

(** Inside the contract [expand] returns; outside it, it may raise. *)
#[export] Instance inv_expanding : Expanding (@returns) Aspect.inv.
Proof.
  split; [apply _|apply grow_expand|apply grow_inv|apply set_ordinal_inv|].
  intros a Ha. by apply counted_budget, inv_counted.
Qed.

#[export] Instance counted_expanding : Expanding (@yields) counted.
Proof.
  split; [apply _|intros; apply expand_yields|apply grow_counted| |
          apply counted_budget].
  by intros a k [].
Qed.

Section RoundsLemmas.
Implicit Types (a ai aj : Aspect.t) (n m : nat).

Lemma grown_by_0 a : grown_by 0 a = a.
Proof. done. Qed.

Lemma grown_by_S n a : grown_by (S n) a = grown_by n (grow a).1.
Proof. unfold grown_by. by rewrite Nat.iter_succ_r. Qed.

(** An aspect that cannot expand never can again. *)
Lemma grown_by_stuck n a : (grow a).2 = false -> grown_by n a = a.
Proof.
  intros Ha. induction n as [|n IH]; [done|].
  by rewrite grown_by_S, (grow_false a Ha).
Qed.

(** An aspect that expands in round [n] has expanded in every round
    before, out of its budget. *)
Lemma grown_by_budget n a :
  (grow (grown_by n a)).2 = true -> (n < Aspect.budget a)%nat.
Proof.
  revert a. induction n as [|n IH]; intros a Hg; pose proof (grow_budget a) as Hb.
  - rewrite grown_by_0 in Hg. rewrite Hg in Hb. lia.
  - rewrite grown_by_S in Hg. destruct (grow a).2 eqn:Ha.
    + apply IH in Hg. lia.
    + rewrite (grow_false a Ha), (grown_by_stuck n a Ha) in Hg. congruence.
Qed.

Lemma stops_at_spec n ai aj :
  stops_at n ai aj = true <->
  (forall m, (m < n)%nat -> goes_on (grown_by m ai) (grown_by m aj) = true) /\
  goes_on (grown_by n ai) (grown_by n aj) = false.
Proof.
  unfold stops_at. rewrite andb_true_iff, negb_true_iff, forallb_forall.
  apply and_iff_compat_r. split.
  - intros Hgo m Hm. apply Hgo, in_seq. lia.
  - intros Hgo m Hm%in_seq. apply Hgo. lia.
Qed.

Lemma stops_at_0 ai aj : goes_on ai aj = false -> stops_at 0 ai aj = true.
Proof. intros Hstop. apply stops_at_spec. split; [lia|done]. Qed.

(** A round in which the loop goes on is followed by the rounds of the
    loop on the expanded aspects. *)
Lemma stops_at_S n ai aj :
  stops_at (S n) ai aj = true <-> 
  goes_on ai aj = true /\ stops_at n (grow ai).1 (grow aj).1 = true.
Proof.
  rewrite !stops_at_spec, !grown_by_S. split.
  - intros [Hgo Hstop]. split; [apply (Hgo 0%nat); lia|]. split; [|done].
    intros m Hm. rewrite <- !grown_by_S. apply Hgo. lia.
  - intros (H0 & Hgo & Hstop). split; [|done].
    intros [|m] Hm; [done|]. rewrite !grown_by_S. apply Hgo. lia.
Qed.

(** The loop goes on for at most as many rounds as the aspect with the
    larger budget can expand. *)
Lemma stops_at_max n ai aj :
  stops_at n ai aj = true ->
  (n <= Nat.max (Aspect.budget ai) (Aspect.budget aj))%nat.
Proof.
  intros [Hgo _]%stops_at_spec. destruct n as [|n]; [lia|].
  specialize (Hgo n (Nat.lt_succ_diag_r n)).
  apply andb_prop in Hgo as [_ [Hg|Hg]%orb_prop];
    apply grown_by_budget in Hg; lia.
Qed.

(** [settle] stops at the first round [n] at which the loop does not go
    on; the warning is logged when the contexts are then still equal. *)
Lemma settle_rounds ai aj :
  exists n, stops_at n ai aj = true /\
    settle ai aj =
      (grown_by n ai, grown_by n aj,
       Aspect.__eq__ (grown_by n ai) (Aspect.PyAspect (grown_by n aj))).
Proof.
  funelim (settle ai aj).
  - exists 0%nat. rewrite !grown_by_0, e. split; [|done].
    apply stops_at_0. unfold goes_on. by rewrite e.
  - destruct H as (n & Hn & Hs). exists (S n). rewrite !grown_by_S.
    split; [|done]. apply stops_at_S. unfold goes_on. by rewrite e, He.
  - exists 0%nat. rewrite !grown_by_0, e. split; [|done].
    apply stops_at_0. unfold goes_on. by rewrite e, e0.
Qed.

Lemma grow_expanded a : expanded a (grow a).1.
Proof.
  unfold grow. repeat case_match; [| |reflexivity];
    (split; [|done]); constructor; cbn; (done || lia).
Qed.

(** The loop widens the two contexts and keeps the ordinals. *)
Lemma settle_expanded ai aj :
  expanded ai (settle ai aj).1.1 /\ expanded aj (settle ai aj).1.2.
Proof.
  funelim (settle ai aj); [by split|..|by split].
  destruct H as [Hi Hj]. split; (etrans; [apply grow_expanded|done]).
Qed.

(** The warning is logged exactly when the contexts are left equal. *)
Lemma settle_warns ai aj :
  (settle ai aj).2 =
  Aspect.__eq__ (settle ai aj).1.1 (Aspect.PyAspect (settle ai aj).1.2).
Proof. by destruct (settle_rounds ai aj) as (n & _ & ->). Qed.

End RoundsLemmas.

Section SettleLemmas.
Context (doc : Doc).
Implicit Types (a ai aj : Aspect.t) (l : list Aspect.t) (st : dis_state)
  (i j : nat).

(** The loop, unfolded once. *)
Lemma settle_eq ai aj :
  settle ai aj =
  if Aspect.__eq__ ai (Aspect.PyAspect aj) then
    if (grow ai).2 || (grow aj).2 then settle (grow ai).1 (grow aj).1
    else (ai, aj, true)
  else (ai, aj, false).
Proof.
  funelim (settle ai aj); [by rewrite e|by rewrite e, He|by rewrite e, e0].
Qed.

(** Writing the two aspects back where they came from changes nothing. *)
Lemma after_settle_id i j l log ai aj :
  l !! i = Some ai -> l !! j = Some aj ->
  after_settle doc i j {| d_aspects := l; d_log := log |} (ai, aj, false) =
  {| d_aspects := l; d_log := log |}.
Proof.
  intros Hi Hj. unfold after_settle. cbn. rewrite app_nil_r. f_equal.
  rewrite (list_insert_id l i ai Hi). by apply list_insert_id.
Qed.

(** Only the last write at each of the two indices counts. *)
Lemma after_settle_twice i j l log ai aj r :
  i <> j ->
  after_settle doc i j
    {| d_aspects := <[j := aj]> (<[i := ai]> l); d_log := log |} r =
  after_settle doc i j {| d_aspects := l; d_log := log |} r.
Proof.
  intros Hij. unfold after_settle. cbn. f_equal.
  rewrite (list_insert_insert_ne _ i j) by done.
  by rewrite !list_insert_insert_eq.
Qed.

Lemma same_context_at l i j ai aj :
  l !! i = Some ai -> l !! j = Some aj ->
  same_context l (Z.of_nat i) (Z.of_nat j) =
  Ok (Aspect.__eq__ ai (Aspect.PyAspect aj)).
Proof.
  intros Hi Hj. apply same_context_lookup; rewrite ?Nat2Z.id; (done || lia).
Qed.

End SettleLemmas.

(** The loop against [settle], by any relation that [expand] and [grow]
    keep on the aspects. *)
Section LoopOutcome.
Context (R : forall A : Type, result A -> A -> Prop) (good : Aspect.t -> Prop).
Context `{!Expanding R good} (doc : Doc).
Implicit Types (a ai aj : Aspect.t) (l : list Aspect.t) (i j k : nat).

#[local] Notation "m ~> v" := (R _ m v) (at level 70).

(** [aspects[k].expand()] *)
Lemma expand_at_outcome l k a :
  l !! k = Some a -> good a ->
  expand_at l (Z.of_nat k) ~> (<[k := (grow a).1]> l, (grow a).2).
Proof.
  intros Hk Hg. unfold expand_at.
  rewrite (proj2 (py_index_in_range l (Z.of_nat k) a (Nat2Z.is_nonneg k)))
    by by rewrite Nat2Z.id.
  cbn [bind]. eapply outcome_bind; [by apply good_expand|].
  destruct (grow a) as [a' e]. cbn [fst snd].
  rewrite py_setitem_nonneg, Nat2Z.id; [apply outcome_ret|].
  apply lookup_lt_Some in Hk. unfold py_len. lia.
Qed.

(** The [while] loop of the code, with more fuel than the round at which
    it stops, is related to what [settle] computes. *)
Lemma expand_until_distinct_outcome fuel (n : nat) i j l log ai aj :
  i <> j -> l !! i = Some ai -> l !! j = Some aj -> good ai -> good aj ->
  stops_at n ai aj = true -> (n < fuel)%nat ->
  expand_until_distinct fuel doc (Z.of_nat i) (Z.of_nat j)
    {| d_aspects := l; d_log := log |} ~>
  after_settle doc i j {| d_aspects := l; d_log := log |} (settle ai aj).
Proof.
  revert n l ai aj. induction fuel as [|fuel IH];
    intros n l ai aj Hij Hi Hj Hgi Hgj Hn Hfuel; [lia|].
  cbn [expand_until_distinct d_aspects d_log].
  rewrite (same_context_at l i j ai aj), settle_eq by done. cbn [bind].
  destruct (Aspect.__eq__ ai _) eqn:Heq;
    [|rewrite (after_settle_id doc i j l log ai aj) by done; apply outcome_ret].
  eapply outcome_bind; [by apply expand_at_outcome|].
  eapply outcome_bind;
    [apply (expand_at_outcome _ j aj); [by rewrite list_lookup_insert_ne|done]|].
  cbn beta iota. destruct (_ || _) eqn:He; cbn [negb].
  - destruct n as [|n];
      [apply stops_at_spec in Hn as [_ Hn]; unfold goes_on in Hn;
       rewrite !grown_by_0, Heq, He in Hn; done|].
    apply stops_at_S in Hn as [_ Hn].
    rewrite <- (after_settle_twice doc i j l log (grow ai).1 (grow aj).1) by done.
    apply (IH n); [done| | |by apply good_grow..|done|lia].
    + rewrite list_lookup_insert_ne by done. apply list_lookup_insert_eq.
      by eapply lookup_lt_Some.
    + apply list_lookup_insert_eq. rewrite length_insert. by eapply lookup_lt_Some.
  - apply orb_false_elim in He as [He1 He2].
    rewrite (grow_false ai He1), (grow_false aj He2).
    rewrite (proj2 (py_index_in_range _ (Z.of_nat i) ai (Nat2Z.is_nonneg i))).
    + apply outcome_ret.
    + rewrite Nat2Z.id, list_lookup_insert_ne by done.
      apply list_lookup_insert_eq. by eapply lookup_lt_Some.
Qed.

(** [tight_fuel] iterations are enough for every pair of good aspects. *)
Lemma expand_until_distinct_enough fuel i j l log ai aj :
  (tight_fuel <= fuel)%nat ->
  i <> j -> l !! i = Some ai -> l !! j = Some aj -> good ai -> good aj ->
  expand_until_distinct fuel doc (Z.of_nat i) (Z.of_nat j)
    {| d_aspects := l; d_log := log |} ~>
  after_settle doc i j {| d_aspects := l; d_log := log |} (settle ai aj).
Proof.
  intros Hfuel Hij Hi Hj Hgi Hgj. destruct (settle_rounds ai aj) as (n & Hn & _).
  apply (expand_until_distinct_outcome fuel n); try done.
  pose proof (stops_at_max n ai aj Hn).
  pose proof (good_budget ai Hgi). pose proof (good_budget aj Hgj). lia.
Qed.

(** The loop keeps the aspects good. *)
Lemma settle_good ai aj :
  good ai -> good aj -> good (settle ai aj).1.1 /\ good (settle ai aj).1.2.
Proof.
  funelim (settle ai aj); intros Hi Hj; [by split| |by split].
  apply H; by apply good_grow.
Qed.

End LoopOutcome.

Section LoopReturns.
Context (doc : Doc).
Implicit Types (ai aj : Aspect.t) (l : list Aspect.t) (i j : nat).

(** On valid aspects, fuel above the larger of the two budgets is
    enough for the loop to return. *)
Lemma expand_until_distinct_settle fuel i j l log ai aj :
  i <> j -> l !! i = Some ai -> l !! j = Some aj ->
  Aspect.inv ai -> Aspect.inv aj ->
  (Nat.max (Aspect.budget ai) (Aspect.budget aj) < fuel)%nat ->
  expand_until_distinct fuel doc (Z.of_nat i) (Z.of_nat j)
    {| d_aspects := l; d_log := log |} =
  Ok (after_settle doc i j {| d_aspects := l; d_log := log |} (settle ai aj)).
Proof.
  intros Hij Hi Hj Hvi Hvj Hfuel. destruct (settle_rounds ai aj) as (n & Hn & _).
  apply (expand_until_distinct_outcome (@returns) Aspect.inv doc fuel n);
    try done.
  apply stops_at_max in Hn. lia.
Qed.

Lemma expand_fuel_enough : (tight_fuel <= expand_fuel)%nat.
Proof. cbv. lia. Qed.

End LoopReturns.


(** ** Theorems *)

(** On a valid aspect [expand] returns, and what it returns is [grow]: the
    reads of [doc] that the guards make stay inside the document, so the
    method is a total function of the object. *)
Theorem expand_is_grow (a : Aspect.t) :
  Aspect.inv a -> Aspect.expand a = Ok (grow a).
Proof. apply grow_expand. Qed.

Lemma expand_is_grow_witness :
  Aspect.expand plot_aspect = Ok (grow plot_aspect).
Proof. apply expand_is_grow. by vm_compute. Defined.

(** C15. The [while] loop of the code and the recursion [settle] compute the
    same thing.  On two valid aspects at distinct indices, with more fuel
    than the larger of the two expansion budgets, the loop returns; the
    list it returns is the list it got with the two aspects replaced by
    what [settle] makes of them, and the log is extended by the warning
    exactly when [settle] says so. *)
Theorem while_loop_settles (doc : Doc) (fuel : nat) (i j : nat)
    (l : list Aspect.t) (log : list warning) (ai aj : Aspect.t) :
  i <> j -> l !! i = Some ai -> l !! j = Some aj ->
  Aspect.inv ai -> Aspect.inv aj ->
  (Nat.max (Aspect.budget ai) (Aspect.budget aj) < fuel)%nat ->
  expand_until_distinct fuel doc (Z.of_nat i) (Z.of_nat j)
    {| d_aspects := l; d_log := log |} =
  Ok (after_settle doc i j {| d_aspects := l; d_log := log |} (settle ai aj)).
Proof. apply expand_until_distinct_settle. Qed.

Lemma while_loop_settles_witness :
  expand_until_distinct 6 thrice_doc (Z.of_nat 0) (Z.of_nat 2)
    {| d_aspects := thrice_aspects; d_log := [] |} =
  Ok (after_settle thrice_doc 0 2 {| d_aspects := thrice_aspects; d_log := [] |}
        (settle (Aspect.__init__ thrice_doc 0 1 (Some 0) (Some 1))
                (Aspect.__init__ thrice_doc 4 5 (Some 4) (Some 5)))).
Proof.
  apply while_loop_settles; [done|reflexivity|reflexivity| | |vm_compute; lia];
    by vm_compute.
Defined.

(** C17. What the [while] loop computes, said without recursion.  It calls
    [expand] on both aspects [n] times, where [n] is the first round at
    which the contexts differ or neither aspect can expand; [n] is at most
    the number of expansions that the aspect with more of them has left;
    and the warning is logged exactly when the contexts are equal after
    these [n] rounds. *)
Theorem settle_first_exit (ai aj : Aspect.t) :
  exists n,
    settle ai aj =
      (grown_by n ai, grown_by n aj,
       Aspect.__eq__ (grown_by n ai) (Aspect.PyAspect (grown_by n aj))) /\
    (forall m, (m < n)%nat -> goes_on (grown_by m ai) (grown_by m aj) = true) /\
    goes_on (grown_by n ai) (grown_by n aj) = false /\
    (n <= Nat.max (Aspect.budget ai) (Aspect.budget aj))%nat.
Proof.
  destruct (settle_rounds ai aj) as (n & Hn & Hs). exists n.
  pose proof (stops_at_max n ai aj Hn). apply stops_at_spec in Hn as [? ?].
  done.
Qed.

(** The fuel [tight_fuel] cannot be lowered.  On twelve times the
    same word, with aspects at the fourth and the ninth, both aspects
    expand five times and the contexts stay equal: the loop stops in
    round five, with one iteration less than [tight_fuel] the model of
    the loop does not return, and with [tight_fuel] iterations it leaves
    both contexts six words wide and logs the warning. *)
Example tight_fuel_is_tight :
  Aspect.inv echo_first /\ Aspect.inv echo_second /\
  stops_at (tight_fuel - 1) echo_first echo_second = true /\
  expand_until_distinct (tight_fuel - 1) echo_doc 0 1
    {| d_aspects := [echo_first; echo_second]; d_log := [] |} = OutOfFuel /\
  expand_until_distinct tight_fuel echo_doc 0 1
    {| d_aspects := [echo_first; echo_second]; d_log := [] |} =
  Ok {| d_aspects := [grown_by 5 echo_first; grown_by 5 echo_second];
        d_log := [mk_warning 0 "plot" (doc_text echo_doc)] |} /\
  Aspect.context (grown_by 5 echo_first) = "plot plot plot plot plot plot".
Proof. repeat split; by vm_compute. Qed.
