(* ===== verification/Reference.v ===== *)
(** * A reference for the disambiguator without loops, fuel or exceptions

    [Disambiguator.disambiguate] models the last loops of
    [AspectExtractor.__call__] as the code writes them: two [for] loops
    over indices around a [while] loop with fuel, reads and writes of the
    list that may raise.  With the [while] loop as the recursion [settle]
    of the file before, [resolve] is the body of the inner loop and
    [disambiguate_ref] a left fold of it over the pairs [i < j] in the
    order of the loops.  The loops are related to the fold once, for any
    relation of the class [Expanding]: on valid aspects the code returns
    exactly what the reference computes, and on aspects whose counters
    are not negative it returns that or raises [IndexError]. *)

From stdpp Require Import prelude strings list_numbers gmap lexico sorting.
From S2P Require Import Prelude Outcomes Spacy AspectSpan Disambiguator Settle.

#[local] Open Scope Z_scope.

(** ** The loops over the pairs *)

(** The body of the inner [for] loop on the pair [p = (i, j)]. *)
Definition resolve (doc : Doc) (st : dis_state) (p : nat * nat) : dis_state :=
  match d_aspects st !! p.1, d_aspects st !! p.2 with
  | Some ai, Some aj =>
      if String.eqb (Aspect.text ai) (Aspect.text aj) then
        after_settle doc p.1 p.2 st
          (settle ai (Aspect.set_ordinal aj (Aspect.ordinal ai + 1)))
      else st
  | _, _ => st
  end.

(** [(i, j) for j in range(i + 1, n)] *)
Definition row (n i : nat) : list (nat * nat) :=
  pair i <$> seq (S i) (n - S i).

(** [(i, j) for i in range(n - 1) for j in range(i + 1, n)] *)
Definition pairs (n : nat) : list (nat * nat) :=
  seq 0 (n - 1) ≫= row n.

(** What the disambiguator computes. *)
Definition disambiguate_ref (doc : Doc) (aspects : list Aspect.t) : dis_state :=
  foldl (resolve doc) {| d_aspects := aspects; d_log := [] |}
    (pairs (length aspects)).

(** The states the loops run through: [n] good aspects. *)
Definition sound (good : Aspect.t -> Prop) (n : nat) (st : dis_state) : Prop :=
  Forall good (d_aspects st) /\ length (d_aspects st) = n.

(** ** Lemmas *)

Section ResolveLemmas.
Context (R : forall A : Type, result A -> A -> Prop) (good : Aspect.t -> Prop).
Context `{!Expanding R good} (doc : Doc).
Implicit Types (a ai aj : Aspect.t) (l : list Aspect.t) (st : dis_state)
  (i j n : nat).

#[local] Notation "m ~> v" := (R _ m v) (at level 70).

Lemma after_settle_sound n i j st r :
  sound good n st -> good r.1.1 -> good r.1.2 ->
  sound good n (after_settle doc i j st r).
Proof.
  intros [Hall Hlen] Hi Hj. split; cbn.
  - apply Forall_insert; [by apply Forall_insert|done].
  - by rewrite !length_insert.
Qed.

(** The write of the ordinal at [j] is overwritten by the loop. *)
Lemma after_settle_bumped i j l log aj r :
  i <> j ->
  after_settle doc i j {| d_aspects := <[j := aj]> l; d_log := log |} r =
  after_settle doc i j {| d_aspects := l; d_log := log |} r.
Proof.
  intros Hij. unfold after_settle. cbn. f_equal.
  rewrite (list_insert_insert_ne _ i j) by done.
  by rewrite list_insert_insert_eq.
Qed.

Lemma resolve_sound n st p : sound good n st -> sound good n (resolve doc st p).
Proof.
  intros Hs. unfold resolve.
  destruct (d_aspects st !! p.1) as [ai|] eqn:Hi; [|done].
  destruct (d_aspects st !! p.2) as [aj|] eqn:Hj; [|done].
  destruct (String.eqb _ _); [|done].
  pose proof (Forall_lookup_1 _ _ _ _ (proj1 Hs) Hi) as Hvi.
  pose proof (Forall_lookup_1 _ _ _ _ (proj1 Hs) Hj) as Hvj.
  destruct (settle_good R good ai (Aspect.set_ordinal aj (Aspect.ordinal ai + 1)));
    [done|by apply (good_ordinal (R:=R))|]. by apply after_settle_sound.
Qed.

(** The body of the inner loop of the code against [resolve]. *)
Lemma disambiguate_pair_outcome fuel n i j st :
  (tight_fuel <= fuel)%nat -> (i < j < n)%nat -> sound good n st ->
  disambiguate_pair fuel doc (Z.of_nat i) st (Z.of_nat j) ~>
  resolve doc st (i, j).
Proof.
  destruct st as [l log]. intros Hfuel Hij [Hall Hlen]. cbn [d_aspects] in *.
  destruct (lookup_lt_is_Some_2 l i) as [ai Hi]; [lia|].
  destruct (lookup_lt_is_Some_2 l j) as [aj Hj]; [lia|].
  pose proof (Forall_lookup_1 _ _ _ _ Hall Hi) as Hvi.
  pose proof (Forall_lookup_1 _ _ _ _ Hall Hj) as Hvj.
  unfold disambiguate_pair, resolve. cbn [d_aspects d_log fst snd].
  rewrite Hi, Hj, (same_text_lookup l _ _ ai aj)
    by (rewrite ?Nat2Z.id; (done || lia)).
  cbn [bind]. destruct (String.eqb _ _); [|apply outcome_ret].
  rewrite (bump_ordinal_lookup l _ _ ai aj) by (rewrite ?Nat2Z.id; (done || lia)).
  cbn [bind]. rewrite Nat2Z.id.
  set (aj1 := Aspect.set_ordinal aj _).
  rewrite <- (after_settle_bumped i j l log aj1) by lia.
  apply (expand_until_distinct_enough R good);
    [done|lia| | |done|by apply (good_ordinal (R:=R))].
  - by rewrite list_lookup_insert_ne by lia.
  - apply list_lookup_insert_eq. by eapply lookup_lt_Some.
Qed.

(** The inner loop against the fold of [resolve] over a row of pairs. *)
Lemma disambiguate_from_outcome fuel n i st :
  (tight_fuel <= fuel)%nat -> sound good n st ->
  disambiguate_from fuel doc st (Z.of_nat i) ~>
    foldl (resolve doc) st (row n i) /\
  sound good n (foldl (resolve doc) st (row n i)).
Proof.
  intros Hfuel Hs. unfold disambiguate_from, row, py_len.
  rewrite (proj2 Hs). replace (Z.of_nat i + 1) with (Z.of_nat (S i)) by lia.
  rewrite py_range_seq, for_each_fmap, foldl_fmap.
  replace (Z.to_nat _) with (n - S i)%nat by lia.
  apply (outcome_for_each R (sound good n)); [done|].
  intros s1 j Hj%elem_of_seq Hs1. split; [|by apply resolve_sound].
  apply (disambiguate_pair_outcome fuel n); (done || lia).
Qed.

(** Both loops against the fold of [resolve] over the pairs. *)
Lemma disambiguate_outcome fuel l :
  (tight_fuel <= fuel)%nat -> Forall good l ->
  disambiguate fuel doc l ~> disambiguate_ref doc l.
Proof.
  intros Hfuel Hall. unfold disambiguate, disambiguate_ref, pairs, py_len.
  rewrite foldl_bind. change 0 with (Z.of_nat 0). rewrite py_range_seq, for_each_fmap.
  replace (Z.to_nat _) with (length l - 1)%nat by lia.
  apply (outcome_for_each R (sound good (length l))); [done|].
  intros s1 i _ Hs1. by apply disambiguate_from_outcome.
Qed.

End ResolveLemmas.

Section ResolveReturns.
Context (doc : Doc).
Implicit Types (l : list Aspect.t).

(** On valid aspects both loops return the fold of [resolve]. *)
Lemma disambiguate_pairs fuel l :
  (tight_fuel <= fuel)%nat -> Forall Aspect.inv l ->
  disambiguate fuel doc l = Ok (disambiguate_ref doc l).
Proof. apply (disambiguate_outcome (@returns) Aspect.inv). Qed.

(** On aspects whose counters are not negative they return it unless a
    read leaves the document: the fuel does not run out. *)
Lemma disambiguate_yields fuel l :
  (tight_fuel <= fuel)%nat -> Forall counted l ->
  yields (disambiguate fuel doc l) (disambiguate_ref doc l).
Proof. apply (disambiguate_outcome (@yields) counted). Qed.

End ResolveReturns.

Section LogLemmas.
Context (doc : Doc).
Implicit Types (st : dis_state) (p : nat * nat) (ps : list (nat * nat)).

(** A pair adds no warning, or one that names its first index. *)
Lemma resolve_log st p :
  d_log (resolve doc st p) = d_log st \/
  exists w, d_log (resolve doc st p) = d_log st ++ [w] /\
            w_index w = Z.of_nat p.1.
Proof.
  unfold resolve. repeat case_match; try by left.
  unfold after_settle. cbn [d_log]. case_match; [right; by eexists|left].
  by rewrite app_nil_r.
Qed.

(** The indices that the warnings of a run over [ps] name are first
    indices of pairs of [ps], in the order of [ps]. *)
Lemma foldl_resolve_log ps st :
  exists ws,
    d_log (foldl (resolve doc) st ps) = d_log st ++ ws /\
    sublist (w_index <$> ws) ((fun p => Z.of_nat p.1) <$> ps).
Proof.
  revert st. induction ps as [|p ps IH]; intros st.
  { exists []. by rewrite app_nil_r. }
  cbn [foldl]. destruct (IH (resolve doc st p)) as (ws & -> & Hsub).
  destruct (resolve_log st p) as [->|(w & -> & Hw)].
  - exists ws. split; [done|]. by apply sublist_cons.
  - exists (w :: ws). rewrite <- app_assoc. split; [done|].
    cbn [fmap list_fmap]. rewrite Hw. by apply sublist_skip.
Qed.

Lemma length_row (n i : nat) : length (row n i) = (n - S i)%nat.
Proof. unfold row. by rewrite length_fmap, length_seq. Qed.

Lemma length_rows (n k a : nat) :
  (a + k + 1 = n)%nat ->
  (2 * length (seq a k ≫= row n) = k * (k + 1))%nat.
Proof.
  revert a. induction k as [|k IH]; intros a Hn; [done|].
  cbn [seq]. rewrite bind_cons, length_app, length_row.
  specialize (IH (S a)). nia.
Qed.

(** There are [n (n - 1) / 2] pairs. *)
Lemma length_pairs (n : nat) : (2 * length (pairs n) = n * (n - 1))%nat.
Proof.
  destruct n as [|n]; [done|]. unfold pairs.
  rewrite (length_rows (S n) (S n - 1) 0) by lia. nia.
Qed.

End LogLemmas.

Section PairsLemmas.
Implicit Types (n i j k : nat) (p q : nat * nat).

(** The order of the loops is the lexicographic order of the pairs. *)
Lemma lexico_pair p q :
  lexico p q <-> (p.1 < q.1 \/ p.1 = q.1 /\ p.2 < q.2)%nat.
Proof. done. Qed.

Lemma elem_of_row n i p : p ∈ row n i <-> p.1 = i /\ (i < p.2 < n)%nat.
Proof.
  unfold row. rewrite list_elem_of_fmap. split.
  - intros (j & -> & Hj%elem_of_seq). cbn. lia.
  - intros [<- Hj]. exists p.2. split; [by destruct p|]. apply elem_of_seq. lia.
Qed.

(** The pairs are the pairs [i < j] of indices below [n]. *)
Lemma elem_of_pairs n p : p ∈ pairs n <-> (p.1 < p.2 < n)%nat.
Proof.
  unfold pairs. rewrite list_elem_of_bind. split.
  - intros (i & [<- Hj]%elem_of_row & _). lia.
  - intros Hp. exists p.1. rewrite elem_of_row, elem_of_seq. lia.
Qed.

Lemma row_sorted n i : StronglySorted lexico (row n i).
Proof.
  unfold row. generalize (S i) (n - S i)%nat. intros a k. revert a.
  induction k as [|k IH]; intros a; cbn; constructor; [apply IH|].
  apply Forall_fmap, Forall_forall. intros j Hj%elem_of_seq.
  apply lexico_pair. cbn. lia.
Qed.

Lemma rows_sorted n a k : StronglySorted lexico (seq a k ≫= row n).
Proof.
  revert a. induction k as [|k IH]; intros a; [constructor|].
  cbn [seq]. rewrite bind_cons.
  apply StronglySorted_app_2; [|apply row_sorted|apply IH].
  intros p q [Hp _]%elem_of_row (i & [Hq _]%elem_of_row & Hi%elem_of_seq)%list_elem_of_bind.
  apply lexico_pair. lia.
Qed.

(** The pairs before [(i, j)], the pair, and the pairs after it. *)
Lemma pairs_split n i j :
  (i < j < n)%nat ->
  exists pre post,
    pairs n = pre ++ (i, j) :: post /\
    Forall (fun p => lexico p (i, j)) pre /\ Forall (lexico (i, j)) post.
Proof.
  intros Hij. pose proof (rows_sorted n 0 (n - 1)) as Hs. fold (pairs n) in Hs.
  destruct (list_elem_of_split (pairs n) (i, j)) as (pre & post & Hsplit);
    [by apply elem_of_pairs|].
  exists pre, post. split; [done|]. rewrite Hsplit in Hs.
  apply StronglySorted_app in Hs as (Hlt & _ & Hpost). split.
  - apply Forall_forall. intros p Hp. apply (Hlt p (i, j) Hp). by left.
  - by inversion Hpost.
Qed.

End PairsLemmas.

(** ** Theorems on the reference *)

(** C6. The disambiguator computes its reference.  On valid aspects, with
    at least [tight_fuel] iterations for each [while] loop, the two [for]
    loops of the code return, and they return the left fold of [resolve]
    over the pairs [i < j] in lexicographic order: no read or write of the
    list raises, no loop runs out of fuel, and the aspects and the log are
    those of the reference. *)
Theorem disambiguate_reference (doc : Doc) (fuel : nat) (l : list Aspect.t) :
  (tight_fuel <= fuel)%nat -> Forall Aspect.inv l ->
  disambiguate fuel doc l = Ok (disambiguate_ref doc l).
Proof. apply disambiguate_pairs. Qed.

Lemma disambiguate_reference_witness :
  disambiguate 6 thrice_doc thrice_aspects =
  Ok (disambiguate_ref thrice_doc thrice_aspects).
Proof.
  apply disambiguate_reference; [by cbv|].
  repeat constructor; by vm_compute.
Defined.

(** C38. The log of a document is short and ordered.  The indices that the
    warnings name, in the order in which they were logged, are first
    indices of pairs [i < j] in the order of the loops, each pair used at
    most once; so a list of [n] aspects logs at most [n (n - 1) / 2]
    warnings. *)
Theorem disambiguate_log_shape (doc : Doc) (fuel : nat)
    (l : list Aspect.t) (st : dis_state) :
  (tight_fuel <= fuel)%nat -> Forall Aspect.inv l ->
  disambiguate fuel doc l = Ok st ->
  sublist (w_index <$> d_log st)
    ((fun p => Z.of_nat p.1) <$> pairs (length l)) /\
  (2 * length (d_log st) <= length l * (length l - 1))%nat.
Proof.
  intros Hfuel Hall Hrun. rewrite disambiguate_pairs in Hrun by done.
  injection Hrun as <-. unfold disambiguate_ref.
  destruct (foldl_resolve_log doc (pairs (length l))
              {| d_aspects := l; d_log := [] |}) as (ws & -> & Hsub).
  cbn [d_log app]. split; [done|].
  apply sublist_length in Hsub. rewrite !length_fmap in Hsub.
  pose proof (length_pairs (length l)). lia.
Qed.

Lemma disambiguate_log_shape_witness :
  sublist (w_index <$> d_log thrice_final)
    ((fun p => Z.of_nat p.1) <$> pairs (length thrice_aspects)) /\
  (2 * length (d_log thrice_final) <=
   length thrice_aspects * (length thrice_aspects - 1))%nat.
Proof.
  apply (disambiguate_log_shape thrice_doc 6); [by cbv| |reflexivity].
  repeat constructor; by vm_compute.
Defined.

(** "plot , plot , plot": the reference on the three aspects, evaluated. *)
Example disambiguate_ref_plot_thrice :
  disambiguate_ref thrice_doc thrice_aspects = thrice_final.
Proof. by vm_compute. Qed.
