(* ===== verification/Occurrences.v ===== *)
(** * The last two occurrences of a text are resolved

    The specification asks that any two aspects with the same reduced
    text end with different context texts, or with a diagnostic.  The code
    compares each pair once, so an aspect that a later pair widens can
    come to agree again with one it was told apart from.  This file shows
    where the property holds whatever the sentence: for the last two
    aspects of each text.  Their pair is the last one that touches either
    of them.  The proof runs on the reference of the disambiguator: the
    list of pairs splits into the pairs before [(i, j)], which log nothing
    about [i], the pair itself, which resolves it, and the pairs after it,
    which leave the two aspects alone. *)

From stdpp Require Import prelude strings list_numbers gmap lexico.
From S2P Require Import Prelude Spacy AspectSpan Disambiguator DisambiguatorLog.
From S2P Require Import Resolution Settle Reference.

#[local] Open Scope Z_scope.

(** The aspects at [i < j] have the same reduced text, and no aspect after
    [i] other than [j] has it. *)
Definition last_two (l : list Aspect.t) (i j : nat) : Prop :=
  (i < j)%nat /\
  exists ai aj,
    l !! i = Some ai /\ l !! j = Some aj /\
    Aspect.text aj = Aspect.text ai /\
    forall (m : nat) a, l !! m = Some a -> (i < m)%nat ->
      Aspect.text a = Aspect.text ai -> m = j.

(** The reduced texts of a list of aspects. *)
Definition texts (l : list Aspect.t) : list string := Aspect.text <$> l.

(** ** Lemmas *)

Section OccurrenceLemmas.
Context (doc : Doc).
Implicit Types (a ai aj : Aspect.t) (l : list Aspect.t) (st : dis_state)
  (i j m : nat) (p : nat * nat).

(** A pair keeps the reduced texts. *)
Lemma resolve_texts st p :
  texts (d_aspects (resolve doc st p)) = texts (d_aspects st).
Proof.
  unfold resolve, texts.
  destruct (d_aspects st !! p.1) as [ai|] eqn:Hi; [|done].
  destruct (d_aspects st !! p.2) as [aj|] eqn:Hj; [|done].
  destruct (String.eqb _ _); [|done]. cbn [after_settle d_aspects].
  destruct (settle_expanded ai (Aspect.set_ordinal aj (Aspect.ordinal ai + 1)))
    as [[Hwi%expanded_text _] [Hwj%expanded_text _]].
  rewrite !list_fmap_insert, Hwi, Hwj. cbn.
  rewrite (list_insert_id _ p.1 (Aspect.text ai))
    by by rewrite list_lookup_fmap, Hi.
  apply list_insert_id. by rewrite list_lookup_fmap, Hj.
Qed.

(** A pair of aspects with different texts changes nothing. *)
Lemma resolve_noop st p ai aj :
  d_aspects st !! p.1 = Some ai -> d_aspects st !! p.2 = Some aj ->
  Aspect.text ai <> Aspect.text aj -> resolve doc st p = st.
Proof.
  intros Hi Hj Hne. unfold resolve. rewrite Hi, Hj.
  by destruct (String.eqb_spec (Aspect.text ai) (Aspect.text aj)).
Qed.

(** A pair changes the aspects at its two indices only, and logs for its
    first index only. *)
Lemma resolve_frame st p :
  frame (off (Z.of_nat p.1) (Z.of_nat p.2)) (Z.of_nat p.1) st (resolve doc st p).
Proof.
  unfold resolve. repeat case_match; try reflexivity. split.
  - intros m [Hi Hj]. rewrite !Nat2Z.id in *. cbn.
    by rewrite !list_lookup_insert_ne.
  - cbn. eexists. split; [done|]. case_match; [|done]. by apply Forall_singleton.
Qed.

(** The pair [(i, j)] of two aspects with the same text, about the first
    of which nothing was logged, is resolved when its turn is over. *)
Lemma resolve_resolves st i j ai aj :
  (i < j)%nat ->
  d_aspects st !! i = Some ai -> d_aspects st !! j = Some aj ->
  Aspect.text ai = Aspect.text aj ->
  warned (Z.of_nat i) (d_log st) = [] ->
  resolved doc (Z.of_nat i) (Z.of_nat j) (resolve doc st (i, j)).
Proof.
  intros Hij Hi Hj Htext Hquiet. unfold resolve. cbn [fst snd].
  rewrite Hi, Hj, Htext, String.eqb_refl.
  set (r := settle ai _).
  destruct (settle_expanded ai (Aspect.set_ordinal aj (Aspect.ordinal ai + 1)))
    as [[_ Hoi] [_ Hoj]]. fold r in Hoi, Hoj. cbn in Hoj.
  pose proof (settle_warns ai (Aspect.set_ordinal aj (Aspect.ordinal ai + 1)))
    as Hw. fold r in Hw.
  exists r.1.1, r.1.2. rewrite !Nat2Z.id. cbn [after_settle d_aspects d_log].
  split; [|split; [|split; [lia|]]].
  - rewrite list_lookup_insert_ne by lia. apply list_lookup_insert_eq.
    by eapply lookup_lt_Some.
  - apply list_lookup_insert_eq. rewrite length_insert. by eapply lookup_lt_Some.
  - rewrite warned_app, Hquiet, Hw. cbn [app]. unfold Aspect.__eq__.
    destruct (String.eqb_spec (Aspect.context r.1.1) (Aspect.context r.1.2));
      [right|left]; (split; [done|]); [|done].
    unfold warned. by rewrite filter_cons, decide_True.
Qed.

End OccurrenceLemmas.

Section LastTwo.
Context (doc : Doc) (l0 : list Aspect.t) (i j : nat).
Context (Hlast : last_two l0 i j).
Implicit Types (a : Aspect.t) (l : list Aspect.t) (st : dis_state)
  (m : nat) (p : nat * nat).

(** An aspect of a list with the texts of [l']. *)
Lemma texts_lookup l l' m a :
  texts l = texts l' -> l !! m = Some a ->
  exists a', l' !! m = Some a' /\ Aspect.text a' = Aspect.text a.
Proof.
  intros Ht Hm. assert (texts l !! m = Some (Aspect.text a)) as H
    by (unfold texts; by rewrite list_lookup_fmap, Hm).
  rewrite Ht in H. unfold texts in H. rewrite list_lookup_fmap in H.
  destruct (l' !! m) as [a'|]; [|done]. injection H as H. by exists a'.
Qed.

(** The two aspects of a pair of the loops, in a list with the texts of
    [l0]. *)
Lemma pair_lookup st p :
  texts (d_aspects st) = texts l0 -> p ∈ pairs (length l0) ->
  exists ai aj, d_aspects st !! p.1 = Some ai /\ d_aspects st !! p.2 = Some aj.
Proof.
  intros Ht Hp%elem_of_pairs. apply (f_equal length) in Ht.
  unfold texts in Ht. rewrite !length_fmap in Ht.
  destruct (lookup_lt_is_Some_2 (d_aspects st) p.1) as [ai Hi]; [lia|].
  destruct (lookup_lt_is_Some_2 (d_aspects st) p.2) as [aj Hj]; [lia|].
  by exists ai, aj.
Qed.

(** In a list with the texts of [l0], an aspect after [i] with the text
    of the aspect at [i] is the one at [j]. *)
Lemma last_two_current st m a ai :
  texts (d_aspects st) = texts l0 ->
  d_aspects st !! i = Some ai -> d_aspects st !! m = Some a ->
  (i < m)%nat -> Aspect.text a = Aspect.text ai -> m = j.
Proof.
  destruct Hlast as (_ & a0 & b0 & Ha0 & _ & _ & Honly). intros Ht Hi Hm Him Heq.
  destruct (texts_lookup _ _ _ _ Ht Hi) as (a0' & Ha0' & Hti).
  destruct (texts_lookup _ _ _ _ Ht Hm) as (am & Ham & Htm).
  assert (a0' = a0) as -> by congruence.
  apply (Honly m am Ham Him). congruence.
Qed.

Lemma last_two_same st ai aj :
  texts (d_aspects st) = texts l0 ->
  d_aspects st !! i = Some ai -> d_aspects st !! j = Some aj ->
  Aspect.text ai = Aspect.text aj.
Proof.
  destruct Hlast as (_ & a0 & b0 & Ha0 & Hb0 & Heq & _). intros Ht Hi Hj.
  destruct (texts_lookup _ _ _ _ Ht Hi) as (a0' & Ha0' & Hti).
  destruct (texts_lookup _ _ _ _ Ht Hj) as (b0' & Hb0' & Htj).
  assert (a0' = a0) as -> by congruence. assert (b0' = b0) as -> by congruence.
  congruence.
Qed.

(** A pair before [(i, j)] logs nothing about [i]. *)
Lemma before_quiet st p :
  p ∈ pairs (length l0) -> lexico p (i, j) ->
  texts (d_aspects st) = texts l0 /\ warned (Z.of_nat i) (d_log st) = [] ->
  texts (d_aspects (resolve doc st p)) = texts l0 /\
  warned (Z.of_nat i) (d_log (resolve doc st p)) = [].
Proof.
  intros Hp Hlt [Ht Hq]. apply (proj1 (lexico_pair p (i, j))) in Hlt.
  split; [by rewrite resolve_texts|].
  destruct (decide (p.1 = i)) as [Hpi|Hpi].
  - destruct (pair_lookup st p Ht Hp) as (ai & aj & Hi & Hj).
    apply elem_of_pairs in Hp. cbn [fst snd] in Hlt.
    rewrite (resolve_noop doc st p ai aj); [done..|]. intros Heq.
    rewrite Hpi in Hi.
    assert (p.2 = j) by (apply (last_two_current st p.2 aj ai); (done || lia)).
    lia.
  - rewrite (warned_frame (off (Z.of_nat p.1) (Z.of_nat p.2)) (Z.of_nat i)
               (Z.of_nat p.1) st); [done|lia|apply resolve_frame].
Qed.

(** A pair after [(i, j)] keeps it resolved. *)
Lemma after_resolved st p :
  p ∈ pairs (length l0) -> lexico (i, j) p ->
  texts (d_aspects st) = texts l0 /\ resolved doc (Z.of_nat i) (Z.of_nat j) st ->
  texts (d_aspects (resolve doc st p)) = texts l0 /\
  resolved doc (Z.of_nat i) (Z.of_nat j) (resolve doc st p).
Proof.
  intros Hp Hlt [Ht Hr]. apply (proj1 (lexico_pair (i, j) p)) in Hlt.
  split; [by rewrite resolve_texts|].
  destruct (pair_lookup st p Ht Hp) as (ai' & aj' & Hi' & Hj').
  apply elem_of_pairs in Hp. cbn [fst snd] in Hlt. destruct Hlast as [Hij _].
  pose proof Hr as (ai & aj & Hi & Hj & _). rewrite !Nat2Z.id in Hi, Hj.
  destruct (decide (Aspect.text ai' = Aspect.text aj')) as [Heq|Hne];
    [|by rewrite (resolve_noop doc st p ai' aj')].
  pose proof (last_two_same st ai aj Ht Hi Hj) as Hsame.
  pose proof (fun m a => last_two_current st m a ai Ht Hi) as Honly.
  assert (p.1 <> i /\ p.1 <> j /\ p.2 <> j) as (H1 & H2 & H3).
  { repeat split; intros E.
    - rewrite E in Hi'. assert (ai' = ai) as -> by congruence.
      assert (p.2 = j) by (apply (Honly p.2 aj'); (done || lia)). lia.
    - rewrite E in Hi'. assert (ai' = aj) as -> by congruence.
      assert (p.2 = j) by (apply (Honly p.2 aj'); [done|lia|congruence]). lia.
    - rewrite E in Hj'. assert (aj' = aj) as -> by congruence.
      assert (p.1 = j) by (apply (Honly p.1 ai'); [done|lia|congruence]). lia. }
  apply (resolved_frame doc _ _ (Z.of_nat p.1) st); [lia| |done].
  eapply frame_weaken; [|apply resolve_frame].
  intros m [->| ->]; rewrite Nat2Z.id; split; lia.
Qed.

(** The reference resolves the pair. *)
Lemma disambiguate_ref_last_two :
  resolved doc (Z.of_nat i) (Z.of_nat j) (disambiguate_ref doc l0).
Proof.
  pose proof Hlast as (Hij & a0 & b0 & Ha0 & Hb0 & _).
  destruct (pairs_split (length l0) i j) as (pre & post & Hsplit & Hpre & Hpost).
  { apply lookup_lt_Some in Hb0. lia. }
  unfold disambiguate_ref. rewrite Hsplit, foldl_app. cbn [foldl].
  set (st1 := foldl _ _ pre).
  assert (texts (d_aspects st1) = texts l0 /\
          warned (Z.of_nat i) (d_log st1) = []) as [Ht1 Hq1].
  { apply (foldl_inv (fun st => texts (d_aspects st) = texts l0 /\
                       warned (Z.of_nat i) (d_log st) = [])); [done|].
    intros s p Hp. apply before_quiet.
    - rewrite Hsplit. apply elem_of_app. by left.
    - by apply (proj1 (Forall_forall _ _) Hpre). }
  destruct (pair_lookup st1 (i, j) Ht1) as (ai & aj & Hi & Hj).
  { rewrite Hsplit. apply elem_of_app. right. by left. }
  apply (foldl_inv (fun st => texts (d_aspects st) = texts l0 /\
                     resolved doc (Z.of_nat i) (Z.of_nat j) st)).
  - split; [by rewrite resolve_texts|].
    apply (resolve_resolves doc st1 i j ai aj); [done..| |done].
    by apply (last_two_same st1).
  - intros s p Hp. apply after_resolved.
    + rewrite Hsplit. apply elem_of_app. right. by right.
    + by apply (proj1 (Forall_forall _ _) Hpost).
Qed.

End LastTwo.

(** ** Theorems on the occurrences of a text *)

(** C9. The last two aspects of every text are disambiguated as the
    specification says.  When the aspects at [i < j] have the same reduced
    text and no aspect after [i] other than [j] has it, then in the list
    the disambiguator returns the aspect at [j] has the ordinal of the
    aspect at [i] plus one, and either their context texts differ and no
    warning names [i], or they are equal and exactly one warning names
    [i].  Earlier occurrences of the text do not matter: they are
    compared with the two before the two are compared with each other. *)
Theorem disambiguate_resolves_last_two (doc : Doc) (fuel : nat)
    (l : list Aspect.t) (i j : nat) (st : dis_state) :
  (tight_fuel <= fuel)%nat -> Forall Aspect.inv l -> last_two l i j ->
  disambiguate fuel doc l = Ok st ->
  resolved doc (Z.of_nat i) (Z.of_nat j) st.
Proof.
  intros Hfuel Hall Hlast Hrun. rewrite disambiguate_pairs in Hrun by done.
  injection Hrun as <-. by apply disambiguate_ref_last_two.
Qed.

Lemma disambiguate_resolves_last_two_witness :
  resolved verdict_doc (Z.of_nat 1) (Z.of_nat 2)
    (disambiguate_ref verdict_doc verdict_aspects).
Proof.
  apply (disambiguate_resolves_last_two verdict_doc tight_fuel verdict_aspects);
    [done|repeat constructor; by vm_compute| |by vm_compute].
  split; [lia|]. eexists _, _. split; [reflexivity|]. split; [reflexivity|].
  split; [reflexivity|]. intros [|[|[|m]]] a Hm Hlt _; (done || lia).
Defined.

(** "plot was good , plot , plot was bad": the second and the third
    "plot" are resolved, with contexts "plot" and "plot was" and no
    warning about the second; the first and the third are not, both
    having the context "plot was" (see
    [DisambiguatorLog.disambiguate_equal_contexts_unlogged]). *)
Example verdict_last_two :
  Aspect.context <$> d_aspects (disambiguate_ref verdict_doc verdict_aspects)
    = ["plot was"; "plot"; "plot was"] /\
  d_log (disambiguate_ref verdict_doc verdict_aspects) = [].
Proof. by vm_compute. Qed.
