(* ===== verification/Extractor.v ===== *)
(** * Construction of the extractor: [AspectExtractor.__init__]

    The constructor takes either the name of a spaCy package or a pipeline
    that is already loaded.  With a name it imports spaCy, asks for the GPU
    when the name ends in "trf", and loads the package, in this order; each
    of the three touches the environment or can fail.  The environment is
    a record threaded through a small state-and-exception monad, so that
    the effect made before a failure is still there after it. *)

From stdpp Require Import prelude strings list_numbers gmap.
From S2P Require Import Prelude Spacy.

#[local] Open Scope Z_scope.

(** ** The environment of the constructor *)

(** Whether [import spacy] succeeds, the packages [spacy.load] finds, and
    whether [spacy.prefer_gpu] has been called. *)
Record environment : Type := mk_env {
  spacy_installed : bool;
  spacy_packages : gmap string TokenSource;
  gpu_preferred : bool;
}.

(** A computation that reads and writes the environment and may raise: the
    environment after it is returned also when it raises. *)
Definition stateful (A : Type) : Type := environment -> result A * environment.

Definition ret {A : Type} (a : A) : stateful A := fun env => (Ok a, env).

Definition bind_st {A B : Type} (m : stateful A) (k : A -> stateful B)
  : stateful B :=
  fun env =>
    match m env with
    | (Ok a, env') => k a env'
    | (Raise e, env') => (Raise e, env')
    | (OutOfFuel, env') => (OutOfFuel, env')
    end.

Notation "'let!' x ':=' m 'in' k" := (bind_st m (fun x => k))
  (at level 10, x pattern, m at level 200, k at level 200) : py_scope.

(** [if b: m] *)
Definition when (b : bool) (m : stateful unit) : stateful unit :=
  if b then m else ret tt.

(** [import spacy] *)
Definition import_spacy : stateful unit :=
  fun env =>
    if spacy_installed env then (Ok tt, env) else (Raise ModuleNotFoundError, env).

(** [spacy.prefer_gpu()] *)
Definition prefer_gpu : stateful unit :=
  fun env =>
    (Ok tt, {| spacy_installed := spacy_installed env;
               spacy_packages := spacy_packages env;
               gpu_preferred := true |}).

(** [spacy.load(name)] *)
Definition spacy_load (name : string) : stateful TokenSource :=
  fun env =>
    match spacy_packages env !! name with
    | Some nlp => (Ok nlp, env)
    | None => (Raise OSError, env)
    end.

(** ** The constructor *)

(** The argument [spacy_model: Union[str, object]], by the outcome of
    [isinstance(spacy_model, str)]. *)
Inductive model_arg : Type :=
| ModelName (name : string)
| ModelObject (nlp : TokenSource).

Module AspectExtractor.

(** The attributes of an [AspectExtractor]. *)
Record t : Type := mk {
  nlp : TokenSource;
  disabled_pipes : list string;
}.

(** The default of [spacy_disable_pipes]. *)
Definition DEFAULT_DISABLE_PIPES : list string := [].

(** The [if isinstance(spacy_model, str): ... else: ...] statement: the
    pipeline that [self.nlp] is bound to. *)
Definition pipeline_of (spacy_model : model_arg) : stateful TokenSource :=
  match spacy_model with
  | ModelName name =>
      let! _ := import_spacy in
      let! _ := when (str_endswith name "trf") prefer_gpu in
      spacy_load name
  | ModelObject nlp => ret nlp
  end.

(** [AspectExtractor(spacy_model, spacy_disable_pipes)] *)
Definition __init__ (spacy_model : model_arg) (spacy_disable_pipes : list string)
  : stateful t :=
  let! nlp := pipeline_of spacy_model in
  ret {| nlp := nlp; disabled_pipes := spacy_disable_pipes |}.

End AspectExtractor.

(** ** Specification *)

(** The environment after the constructor, from the environment before:
    only the GPU preference can change, and it is set exactly when spaCy
    was imported for a name that ends in "trf", whether or not the package
    is then found. *)
Definition env_after (env : environment) (spacy_model : model_arg) : environment :=
  {| spacy_installed := spacy_installed env;
     spacy_packages := spacy_packages env;
     gpu_preferred :=
       gpu_preferred env ||
       match spacy_model with
       | ModelName name => spacy_installed env && str_endswith name "trf"
       | ModelObject _ => false
       end |}.

(** What the constructor returns or raises, from the environment before. *)
Definition init_outcome (env : environment) (spacy_model : model_arg)
    (spacy_disable_pipes : list string) : result AspectExtractor.t :=
  match spacy_model with
  | ModelObject nlp => Ok (AspectExtractor.mk nlp spacy_disable_pipes)
  | ModelName name =>
      if spacy_installed env then
        match spacy_packages env !! name with
        | Some nlp => Ok (AspectExtractor.mk nlp spacy_disable_pipes)
        | None => Raise OSError
        end
      else Raise ModuleNotFoundError
  end.

(** ** Worked example *)

(** spaCy is installed with two packages; no GPU has been asked for. *)
Definition sample_env : environment :=
  {| spacy_installed := true;
     spacy_packages := {[ "en_blank" := blank_source; "en_blank_trf" := blank_source ]};
     gpu_preferred := false |}.

(** ** Lemmas *)

(** The constructor on a name, one case per way it ends. *)
Lemma init_name env name disable :
  AspectExtractor.__init__ (ModelName name) disable env =
  (init_outcome env (ModelName name) disable, env_after env (ModelName name)).
Proof.
  unfold AspectExtractor.__init__, AspectExtractor.pipeline_of, bind_st,
    import_spacy, when, init_outcome, env_after, spacy_load, prefer_gpu, ret.
  destruct env as [[] packages []]; cbn;
    destruct (str_endswith name "trf"); cbn;
    by destruct (packages !! name).
Qed.

Lemma init_object env nlp disable :
  AspectExtractor.__init__ (ModelObject nlp) disable env =
  (init_outcome env (ModelObject nlp) disable, env_after env (ModelObject nlp)).
Proof. by destruct env as [? ? []]. Qed.

Lemma init_run env spacy_model disable :
  AspectExtractor.__init__ spacy_model disable env =
  (init_outcome env spacy_model disable, env_after env spacy_model).
Proof. destruct spacy_model; [apply init_name|apply init_object]. Qed.

(** What the constructor raises. *)
Lemma init_outcome_raise env spacy_model disable e :
  init_outcome env spacy_model disable = Raise e <->
  exists name, spacy_model = ModelName name /\
    ((spacy_installed env = false /\ e = ModuleNotFoundError) \/
     (spacy_installed env = true /\ spacy_packages env !! name = None /\
      e = OSError)).
Proof.
  unfold init_outcome. destruct spacy_model as [name|nlp].
  - split.
    + intros H. exists name. split; [done|].
      destruct (spacy_installed env), (spacy_packages env !! name);
        simplify_eq; [right|left|left]; done.
    + intros (n & [= <-] & [[Hi ->]|(Hi & Hp & ->)]); by rewrite Hi, ?Hp.
  - split; [done|]. by intros (? & ? & _).
Qed.

(** What the constructor returns: the pipeline given or loaded, with the
    list of pipes to disable. *)
Lemma init_outcome_Ok env spacy_model disable self :
  init_outcome env spacy_model disable = Ok self <->
  exists nlp, self = AspectExtractor.mk nlp disable /\
    match spacy_model with
    | ModelName name =>
        spacy_installed env = true /\ spacy_packages env !! name = Some nlp
    | ModelObject nlp' => nlp' = nlp
    end.
Proof.
  unfold init_outcome. destruct spacy_model as [name|nlp'].
  - destruct (spacy_installed env), (spacy_packages env !! name) as [nlp|];
      split; try done; try (by intros (? & _ & ? & ?)).
    + intros [= <-]. by exists nlp.
    + by intros (? & -> & _ & [= ->]).
  - split; [intros [= <-]; by exists nlp'|by intros (? & -> & ->)].
Qed.

(** ** Theorems on the constructor *)

(** C21. The constructor computes its specification.  For each argument
    and each environment, what the monadic code returns or raises is
    [init_outcome], and the environment it leaves is [env_after]: a loaded
    pipeline is stored as it is; a name needs spaCy and the package; only
    the GPU preference changes, and it is set for a name that ends in
    "trf" before the package is looked for. *)
Theorem init_refines (env : environment) (spacy_model : model_arg)
    (disable : list string) :
  AspectExtractor.__init__ spacy_model disable env =
  (init_outcome env spacy_model disable, env_after env spacy_model).
Proof. apply init_run. Qed.

(** C25. The constructor raises only when it is given a name, and then in
    two cases: [ModuleNotFoundError] when spaCy cannot be imported,
    [OSError] when spaCy has no package of that name. *)
Theorem init_raises (env : environment) (spacy_model : model_arg)
    (disable : list string) (e : exn) :
  (AspectExtractor.__init__ spacy_model disable env).1 = Raise e <->
  exists name, spacy_model = ModelName name /\
    ((spacy_installed env = false /\ e = ModuleNotFoundError) \/
     (spacy_installed env = true /\ spacy_packages env !! name = None /\
      e = OSError)).
Proof. rewrite init_run. apply init_outcome_raise. Qed.

(** C28. The GPU preference survives a failed load: for a name that ends in
    "trf" and has no package, the constructor raises [OSError] and leaves
    the environment with the GPU preferred. *)
Theorem init_gpu_before_load (env : environment) (name : string)
    (disable : list string) :
  spacy_installed env = true ->
  str_endswith name "trf" = true ->
  spacy_packages env !! name = None ->
  (AspectExtractor.__init__ (ModelName name) disable env).1 = Raise OSError /\
  gpu_preferred (AspectExtractor.__init__ (ModelName name) disable env).2 = true.
Proof.
  intros Hi Ht Hp. rewrite init_run. cbn. rewrite Hi, Ht, Hp.
  split; [done|apply orb_true_r].
Qed.

Lemma init_gpu_before_load_witness :
  (AspectExtractor.__init__ (ModelName "en_core_web_trf") [] sample_env).1
    = Raise OSError /\
  gpu_preferred
    (AspectExtractor.__init__ (ModelName "en_core_web_trf") [] sample_env).2 = true.
Proof. by apply init_gpu_before_load. Defined.

(** A package by its name, and the same pipeline as an object: the same
    extractor, and a different environment only for the GPU. *)
Example init_by_name_or_object :
  (AspectExtractor.__init__ (ModelName "en_blank_trf") ["ner"] sample_env).1 =
  (AspectExtractor.__init__ (ModelObject blank_source) ["ner"] sample_env).1 /\
  gpu_preferred
    (AspectExtractor.__init__ (ModelName "en_blank_trf") ["ner"] sample_env).2 = true /\
  (AspectExtractor.__init__ (ModelObject blank_source) ["ner"] sample_env).2 = sample_env.
Proof. by vm_compute. Qed.
