(* ===== verification/Pipeline.v ===== *)
(** * The extraction pipeline: [AspectExtractor.__call__]

    [__call__] hands the texts to the token source, and for each document
    runs the scanner, the merger, and then either the placeholder
    substitution (no aspect found) or the disambiguator.  The token source
    is an interface ([TokenSource]): the theorems on [__call__] are proved
    from its contract.  The file ends with the composition of the
    constructor and the call, the exception that aborts a batch, and what
    the consumers receive. *)

From stdpp Require Import prelude strings list_numbers gmap.
From S2P Require Import Prelude Spacy AspectSpan Lexicon ChunkReducer.
From S2P Require Import SentenceScanner ChunkMerger Disambiguator.
From S2P Require Import DisambiguatorLog ContextGrowth Settle Reference Extractor.

#[local] Open Scope Z_scope.

(** ** One document *)

(** [Aspect(doc, token.i, token.i + 1)] *)
Definition placeholder (doc : Doc) (token : Token.t) : Aspect.t :=
  Aspect.__init__ doc (Token.i token) (Token.i token + 1) None None.

(** The list comprehension of the substitution branch. *)
Definition substitute (doc : Doc) : list Aspect.t :=
  placeholder doc <$>
    filter (fun token => Token.lower_ token = NOUN_SUBSTITUTE) doc.

(** The body of the loop over the documents: the aspects of [doc] and the
    warnings logged for it. *)
Definition extract_doc (doc : Doc) : result (list Aspect.t * list warning) :=
  let* aspects := scan doc in
  let* aspects := merge doc aspects in
  if py_len aspects =? 0 then Ok (substitute doc, [])
  else
    let* st := disambiguate expand_fuel doc aspects in
    Ok (d_aspects st, d_log st).

(** ** The batch *)

(** [aspects_list] and the log. *)
Record call_state : Type := mk_call {
  aspects_list : list (list Aspect.t);
  call_log : list warning;
}.

Definition call_step (st : call_state) (doc : Doc) : result call_state :=
  let* (aspects, warnings) := extract_doc doc in
  Ok {| aspects_list := aspects_list st ++ [aspects];
        call_log := call_log st ++ warnings |}.

(** [self(texts)]: the documents, their aspects, and the warnings logged. *)
Definition __call__ (self : AspectExtractor.t) (texts : list string)
  : result (list Doc * list (list Aspect.t) * list warning) :=
  let docs := @nlp_pipe (AspectExtractor.nlp self) texts
                (AspectExtractor.disabled_pipes self) in
  let* st := for_each call_step docs {| aspects_list := []; call_log := [] |} in
  Ok (docs, aspects_list st, call_log st).

(** How the aspects of a document end: placeholders, or ranked aspects. *)
Definition outcome (doc : Doc) (l : list Aspect.t) (log : list warning) : Prop :=
  (l = substitute doc /\ log = []) \/ (l <> [] /\ ranked l).

(** What the pipeline promises for one document, from the contracts of
    its stages: the scanner's aspects meet [scan_spec], in order; they are
    merged as [merge_spec] says; then either nothing is left and the
    placeholders are returned, or the merged aspects are returned widened,
    ranked by their ordinals, with a log of justified warnings. *)
Definition extract_spec (doc : Doc) (l : list Aspect.t) (log : list warning)
  : Prop :=
  exists found,
    scan_spec doc found /\ contexts_ordered 0 found /\
    ((merge_spec doc found = [] /\ l = substitute doc /\ log = []) \/
     (merge_spec doc found <> [] /\ Forall2 widened (merge_spec doc found) l /\
      ranked l /\ Forall (justified doc l) log)).

(** What the pipeline computes from the aspects [found] that the scanner
    returns, by the references of the merger and of the disambiguator. *)
Definition extract_ref (doc : Doc) (found : list Aspect.t)
  : list Aspect.t * list warning :=
  match merge_spec doc found with
  | [] => (substitute doc, [])
  | merged =>
      let st := disambiguate_ref doc merged in (d_aspects st, d_log st)
  end.

(** ** Worked examples *)

(** "Overall it was fine" *)
Definition overall_doc : Doc :=
  mk_doc [Token.mk "Overall" "overall" "ADV" " " 0; tok "it" "PRON" " " 1;
          tok "was" "AUX" " " 2; tok "fine" "ADJ" "" 3].

(** "overall , overall" *)
Definition overall2_doc : Doc :=
  mk_doc [tok "overall" "ADV" " " 0; tok "," "PUNCT" " " 1; tok "overall" "ADV" "" 2].

(** "plot": a document that breaks the token contract, the left edge of
    its noun being an index that [doc[...]] cannot resolve. *)
Definition dangling_doc : Doc :=
  mk_doc [tok "plot" "NOUN" "" (-2)].

(** ** Lemmas *)

Section PipelineLemmas.
Implicit Types (doc toks : Doc) (l : list Aspect.t) (k : Z).

(** The placeholders of a run of tokens numbered from [k]. *)
Lemma placeholders_valid doc toks k :
  0 <= k -> k + py_len toks <= py_len doc ->
  (forall (n : nat) tok, toks !! n = Some tok -> Token.i tok = k + Z.of_nat n) ->
  Forall (fun a => aspect_of doc a /\ fresh a)
    (placeholder doc <$> filter (fun t => Token.lower_ t = NOUN_SUBSTITUTE) toks) /\
  contexts_ordered k
    (placeholder doc <$> filter (fun t => Token.lower_ t = NOUN_SUBSTITUTE) toks).
Proof.
  revert k. induction toks as [|t toks IH]; intros k Hk Hlen Hnum; [done|].
  rewrite py_len_cons in Hlen. pose proof (py_len_nonneg toks).
  destruct (IH (k + 1)) as [Hall Hord]; [lia..| |].
  { intros n tok Hn. rewrite (Hnum (S n) tok Hn). lia. }
  pose proof (Hnum 0%nat t eq_refl) as Hi. rewrite Z.add_0_r in Hi.
  rewrite filter_cons. case_decide; cbn [fmap list_fmap].
  - split.
    + constructor; [|done]. unfold placeholder. rewrite Hi.
      split; [|done]. split; [apply init_inv_default; lia|done].
    + split; [cbn; lia|]. cbn. by rewrite Hi.
  - split; [done|]. eapply chain_mono; [|done]. lia.
Qed.

Lemma substitute_valid doc :
  wf_doc doc ->
  Forall (fun a => aspect_of doc a /\ fresh a) (substitute doc) /\
  contexts_ordered 0 (substitute doc).
Proof.
  intros Hwf. apply placeholders_valid; [done|lia|].
  intros n tok Hn. by destruct (Hwf n tok Hn).
Qed.

(** Valid, fresh aspects: the parts the stages need. *)
Lemma valid_fresh_split doc l :
  Forall (fun a => aspect_of doc a /\ fresh a) l ->
  Forall (aspect_of doc) l /\ Forall Aspect.inv l /\
  Forall (fun a => Aspect.ordinal a = 0) l.
Proof.
  intros Hl. repeat split; (eapply Forall_impl; [done|]);
    by intros a [[? ?] (? & ? & ?)].
Qed.

(** One document: the pipeline returns valid, ordered aspects. *)
Lemma extract_doc_run doc :
  wf_doc doc ->
  exists l log, extract_doc doc = Ok (l, log) /\
    Forall (aspect_of doc) l /\ reduced_ordered 0 l /\ outcome doc l log.
Proof.
  intros Hwf. unfold extract_doc.
  destruct (scan_run doc Hwf) as (l1 & -> & Hall1 & Hord1). cbn [bind].
  assert (Forall (aspect_of doc) l1) as Hv1
    by (eapply Forall_impl; [done|]; by intros a [? ?]).
  rewrite merge_run by done. cbn [bind].
  pose proof (merge_spec_valid doc l1 Hall1) as Hall2.
  pose proof (merge_spec_chain doc Aspect.context_start Aspect.context_stop
                0 l1 (fun _ _ => eq_refl) (fun _ _ => eq_refl) Hord1) as Hord2.
  set (l2 := merge_spec doc l1) in *. pose proof (valid_fresh_split doc) as Hsplit.
  destruct (Z.eqb_spec (py_len l2) 0) as [Hlen|Hlen].
  - destruct (substitute_valid doc Hwf) as [Hs Hso].
    destruct (Hsplit _ Hs) as (? & ? & _).
    eexists _, _. split; [done|]. split; [done|].
    split; [by apply contexts_reduced_ordered|by left].
  - destruct (Hsplit _ Hall2) as (Hv2 & Hi2 & H02).
    destruct (disambiguate_ranked doc l2 Hv2 H02) as (st & -> & [Hv3 Hw] & Hrank).
    cbn [bind]. eexists _, _. split; [done|]. split; [done|]. split.
    + eapply widened_reduced_ordered; [done|]. by apply contexts_reduced_ordered.
    + right. split; [|done]. intros Hnil. rewrite Hnil in Hw.
      apply Forall2_nil_inv_r in Hw. by rewrite Hw in Hlen.
Qed.

(** The stages a result of the pipeline went through. *)
Lemma extract_doc_stages doc l log :
  wf_doc doc -> extract_doc doc = Ok (l, log) ->
  exists found,
    scan doc = Ok found /\
    (l = substitute doc \/
     exists st, disambiguate expand_fuel doc (merge_spec doc found) = Ok st /\
                l = d_aspects st).
Proof.
  intros Hwf. unfold extract_doc.
  destruct (scan_run doc Hwf) as (l0 & Hscan & Hall0 & _).
  destruct (valid_fresh_split doc l0 Hall0) as (Hv0 & _ & _).
  rewrite Hscan. cbn [bind]. rewrite merge_run by done. cbn [bind].
  intros Hrun. exists l0. split; [done|].
  destruct (py_len (merge_spec doc l0) =? 0); [left; congruence|right].
  apply bind_Ok_inv in Hrun as (st & Hst & [= <- _]). by exists st.
Qed.

(** One document: the result meets the specification of the pipeline. *)
Lemma extract_doc_meets_spec doc :
  wf_doc doc ->
  exists l log, extract_doc doc = Ok (l, log) /\ extract_spec doc l log.
Proof.
  intros Hwf. unfold extract_doc.
  destruct (scan_run doc Hwf) as (l0 & Hscan & Hall0 & Hord0).
  pose proof (scan_refines doc Hwf l0 Hscan) as Hspec.
  destruct (valid_fresh_split doc l0 Hall0) as (Hv0 & _ & _).
  rewrite Hscan. cbn [bind]. rewrite merge_run by done. cbn [bind].
  destruct (valid_fresh_split doc _ (merge_spec_valid doc l0 Hall0))
    as (Hv1 & _ & H01).
  destruct (Z.eqb_spec (py_len (merge_spec doc l0)) 0) as [Hlen|Hlen].
  - eexists _, _. split; [done|]. exists l0. split; [done|]. split; [done|].
    left. split; [|done]. apply length_zero_iff_nil. unfold py_len in Hlen. lia.
  - destruct (disambiguate_ranked doc _ Hv1 H01) as (st & Hrun & [_ Hw] & Hrank).
    rewrite Hrun. cbn [bind]. eexists _, _. split; [done|].
    exists l0. split; [done|]. split; [done|]. right.
    split; [intros Hnil; by rewrite Hnil in Hlen|]. split; [done|].
    split; [done|]. by eapply disambiguate_log.
Qed.

(** One document: the result is the one of the references. *)
Lemma extract_doc_ref doc found :
  wf_doc doc -> scan doc = Ok found ->
  extract_doc doc = Ok (extract_ref doc found).
Proof.
  intros Hwf Hscan. unfold extract_doc, extract_ref. rewrite Hscan. cbn [bind].
  destruct (scan_run doc Hwf) as (l0 & Hscan' & Hall0 & _).
  assert (l0 = found) as -> by congruence.
  destruct (valid_fresh_split doc found Hall0) as (Hv0 & _ & _).
  rewrite merge_run by done. cbn [bind].
  destruct (valid_fresh_split doc _ (merge_spec_valid doc found Hall0))
    as (_ & Hi1 & _).
  destruct (merge_spec doc found) as [|a merged]; [done|].
  rewrite py_len_cons. pose proof (py_len_nonneg merged).
  destruct (Z.eqb_spec (py_len merged + 1) 0); [lia|].
  by rewrite (disambiguate_pairs doc expand_fuel (a :: merged))
    by (done || apply expand_fuel_enough).
Qed.

(** The loop over the documents appends one list of aspects per document,
    each computed from that document alone, and the warnings of the
    documents in their order. *)
Lemma call_loop docs st :
  Forall wf_doc docs ->
  exists lws,
    for_each call_step docs st =
      Ok {| aspects_list := aspects_list st ++ lws.*1;
            call_log := call_log st ++ concat lws.*2 |} /\
    Forall2 (fun doc lw => extract_doc doc = Ok lw) docs lws.
Proof.
  intros Hwf. revert st. induction Hwf as [|doc docs Hdoc _ IH]; intros st.
  - exists []. cbn. rewrite !app_nil_r. by destruct st.
  - destruct (extract_doc_run doc Hdoc) as (l & w & Hrun & _).
    cbn [for_each]. unfold call_step at 1. rewrite Hrun. cbn [bind].
    destruct (IH {| aspects_list := aspects_list st ++ [l];
                    call_log := call_log st ++ w |}) as (lws & -> & Hall).
    exists ((l, w) :: lws). cbn. rewrite <- !app_assoc.
    split; [done|]. by constructor.
Qed.

(** A document on which the pipeline raises ends the loop: the exception
    leaves the call, and the aspects found so far are lost with it. *)
Lemma call_loop_raise pre doc post st e :
  Forall wf_doc pre -> extract_doc doc = Raise e ->
  for_each call_step (pre ++ doc :: post) st = Raise e.
Proof.
  intros Hpre Hdoc. rewrite for_each_app.
  destruct (call_loop pre st Hpre) as (lws & -> & _). cbn [bind for_each].
  unfold call_step at 1. by rewrite Hdoc.
Qed.

(** What a call returns, from the results of its documents. *)
Lemma call_run (self : AspectExtractor.t) texts :
  exists lws,
    __call__ self texts =
      Ok (@nlp_pipe (AspectExtractor.nlp self) texts
            (AspectExtractor.disabled_pipes self), lws.*1, concat lws.*2) /\
    Forall2 (fun doc lw => extract_doc doc = Ok lw)
      (@nlp_pipe (AspectExtractor.nlp self) texts
         (AspectExtractor.disabled_pipes self)) lws.
Proof.
  unfold __call__.
  destruct (call_loop (@nlp_pipe (AspectExtractor.nlp self) texts
                         (AspectExtractor.disabled_pipes self))
              {| aspects_list := []; call_log := [] |})
    as (lws & -> & Hall); [apply nlp_pipe_wf|].
  by exists lws.
Qed.

End PipelineLemmas.

(** ** Theorems on the pipeline *)

(** C1. The pipeline implements its specification.  On a document that
    honours the token contract, [extract_doc] returns, and its result is
    what the contracts of the stages prescribe: the aspects the scanner
    must find, merged as the reference merger says, and then either the
    placeholders, or those aspects widened, ranked by their ordinals, with
    a log in which every warning is justified. *)
Theorem extract_doc_refines (doc : Doc) :
  wf_doc doc ->
  exists l log, extract_doc doc = Ok (l, log) /\ extract_spec doc l log.
Proof. apply extract_doc_meets_spec. Qed.

Lemma extract_doc_refines_witness :
  exists l log, extract_doc twice_doc = Ok (l, log) /\ extract_spec twice_doc l log.
Proof. apply extract_doc_refines. apply wf_docb_spec. reflexivity. Defined.

(** The pipeline computes its reference.  On a document that honours
    the token contract, with [found] the aspects that the specification of
    the scanner determines, [extract_doc] returns, and it returns exactly
    [extract_ref]: the placeholders when the reference merger leaves
    nothing, and otherwise the aspects and the log that the reference
    disambiguator computes from the merged aspects.  No stage raises and
    no loop runs out of fuel. *)
Theorem extract_doc_exact (doc : Doc) (found : list Aspect.t) :
  wf_doc doc -> scan_result doc found ->
  extract_doc doc = Ok (extract_ref doc found).
Proof.
  intros Hwf Hfound. apply extract_doc_ref; [done|].
  destruct (scan_result_run doc Hwf) as (l & Hrun & Hres).
  by rewrite (scan_result_unique doc Hwf found l).
Qed.

Lemma extract_doc_exact_witness :
  extract_doc acting_doc =
  Ok (extract_ref acting_doc
        [Aspect.__init__ acting_doc 1 2 (Some 0) (Some 2);
         Aspect.__init__ acting_doc 4 5 (Some 3) (Some 5)]).
Proof.
  apply extract_doc_exact; [apply wf_docb_spec; reflexivity|].
  apply scan_result_intro; [apply wf_docb_spec|]; reflexivity.
Defined.

(** No aspect without text is returned: when every token of the
    document has text, every aspect of the result has a reduced text that
    is not the empty string. *)
Theorem extract_doc_text_nonempty (doc : Doc) (l : list Aspect.t)
    (log : list warning) :
  wf_doc doc ->
  Forall (fun t => Token.text t <> EmptyString) doc ->
  extract_doc doc = Ok (l, log) ->
  Forall (fun a => Aspect.text a <> EmptyString) l.
Proof.
  intros Hwf Htext Hrun.
  destruct (extract_doc_run doc Hwf) as (l' & log' & Hrun' & Hall & _).
  assert (l' = l) as -> by congruence.
  eapply Forall_impl; [done|]. intros a. by apply aspect_text_nonempty.
Qed.

Lemma extract_doc_text_nonempty_witness :
  Forall (fun a => Aspect.text a <> EmptyString) (d_aspects twice_final).
Proof.
  apply (extract_doc_text_nonempty twice_doc _ []); [apply wf_docb_spec| |];
    [reflexivity| |reflexivity].
  repeat constructor; by vm_compute.
Defined.

(** On a document that honours the token-source contract the pipeline
    of one document returns: none of its stages raises and the [while]
    loop has enough fuel. *)
Theorem extract_doc_total (doc : Doc) :
  wf_doc doc -> exists l log, extract_doc doc = Ok (l, log).
Proof. intros Hwf. destruct (extract_doc_run doc Hwf) as (l & log & ? & _). eauto. Qed.

Lemma extract_doc_total_witness :
  exists l log, extract_doc twice_doc = Ok (l, log).
Proof. apply extract_doc_total. apply wf_docb_spec. reflexivity. Defined.

(** C4. The final aspects of a document satisfy the data-model invariants:
    each has a non-empty reduced slice inside its context slice inside the
    document, at most 2 left and 3 right expansions, and the reduced slices
    are in left-to-right order without overlap. *)
Theorem extract_doc_valid (doc : Doc) (l : list Aspect.t) (log : list warning) :
  wf_doc doc -> extract_doc doc = Ok (l, log) ->
  Forall (fun a => Aspect.inv a /\ Aspect.doc a = doc) l /\ reduced_ordered 0 l.
Proof.
  intros Hwf Hrun.
  destruct (extract_doc_run doc Hwf) as (l' & log' & Hrun' & Hall & Hord & _).
  by assert (l' = l) as -> by congruence.
Qed.

Lemma extract_doc_valid_witness :
  Forall (fun a => Aspect.inv a /\ Aspect.doc a = twice_doc) (d_aspects twice_final) /\
  reduced_ordered 0 (d_aspects twice_final).
Proof.
  apply (extract_doc_valid twice_doc _ []); [apply wf_docb_spec|]; reflexivity.
Defined.

(** The aspects of a document are either the placeholders, with nothing
    logged, or a non-empty list in which every ordinal is the rank of its
    aspect among the aspects of the same reduced text. *)
Theorem extract_doc_outcome (doc : Doc) (l : list Aspect.t) (log : list warning) :
  wf_doc doc -> extract_doc doc = Ok (l, log) -> outcome doc l log.
Proof.
  intros Hwf Hrun.
  destruct (extract_doc_run doc Hwf) as (l' & log' & Hrun' & _ & _ & Hout).
  by assert ((l', log') = (l, log)) as [= -> ->] by congruence.
Qed.

Lemma extract_doc_outcome_witness :
  outcome twice_doc (d_aspects twice_final) [].
Proof.
  apply extract_doc_outcome; [apply wf_docb_spec|]; reflexivity.
Defined.

(** C27. The context of an aspect holds the aspect: for every aspect the
    pipeline returns, the reduced text occurs in the context text, as
    the Python test [a.text in a.context] would find. *)
Theorem extract_doc_context_contains_text (doc : Doc) (l : list Aspect.t)
    (log : list warning) :
  wf_doc doc -> extract_doc doc = Ok (l, log) ->
  Forall (fun a => str_contains (Aspect.text a) (Aspect.context a) = true) l.
Proof.
  intros Hwf Hrun.
  destruct (extract_doc_run doc Hwf) as (l' & log' & Hrun' & Hall & _).
  assert (l' = l) as -> by congruence.
  eapply Forall_impl; [done|]. intros a [? _]. by apply context_contains_text.
Qed.

Lemma extract_doc_context_contains_text_witness :
  Forall (fun a => str_contains (Aspect.text a) (Aspect.context a) = true)
    (d_aspects twice_final).
Proof.
  apply (extract_doc_context_contains_text twice_doc _ []);
    [apply wf_docb_spec|]; reflexivity.
Defined.

(** For every token source that honours its contract, a call on a
    batch of texts returns.  The documents are those the source makes of
    the texts with the pipes disabled at construction; there is one list of
    aspects per text, in order; the aspects and the warnings of a document
    are those the pipeline computes from that document alone, and they
    meet its specification; the log holds the warnings of the documents in
    their order. *)
Theorem call_returns (self : AspectExtractor.t) (texts : list string) :
  exists lws,
    __call__ self texts =
      Ok (@nlp_pipe (AspectExtractor.nlp self) texts
            (AspectExtractor.disabled_pipes self), lws.*1, concat lws.*2) /\
    length lws = length texts /\
    Forall2 (fun doc lw => extract_doc doc = Ok lw /\ extract_spec doc lw.1 lw.2)
      (@nlp_pipe (AspectExtractor.nlp self) texts
         (AspectExtractor.disabled_pipes self)) lws.
Proof.
  destruct (call_run self texts) as (lws & Hrun & Hall). exists lws.
  split; [done|]. split.
  { by rewrite <- (Forall2_length _ _ _ Hall), nlp_pipe_length. }
  pose proof (@nlp_pipe_wf (AspectExtractor.nlp self) texts
                (AspectExtractor.disabled_pipes self)) as Hwf.
  eapply Forall2_impl; [by apply Forall2_and_l|].
  intros doc [l w] [Hdoc Hwfd]. split; [done|].
  destruct (extract_doc_meets_spec doc Hwfd) as (l' & w' & ? & ?).
  by assert ((l', w') = (l, w)) as [= -> ->] by congruence.
Qed.

(** A batch of three documents of which the second breaks the token
    contract: the exception of the second leaves the loop, and the
    aspects of the first are lost with it. *)
Example batch_aborts_dangling :
  extract_doc dangling_doc = Raise IndexError /\
  for_each call_step [twice_doc; dangling_doc; overall_doc]
    {| aspects_list := []; call_log := [] |} = Raise IndexError.
Proof.
  split; [reflexivity|]. apply (call_loop_raise [twice_doc]); [|reflexivity].
  apply Forall_singleton, wf_docb_spec. reflexivity.
Qed.

(** Construction and call compose.  An extractor that the constructor
    returns, for a pipeline given as an object or loaded by its name,
    answers every batch: the call returns one list of aspects per text,
    and the documents are those the stored pipeline makes of the texts
    with the pipes that were named at construction disabled. *)
Theorem init_then_call (env env' : environment) (spacy_model : model_arg)
    (disable : list string) (self : AspectExtractor.t) (texts : list string) :
  AspectExtractor.__init__ spacy_model disable env = (Ok self, env') ->
  exists lws,
    __call__ self texts =
      Ok (@nlp_pipe (AspectExtractor.nlp self) texts disable,
          lws.*1, concat lws.*2) /\
    length lws = length texts /\
    match spacy_model with
    | ModelName name => spacy_packages env !! name = Some (AspectExtractor.nlp self)
    | ModelObject nlp => AspectExtractor.nlp self = nlp
    end.
Proof.
  rewrite init_run. intros [= (nlp & -> & Hnlp)%init_outcome_Ok _].
  destruct (call_run (AspectExtractor.mk nlp disable) texts) as (lws & Hrun & Hall).
  exists lws. split; [done|]. split.
  - by rewrite <- (Forall2_length _ _ _ Hall), nlp_pipe_length.
  - destruct spacy_model; [by destruct Hnlp|done].
Qed.

Lemma init_then_call_witness :
  exists lws,
    __call__ (AspectExtractor.mk blank_source ["tagger"]) ["overall fine"] =
      Ok (@nlp_pipe blank_source ["overall fine"] ["tagger"],
          lws.*1, concat lws.*2) /\
    length lws = length ["overall fine"] /\
    spacy_packages sample_env !! "en_blank" = Some blank_source.
Proof.
  apply (init_then_call sample_env sample_env (ModelName "en_blank") ["tagger"]
           (AspectExtractor.mk blank_source ["tagger"]) ["overall fine"]).
  reflexivity.
Defined.

(** Every list of aspects a call returns satisfies the data-model
    invariants for its own document, whatever the other texts of the batch
    are. *)
Theorem call_valid (self : AspectExtractor.t) (texts : list string)
    (docs : list Doc) (ls : list (list Aspect.t)) (log : list warning) :
  __call__ self texts = Ok (docs, ls, log) ->
  Forall2 (fun doc l =>
             Forall (fun a => Aspect.inv a /\ Aspect.doc a = doc) l /\
             reduced_ordered 0 l) docs ls.
Proof.
  intros Hrun. destruct (call_run self texts) as (lws & Hrun' & Hall).
  rewrite Hrun' in Hrun. injection Hrun as <- <- <-.
  pose proof (@nlp_pipe_wf (AspectExtractor.nlp self) texts
                (AspectExtractor.disabled_pipes self)) as Hwf.
  apply Forall2_fmap_r. eapply Forall2_impl; [by apply Forall2_and_l|].
  intros doc [l w] [Hdoc Hwfd].
  destruct (extract_doc_run doc Hwfd) as (l' & w' & ? & ? & ? & _).
  by assert (l' = l) as -> by congruence.
Qed.

Lemma call_valid_witness :
  Forall2 (fun doc l =>
             Forall (fun a => Aspect.inv a /\ Aspect.doc a = doc) l /\
             reduced_ordered 0 l)
    [blank_doc "overall fine"]
    [[Aspect.__init__ (blank_doc "overall fine") 0 1 (Some 0) (Some 1);
      Aspect.__init__ (blank_doc "overall fine") 1 2 (Some 1) (Some 2)]].
Proof.
  apply (call_valid (AspectExtractor.mk blank_source []) ["overall fine"] _ _ []).
  reflexivity.
Defined.

(** "Overall it was fine": no noun and no whitelisted word, so the pipeline
    returns the single placeholder aspect "Overall". *)
Example extract_overall :
  exists a, extract_doc overall_doc = Ok ([a], []) /\
    Aspect.text a = "Overall" /\ Aspect.start a = 0 /\ Aspect.stop a = 1.
Proof. by eexists. Qed.

(** "overall , overall": the two placeholder aspects have the same
    text, the same context and the same ordinal 0, and nothing is logged:
    placeholders are not disambiguated. *)
Example extract_overall_twice :
  exists a1 a2, extract_doc overall2_doc = Ok ([a1; a2], []) /\
    Aspect.text a1 = Aspect.text a2 /\
    Aspect.context a1 = Aspect.context a2 /\
    Aspect.ordinal a1 = 0 /\ Aspect.ordinal a2 = 0.
Proof. by eexists _, _. Qed.

(** With the blank pipeline, which tags nothing, every token passes the
    whitelist test and the call returns each token of "The acting was
    Good" as an aspect. *)
Example call_blank_every_token :
  exists docs ls,
    __call__ (AspectExtractor.mk blank_source []) ["The acting was Good"] = Ok (docs, [ls], []) /\
    Aspect.text <$> ls = ["The"; "acting"; "was"; "Good"].
Proof. by eexists _, _. Qed.

(** ** What the consumers receive *)

(** The aspects come back without label and without category: the core
    builds every aspect it returns and never writes the two fields, which
    are the consumers' to set. *)
Theorem extract_doc_unlabelled (doc : Doc) (l : list Aspect.t)
    (log : list warning) :
  wf_doc doc -> extract_doc doc = Ok (l, log) -> Forall unlabelled l.
Proof.
  intros Hwf (found & Hscan%scan_unlabelled & Hl)%extract_doc_stages; [|done].
  destruct Hl as [->|(st & Hst & ->)].
  - apply Forall_fmap, Forall_true. intros t. apply init_unlabelled.
  - eapply widened_unlabelled; [|by apply merge_spec_unlabelled].
    by apply (disambiguate_related widened
                (fun a a' e He => proj1 (expand_expanded a a' e He))
                set_ordinal_widened expand_fuel doc).
Qed.

Lemma extract_doc_unlabelled_witness : Forall unlabelled (d_aspects twice_final).
Proof.
  apply (extract_doc_unlabelled twice_doc _ []); [apply wf_docb_spec|];
    reflexivity.
Defined.

(** ** Boundary inputs *)

(** A document without tokens has no aspect, and an empty batch gives
    empty lists and an empty log, whatever the token source. *)
Theorem call_empty_batch (self : AspectExtractor.t) :
  extract_doc [] = Ok ([], []) /\ __call__ self [] = Ok ([], [], []).
Proof.
  split; [done|]. unfold __call__.
  pose proof (@nlp_pipe_length (AspectExtractor.nlp self) []
                (AspectExtractor.disabled_pipes self)) as Hlen.
  apply length_zero_iff_nil in Hlen. by rewrite Hlen.
Qed.
