(* ===== verification/Identity.v ===== *)
(** * What tells two mentions apart: the reduced text and the ordinal

    A consumer reads [Aspect.text] to name an aspect and the ordinal to
    tell the mentions of one name apart.  This file shows that the
    disambiguation branch of [__call__] hands out the ordinals a consumer
    can rely on: the mentions of a text carry 0, 1, 2, ... in the order
    of the sentence, so no two aspects of a document have the same text
    and the same ordinal.  The substitution branch gives no such promise:
    every placeholder has ordinal 0. *)

From stdpp Require Import prelude strings list_numbers gmap.
From S2P Require Import Prelude Spacy AspectSpan Disambiguator Pipeline.

#[local] Open Scope Z_scope.

(** What a consumer sees of an aspect when it reads [text] and [ordinal]. *)
Definition identity (a : Aspect.t) : string * Z :=
  (Aspect.text a, Aspect.ordinal a).

(** The aspects of a list whose reduced text is [t], in their order. *)
Definition mentions (t : string) (l : list Aspect.t) : list Aspect.t :=
  filter (fun a => Aspect.text a = t) l.

(** The mentions of every text are numbered from 0 in their order. *)
Definition numbered (l : list Aspect.t) : Prop :=
  forall t, Aspect.ordinal <$> mentions t l =
            Z.of_nat <$> seq 0 (length (mentions t l)).

(** ** Lemmas *)

Section IdentityLemmas.
Implicit Types (a : Aspect.t) (l : list Aspect.t) (t : string) (m b : nat).

Lemma count_text_mentions l t :
  count_text l (length l) t = Z.of_nat (length (mentions t l)).
Proof. unfold count_text, mentions. by rewrite firstn_all. Qed.

Lemma count_text_app l a b t :
  (b <= length l)%nat -> count_text (l ++ [a]) b t = count_text l b t.
Proof. intros Hb. unfold count_text. by rewrite take_app_le. Qed.

(** A list that is ranked stays ranked without its last aspect. *)
Lemma ranked_app l a : ranked (l ++ [a]) -> ranked l.
Proof.
  intros Hr m a' Hm. pose proof (lookup_lt_Some _ _ _ Hm).
  rewrite <- (count_text_app l a) by lia.
  apply Hr. by apply lookup_app_l_Some.
Qed.

Lemma mentions_app l a t :
  mentions t (l ++ [a]) =
  mentions t l ++ (if decide (Aspect.text a = t) then [a] else []).
Proof.
  unfold mentions. by rewrite filter_app.
Qed.

(** The ordinals of a ranked list number the mentions of each text. *)
Lemma ranked_numbered l : ranked l -> numbered l.
Proof.
  induction l as [|a l IH] using rev_ind; intros Hr t; [done|].
  specialize (IH (ranked_app l a Hr) t). rewrite mentions_app.
  case_decide as Ht; [|by rewrite app_nil_r].
  rewrite fmap_app, length_app, IH. cbn [length fmap list_fmap].
  rewrite Nat.add_1_r, seq_S, fmap_app. cbn. do 2 f_equal.
  rewrite (Hr (length l) a) by by rewrite list_lookup_middle.
  by rewrite Ht, count_text_app, count_text_mentions.
Qed.

Lemma count_text_mono l b b' t :
  (b <= b')%nat -> count_text l b t <= count_text l b' t.
Proof.
  induction 1 as [|b' _ IH]; [done|]. etrans; [apply IH|].
  destruct (l !! b') as [a|] eqn:Hb.
  - rewrite (count_text_S l b' a t Hb). case_decide; lia.
  - apply lookup_ge_None in Hb. unfold count_text. by rewrite !take_ge by lia.
Qed.

(** In a ranked list a later mention of a text has a larger ordinal. *)
Lemma ranked_lt l (i j : nat) ai aj :
  ranked l -> l !! i = Some ai -> l !! j = Some aj -> (i < j)%nat ->
  Aspect.text ai = Aspect.text aj -> Aspect.ordinal ai < Aspect.ordinal aj.
Proof.
  intros Hr Hi Hj Hij Ht. rewrite (Hr i ai Hi), (Hr j aj Hj), <- Ht.
  pose proof (count_text_mono l (S i) j (Aspect.text ai) Hij) as Hle.
  rewrite (count_text_S l i ai _ Hi) in Hle. by case_decide; [lia|].
Qed.

(** No two aspects of a ranked list have the same text and ordinal. *)
Lemma ranked_identities l : ranked l -> NoDup (identity <$> l).
Proof.
  intros Hr. apply NoDup_alt. intros i j [t k] Hi Hj.
  apply list_lookup_fmap_Some in Hi as (ai & Hti & Hi).
  apply list_lookup_fmap_Some in Hj as (aj & Htj & Hj).
  injection Hti as -> ->. injection Htj as Ht Ho.
  destruct (Nat.lt_trichotomy i j) as [Hlt|[->|Hlt]]; [|done|].
  - pose proof (ranked_lt l i j ai aj Hr Hi Hj Hlt Ht). lia.
  - pose proof (ranked_lt l j i aj ai Hr Hj Hi Hlt (eq_sym Ht)). lia.
Qed.

End IdentityLemmas.

(** ** Theorems *)

(** C7. The ordinals tell the mentions of a text apart.  A well-formed
    document for which the pipeline does not fall back to the
    placeholders comes back with aspects whose ordinals number the
    mentions of every reduced text from 0 in the order of the sentence;
    so no two of its aspects have the same text and the same ordinal. *)
Theorem extract_doc_identities (doc : Doc) (l : list Aspect.t)
    (log : list warning) :
  wf_doc doc -> extract_doc doc = Ok (l, log) -> l <> substitute doc ->
  numbered l /\ NoDup (identity <$> l).
Proof.
  intros Hwf Hrun Hsub.
  destruct (extract_doc_run doc Hwf) as (l' & log' & Hrun' & _ & _ & Hout).
  assert (l' = l) as -> by congruence.
  destruct Hout as [[-> _]|[_ Hr]]; [done|].
  split; [by apply ranked_numbered|by apply ranked_identities].
Qed.

Lemma extract_doc_identities_witness :
  numbered (d_aspects thrice_final) /\
  NoDup (identity <$> d_aspects thrice_final).
Proof.
  apply (extract_doc_identities thrice_doc _ (d_log thrice_final));
    [by apply wf_docb_spec|by vm_compute|by vm_compute].
Defined.

(** "plot , plot , plot": the three mentions are ("plot", 0), ("plot", 1)
    and ("plot", 2); in "overall , overall" both placeholders are
    ("overall", 0). *)
Example identities_plot_thrice :
  identity <$> d_aspects thrice_final = [("plot", 0); ("plot", 1); ("plot", 2)] /\
  (exists l, extract_doc overall2_doc = Ok (l, []) /\
     identity <$> l = [("overall", 0); ("overall", 0)]).
Proof. split; [by vm_compute|]. by eexists. Qed.
