(* ===== verification/Program.v ===== *)
(** * The extractor as a function

    The stages of [__call__] have references that are total functions:
    the scan by jumps, the merger as a right fold, the disambiguator as
    a left fold over the pairs with the [while] loop as a well-founded
    recursion.  [extract_fun] composes them, and [call_fun] maps it
    over the documents the token source returns.  This file proves that
    the program is this function.  On every document, well formed or
    not, the body of the loop over the documents returns what
    [extract_fun] computes or raises [IndexError]: no other exception
    leaves it and the fuel of the [while] loop never runs out.  On the
    documents of a token source it returns, so a call of the extractor is
    [call_fun].  The file ends with the substitution branch: when it is
    taken, and what it returns, by the positions of the placeholder
    word. *)

From stdpp Require Import prelude strings list_numbers gmap.
From S2P Require Import Prelude Outcomes Spacy AspectSpan Lexicon ChunkReducer.
From S2P Require Import SentenceScanner ScannerRef ChunkMerger Disambiguator.
From S2P Require Import Settle Reference Extractor Pipeline.

#[local] Open Scope Z_scope.

(** The aspects of a document and the warnings logged for it. *)
Definition extract_fun (doc : Doc) : list Aspect.t * list warning :=
  extract_ref doc (scan_ref doc).

(** The state of the loop over the documents after [doc]. *)
Definition step_fun (st : call_state) (doc : Doc) : call_state :=
  {| aspects_list := aspects_list st ++ [(extract_fun doc).1];
     call_log := call_log st ++ (extract_fun doc).2 |}.

(** [self(texts)]: the documents, one list of aspects for each, and the
    warnings of all in their order. *)
Definition call_fun (self : AspectExtractor.t) (texts : list string)
  : list Doc * list (list Aspect.t) * list warning :=
  let docs := @nlp_pipe (AspectExtractor.nlp self) texts
                (AspectExtractor.disabled_pipes self) in
  (docs, (fun doc => (extract_fun doc).1) <$> docs,
   docs ≫= (fun doc => (extract_fun doc).2)).

(** [token.lower_ == self.NOUN_SUBSTITUTE], of the token [doc[i]]. *)
Definition is_substitute (doc : Doc) (i : Z) : bool :=
  token_has (fun token => bool_decide (Token.lower_ token = NOUN_SUBSTITUTE)) doc i.

(** The list comprehension of the substitution branch by positions: a new
    single-token aspect for each position that holds the placeholder
    word. *)
Definition substitute_at (doc : Doc) : list Aspect.t :=
  (fun i => Aspect.__init__ doc i (i + 1) None None) <$>
    filter (fun i => is_substitute doc i) (py_range 0 (py_len doc)).

(** ** Lemmas *)

Section ProgramLemmas.
Implicit Types (doc : Doc) (docs : list Doc) (st : call_state).

Lemma fresh_counted (a : Aspect.t) : fresh a -> counted a.
Proof. intros (Hl & Hr & _). unfold counted. lia. Qed.

(** The aspects that reach the disambiguator are new, whatever the
    document. *)
Lemma merged_counted doc : Forall counted (merge_spec doc (scan_ref doc)).
Proof.
  apply merge_spec_Forall; [done|].
  eapply Forall_impl; [apply scan_jump_fresh|]. apply fresh_counted.
Qed.

(** One document, whatever it is. *)
Lemma extract_doc_yields doc : yields (extract_doc doc) (extract_fun doc).
Proof.
  unfold extract_doc, extract_fun, extract_ref.
  eapply outcome_bind; [apply scan_yields|].
  eapply outcome_bind; [apply merge_yields|]. cbn beta.
  pose proof (merged_counted doc) as Hall.
  destruct (merge_spec doc (scan_ref doc)) as [|a merged]; [by left|].
  rewrite py_len_cons. pose proof (py_len_nonneg merged).
  destruct (Z.eqb_spec (py_len merged + 1) 0); [lia|].
  eapply outcome_bind; [|by left].
  apply disambiguate_yields; [apply expand_fuel_enough|done].
Qed.

(** One document that honours the token contract. *)
Lemma extract_doc_returns doc :
  wf_doc doc -> extract_doc doc = Ok (extract_fun doc).
Proof. intros Hwf. apply extract_doc_ref; [done|]. by apply scan_run_ref. Qed.

(** The test of the comprehension at the position of a token. *)
Lemma is_substitute_middle (pre : Doc) (t : Token.t) (toks : Doc) :
  is_substitute (pre ++ t :: toks) (py_len pre) <->
  Token.lower_ t = NOUN_SUBSTITUTE.
Proof.
  unfold is_substitute. rewrite (token_has_Ok _ _ _ t) by apply py_index_middle.
  apply bool_decide_spec.
Qed.

(** The tokens of a document that honours the token contract know their
    positions, so the comprehension over the tokens is the one over the
    positions. *)
Lemma substitute_from doc (pre toks : Doc) :
  doc = pre ++ toks -> wf_doc doc ->
  placeholder doc <$> filter (fun t => Token.lower_ t = NOUN_SUBSTITUTE) toks =
  (fun i => Aspect.__init__ doc i (i + 1) None None) <$>
    filter (fun i => is_substitute doc i) (py_range (py_len pre) (py_len doc)).
Proof.
  revert pre. induction toks as [|t toks IH]; intros pre -> Hwf.
  { by rewrite app_nil_r, py_range_nil. }
  assert (Token.i t = py_len pre) as Hi.
  { by destruct (Hwf (length pre) t (list_lookup_middle _ _ _ _ eq_refl)). }
  pose proof (is_substitute_middle pre t toks) as Hmid.
  pose proof (py_len_nonneg toks).
  rewrite py_range_cons, !filter_cons by (rewrite py_len_app, py_len_cons; lia).
  specialize (IH (pre ++ [t])). rewrite py_len_snoc in IH.
  repeat case_decide; try tauto; cbn [fmap list_fmap]; unfold placeholder at 1;
    rewrite ?Hi; f_equal; apply IH; by rewrite <- ?app_assoc.
Qed.

Lemma substitute_positions doc : wf_doc doc -> substitute doc = substitute_at doc.
Proof. intros Hwf. by apply (substitute_from doc []). Qed.

(** A placeholder is compared by its own text and carries no number. *)
Lemma substitute_at_plain doc :
  Forall (fun a => Aspect.context a = Aspect.text a /\ Aspect.ordinal a = 0)
    (substitute_at doc).
Proof. by apply Forall_fmap, Forall_true. Qed.

(** When no token yields a candidate the function returns the
    placeholders. *)
Lemma extract_fun_placeholders doc :
  (forall i, 0 <= i < py_len doc -> candidate_ref doc i = None) ->
  extract_fun doc = (substitute doc, []).
Proof.
  intros Hnone. unfold extract_fun, extract_ref, scan_ref.
  rewrite (proj2 (scan_jump_nil doc _)); [done|]. intros i Hi. apply Hnone. lia.
Qed.

(** The fold of [step_fun] appends, for each document, its aspects and
    its warnings. *)
Lemma foldl_step_fun docs st :
  foldl step_fun st docs =
  {| aspects_list := aspects_list st ++ ((fun doc => (extract_fun doc).1) <$> docs);
     call_log := call_log st ++ (docs ≫= (fun doc => (extract_fun doc).2)) |}.
Proof.
  revert st. induction docs as [|doc docs IH]; intros st; cbn [foldl].
  - cbn. rewrite !app_nil_r. by destruct st.
  - rewrite IH. cbn. by rewrite <- !app_assoc.
Qed.

End ProgramLemmas.

(** The loop over the documents against the fold of [step_fun], for any
    relation that holds between [extract_doc] and [extract_fun] on the
    documents of the batch. *)
Section Batch.
Context (R : forall A : Type, result A -> A -> Prop) `{!Outcome R}.
Context (docs : list Doc).
Hypothesis Hdocs : forall doc, doc ∈ docs -> R _ (extract_doc doc) (extract_fun doc).

Lemma batch_outcome st : R _ (for_each call_step docs st) (foldl step_fun st docs).
Proof.
  apply (outcome_for_each R (fun _ => True)); [done|].
  intros s doc Hdoc _. split; [|done]. unfold call_step.
  eapply outcome_bind; [by apply Hdocs|].
  destruct (extract_fun doc) as [l w] eqn:Hfun. unfold step_fun.
  rewrite Hfun. apply outcome_ret.
Qed.

End Batch.

(** ** Theorems *)

(** C3. The body of the loop over the documents is a function of the
    document.  On every document, whether it honours the token contract
    or not, [extract_doc] returns what [extract_fun] computes, or it
    raises [IndexError]: nothing else is raised, and the fuel of the
    [while] loop does not run out.  On a document that honours the
    token contract it returns. *)
Theorem extract_doc_function (doc : Doc) :
  (extract_doc doc = Ok (extract_fun doc) \/ extract_doc doc = Raise IndexError) /\
  (wf_doc doc -> extract_doc doc = Ok (extract_fun doc)).
Proof. split; [apply extract_doc_yields|apply extract_doc_returns]. Qed.

Lemma extract_doc_function_witness :
  extract_doc twice_doc = Ok (extract_fun twice_doc).
Proof.
  apply (proj2 (extract_doc_function twice_doc)). by apply wf_docb_spec.
Defined.

(** C2. A call of the extractor is a function of the texts.  Whatever the
    token source and the texts, [__call__] returns, and it returns the
    documents of the source with, for each, the aspects [extract_fun]
    computes, and the warnings of all documents in their order. *)
Theorem call_function (self : AspectExtractor.t) (texts : list string) :
  __call__ self texts = Ok (call_fun self texts).
Proof.
  unfold __call__, call_fun.
  rewrite (batch_outcome (@returns) _ (fun doc Hdoc => extract_doc_returns doc
    (proj1 (Forall_forall _ _) (nlp_pipe_wf texts _) doc Hdoc))).
  cbn [bind]. by rewrite foldl_step_fun.
Qed.

(** A batch of any documents is processed as [step_fun] says, one
    document after the other, unless [IndexError] is raised. *)
Theorem batch_function (docs : list Doc) (st : call_state) :
  for_each call_step docs st = Ok (foldl step_fun st docs) \/
  for_each call_step docs st = Raise IndexError.
Proof. apply (batch_outcome (@yields)). intros. apply extract_doc_yields. Qed.

(** C29. The placeholder branch.  On a document that honours the token
    contract and in which no token yields a candidate (no noun with an
    accepted chunk, no whitelisted word), the pipeline returns, with
    nothing logged, one new single-token aspect for each position that
    holds the placeholder word, in the order of the positions, each as
    the constructor makes it: its context is its reduced slice and its
    ordinal is 0.  The disambiguator does not run, so two placeholders
    with the same text compare equal and no warning tells. *)
Theorem extract_doc_placeholders (doc : Doc) :
  wf_doc doc ->
  (forall i, 0 <= i < py_len doc -> candidate_ref doc i = None) ->
  extract_doc doc = Ok (substitute_at doc, []).
Proof.
  intros Hwf Hnone.
  by rewrite extract_doc_returns, extract_fun_placeholders, substitute_positions.
Qed.

Lemma extract_doc_placeholders_witness :
  extract_doc overall2_doc =
    Ok ([Aspect.__init__ overall2_doc 0 1 None None;
         Aspect.__init__ overall2_doc 2 3 None None], []).
Proof.
  apply (extract_doc_placeholders overall2_doc); [by apply wf_docb_spec|].
  intros i Hi. change (py_len overall2_doc) with 3 in Hi.
  assert (i = 0 \/ i = 1 \/ i = 2) as [->|[->| ->]] by lia; reflexivity.
Defined.

(** A left edge that is negative is not an error.  In "plot good twist"
    with left edge [-1] for "twist" the reads of the reducer wrap around
    the end of the document, the aspect "twist" gets the context start
    [-1], [min_pos] becomes negative and the scan is over: the pipeline
    returns "twist" alone, its context the one token that [doc[-1:3]]
    is, without an exception or a warning.  With the left edge 2 it
    returns "plot" and "twist". *)
Example negative_left_edge_hides_aspects :
  wf_docb wrapped_doc = false /\
  (exists a, extract_doc wrapped_doc = Ok ([a], []) /\
     Aspect.text a = "twist" /\ Aspect.context_start a = -1 /\
     jump 2 a = -2) /\
  (exists a b, extract_doc straight_doc = Ok ([a; b], []) /\
     Aspect.text a = "plot" /\ Aspect.text b = "twist").
Proof. split; [done|]. split; [by eexists|by eexists _, _]. Qed.

(** "the plot thickens", with a tagger that knows "plot": one aspect, no
    warning; with the left edge of the noun outside the document the
    function still has a value, and the code raises. *)
Example call_fun_plot :
  (Aspect.text <$> (extract_fun dangling_doc).1 = ["plot"] /\
   extract_doc dangling_doc = Raise IndexError) /\
  exists docs l,
    call_fun (AspectExtractor.mk (tagger_source ["plot"]) []) ["the plot thickens"] =
      (docs, [l], []) /\
    Aspect.text <$> l = ["plot"].
Proof. split; [split; by vm_compute|]. by eexists _, _. Qed.
