(* ===== verification/Failure.v ===== *)
(** * When the extractor raises

    [Program.v] shows that the body of the loop over the documents
    returns what [extract_fun] computes unless it raises [IndexError].
    This file says when it raises.  The reads of the merger and of the
    disambiguator stay inside the document whatever the tokens say; so
    do those of the reducer, unless the left edge of a noun lies more
    than the length of the document before its start, and then
    [doc[left_edge]] raises.  [visited] lists the tokens the scan does
    not skip, and [raises] says that one of them is such a noun.  The
    body of the loop is then known on every document: it raises
    [IndexError] when [raises] holds and returns [extract_fun]
    otherwise. *)

From Equations Require Import Equations.
From Equations.Prop Require Import Logic.
From stdpp Require Import prelude strings list_numbers gmap.
From S2P Require Import Prelude Outcomes Spacy AspectSpan Lexicon ChunkReducer.
From S2P Require Import ReducerRef SentenceScanner ScannerRef ChunkMerger.
From S2P Require Import Disambiguator Settle Reference Pipeline Program.

#[local] Open Scope Z_scope.

Unset Equations With Funext.

(** Token [i] is a noun whose left edge lies before the document, also
    when counted from its end: the call of the reducer for it reads
    [doc[left_edge]] and raises. *)
Definition dangling (doc : Doc) (i : Z) : bool :=
  token_has (fun word => in_POS_WHITELIST (Token.pos_ word)
                         && (Token.left_edge word <? - py_len doc)) doc i.

Section Visited.

(** The pattern that keeps the equation of an inspected value. *)
#[local] Notation "x 'eqn:' p" := (exist _ x p) (only parsing, at level 20).

(** The tokens from [k] down that the scan does not skip, as long as it
    does not raise. *)
Equations? visited (doc : Doc) (k : Z) : list Z
  by wf (Z.to_nat (k + 1)) lt :=
visited doc k with inspect (0 <=? k) := {
  | false eqn:_ => []
  | true eqn:Hk with inspect (candidate_ref doc k) := {
    | Some c eqn:_ => k :: visited doc (jump k c)
    | None eqn:_ => k :: visited doc (k - 1) } }.
Proof. all: apply Z.leb_le in Hk; unfold jump; lia. Qed.

End Visited.

(** The scan of [doc] raises: it visits a noun whose left edge
    dangles. *)
Definition raises (doc : Doc) : bool :=
  existsb (dangling doc) (visited doc (py_len doc - 1)).

(** What holds of the aspects of a document whatever its tokens say:
    the counters count, and the reads of [expand] stay inside. *)
Definition reachable (a : Aspect.t) : Prop :=
  counted a /\ Aspect.context_start a <= py_len (Aspect.doc a) /\
  0 <= Aspect.context_stop a.

(** The reduced slice of [a] ends at a token of [doc]. *)
Definition ends_inside (doc : Doc) (a : Aspect.t) : Prop :=
  Aspect.doc a = doc /\ 0 < Aspect.stop a <= py_len doc.

(** ** The reducer on every range that ends inside the document *)

Section ReducerInside.
Context (doc : Doc).
Implicit Types (start stop fs d i : Z) (l : list Z).

Lemma find_full_start_inside l d :
  (forall i, i ∈ l -> - py_len doc <= i < py_len doc) ->
  exists fs, find_full_start doc l d = Ok fs /\ (fs = d \/ fs ∈ l).
Proof.
  induction l as [|i l IH]; intros Hl; cbn [find_full_start]; [by eauto|].
  destruct (py_index_wraps doc i) as [t ->]; [apply Hl; by left|]. cbn [bind].
  destruct (starts_chunk t); [exists i; split; [done|right; by left]|].
  destruct IH as (fs & -> & Hfs); [intros; apply Hl; by right|].
  exists fs. split; [done|]. destruct Hfs; [by left|right; by right].
Qed.

Lemma find_reduced_start_inside stop fs l d :
  - py_len doc <= fs -> stop <= py_len doc ->
  (forall i, i ∈ l -> fs <= i < stop) ->
  is_ok (find_reduced_start doc stop fs l d).
Proof.
  intros Hfs Hstop. induction l as [|i l IH]; intros Hl;
    cbn [find_reduced_start]; [by eexists|].
  assert (fs <= i < stop) as Hi by (apply Hl; by left).
  destruct (py_index_wraps doc i) as [t ->]; [lia|]. cbn [bind].
  destruct (py_index_wraps doc fs) as [first Hfirst]; [lia|].
  assert (is_ok (find_reduced_start doc stop fs l d)) as Hrest.
  { apply IH. intros; apply Hl; by right. }
  assert (is_ok (if i =? stop - 1 then Ok None
                 else let* r := cut_after doc stop i in Ok (Some r))) as Hcut.
  { destruct (Z.eqb_spec i (stop - 1)); [by eexists|]. unfold cut_after.
    destruct (py_index_wraps doc (i + 1)) as [next ->]; [lia|].
    cbn [bind]. destruct (str_in _ JOINERS); by eexists. }
  unfold keeps_this_movie, and_then. rewrite Hfirst. cbn [bind].
  destruct (str_in (Token.lower_ t) MOVIE_SYNONYMS),
    (String.eqb (Token.lower_ first) "this"); cbn [bind];
    try (by eexists); by destruct (cuts_chunk t).
Qed.

(** On a range that starts at an index Python resolves and ends inside
    the document, the method returns. *)
Lemma reduce_inside start stop :
  - py_len doc <= start -> stop <= py_len doc ->
  _reduce_noun_chunk doc start stop = Ok (reduce_ref doc start stop).
Proof.
  intros Hstart Hstop.
  destruct (reduce_yields doc start stop) as [H|H]; [done|exfalso].
  revert H. unfold _reduce_noun_chunk.
  destruct (find_full_start_inside (py_range start stop) start)
    as (fs & -> & Hfs).
  { intros i Hi%elem_of_py_range. lia. }
  assert (- py_len doc <= fs) by (destruct Hfs as [->|?%elem_of_py_range]; lia).
  cbn [bind].
  destruct (find_reduced_start_inside stop fs
              (py_range_down (stop - 1) (fs - 1)) fs) as [r ->]; [done..| |].
  { intros i Hi%elem_of_py_range_down. lia. }
  cbn [bind]. by destruct r.
Qed.

(** On a range that starts before every index Python resolves, the
    first read raises. *)
Lemma reduce_before start stop :
  start < - py_len doc -> start < stop ->
  _reduce_noun_chunk doc start stop = Raise IndexError.
Proof.
  intros Hstart Hstop. unfold _reduce_noun_chunk.
  rewrite py_range_cons by done. cbn [find_full_start].
  by rewrite py_index_before.
Qed.

End ReducerInside.

(** ** The scan on every document *)

Section ScanEverywhere.
Context (doc : Doc).
Implicit Types (i k : Z) (c : Aspect.t) (st : scan_state) (l : list Z).

(** The body of the scanning loop at a token of the document: it raises
    for a noun whose left edge dangles, and returns the closed form for
    every other token. *)
Lemma candidate_exact i :
  0 <= i < py_len doc ->
  candidate doc i =
  if dangling doc i then Raise IndexError else Ok (candidate_ref doc i).
Proof.
  intros Hi. unfold candidate, candidate_ref, dangling, token_has.
  destruct (py_index_nonneg doc i) as (word & -> & _); [done|]. cbn [bind].
  destruct (in_POS_WHITELIST _); cbn [andb]; [|by destruct (str_in _ _)].
  destruct (Z.ltb_spec (Token.left_edge word) (- py_len doc)).
  - by rewrite reduce_before by lia.
  - by rewrite reduce_inside by lia.
Qed.

Lemma full_start_ref_cases l d :
  full_start_ref doc l d = d \/ full_start_ref doc l d ∈ l.
Proof.
  unfold full_start_ref. destruct (find _ l) as [fs|] eqn:Hfind; [|by left].
  right. apply find_some in Hfind as [Hin _]. by apply list_elem_of_In.
Qed.

(** The aspect of a token ends with the token, and [expand] can read
    around its context: a chunk whose left edge lies behind its noun has
    no text and is not accepted. *)
Lemma candidate_ref_within i c :
  0 <= i < py_len doc -> candidate_ref doc i = Some c ->
  ends_inside doc c /\ reachable c.
Proof.
  intros Hi. unfold candidate_ref, ends_inside, reachable, counted.
  destruct (py_index doc i) as [word| |]; [|done..].
  destruct (in_POS_WHITELIST _).
  2:{ destruct (str_in _ _); [|done]. intros [= <-]. cbn. repeat split; lia. }
  intros [Hc Htext]%accepted_Some. revert Hc Htext. unfold reduce_ref.
  set (le := Token.left_edge word).
  intros (rs & Hrs & ->)%fmap_Some Htext.
  assert (full_start_ref doc (py_range le (i + 1)) le <= py_len doc) as Hle.
  { destruct (full_start_ref_cases (py_range le (i + 1)) le)
      as [Hfs|Hfs%elem_of_py_range]; [|lia].
    destruct (decide (le <= py_len doc)) as [?|Hout]; [lia|].
    exfalso. apply Htext. rewrite Hfs, py_range_down_nil in Hrs by lia.
    injection Hrs as <-. unfold Aspect.text, slice_text.
    rewrite py_slice_empty; [done|cbn; lia]. }
  cbn. repeat split; lia.
Qed.

End ScanEverywhere.

Section ScanLoop.
Context (doc : Doc).
Implicit Types (i k : Z) (c : Aspect.t) (st : scan_state).

(** The recursion, unfolded once. *)
Lemma visited_eq k :
  visited doc k =
  if 0 <=? k then
    k :: visited doc match candidate_ref doc k with
                     | Some c => jump k c
                     | None => k - 1
                     end
  else [].
Proof. funelim (visited doc k); [by rewrite e|by rewrite Hk, e|by rewrite Hk, e]. Qed.

Lemma visited_neg k : k < 0 -> visited doc k = [].
Proof. intros Hk. rewrite visited_eq. by destruct (Z.leb_spec 0 k); [lia|]. Qed.

(** The loop from token [k] down raises when it visits a noun whose
    left edge dangles, and otherwise puts the aspects of the jumping
    scan before those it had. *)
Lemma scan_loop_exact (n : nat) k st :
  Z.to_nat (k + 1) = n -> k < py_len doc ->
  (let* st' := for_each (scan_step doc) (py_range_down k (-1)) st in
   Ok (aspects st')) =
  if existsb (dangling doc) (visited doc (Z.min k (min_pos st - 1)))
  then Raise IndexError
  else Ok (scan_jump doc (Z.min k (min_pos st - 1)) ++ aspects st).
Proof.
  revert k st. induction n as [|n IH]; intros k st Hn Hk.
  { by rewrite py_range_down_nil, visited_neg, scan_jump_neg by lia. }
  rewrite py_range_down_cons by lia. cbn [for_each].
  rewrite scan_step_candidate.
  destruct (Z.leb_spec (min_pos st) k) as [Hskip|Hvisit].
  { cbn [bind]. rewrite (IH (k - 1)) by lia. by rewrite !Z.min_r by lia. }
  rewrite (Z.min_l k), candidate_exact by lia.
  rewrite (visited_eq k), (scan_jump_eq doc k).
  destruct (Z.leb_spec 0 k); [|lia]. cbn [existsb].
  destruct (dangling doc k); [done|]. cbn [bind orb].
  rewrite (IH (k - 1)) by lia.
  destruct (candidate_ref doc k) as [c|]; cbn [pushed min_pos aspects].
  - fold (jump k c). by rewrite <- app_assoc.
  - by rewrite Z.min_l by lia.
Qed.

(** The scanner on every document. *)
Lemma scan_exact :
  scan doc = if raises doc then Raise IndexError else Ok (scan_ref doc).
Proof.
  unfold scan, raises, scan_ref.
  rewrite (scan_loop_exact _ (py_len doc - 1) _ eq_refl) by lia.
  cbn [min_pos aspects]. by rewrite Z.min_id, app_nil_r.
Qed.

(** The aspects of the jumping scan end at a token, and [expand] can
    read around them. *)
Lemma scan_jump_within k :
  k < py_len doc ->
  Forall (fun c => ends_inside doc c /\ reachable c) (scan_jump doc k).
Proof.
  funelim (scan_jump doc k); intros Hlen; [done| |auto with lia].
  assert (0 <= k) by by apply Z.leb_le.
  apply Forall_app. split; [apply H; unfold jump; lia|].
  apply Forall_singleton. by apply (candidate_ref_within doc k).
Qed.

End ScanLoop.

(** ** The merger and the disambiguator on every document *)

(** [expand] returns on every aspect whose context it can read
    around. *)
#[export] Instance reachable_expanding : Expanding (@returns) reachable.
Proof.
  split; [apply _| | | |].
  - intros a (_ & Hs & He).
    destruct (can_expand_left_total a Hs) as [l Hl].
    destruct (can_expand_right_total a He) as [r Hr].
    assert (is_ok (Aspect.expand a)) as [res Hres].
    { unfold Aspect.expand. rewrite Hl. cbn [bind]. destruct l; [by eexists|].
      rewrite Hr. cbn [bind]. destruct r; by eexists. }
    unfold returns. by rewrite Hres, (expand_grow a res Hres).
  - intros a (Hc & Hs & He). split; [by apply grow_counted|].
    rewrite grow_doc. pose proof (context_expand_left a) as [Hl1 Hl2].
    pose proof (context_expand_right a) as [Hr1 Hr2].
    unfold grow. repeat case_match; cbn [fst]; lia.
  - by intros a k (Hc & Hs & He).
  - intros a [Hc _]. by apply counted_budget.
Qed.

Section StagesEverywhere.
Context (doc : Doc).
Implicit Types (a b : Aspect.t) (l pre acc : list Aspect.t).

(** The test of the merger reads the last token of the left chunk. *)
Lemma merge_test_inside pre a b acc :
  ends_inside doc a ->
  merge_test doc (pre ++ a :: b :: acc) (py_len pre + 1) = Ok (joins doc a b).
Proof.
  intros [_ Hstop]. rewrite merge_test_middle_eq. unfold joins.
  destruct (py_index_nonneg doc (Aspect.stop a - 1)) as (t & Ht & _); [lia|].
  by rewrite Ht, (token_has_Ok _ _ _ _ Ht).
Qed.

Lemma merge_inside l :
  Forall (ends_inside doc) l -> merge doc l = Ok (merge_spec doc l).
Proof.
  apply (merge_outcome (@returns) doc (ends_inside doc)).
  intros. by apply merge_test_inside.
Qed.

(** The aspects that reach the disambiguator, whatever the document. *)
Lemma merged_reachable : Forall reachable (merge_spec doc (scan_ref doc)).
Proof.
  apply (Forall_impl (fun a => Aspect.doc a = doc /\ reachable a)); [|by intros a []].
  apply merge_spec_Forall.
  - intros a b (Ha & _ & Hs & _) (_ & _ & _ & He) _. rewrite Ha in Hs.
    unfold reachable, counted. cbn. repeat split; (done || lia).
  - eapply Forall_impl; [apply scan_jump_within; lia|]. by intros a [[] ?].
Qed.

(** The body of the loop over the documents, on every document. *)
Lemma extract_doc_exact_all :
  extract_doc doc = if raises doc then Raise IndexError else Ok (extract_fun doc).
Proof.
  unfold extract_doc, extract_fun, extract_ref. rewrite scan_exact.
  destruct (raises doc); [done|]. cbn [bind].
  rewrite merge_inside
    by (eapply Forall_impl; [apply scan_jump_within; lia|]; by intros ? []).
  cbn [bind]. pose proof merged_reachable as Hall.
  destruct (merge_spec doc (scan_ref doc)) as [|a merged]; [done|].
  rewrite py_len_cons. pose proof (py_len_nonneg merged).
  destruct (Z.eqb_spec (py_len merged + 1) 0); [lia|].
  pose proof (disambiguate_outcome (@returns) reachable doc expand_fuel
                (a :: merged) expand_fuel_enough Hall) as Hrun.
  unfold returns in Hrun. by rewrite Hrun.
Qed.

End StagesEverywhere.

Section Contract.
Context (doc : Doc).
Implicit Types (i k : Z) (docs : list Doc) (st : call_state).

Lemma visited_inside k i : i ∈ visited doc k -> 0 <= i <= k.
Proof.
  funelim (visited doc k); clear Heqcall; [by intros ?%elem_of_nil|..];
    assert (0 <= k) by (by apply Z.leb_le);
    (intros [->|Hi%H]%elem_of_cons; [lia|unfold jump in *; lia]).
Qed.

(** Inside the token contract no left edge dangles. *)
Lemma raises_wf : wf_doc doc -> raises doc = false.
Proof.
  intros Hwf. unfold raises. apply not_true_is_false.
  intros (i & Hi%list_elem_of_In%visited_inside & Hd)%existsb_exists.
  revert Hd. unfold dangling, token_has.
  destruct (py_index doc i) as [word| |] eqn:Hword; [|done..].
  destruct (wf_doc_index doc i word Hwf) as [_ Hedge]; [lia|done|].
  pose proof (py_len_nonneg doc).
  destruct (Z.ltb_spec (Token.left_edge word) (- py_len doc)); [lia|].
  by rewrite andb_false_r.
Qed.

End Contract.

(** The loop over the documents, on every batch: the first document
    that raises ends it. *)
Lemma batch_exact (docs : list Doc) (st : call_state) :
  for_each call_step docs st =
  if existsb raises docs then Raise IndexError else Ok (foldl step_fun st docs).
Proof.
  revert st. induction docs as [|doc docs IH]; intros st; [done|].
  cbn [for_each existsb foldl]. unfold call_step at 1.
  rewrite extract_doc_exact_all. destruct (raises doc); [done|].
  unfold step_fun at 2. destruct (extract_fun doc) as [l w]. cbn [bind orb].
  by rewrite IH.
Qed.

(** ** Theorems *)

(** C5. The body of the loop over the documents, on every document.  It
    raises [IndexError] exactly when the scan visits a noun whose left
    edge lies more than the length of the document before its start,
    where [doc[left_edge]] cannot be resolved; on every other document,
    inside the token contract or not, it returns what [extract_fun]
    computes.  No read of the merger or of the disambiguator leaves the
    document, and the fuel of the [while] loop does not run out. *)
Theorem extract_doc_everywhere (doc : Doc) :
  extract_doc doc =
  if raises doc then Raise IndexError else Ok (extract_fun doc).
Proof. apply extract_doc_exact_all. Qed.

(** "plot" with left edge [-2] raises; "plot good twist" with left edge
    [-1] for "twist" does not, and the scan visits "twist" alone; in
    "The acting and the plot were great" the scan skips the two
    articles. *)
Example raises_examples :
  raises dangling_doc = true /\
  raises wrapped_doc = false /\ visited wrapped_doc 2 = [2] /\
  visited acting_doc 6 = [6; 5; 4; 2; 1].
Proof. repeat split; by vm_compute. Qed.
