(* ===== verification/Aliasing.v ===== *)
(** * The list of pipes to disable as an object

    [Extractor.v] passes the list of pipes to disable by value.  In Python
    a list is an object: the default [[]] of [spacy_disable_pipes] is made
    once, when the [def] statement runs, and [self.disabled_pipes =
    spacy_disable_pipes] stores a reference, which [__call__] follows each
    time it runs.  This file models that with a heap of list objects that
    every operation takes and returns: the [def] statement allocates the
    default, the constructor binds its parameter to the default object or
    to the object passed and stores the reference without a copy, the
    call reads the heap.  The theorem runs the [def] statement and three
    constructions and shows that the instances share one list. *)

From stdpp Require Import prelude strings list_numbers gmap.
From S2P Require Import Prelude Spacy AspectSpan Disambiguator Extractor Pipeline.

(** ** Objects *)

(** The identity of a list object. *)
Record loc : Type := Loc { loc_car : positive }.

#[export] Instance loc_eq_decision : EqDecision loc.
Proof. solve_decision. Defined.

#[export] Instance loc_countable : Countable loc.
Proof. by apply (inj_countable' loc_car Loc); intros []. Defined.

#[export] Instance loc_infinite : Infinite loc :=
  inj_infinite Loc (fun l => Some (loc_car l)) (fun _ => eq_refl).

(** The list objects of the process, each with its items. *)
#[warnings="-notation-for-abbreviation"] Notation heap := (gmap loc (list string)).

(** The second argument at a call of the constructor: left out, or a list
    object. *)
Inductive pipes_arg : Type :=
| Omitted
| Passed (l : loc).

(** An [AspectExtractor] object: [self.disabled_pipes] is a reference. *)
Record instance : Type := mk_instance {
  self_nlp : TokenSource;
  self_disabled_pipes : loc;
}.

(** ** The code *)

(** A list display ([[]], [['tagger']]) evaluated: a new list object. *)
Definition new_list (items : list string) (h : heap) : loc * heap :=
  let l : loc := base.fresh (dom h) in (l, <[l := items]> h).

(** [def __init__(self, spacy_model, spacy_disable_pipes=[])]: running the
    [def] statement evaluates the default, once; the function keeps the
    object. *)
Definition def_init (h : heap) : loc * heap :=
  new_list [] h.

(** The object the parameter [spacy_disable_pipes] is bound to. *)
Definition bound (default : loc) (arg : pipes_arg) : loc :=
  match arg with
  | Omitted => default
  | Passed l => l
  end.

(** [AspectExtractor(spacy_model)] and [AspectExtractor(spacy_model,
    pipes)], for the function whose default is the object [default]: the
    instance, and the heap the constructor leaves.  Line 139 stores the
    object the parameter is bound to; no list is made. *)
Definition construct (default : loc) (spacy_model : model_arg)
    (arg : pipes_arg) (h : heap) : stateful (instance * heap) :=
  let! nlp := AspectExtractor.pipeline_of spacy_model in
  ret ({| self_nlp := nlp; self_disabled_pipes := bound default arg |}, h).

(** The extractor that an instance is while the heap is [h]. *)
Definition view (h : heap) (self : instance) : AspectExtractor.t :=
  {| AspectExtractor.nlp := self_nlp self;
     AspectExtractor.disabled_pipes := h !!! self_disabled_pipes self |}.

(** [self(texts)]: [self.disabled_pipes] is read when the call runs. *)
Definition call (h : heap) (self : instance) (texts : list string)
  : result (list Doc * list (list Aspect.t) * list warning) :=
  __call__ (view h self) texts.

(** ** What a client can do with a list *)

(** [pipes.append(name)] *)
Definition list_append (l : loc) (name : string) (h : heap) : heap :=
  alter (fun items => items ++ [name]) l h.

(** ** Worked example *)

(** A pipeline whose tagger knows the noun "plot". *)
Definition plot_source : TokenSource := tagger_source ["plot"].

(** The reduced texts of the aspects that a call returns, per text. *)
Definition aspect_texts
    (r : result (list Doc * list (list Aspect.t) * list warning))
  : result (list (list string)) :=
  let* out := r in Ok (map (map Aspect.text) out.1.2).

(** ** Lemmas *)

Section AliasingLemmas.
Implicit Types (h : heap) (self : instance) (arg : pipes_arg) (l default : loc).

(** A new list is a new object that holds the items; the objects there
    were keep theirs. *)
Lemma new_list_spec items h l h' :
  new_list items h = (l, h') ->
  (l ∉ dom h) /\ h' !!! l = items /\
  forall l', l' ∈ dom h -> h' !!! l' = h !!! l'.
Proof.
  intros [= <- <-]. split; [apply is_fresh|]. split.
  - by rewrite lookup_total_insert_eq.
  - intros l' Hl'. apply lookup_total_insert_ne. intros <-.
    by apply (is_fresh (dom h)).
Qed.

(** What the constructor returns: the reference it was given, in the heap
    it was given. *)
Lemma construct_Ok default spacy_model arg h env self h' env' :
  construct default spacy_model arg h env = (Ok (self, h'), env') ->
  self_disabled_pipes self = bound default arg /\ h' = h /\
  AspectExtractor.pipeline_of spacy_model env = (Ok (self_nlp self), env').
Proof.
  unfold construct, bind_st.
  destruct (AspectExtractor.pipeline_of spacy_model env) as [[nlp| |] env1];
    [|done..]. by intros [= <- <- <-].
Qed.

(** The constructor with references is the constructor with values, for
    the items the object holds when it runs. *)
Lemma construct_view default spacy_model arg h env :
  prod_map (fmap (fun out => view out.2 out.1)) id
    (construct default spacy_model arg h env) =
  AspectExtractor.__init__ spacy_model (h !!! bound default arg) env.
Proof.
  unfold construct, AspectExtractor.__init__, bind_st.
  by destruct (AspectExtractor.pipeline_of spacy_model env) as [[nlp| |] env'].
Qed.

(** What an instance passes to [nlp.pipe] is what its list holds. *)
Lemma call_items h self items texts :
  h !!! self_disabled_pipes self = items ->
  call h self texts = __call__ (AspectExtractor.mk (self_nlp self) items) texts.
Proof. by intros <-. Qed.

Lemma list_append_same h l items name :
  h !! l = Some items -> list_append l name h !!! l = items ++ [name].
Proof.
  intros Hl. unfold list_append.
  by rewrite lookup_total_alter_eq, Hl.
Qed.

Lemma list_append_other h l l' name :
  l' <> l -> list_append l name h !!! l' = h !!! l'.
Proof. intros Hne. by apply lookup_total_alter_ne. Qed.

(** The [def] statement leaves the default object empty. *)
Lemma def_init_lookup h default h' :
  def_init h = (default, h') -> h' !! default = Some [].
Proof. intros [= <- <-]. apply lookup_insert_eq. Qed.

End AliasingLemmas.

(** ** Theorems on the shared list *)

(** C32. One list for all.  The [def] statement runs once and makes the
    default list.  Three extractors are then constructed without the
    second argument, and between the second and the third a name is
    appended to the list of the first.  Before that a call of the second
    disables no pipe; after it a call of the second, which was made
    before, and a call of the third, which was made after, both pass the
    name to [nlp.pipe]: the instances hold one list object. *)
Theorem default_list_shared (h0 h1 h2 h3 h4 : heap) (default : loc)
    (m1 m2 m3 : model_arg) (env0 env1 env2 env3 : environment)
    (a b c : instance) (name : string) (texts : list string) :
  def_init h0 = (default, h1) ->
  construct default m1 Omitted h1 env0 = (Ok (a, h2), env1) ->
  construct default m2 Omitted h2 env1 = (Ok (b, h3), env2) ->
  construct default m3 Omitted
    (list_append (self_disabled_pipes a) name h3) env2 = (Ok (c, h4), env3) ->
  call h3 b texts = __call__ (AspectExtractor.mk (self_nlp b) []) texts /\
  call (list_append (self_disabled_pipes a) name h3) b texts =
    __call__ (AspectExtractor.mk (self_nlp b) [name]) texts /\
  call h4 c texts = __call__ (AspectExtractor.mk (self_nlp c) [name]) texts.
Proof.
  intros Hdef%def_init_lookup (Ha & -> & _)%construct_Ok
    (Hb & -> & _)%construct_Ok (Hc & -> & _)%construct_Ok.
  cbn in Ha, Hb, Hc. rewrite Ha.
  split; [|split]; apply call_items; rewrite ?Hb, ?Hc.
  - by apply lookup_total_correct.
  - by apply (list_append_same h1 default []).
  - by apply (list_append_same h1 default []).
Qed.

Lemma default_list_shared_witness :
  call (def_init ∅).2 (mk_instance plot_source (def_init ∅).1) ["the plot"] =
    __call__ (AspectExtractor.mk plot_source []) ["the plot"] /\
  call (list_append (def_init ∅).1 "tagger" (def_init ∅).2)
    (mk_instance plot_source (def_init ∅).1) ["the plot"] =
    __call__ (AspectExtractor.mk plot_source ["tagger"]) ["the plot"] /\
  call (list_append (def_init ∅).1 "tagger" (def_init ∅).2)
    (mk_instance blank_source (def_init ∅).1) ["the plot"] =
    __call__ (AspectExtractor.mk blank_source ["tagger"]) ["the plot"].
Proof.
  apply (default_list_shared ∅ (def_init ∅).2 (def_init ∅).2 (def_init ∅).2
           (list_append (def_init ∅).1 "tagger" (def_init ∅).2) (def_init ∅).1
           (ModelObject blank_source) (ModelObject plot_source)
           (ModelObject blank_source) sample_env sample_env sample_env sample_env
           (mk_instance blank_source (def_init ∅).1)
           (mk_instance plot_source (def_init ∅).1)
           (mk_instance blank_source (def_init ∅).1)); reflexivity.
Defined.

(** A list of its own is private: when an extractor is constructed with a
    list made for it, a name appended to the default list does not reach
    its calls. *)
Theorem passed_list_private (h0 h1 h2 h3 : heap) (default l : loc)
    (items : list string) (m : model_arg) (env0 env1 : environment)
    (b : instance) (name : string) (texts : list string) :
  def_init h0 = (default, h1) ->
  new_list items h1 = (l, h2) ->
  construct default m (Passed l) h2 env0 = (Ok (b, h3), env1) ->
  call (list_append default name h3) b texts =
    __call__ (AspectExtractor.mk (self_nlp b) items) texts.
Proof.
  intros Hdef%def_init_lookup (Hl & Hitems & _)%new_list_spec
    (Hb & -> & _)%construct_Ok. cbn in Hb.
  apply call_items. rewrite Hb, list_append_other; [done|].
  intros ->. by apply Hl, elem_of_dom.
Qed.

(** "the plot thickens", on a pipeline that tags "plot" as a noun.  An
    extractor made with the default finds the aspect "plot".  After
    "tagger" is appended to the list of another extractor made with the
    default, the same call of the first returns every token as an aspect:
    its tagger is disabled, every tag is empty, and the empty tag passes
    the test [pos_ in POS_WHITELIST]. *)
Example default_list_disables_tagger :
  exists a b,
    construct (def_init ∅).1 (ModelObject blank_source) Omitted (def_init ∅).2
      sample_env = (Ok (a, (def_init ∅).2), sample_env) /\
    construct (def_init ∅).1 (ModelObject plot_source) Omitted (def_init ∅).2
      sample_env = (Ok (b, (def_init ∅).2), sample_env) /\
    aspect_texts (call (def_init ∅).2 b ["the plot thickens"])
      = Ok [["plot"]] /\
    aspect_texts
      (call (list_append (self_disabled_pipes a) "tagger" (def_init ∅).2) b
         ["the plot thickens"])
      = Ok [["the"; "plot"; "thickens"]].
Proof.
  exists (mk_instance blank_source (def_init ∅).1),
         (mk_instance plot_source (def_init ∅).1).
  split; [reflexivity|]. split; [reflexivity|]. split; by vm_compute.
Qed.
